(* ===== verification/_CoqProject ===== *)
-Q . S2P
Prelude.v
Events.v
Json.v
BlockData.v
Chainstate.v
ChainTree.v
ChainQueries.v
ChainstateProofs.v
ChainCrash.v
ChainSanity.v
ChainstateProps.v
Database.v
BaseChain.v
BlockCache.v
MySql.v
TipUpdate.v
Sync.v
SyncProofs.v
SyncProps.v
SyncThread.v
TestChain.v
Notifier.v
Locks.v
Threads.v
RpcUtils.v
ZmqPub.v
ZmqProofs.v
ZmqProps.v
TestSubscriber.v
SubThread.v
Publisher.v
Pending.v
RunData.v
RunProofs.v
RunRequests.v
Controller.v
Main.v
ControllerProps.v
RpcProps.v
ControllerSample.v
Lifecycle.v
JsonRead.v
CoreChain.v
CoreProps.v
CoreMoves.v
EthUtils.v
EthPending.v
EthChain.v
EthProps.v
WebSocket.v
EthSample.v
EthPendingProps.v
Typed.v
EndToEnd.v
Listener.v
System.v
SystemSample.v
