(* ===== verification/Prelude.v ===== *)
(** * Xaya X: a verification library

    Xaya X connects a blockchain (Xaya Core, or an EVM chain) to game state processors.
    It follows the chain of blocks, remembers the tree of recent blocks, and publishes
    which blocks are attached and detached, and the pending moves, over ZMQ; an RPC
    server answers requests for past updates.  This library models the C++ sources under
    src/ as executable functions and proves what the parts promise to each other, and what
    the program as a whole promises to its users.

    ** The parts and how they interact

    A _connector_ ([CoreChain] or [EthChain]) implements the interface [BaseChain]; a
    [BlockCacheChain] may be put in front of it.  The _sync worker_ [Sync] asks the base
    chain for blocks and updates the database [Chainstate] until the two agree, and
    reports each update to the callback [TipUpdatedFrom] of the _controller_, which sends the
    notifications through [ZmqPub], lets the [PendingManager] send the pending moves that
    waited for the new tip, and prunes the database.  The connector calls back for new tips
    and pending moves.  The RPC methods of the controller read the settings, the
    chainstate and the base chain.

    ** Files

    Data and libraries:
    - Prelude.v: outcomes of operations, the state monad, integers, ordered maps.
    - Events.v: runs of a system of threads that is given by a step function.
    - Json.v, JsonRead.v: jsoncpp as parameter, with a concrete model for examples.
    - BlockData.v: src/src/blockdata.{hpp,cpp}, jsonutils.cpp, proto/blockdata.proto.
    - Database.v: src/src/database.cpp, private/database.hpp (SQLite statements).

    The chainstate, src/src/chainstate.cpp and private/chainstate.hpp:
    - Chainstate.v: the operations, on a map from hashes to rows.
    - ChainTree.v: the invariant [Inv] of the tree and what keeps it; ChainQueries.v: what
      the queries compute; ChainstateProofs.v: the operations; ChainCrash.v: updates that do
      not finish; ChainSanity.v: [SanityCheck]; ChainstateProps.v: the theorems and examples.

    Base chains:
    - BaseChain.v: src/src/basechain.{hpp,cpp}; the class [BaseChain] and the contracts
      [Connector] (an evolving chain) and [Serves] (a chain that stands still).
    - BlockCache.v: src/src/blockcache.{hpp,cpp}; MySql.v: src/src/cache/mysql.cpp.
    - CoreChain.v, with CoreProps.v and CoreMoves.v: src/xayacore/corechain.{hpp,cpp};
      Listener.v: its class [ZmqListener] as a system with threads.
    - EthUtils.v, EthPending.v, EthChain.v, WebSocket.v: src/eth/hexutils.cpp,
      pending.{hpp,cpp}, ethchain.{hpp,cpp}, websocket.{hpp,cpp}; with EthProps.v,
      EthPendingProps.v and EthSample.v.
    - Typed.v: the types of the data that the two connectors hand on.
    - TestChain.v, Notifier.v, TestSubscriber.v, SubThread.v: src/src/testutils.{hpp,cpp}, the
      base chain that the unit tests use with the thread that notifies of its tips, and the
      subscriber with its thread.

    The sync worker, src/src/sync.cpp and private/sync.hpp:
    - Sync.v: its steps; TipUpdate.v: the contract of [TipUpdatedFrom]; SyncProofs.v,
      SyncProps.v: convergence; SyncThread.v: the thread with its condition variable.

    Publishing and control:
    - ZmqPub.v, with ZmqProofs.v and ZmqProps.v: src/src/zmqpub.cpp, private/zmqpub.hpp;
      Publisher.v: the class through which the next ones use it, with its laws: on data
      of the right types the operations return or throw, and never abort.
    - Pending.v: src/src/pending.cpp, private/pending.hpp.
    - RunData.v, Controller.v: src/src/controller.{hpp,cpp}; RunProofs.v, RunRequests.v,
      ControllerProps.v, RpcProps.v, ControllerSample.v: theorems and examples; Lifecycle.v:
      [Run], [Stop] and the destructor of the controller as a system with threads.
    - EndToEnd.v: from the report of an update to the messages that a game receives.
    - RpcUtils.v: src/src/rpcutils.{hpp,cpp}, and the RPC clients of both connectors.
    - Main.v: src/xayacore/main.cpp, src/eth/main.cpp.

    Threads: Locks.v is a small language of programs with mutexes, Threads.v the
    program of all threads in it.

    System.v, SystemSample.v put the layers together: node, connector, cache with MySQL, sync
    worker and controller.

    ** How the sources are modelled

    An operation is a function [M S A] from the state of its object to an outcome and the
    state that it leaves; see [result] below.  Exceptions keep the state.  A failed [CHECK]
    is [Fatal]; what C++ leaves undefined is [Undefined].  A section under a mutex is one
    operation.  The names are those of the sources; methods of connectors have a prefix
    ([core_], [eth_], [cache_], [test_]).  Code outside of src/ is a parameter, as a class with
    its operations, and a second class with the documented behaviour that proofs rely
    on: [JsonCpp], [JsonReader], [JsonStream] (jsoncpp), [Protobuf], [UniValueLib],
    [Sqlite] (whose functions may return any code), [Mypp], [ZmqSocket], [UnorderedMap], [RpcLib], [EthUtils], [Encodings],
    [WsNet], [HttpClient]; the nodes of the blockchains are [CoreClient] and [EthClient], and
    the constants that the build generates [ContractConstants].  Each has a concrete
    instance, on which the examples evaluate.  [Universe] of ChainTree.v says that a block
    hash determines the parent and the height, as the hashes of blockchains do.

    Integers are [Z]; where the code can wrap around, [u64], [i64], [u32] and [i32] do, and
    [int_add] is a sum of type [int], which is [Undefined] where it overflows.  The
    conversions to and from the signed columns of SQLite are checked as in the code.

    Loops that are not structural have fuel, and [Diverge] when it runs out.  It is
    enough: [fork_loop] gets one more than there are rows, each round taking at least one;
    [run_loop] of the sync more than the distance to the tip (SyncProps.v), while
    [run_turns] counts the turns of its thread, of which some may end by an exception;
    [find_end] and [walk_back] more than the height of the tip (CoreProps.v);
    [try_again] at least one when the node does not change (EthProps.v);
    [headers_loop] and [watch_loop] one more than there are characters.

    ** What is proved

    - The chainstate: [SetTip] reorganises to the new tip and keeps the invariant; every state
      that is reached satisfies the invariant and passes [SanityCheck], which is sound;
      [GetForkBranch] is the walk along the parents; failed updates leave no trace.  From
      a stored branch whose fork point was pruned, [SetTip] leads to a table that
      [SanityCheck] rejects.
    - The handles of prepared statements own them uniquely, whatever codes SQLite returns.
    - The sync worker reaches the tip of a base chain that stands still, also on its thread
      with any interleaving of notifications; each notification describes the update; the
      thread can be stopped.
    - Notifications and replies to [game_sendupdates] lead a receiver from its block to the
      new tip; sequence numbers have no gaps; messages have just the data of the tracked
      games; pending moves are published as by a specification without queue; a
      subscriber gets what was published.
    - A cache, in memory or in MySQL, cannot be told from the base chain: it has the same
      tips and ranges, and evolves in the same way.  The ranges of blocks
      from the nodes are ones that a node had at a single moment; serialised blocks are
      read back.
    - Whatever the nodes answer, the data of the connectors has the types on which the
      publisher insists, so that publishing aborts for no block and no move of theirs.
    - Whole nodes with either connector converge within a bounded number of turns and stay in
      sync, although notifications of blocks and of pending moves, executions of statements
      and queries fail; this is for a node that stands still,
      statements that can be prepared, and a configured depth below 2^31 - 1, at which the
      callback's sum overflows.  A game that receives the messages of its topic
      follows the tip.  Threads deadlock only at shutdown, where they can; the
      listener of Xaya Core handles its messages in order and can be stopped; [Run] of
      the controller returns after [Stop], and its settings are fixed until then.
    - What the callers of RPC methods see of errors, and where the program aborts.

    ** Not modelled

    The HTTP server and the stubs that are generated for it, logging, the parsing of the
    command line (gflags), the opening and closing of connections and database files with
    their one-time setup (but for the publisher's socket, with which [Run] begins), the
    contents of SQL texts (their meaning is modelled), and the start and stop of the worker
    thread of the WebSocket connection; these call libraries and have no logic of their own.  The unit tests
    themselves, and the contracts and scripts in other languages, are not part of the
    library. *)

From Stdlib Require Export ZArith Lia Ascii String.
From stdpp Require Export base gmap strings list fin_maps sorting.

Global Open Scope Z_scope.

(** ** Outcomes

    Every operation of the program ends in one of these ways:
    - [Ok a]: it returns [a];
    - [Throw e]: it leaves by a C++ exception;
    - [Fatal]: a glog [CHECK] or [LOG (FATAL)] aborts the process;
    - [Undefined]: the code does something the C++ standard leaves undefined
      (such as [back ()] of an empty vector);
    - [Diverge]: the fuel of a loop ran out.  Theorems about the loops show
      that this value is not reached. *)

(** The exceptions that the program distinguishes in its [catch] clauses.  All
    of them derive from [std::exception]. *)
Inductive exn :=
  | StdException (msg : string)
  | JsonRpcException (code : Z) (msg : string)
  | MyppError (msg : string)
  | ZmqError.

Inductive result (A : Type) :=
  | Ok (a : A)
  | Throw (e : exn)
  | Fatal
  | Undefined
  | Diverge.
Arguments Ok {A} a.
Arguments Throw {A} e.
Arguments Fatal {A}.
Arguments Undefined {A}.
Arguments Diverge {A}.

(** An operation returns, or throws an exception. *)
Definition ends {A} (r : result A) : Prop :=
  match r with Ok _ | Throw _ => True | _ => False end.

Definition is_Ok {A} (r : result A) : bool :=
  match r with Ok _ => true | _ => false end.

(** Pure computations that may fail are in [result] itself, with stdpp's monad
    notation [x ← r; k]. *)
#[export] Instance result_ret : MRet result := @Ok.
#[export] Instance result_bind : MBind result := fun A B k r =>
  match r with
  | Ok a => k a
  | Throw e => Throw e
  | Fatal => Fatal
  | Undefined => Undefined
  | Diverge => Diverge
  end.

Definition rcheck (b : bool) : result unit := if b then Ok tt else Fatal.

(** ** The effect monad

    An operation on state [S] is a function from the state to an outcome and
    the state it leaves behind; the state survives an exception, as C++ object
    state does. *)
Definition M (S A : Type) : Type := S -> result A * S.

Declare Scope xaya_scope.
Delimit Scope xaya_scope with xaya.
Global Open Scope xaya_scope.

Section Monad.
Context {S : Type}.

Definition ret {A} (a : A) : M S A := fun s => (Ok a, s).

Definition bind {A B} (m : M S A) (k : A -> M S B) : M S B := fun s =>
  match m s with
  | (Ok a, s') => k a s'
  | (Throw e, s') => (Throw e, s')
  | (Fatal, s') => (Fatal, s')
  | (Undefined, s') => (Undefined, s')
  | (Diverge, s') => (Diverge, s')
  end.

Definition throw {A} (e : exn) : M S A := fun s => (Throw e, s).
Definition fatal {A} : M S A := fun s => (Fatal, s).
Definition undefined {A} : M S A := fun s => (Undefined, s).
Definition diverge {A} : M S A := fun s => (Diverge, s).

Definition lift {A} (r : result A) : M S A := fun s => (r, s).

(** [CHECK (b)] of glog. *)
Definition check (b : bool) : M S unit := if b then ret tt else fatal.

Definition get : M S S := fun s => (Ok s, s).
Definition gets {A} (f : S -> A) : M S A := fun s => (Ok (f s), s).
Definition put (s : S) : M S unit := fun _ => (Ok tt, s).
Definition modify (f : S -> S) : M S unit := fun s => (Ok tt, f s).

(** [try { m } catch (const std::exception& e) { h e }]. *)
Definition try_catch {A} (m : M S A) (h : exn -> M S A) : M S A := fun s =>
  match m s with
  | (Throw e, s') => h e s'
  | r => r
  end.

(** [catch (const jsonrpc::JsonRpcException& e)], which other exceptions pass. *)
Definition try_rpc {A} (m : M S A) (h : Z -> string -> M S A) : M S A := fun s =>
  match m s with
  | (Throw (JsonRpcException code msg), s') => h code msg s'
  | r => r
  end.
End Monad.

Notation "x <- m ;; k" := (bind m (fun x => k))
  (at level 100, m at next level, right associativity) : xaya_scope.
Notation "'let*' ' pat := m 'in' k" :=
  (bind m (fun x => match x with pat => k end))
  (at level 100, pat pattern, m at level 99, k at level 200,
   right associativity) : xaya_scope.
Notation "m ;; k" := (bind m (fun _ => k))
  (at level 100, right associativity) : xaya_scope.

(** Loops over containers, in the order of the container. *)
Fixpoint traverse {S A B} (f : A -> M S B) (l : list A) : M S (list B) :=
  match l with
  | [] => ret []
  | x :: l' => y <- f x;; ys <- traverse f l';; ret (y :: ys)
  end.

Fixpoint forM {S A} (l : list A) (f : A -> M S unit) : M S unit :=
  match l with
  | [] => ret tt
  | x :: l' => f x;; forM l' f
  end.

Fixpoint foldM {S A B} (f : B -> A -> M S B) (b : B) (l : list A) : M S B :=
  match l with
  | [] => ret b
  | x :: l' => b' <- f b x;; foldM f b' l'
  end.

(** Running an operation on a component of a larger state. *)
Definition zoom {S T A} (pr : S -> T) (up : T -> S -> S) (m : M T A) : M S A :=
  fun s => let '(r, t) := m (pr s) in (r, up t s).

(** ** Lemmas on the monad *)

Lemma bind_Ok {S A B} (m : M S A) (k : A -> M S B) s a s' :
  m s = (Ok a, s') -> bind m k s = k a s'.
Proof. intros H. unfold bind. by rewrite H. Qed.

Lemma bind_Ok_inv {S A B} (m : M S A) (k : A -> M S B) s b s'' :
  bind m k s = (Ok b, s'') ->
  exists a s', m s = (Ok a, s') /\ k a s' = (Ok b, s'').
Proof.
  unfold bind. destruct (m s) as [[] s'] eqn:E; intros H; try discriminate.
  eauto.
Qed.

(** Every way in which a sequence of two steps can end. *)
Lemma bind_inv {S A B} (m : M S A) (k : A -> M S B) s r s' : bind m k s = (r, s') ->
  (exists a s1, m s = (Ok a, s1) /\ k a s1 = (r, s')) \/
  (exists r0, m s = (r0, s') /\ is_Ok r0 = false /\ is_Ok r = false).
Proof.
  unfold bind. destruct (m s) as [[a|e| | |] s1]; intros H; simplify_eq; eauto 10.
Qed.

Lemma bind_assoc {S A B C} (m : M S A) (f : A -> M S B) (g : B -> M S C) s :
  bind (bind m f) g s = bind m (fun a => bind (f a) g) s.
Proof. unfold bind. by destruct (m s) as [[] ?]. Qed.

Lemma ret_bind {S A B} (a : A) (k : A -> M S B) s : bind (ret a) k s = k a s.
Proof. reflexivity. Qed.

Lemma gets_bind {S A B} (f : S -> A) (k : A -> M S B) s :
  bind (gets f) k s = k (f s) s.
Proof. reflexivity. Qed.

Lemma get_bind {S B} (k : S -> M S B) s : bind get k s = k s s.
Proof. reflexivity. Qed.

Lemma modify_bind {S B} (f : S -> S) (k : unit -> M S B) s :
  bind (modify f) k s = k tt (f s).
Proof. reflexivity. Qed.

Lemma lift_Ok_bind {S A B} (r : result A) (a : A) (k : A -> M S B) s :
  r = Ok a -> bind (lift r) k s = k a s.
Proof. by intros ->. Qed.

Lemma check_true {S B} (b : bool) (k : unit -> M S B) s :
  b = true -> bind (check b) k s = k tt s.
Proof. by intros ->. Qed.

Lemma check_inv {S} (b : bool) (s s' : S) r :
  check b s = (Ok r, s') -> b = true /\ s = s'.
Proof. destruct b; cbn; unfold ret, fatal; intros; by simplify_eq. Qed.

Lemma try_rpc_Ok_inv {S A} (m : M S A) h s a s' : try_rpc m h s = (Ok a, s') ->
  m s = (Ok a, s') \/
  exists code msg s1, m s = (Throw (JsonRpcException code msg), s1) /\ h code msg s1 = (Ok a, s').
Proof.
  unfold try_rpc. destruct (m s) as [[x|[]| | |] s1] eqn:E; intros H; simplify_eq; eauto 10.
Qed.

Lemma mapM_pure {S A B} (f : A -> M S B) (g : A -> B) (l : list A) s :
  (forall x, x ∈ l -> f x s = (Ok (g x), s)) -> traverse f l s = (Ok (map g l), s).
Proof.
  induction l as [|x l IH]; intros H; [done|]. cbn.
  erewrite bind_Ok by (apply H; set_solver).
  erewrite bind_Ok by (apply IH; set_solver). done.
Qed.

Lemma forM_pure {S A} (f : A -> M S unit) (l : list A) s :
  (forall x, x ∈ l -> f x s = (Ok tt, s)) -> forM l f s = (Ok tt, s).
Proof.
  induction l as [|x l IH]; intros H; [done|]. cbn.
  erewrite bind_Ok by (apply H; set_solver). apply IH; set_solver.
Qed.

Lemma result_mapM_Ok {A B} (f : A -> result B) (g : A -> B) (l : list A) :
  (forall x, x ∈ l -> f x = Ok (g x)) -> mapM f l = Ok (map g l).
Proof.
  induction l as [|x l IH]; intros H; [done|]. cbn.
  rewrite (H x) by set_solver. cbn. rewrite IH by set_solver. done.
Qed.

Lemma result_mapM_inv {A B} (f : A -> result B) l k :
  mapM f l = Ok k -> Forall2 (fun x y => f x = Ok y) l k.
Proof.
  revert k. induction l as [|x l IH]; intros k; cbn; [by intros [= <-]; constructor|].
  destruct (f x) as [y| | | |] eqn:E; try discriminate. cbn.
  destruct (mapM f l) as [k'| | | |]; try discriminate. intros [= <-]. constructor; auto.
Qed.

Lemma result_mapM_intro {A B} (f : A -> result B) l k :
  Forall2 (fun x y => f x = Ok y) l k -> mapM f l = Ok k.
Proof. induction 1 as [|x y l k E _ IH]; [done|]. cbn. rewrite E. cbn. by rewrite IH. Qed.

Lemma rbind_inv {A B} (r : result A) (k : A -> result B) b :
  (r ≫= k) = Ok b -> exists a, r = Ok a /\ k a = Ok b.
Proof. destruct r; intros H; try discriminate H. eauto. Qed.

Lemma rcheck_inv b u : rcheck b = Ok u -> b = true.
Proof. by destruct b. Qed.

(** Equal steps, equal programs. *)
Lemma bind_ext {S A D} (m m' : M S A) (k k' : A -> M S D) s :
  m s = m' s -> (forall a s', k a s' = k' a s') -> bind m k s = bind m' k' s.
Proof. intros H1 H2. unfold bind. rewrite H1. destruct (m' s) as [[] ?]; [apply H2|done..]. Qed.

Lemma forM_app {S A} (f : A -> M S unit) l1 l2 s :
  forM (l1 ++ l2) f s = (forM l1 f;; forM l2 f) s.
Proof.
  revert s. induction l1 as [|x l1 IH]; intros s; [done|]. cbn [app forM].
  rewrite bind_assoc. apply bind_ext; [done|]. intros _ s'. apply IH.
Qed.

Lemma forM_map {S A A'} (g : A -> A') (f : A' -> M S unit) l s :
  forM (map g l) f s = forM l (fun x => f (g x)) s.
Proof.
  revert s. induction l as [|x l IH]; intros s; [done|]. cbn [map forM].
  apply bind_ext; [done|]. intros _ s'. apply IH.
Qed.

#[global] Arguments bind : simpl never.
#[global] Arguments check : simpl never.
#[global] Arguments ret : simpl never.
#[global] Arguments get : simpl never.
#[global] Arguments gets : simpl never.
#[global] Arguments modify : simpl never.
#[global] Arguments lift : simpl never.

(** Running the pure steps at the head of a program. *)
Ltac run :=
  repeat first
    [ rewrite ret_bind | rewrite get_bind | rewrite gets_bind
    | rewrite modify_bind | rewrite bind_assoc | progress cbn beta iota ].

(** Inverting a successful run, step by step. *)
Ltac run_inv :=
  repeat match goal with
  | H : bind _ _ _ = (Ok _, _) |- _ =>
      apply bind_Ok_inv in H as (? & ? & ? & H)
  | H : check _ _ = (Ok _, _) |- _ => apply check_inv in H as [? ?]; subst
  | H : ret _ _ = (Ok _, _) |- _ => unfold ret in H; simplify_eq
  | H : gets _ _ = (Ok _, _) |- _ => unfold gets in H; simplify_eq
  | H : fatal _ = (Ok _, _) |- _ => discriminate H
  end.

(** ** Machine integers *)

Definition u32_modulus : Z := 2 ^ 32.
Definition u64_modulus : Z := 2 ^ 64.
Definition i64_max : Z := 2 ^ 63 - 1.
Definition i32_max : Z := 2 ^ 31 - 1.
Definition u32 (z : Z) : Z := z mod u32_modulus.
Definition u64 (z : Z) : Z := z mod u64_modulus.

(** Conversion to [int64_t], modular as on every supported compiler. *)
Definition i64 (z : Z) : Z :=
  let w := z mod u64_modulus in if w <=? i64_max then w else w - u64_modulus.

(** The sum of two [int] values: on overflow it is undefined. *)
Definition int_add {S} (a b : Z) : M S Z :=
  if (- i32_max - 1 <=? a + b) && (a + b <=? i32_max) then ret (a + b) else undefined.

Lemma int_add_ok {S} a b : 0 <= a + b <= i32_max -> int_add (S:=S) a b = ret (a + b).
Proof.
  intros H. unfold int_add. rewrite (proj2 (Z.leb_le _ _)) by (unfold i32_max; lia).
  by rewrite (proj2 (Z.leb_le _ _)) by lia.
Qed.

Lemma u64_small z : 0 <= z < u64_modulus -> u64 z = z.
Proof. apply Z.mod_small. Qed.

Lemma u32_small z : 0 <= z < u32_modulus -> u32 z = z.
Proof. apply Z.mod_small. Qed.

Lemma i64_small z : 0 <= z <= i64_max -> i64 z = z.
Proof.
  intros [H1 H2]. unfold i64. rewrite Z.mod_small.
  - by destruct (Z.leb_spec z i64_max); [|lia].
  - unfold i64_max, u64_modulus in *. lia.
Qed.

(** Above [2^63] the conversion gives negative numbers. *)
Lemma i64_large z : i64_max < z < u64_modulus -> i64 z = z - u64_modulus.
Proof.
  intros [H1 H2]. unfold i64. rewrite Z.mod_small.
  - destruct (Z.leb_spec z i64_max); lia.
  - unfold i64_max, u64_modulus in *. lia.
Qed.

(** ** Strings *)

(** [s.substr (n)] for [n <= s.size ()]. *)
Definition substr_from (n : nat) (s : string) : string :=
  String.substring n (String.length s - n) s.

(** ** Maps *)

(** The order of an [std::map] with strings as keys. *)
Definition key_le {A} (a b : string * A) : Prop := String.leb a.1 b.1 = true.

#[export] Instance key_le_dec {A} (a b : string * A) : Decision (key_le a b).
Proof. unfold key_le. apply _. Defined.

Definition ordered_iter {A} (m : gmap string A) : list (string * A) :=
  merge_sort key_le (map_to_list m).

Lemma ordered_iter_NoDup {A} (m : gmap string A) : NoDup (ordered_iter m).*1.
Proof. unfold ordered_iter. rewrite merge_sort_Permutation. apply NoDup_fst_map_to_list. Qed.

Lemma elem_of_ordered_iter {A} (m : gmap string A) k x : (k, x) ∈ ordered_iter m <-> m !! k = Some x.
Proof. unfold ordered_iter. by rewrite merge_sort_Permutation, elem_of_map_to_list. Qed.

(** ** Lists *)

Definition empty_b {A} (l : list A) : bool :=
  match l with [] => true | _ => false end.

Lemma elem_of_last {A} (l : list A) (x : A) : x ∈ l -> exists d, last l = Some d.
Proof.
  intros Hx. destruct (last l) as [d|] eqn:E; [by exists d|].
  apply last_None in E. subst. by apply not_elem_of_nil in Hx.
Qed.

Lemma filter_none {A} (P : A -> Prop) `{forall x, Decision (P x)} (l : list A) :
  (forall x, x ∈ l -> ~ P x) -> base.filter P l = [].
Proof.
  induction l as [|x l IH]; intros Hl; [done|]. rewrite filter_cons_False by (apply Hl; set_solver).
  apply IH. set_solver.
Qed.

(** Pending obligations on integer comparisons in the code's conditions. *)
Ltac zb :=
  repeat match goal with
  | H : (_ && _)%bool = true |- _ => apply andb_true_iff in H as [? ?]
  | H : (_ =? _) = true |- _ => apply Z.eqb_eq in H
  | H : (_ =? _) = false |- _ => apply Z.eqb_neq in H
  | H : (_ <=? _) = true |- _ => apply Z.leb_le in H
  | H : (_ <=? _) = false |- _ => apply Z.leb_gt in H
  | H : (_ <? _) = true |- _ => apply Z.ltb_lt in H
  | H : (_ <? _) = false |- _ => apply Z.ltb_ge in H
  end.
