(* ===== verification/Events.v ===== *)
(** * Interleavings of events

    The threads of the program are transition systems: a step function says whether an event
    can happen in a state, and what it does.  A list of events is an interleaving.  Here is
    what these systems share. *)

From S2P Require Import Prelude.

Section Events.
Context {E S : Type} (step : E -> S -> option S).

Fixpoint run_events (tr : list E) (s : S) : option S :=
  match tr with
  | [] => Some s
  | e :: tr' => s' ← step e s; run_events tr' s'
  end.

(** How many of the events are of a kind. *)
Definition count (f : E -> bool) (tr : list E) : nat := length (List.filter f tr).

Lemma run_events_app tr1 tr2 s :
  run_events (tr1 ++ tr2) s = s1 ← run_events tr1 s; run_events tr2 s1.
Proof.
  revert s. induction tr1 as [|e tr1 IH]; intros s; [done|]. cbn.
  destruct (step e s) as [s1|]; [apply IH|done].
Qed.

(** A run of which something has been observed. *)
Lemma run_events_cons {O} (f : S -> O) (e : E) tr s o : f <$> run_events (e :: tr) s = Some o ->
  exists s1 s2, step e s = Some s1 /\ run_events tr s1 = Some s2 /\ f s2 = o.
Proof.
  cbn [run_events]. destruct (step e s) as [s1|]; [|done]. cbn [mbind option_bind].
  intros (s2 & Hrun & ->)%fmap_Some. by exists s1, s2.
Qed.

(** An induction principle for what holds after every event. *)
Lemma run_events_inv (P : nat -> S -> Prop) (ok : E -> bool) (w : E -> bool) :
  (forall n s e s', P n s -> ok e = true -> step e s = Some s' ->
     P (n + (if w e then 1 else 0))%nat s') ->
  forall tr n s s', P n s -> forallb ok tr = true -> run_events tr s = Some s' ->
    P (n + count w tr)%nat s'.
Proof.
  intros Hstep tr. induction tr as [|e tr IH]; intros n s s' HP Hok Hrun.
  - injection Hrun as <-. unfold count. cbn. by rewrite Nat.add_0_r.
  - cbn in Hok, Hrun. apply andb_prop in Hok as [He Hok].
    destruct (step e s) as [s1|] eqn:Es; [|done].
    replace (n + count w (e :: tr))%nat with (n + (if w e then 1 else 0) + count w tr)%nat.
    + eapply IH; [by eapply Hstep|done|done].
    + unfold count. cbn. destruct (w e); cbn; lia.
Qed.

(** An invariant, without counting. *)
Lemma run_events_keeps (P : S -> Prop) (ok : E -> bool) :
  (forall s e s', P s -> ok e = true -> step e s = Some s' -> P s') ->
  forall tr s s', P s -> forallb ok tr = true -> run_events tr s = Some s' -> P s'.
Proof.
  intros Hstep tr s s' HP Hok Hrun.
  by apply (run_events_inv (fun _ => P) ok (fun _ => false)
    (fun _ x e x' => Hstep x e x') tr 0%nat s s').
Qed.

(** Events of a kind that use up a measure are as many as the measure allows. *)
Lemma run_events_measure (P : S -> Prop) (m : S -> nat) (ok : E -> bool) (w : E -> bool) :
  (forall s e s', P s -> ok e = true -> step e s = Some s' ->
     P s' /\ (m s' + (if w e then 1 else 0) <= m s)%nat) ->
  forall tr s s', P s -> forallb ok tr = true -> run_events tr s = Some s' ->
    P s' /\ (m s' + count w tr <= m s)%nat.
Proof.
  intros Hstep tr. induction tr as [|e tr IH]; intros s s' HP Hok Hrun.
  - injection Hrun as <-. split; [done|]. unfold count. cbn. lia.
  - cbn in Hok, Hrun. apply andb_prop in Hok as [He Hok].
    destruct (step e s) as [s1|] eqn:Es; [|done].
    destruct (Hstep s e s1 HP He Es) as [HP1 Hm1]. destruct (IH s1 s' HP1 Hok Hrun) as [HP' Hm'].
    split; [done|]. unfold count in *. cbn. destruct (w e); cbn in *; lia.
Qed.
End Events.
