(* ===== verification/Json.v ===== *)
(** * JSON values

    The program stores and forwards JSON through the jsoncpp library, which is
    not part of this repository.  This file states what the program relies on:
    the class [JsonCpp] has the operations that the code calls, [JsonCppLaws]
    the documented behaviour of them.  [Model] is a concrete implementation of
    the interface, which shows that the laws can hold and which the examples
    evaluate. *)

From S2P Require Import Prelude.
From stdpp Require Import countable.

(** The operations of [Json::Value] and of its reader and writer that the
    program uses.  Values are immutable here: an assignment [v[k] = x] yields
    the new value of [v].

    - [member v k] is [v[k]] on a constant object (null if [k] is absent);
    - [set_member v k x] is [v[k] = x];
    - [elements] lists an array in order, [members] an object in the order of
      iteration;
    - [writeString] is [Json::writeString] with the settings of [StoreJson];
    - [parseStored] and [parseMove] are [Json::parseFromStream] with the
      settings of [LoadJson] and of [ParseMoveJson]. *)
Class JsonCpp := {
  Value : Type;
  nullValue : Value;
  objectValue : Value;
  arrayValue : Value;
  of_string : string -> Value;
  of_int : Z -> Value;
  of_bool : bool -> Value;
  isNull : Value -> bool;
  isObject : Value -> bool;
  isArray : Value -> bool;
  isString : Value -> bool;
  isMember : Value -> string -> bool;
  member : Value -> string -> Value;
  set_member : Value -> string -> Value -> Value;
  append : Value -> Value -> Value;
  elements_of : Value -> list Value;
  members_of : Value -> list (string * Value);
  writeString : Value -> string;
  parseStored : string -> option Value;
  parseMove : string -> option Value
}.

(** Documented behaviour of the library. *)
Class JsonCppLaws (J : JsonCpp) := {
  isObject_objectValue : isObject objectValue = true;
  isNull_nullValue : isNull nullValue = true;
  isArray_arrayValue : isArray arrayValue = true;
  isObject_not_null : forall v, isObject v = true -> isNull v = false;
  elements_arrayValue : elements_of arrayValue = [];
  isMember_objectValue : forall k, isMember objectValue k = false;
  isObject_set_member : forall v k x,
    isObject v = true -> isObject (set_member v k x) = true;
  member_set_member_eq : forall v k x,
    isObject v = true -> member (set_member v k x) k = x;
  member_set_member_ne : forall v k k' x,
    isObject v = true -> k <> k' -> member (set_member v k x) k' = member v k';
  isMember_set_member : forall v k k' x,
    isObject v = true ->
    isMember (set_member v k x) k' = (bool_decide (k = k') || isMember v k')%bool;
  isArray_append : forall v x, isArray v = true -> isArray (append v x) = true;
  elements_append : forall v x,
    isArray v = true -> elements_of (append v x) = elements_of v ++ [x];
  members_NoDup : forall v, isObject v = true -> NoDup (members_of v).*1;
  members_lookup : forall v k x, isObject v = true ->
    (k, x) ∈ members_of v <-> isMember v k = true /\ member v k = x;
  parseStored_writeString : forall v, parseStored (writeString v) = Some v
}.

(** Reading members of an object that was put together. *)
Ltac json_object :=
  repeat apply isObject_set_member; first [assumption | apply isObject_objectValue].

Ltac json_member :=
  repeat first
    [ rewrite member_set_member_eq by json_object
    | rewrite member_set_member_ne by first [discriminate | json_object] ].

(** ** Byte strings for any countable type

    Used by the concrete instances of library parameters: a serialiser whose
    reader recovers every value written. *)
Module Bits.
Fixpoint write (p : positive) : string :=
  match p with
  | xH => EmptyString
  | xO p' => String "0"%char (write p')
  | xI p' => String "1"%char (write p')
  end.

Fixpoint read (s : string) : option positive :=
  match s with
  | EmptyString => Some xH
  | String c s' =>
      p ← read s';
      if Ascii.eqb c "0"%char then Some (xO p)
      else if Ascii.eqb c "1"%char then Some (xI p) else None
  end.

Lemma read_write p : read (write p) = Some p.
Proof. induction p as [p IH|p IH|]; cbn; rewrite ?IH; done. Qed.

Definition encode {A} `{Countable A} (a : A) : string :=
  write (countable.encode a).

Definition decode {A} `{Countable A} (s : string) : option A :=
  read s ≫= countable.decode.

Lemma decode_encode {A} `{Countable A} (a : A) : decode (encode a) = Some a.
Proof. unfold decode, encode. rewrite read_write. apply decode_encode. Qed.
End Bits.

(** ** A concrete JSON library *)
Module Model.
Inductive json :=
  | JNull
  | JBool (b : bool)
  | JInt (z : Z)
  | JStr (s : string)
  | JArr (l : list json)
  | JObj (m : list (string * json)).

(** Values as trees, for the serialiser. *)
Fixpoint to_tree (v : json) : gen_tree (bool + Z + string) :=
  match v with
  | JNull => GenNode 0 []
  | JBool b => GenLeaf (inl (inl b))
  | JInt z => GenLeaf (inl (inr z))
  | JStr s => GenLeaf (inr s)
  | JArr l => GenNode 1 (map to_tree l)
  | JObj m => GenNode 2 (map (fun '(k, x) => GenNode 3 [GenLeaf (inr k); to_tree x]) m)
  end.

Fixpoint of_tree (t : gen_tree (bool + Z + string)) : json :=
  match t with
  | GenLeaf (inl (inl b)) => JBool b
  | GenLeaf (inl (inr z)) => JInt z
  | GenLeaf (inr s) => JStr s
  | GenNode 0 _ => JNull
  | GenNode 1 l => JArr (map of_tree l)
  | GenNode _ l => JObj (map (fun t' =>
      match t' with
      | GenNode _ [GenLeaf (inr k); x] => (k, of_tree x)
      | _ => (EmptyString, JNull)
      end) l)
  end.

Lemma of_to_tree : forall v, of_tree (to_tree v) = v.
Proof.
  fix IH 1. intros [| b | z | s | l | m]; cbn; try reflexivity.
  - f_equal. induction l as [|x l IHl]; cbn; [done|]. by rewrite IH, IHl.
  - f_equal. induction m as [|[k x] m IHm]; cbn; [done|]. by rewrite IH, IHm.
Qed.

#[export] Instance json_eq_dec : EqDecision json.
Proof.
  intros x y. destruct (decide (to_tree x = to_tree y)) as [E|E].
  - left. by rewrite <- (of_to_tree x), <- (of_to_tree y), E.
  - right. intros ->. done.
Defined.

#[export] Instance json_countable : Countable json :=
  inj_countable' to_tree of_tree of_to_tree.

Fixpoint assoc (k : string) (m : list (string * json)) : option json :=
  match m with
  | [] => None
  | (k', x) :: m' => if decide (k = k') then Some x else assoc k m'
  end.

Fixpoint assoc_set (k : string) (x : json) (m : list (string * json)) :=
  match m with
  | [] => [(k, x)]
  | (k', x') :: m' =>
      if decide (k = k') then (k, x) :: m' else (k', x') :: assoc_set k x m'
  end.

(** Objects list their members without repeated keys. *)
Fixpoint dedup (seen : list string) (m : list (string * json)) :=
  match m with
  | [] => []
  | (k, x) :: m' =>
      if decide (k ∈ seen) then dedup seen m' else (k, x) :: dedup (k :: seen) m'
  end.

Lemma assoc_set_eq k x m : assoc k (assoc_set k x m) = Some x.
Proof.
  induction m as [|[k' x'] m IH]; cbn; [by rewrite decide_True|].
  destruct (decide (k = k')); cbn; [by rewrite decide_True|].
  by rewrite decide_False.
Qed.

Lemma assoc_set_ne k k' x m : k <> k' -> assoc k' (assoc_set k x m) = assoc k' m.
Proof.
  intros Hne. induction m as [|[k0 x0] m IH]; cbn; [by rewrite decide_False|].
  destruct (decide (k = k0)) as [->|]; cbn.
  - by rewrite !decide_False.
  - destruct (decide (k' = k0)); [done|]. apply IH.
Qed.

Lemma dedup_elem seen m k x :
  (k, x) ∈ dedup seen m <-> k ∉ seen /\ assoc k m = Some x.
Proof.
  revert seen. induction m as [|[k0 x0] m IH]; intros seen; cbn; [set_solver|].
  destruct (decide (k0 ∈ seen)).
  - rewrite IH. destruct (decide (k = k0)) as [->|]; [|done]. naive_solver.
  - rewrite elem_of_cons, IH. destruct (decide (k = k0)) as [->|].
    + split; [|naive_solver]. intros [?|[H _]]; [naive_solver|set_solver].
    + set_solver.
Qed.

Lemma dedup_NoDup seen m : NoDup (dedup seen m).*1.
Proof.
  revert seen. induction m as [|[k x] m IH]; intros seen; cbn; [constructor|].
  destruct (decide (k ∈ seen)); [apply IH|]. cbn. constructor; [|apply IH].
  intros ([k' y] & Heq & Hin)%list_elem_of_fmap. cbn in *. subst k'.
  apply dedup_elem in Hin as [Hin _]. set_solver.
Qed.

Definition json_members (v : json) : list (string * json) :=
  match v with JObj m => dedup [] m | _ => [] end.

Definition json_member (v : json) (k : string) : json :=
  match v with JObj m => default JNull (assoc k m) | _ => JNull end.

Definition json_isMember (v : json) (k : string) : bool :=
  match v with
  | JObj m => match assoc k m with Some _ => true | None => false end
  | _ => false
  end.

#[export] Instance model : JsonCpp := {|
  Value := json;
  nullValue := JNull;
  objectValue := JObj [];
  arrayValue := JArr [];
  of_string := JStr;
  of_int := JInt;
  of_bool := JBool;
  isNull v := match v with JNull => true | _ => false end;
  isObject v := match v with JObj _ => true | _ => false end;
  isArray v := match v with JArr _ => true | _ => false end;
  isString v := match v with JStr _ => true | _ => false end;
  isMember := json_isMember;
  member := json_member;
  set_member v k x :=
    match v with JObj m => JObj (assoc_set k x m) | _ => JObj [(k, x)] end;
  append v x := match v with JArr l => JArr (l ++ [x]) | _ => JArr [x] end;
  elements_of v := match v with JArr l => l | _ => [] end;
  members_of := json_members;
  writeString := Bits.encode;
  parseStored := Bits.decode;
  parseMove := Bits.decode
|}.

#[export] Instance model_laws : JsonCppLaws model.
Proof.
  split; try done.
  - by intros [].
  - by intros [].
  - intros [] ? ?; try done. intros _. cbn. by rewrite assoc_set_eq.
  - intros [] ? ? ?; try done. intros _ ?. cbn. by rewrite assoc_set_ne.
  - intros [] k k' x; try done. intros _. cbn.
    case_bool_decide as Hk; [subst; by rewrite assoc_set_eq|].
    by rewrite assoc_set_ne.
  - by intros [].
  - by intros [].
  - intros []; try done. intros _. apply dedup_NoDup.
  - intros [] k x; try done. intros _. cbn. rewrite dedup_elem.
    destruct (assoc k m); cbn; set_solver.
  - intros v. apply Bits.decode_encode.
Qed.
End Model.
