(* ===== verification/BlockData.v ===== *)
(** * Blocks and moves

    The structs [MoveData] and [BlockData] of src/blockdata.hpp, and their
    conversion to and from the protocol buffer messages of
    src/proto/blockdata.proto, by which blocks are stored in databases
    (src/blockdata.cpp, src/jsonutils.cpp).

    The code generated by protoc and the wire format are parameters: the class
    [Protobuf].  Clients of the conversion depend on the class [BlockCodec]. *)

From S2P Require Import Prelude Json.

Section Data.
Context {J : JsonCpp}.

(** A move (name update) in the blockchain. *)
Record MoveData := {
  mv_txid : string;
  mv_ns : string;
  mv_name : string;
  mv_mv : string;
  mv_burns : gmap string Value;
  mv_metadata : Value
}.

(** A block.  [blk_height] is a [uint64_t]. *)
Record BlockData := {
  blk_hash : string;
  blk_parent : string;
  blk_height : Z;
  blk_rngseed : string;
  blk_metadata : Value;
  blk_moves : list MoveData
}.

(** The types of JSON in a block: metadata is an object, or null when there is none.  The
    connectors make only such blocks, and the publisher aborts on others. *)
Definition metadata_ok (v : Value) : Prop := isNull v = true \/ isObject v = true.

Definition moves_ok (mvs : list MoveData) : Prop :=
  Forall (fun mv => metadata_ok (mv_metadata mv)) mvs.

Definition block_typed (blk : BlockData) : Prop :=
  metadata_ok (blk_metadata blk) /\ moves_ok (blk_moves blk).

(** ** Storing JSON (src/jsonutils.cpp) *)

Definition StoreJson (v : Value) : string := writeString v.

(** The [CHECK] fails on text that is not JSON. *)
Definition LoadJson (s : string) : result Value :=
  match parseStored s with Some v => Ok v | None => Fatal end.
End Data.

(** ** The protocol buffer messages (src/proto/blockdata.proto) *)

Record proto_Move := {
  pm_txid : string;
  pm_ns : string;
  pm_name : string;
  pm_mv : string;
  pm_burns : gmap string string;
  pm_metadata : string
}.

Record proto_Block := {
  pb_hash : string;
  pb_parent : string;
  pb_height : Z;
  pb_rngseed : string;
  pb_metadata : string;
  pb_moves : list proto_Move
}.

(** The generated code: the wire format, and the check of UTF-8 that proto3
    makes of every [string] field when it parses a message. *)
Class Protobuf := {
  SerializeToString : proto_Block -> string;
  ParseFromString : string -> option proto_Block;
  valid_utf8 : string -> bool
}.

Section ProtoValid.
Context {P : Protobuf}.

Definition proto_Move_valid (m : proto_Move) : Prop :=
  valid_utf8 (pm_txid m) = true /\ valid_utf8 (pm_ns m) = true /\
  valid_utf8 (pm_name m) = true /\ valid_utf8 (pm_mv m) = true /\
  valid_utf8 (pm_metadata m) = true /\
  map_Forall (fun k v => valid_utf8 k = true /\ valid_utf8 v = true) (pm_burns m).

Definition proto_Block_valid (b : proto_Block) : Prop :=
  valid_utf8 (pb_hash b) = true /\ valid_utf8 (pb_parent b) = true /\
  0 <= pb_height b < u64_modulus /\
  valid_utf8 (pb_rngseed b) = true /\ valid_utf8 (pb_metadata b) = true /\
  Forall proto_Move_valid (pb_moves b).
End ProtoValid.

Class ProtobufLaws (P : Protobuf) :=
  ParseFromString_SerializeToString : forall b,
    proto_Block_valid b -> ParseFromString (SerializeToString b) = Some b.

(** ** Serialise and Deserialise (src/blockdata.cpp) *)

Section Codec.
Context {J : JsonCpp} {P : Protobuf}.

Definition SerialiseMove (mv : MoveData) : result proto_Move :=
  let burns := StoreJson <$> mv_burns mv in
  _ ← rcheck (size burns =? size (mv_burns mv))%nat;
  Ok {| pm_txid := mv_txid mv;
        pm_ns := mv_ns mv;
        pm_name := mv_name mv;
        pm_mv := mv_mv mv;
        pm_burns := burns;
        pm_metadata := StoreJson (mv_metadata mv) |}.

Definition Serialise (b : BlockData) : result string :=
  moves ← mapM SerialiseMove (blk_moves b);
  Ok (SerializeToString
    {| pb_hash := blk_hash b;
       pb_parent := blk_parent b;
       pb_height := blk_height b;
       pb_rngseed := blk_rngseed b;
       pb_metadata := StoreJson (blk_metadata b);
       pb_moves := moves |}).

Definition LoadBurns (burns : gmap string string) : result (gmap string Value) :=
  l ← mapM (fun '(k, v) => x ← LoadJson v; Ok (k, x)) (map_to_list burns);
  Ok (list_to_map l).

Definition DeserialiseMove (m : proto_Move) : result MoveData :=
  burns ← LoadBurns (pm_burns m);
  _ ← rcheck (size burns =? size (pm_burns m))%nat;
  md ← LoadJson (pm_metadata m);
  Ok {| mv_txid := pm_txid m;
        mv_ns := pm_ns m;
        mv_name := pm_name m;
        mv_mv := pm_mv m;
        mv_burns := burns;
        mv_metadata := md |}.

Definition Deserialise (data : string) : result BlockData :=
  match ParseFromString data with
  | None => Fatal
  | Some blk =>
      md ← LoadJson (pb_metadata blk);
      moves ← mapM DeserialiseMove (pb_moves blk);
      Ok {| blk_hash := pb_hash blk;
            blk_parent := pb_parent blk;
            blk_height := pb_height blk;
            blk_rngseed := pb_rngseed blk;
            blk_metadata := md;
            blk_moves := moves |}
  end.

(** ** The round trip *)

Definition MoveData_valid (mv : MoveData) : Prop :=
  valid_utf8 (mv_txid mv) = true /\ valid_utf8 (mv_ns mv) = true /\
  valid_utf8 (mv_name mv) = true /\ valid_utf8 (mv_mv mv) = true /\
  valid_utf8 (writeString (mv_metadata mv)) = true /\
  map_Forall (fun k v =>
    valid_utf8 k = true /\ valid_utf8 (writeString v) = true) (mv_burns mv).

Definition BlockData_valid (b : BlockData) : Prop :=
  valid_utf8 (blk_hash b) = true /\ valid_utf8 (blk_parent b) = true /\
  0 <= blk_height b < u64_modulus /\
  valid_utf8 (blk_rngseed b) = true /\
  valid_utf8 (writeString (blk_metadata b)) = true /\
  Forall MoveData_valid (blk_moves b).
End Codec.

Section RoundTrip.
Context {J : JsonCpp} {JL : JsonCppLaws J} {P : Protobuf} {PL : ProtobufLaws P}.

Lemma LoadJson_StoreJson v : LoadJson (StoreJson v) = Ok v.
Proof. unfold LoadJson, StoreJson. by rewrite parseStored_writeString. Qed.

Lemma LoadBurns_StoreJson m : LoadBurns (StoreJson <$> m) = Ok m.
Proof.
  unfold LoadBurns.
  set (rd := fun v => default nullValue (parseStored v)).
  rewrite (result_mapM_Ok _ (prod_map id rd)).
  - cbn. f_equal. rewrite list_to_map_fmap, list_to_map_to_list.
    rewrite <- map_fmap_compose. apply map_eq. intros k. rewrite lookup_fmap.
    destruct (m !! k); cbn; [|done]. unfold rd, StoreJson.
    by rewrite parseStored_writeString.
  - intros [k v] Hin. apply elem_of_map_to_list in Hin.
    rewrite lookup_fmap in Hin. destruct (m !! k) eqn:E; cbn in Hin; simplify_eq.
    rewrite LoadJson_StoreJson. cbn. unfold rd, StoreJson.
    by rewrite parseStored_writeString.
Qed.

Lemma DeserialiseMove_SerialiseMove mv :
  exists m, SerialiseMove mv = Ok m /\ DeserialiseMove m = Ok mv.
Proof.
  unfold SerialiseMove. rewrite map_size_fmap, Nat.eqb_refl. cbn.
  eexists; split; [done|]. unfold DeserialiseMove; cbn.
  rewrite LoadBurns_StoreJson; cbn.
  rewrite map_size_fmap, Nat.eqb_refl; cbn.
  rewrite LoadJson_StoreJson; cbn. by destruct mv.
Qed.

Lemma SerialiseMove_valid mv m :
  MoveData_valid mv -> SerialiseMove mv = Ok m -> proto_Move_valid m.
Proof.
  unfold SerialiseMove. rewrite map_size_fmap, Nat.eqb_refl. cbn.
  intros (? & ? & ? & ? & ? & Hb) [= <-]. split_and!; try done.
  intros k v (x & <- & Hx)%lookup_fmap_Some. by apply Hb.
Qed.

Lemma SerialiseMoves l :
  Forall MoveData_valid l ->
  exists ms, mapM SerialiseMove l = Ok ms /\ mapM DeserialiseMove ms = Ok l /\
             Forall proto_Move_valid ms.
Proof.
  induction 1 as [|mv l Hv _ (ms & IH1 & IH2 & IH3)]; [by exists []|].
  destruct (DeserialiseMove_SerialiseMove mv) as (m & E1 & E2).
  exists (m :: ms). cbn. rewrite E1; cbn. rewrite IH1; cbn. rewrite E2; cbn.
  rewrite IH2; cbn. eauto using SerialiseMove_valid.
Qed.

Lemma Serialise_roundtrip_aux b :
  BlockData_valid b -> exists s, Serialise b = Ok s /\ Deserialise s = Ok b.
Proof.
  intros (? & ? & ? & ? & ? & Hm).
  destruct (SerialiseMoves _ Hm) as (ms & E1 & E2 & E3).
  unfold Serialise. rewrite E1; cbn. eexists; split; [done|].
  unfold Deserialise. rewrite ParseFromString_SerializeToString by done; cbn.
  rewrite LoadJson_StoreJson; cbn. rewrite E2; cbn. by destruct b.
Qed.
End RoundTrip.

(** ** The interface towards storage *)

(** What the databases need of the conversion: a way to write and read blocks,
    and the blocks [block_ok] for which it loses nothing. *)
Class BlockCodec {J : JsonCpp} := {
  block_write : BlockData -> result string;
  block_read : string -> result BlockData;
  block_ok : BlockData -> Prop
}.

Class BlockCodecLaws {J : JsonCpp} (C : BlockCodec) :=
  block_roundtrip : forall b, block_ok b ->
    exists s, block_write b = Ok s /\ block_read s = Ok b.

#[export] Instance proto_codec {J : JsonCpp} {P : Protobuf} : BlockCodec := {|
  block_write := Serialise;
  block_read := Deserialise;
  block_ok := BlockData_valid
|}.

#[export] Instance proto_codec_laws {J : JsonCpp} {JL : JsonCppLaws J}
  {P : Protobuf} {PL : ProtobufLaws P} : BlockCodecLaws proto_codec.
Proof. intros b. apply Serialise_roundtrip_aux. Qed.

(** ** A concrete wire format

    For the examples: messages as bit strings.  Every string counts as UTF-8. *)
Module BitsProto.
#[export] Instance move_eq_dec : EqDecision proto_Move.
Proof. solve_decision. Defined.

#[export] Program Instance move_countable : Countable proto_Move :=
  inj_countable'
    (fun m => (pm_txid m, pm_ns m, pm_name m, pm_mv m, pm_burns m, pm_metadata m))
    (fun '(a, b, c, d, e, f) => Build_proto_Move a b c d e f) _.
Next Obligation. by intros []. Qed.

#[export] Instance block_eq_dec : EqDecision proto_Block.
Proof. solve_decision. Defined.

#[export] Program Instance block_countable : Countable proto_Block :=
  inj_countable'
    (fun b => (pb_hash b, pb_parent b, pb_height b, pb_rngseed b,
               pb_metadata b, pb_moves b))
    (fun '(a, b, c, d, e, f) => Build_proto_Block a b c d e f) _.
Next Obligation. by intros []. Qed.

#[export] Instance bits_proto : Protobuf := {|
  SerializeToString := Bits.encode;
  ParseFromString := Bits.decode;
  valid_utf8 _ := true
|}.

#[export] Instance bits_proto_laws : ProtobufLaws bits_proto.
Proof. intros b _. apply Bits.decode_encode. Qed.
End BitsProto.

(** C25.  A block written by [Serialise] is read back by [Deserialise] unchanged:
    moves, burns and metadata included, for every block whose strings are UTF-8
    and whose height is a [uint64_t]. *)
Theorem Serialise_Deserialise {J : JsonCpp} {JL : JsonCppLaws J} {P : Protobuf}
    {PL : ProtobufLaws P} (b : BlockData) (Hv : BlockData_valid b) :
  (s ← Serialise b; Deserialise s) = Ok b.
Proof.
  destruct (Serialise_roundtrip_aux b Hv) as (s & E1 & E2). by rewrite E1.
Qed.

Module Sample.
Import Model BitsProto.

Definition move : MoveData := {|
  mv_txid := "tx 1"; mv_ns := "p"; mv_name := "domob"; mv_mv := "{}";
  mv_burns := {[ "smc" := JInt 5; "tn" := JNull ]};
  mv_metadata := JArr [JInt 1; JInt 2]
|}.

Definition block : BlockData := {|
  blk_hash := "block hash"; blk_parent := "parent hash"; blk_height := 42;
  blk_rngseed := "abcdef"; blk_metadata := JObj [("foo", JStr "bar")];
  blk_moves := [move]
|}.

Lemma Serialise_Deserialise_witness : (s ← Serialise block; Deserialise s) = Ok block.
Proof.
  apply Serialise_Deserialise. split_and!; try done.
  constructor; [|constructor]. split_and!; try done.
Defined.
End Sample.
