(* ===== verification/Chainstate.v ===== *)
(** * The chainstate database (src/chainstate.cpp)

    The tree of blocks known locally, in an SQLite table [blocks], with the
    main chain marked as branch zero.  The table is a finite map from the
    primary key [hash] to the other columns; the SQL statements of the source
    are the functions [select], [order_by] and the updates below, with the two
    constraints of the schema (PRIMARY KEY on the hash, UNIQUE on branch and
    height) checked on every write.  A failed write makes [Statement::Step]
    abort, which is [Fatal].

    Integers: heights and branches are [uint64_t] in the program and signed
    64-bit integers in the database; [bind_u64] and [get_u64] are the checked
    conversions of src/database.cpp. *)

From S2P Require Import Prelude Json BlockData.

(** A row of the table [blocks], without its primary key. *)
Record row := {
  row_parent : string;
  row_height : Z;
  row_branch : Z;
  row_data : string
}.

(** The database: the two tables, and the open savepoints, innermost first,
    each with the contents to which it rolls back. *)
Record Chainstate := {
  blocks : gmap string row;
  variables : gmap string string;
  savepoints : list (gmap string row * gmap string string)
}.

Definition set_blocks (m : gmap string row) (s : Chainstate) : Chainstate :=
  {| blocks := m; variables := variables s; savepoints := savepoints s |}.

Definition set_variables (v : gmap string string) (s : Chainstate) : Chainstate :=
  {| blocks := blocks s; variables := v; savepoints := savepoints s |}.

(** The schema is created on first use: both tables start out empty. *)
Definition SetupSchema : Chainstate :=
  {| blocks := ∅; variables := ∅; savepoints := [] |}.

(** ** SQL *)

(** SELECT ... WHERE, in no particular order. *)
Definition select (P : string -> row -> bool) (m : gmap string row)
  : list (string * row) :=
  base.filter (fun x => P x.1 x.2 = true) (map_to_list m).

Definition le_key (key : row -> Z) (a b : string * row) : Prop := key a.2 <= key b.2.
Definition ge_key (key : row -> Z) (a b : string * row) : Prop := key b.2 <= key a.2.

#[export] Instance le_key_dec key a b : Decision (le_key key a b).
Proof. unfold le_key. apply _. Defined.
#[export] Instance ge_key_dec key a b : Decision (ge_key key a b).
Proof. unfold ge_key. apply _. Defined.

Inductive sort_order := ASC | DESC.

(** ORDER BY. *)
Definition order_by (key : row -> Z) (o : sort_order) (l : list (string * row))
  : list (string * row) :=
  match o with
  | ASC => merge_sort (le_key key) l
  | DESC => merge_sort (ge_key key) l
  end.

#[global] Arguments order_by : simpl never.
#[global] Arguments select : simpl never.

(** UNIQUE (branch, height). *)
Definition unique_ok (m : gmap string row) : bool :=
  bool_decide (NoDup ((fun x : string * row => (row_branch x.2, row_height x.2))
                        <$> map_to_list m)).

(** The effect of a statement that writes the table [blocks]. *)
Definition write_blocks (m : gmap string row) : M Chainstate unit :=
  check (unique_ok m);; modify (set_blocks m).

(** UPDATE blocks SET branch = b WHERE P. *)
Definition update_branch (P : string -> row -> bool) (b : Z) (m : gmap string row)
  : gmap string row :=
  map_imap (fun h r => Some
    (if P h r
     then {| row_parent := row_parent r; row_height := row_height r;
             row_branch := b; row_data := row_data r |}
     else r)) m.

(** DELETE FROM blocks WHERE P. *)
Definition delete_where (P : string -> row -> bool) (m : gmap string row)
  : gmap string row :=
  base.filter (fun x : string * row => P x.1 x.2 = false) m.

(** [Statement::Bind<uint64_t>] and [Statement::Get<uint64_t>]. *)
Definition bind_u64 {S} (v : Z) : M S unit := check (v <=? i64_max).
Definition get_u64 {S} (v : Z) : M S Z := check (0 <=? v);; ret v.

#[global] Arguments bind_u64 : simpl never.
#[global] Arguments get_u64 : simpl never.

(** The pattern [if (!stmt.Step ()) ...; ...; CHECK (!stmt.Step ())]. *)
Definition step_one {S A} (l : list A) : M S (option A) :=
  match l with
  | [] => ret None
  | [x] => ret (Some x)
  | _ => fatal
  end.

(** ** Savepoints *)

Definition sql_savepoint : M Chainstate unit :=
  modify (fun s => {| blocks := blocks s; variables := variables s;
                      savepoints := (blocks s, variables s) :: savepoints s |}).

Definition sql_release : M Chainstate unit := fun s =>
  match savepoints s with
  | _ :: l => (Ok tt, {| blocks := blocks s; variables := variables s;
                         savepoints := l |})
  | [] => (Fatal, s)
  end.

Definition sql_rollback_to : M Chainstate unit := fun s =>
  match savepoints s with
  | (m, v) :: l => (Ok tt, {| blocks := m; variables := v;
                              savepoints := (m, v) :: l |})
  | [] => (Fatal, s)
  end.

(** The scope of an [UpdateBatch] whose last statement commits it.  Leaving the
    scope by an exception runs the destructor, which reverts; an abort of the
    process runs nothing. *)
Definition with_batch {A} (body : M Chainstate A) : M Chainstate A := fun s0 =>
  match sql_savepoint s0 with
  | (_, s) =>
      match body s with
      | (Ok a, s') => (sql_release;; ret a) s'
      | (Throw e, s') => (sql_rollback_to;; sql_release;; throw e) s'
      | r => r
      end
  end.

(** What is on disk when the process stops: without the open transaction. *)
Definition recover (s : Chainstate) : Chainstate :=
  match last (savepoints s) with
  | Some (m, v) => {| blocks := m; variables := v; savepoints := [] |}
  | None => s
  end.

(** ** Queries *)

Section Ops.
Context {J : JsonCpp} {C : BlockCodec}.

Definition on_branch (b : Z) (h : string) (r : row) : bool := row_branch r =? b.

Definition GetMainchainHeight (order : sort_order) : M Chainstate Z :=
  s <- get;;
  o <- step_one (take 1 (order_by row_height order (select (on_branch 0) (blocks s))));;
  match o with
  | None => ret (-1)
  | Some (_, r) => ret (row_height r)
  end.

Definition GetTipHeight : M Chainstate Z := GetMainchainHeight DESC.
Definition GetLowestUnprunedHeight : M Chainstate Z := GetMainchainHeight ASC.

(** [InsertBlock]: the primary key must be free. *)
Definition InsertBlock (blk : BlockData) (branch : Z) : M Chainstate unit :=
  bind_u64 (blk_height blk);;
  bind_u64 branch;;
  data <- lift (block_write blk);;
  s <- get;;
  check (bool_decide (blocks s !! blk_hash blk = None));;
  write_blocks (<[blk_hash blk := {| row_parent := blk_parent blk;
                                     row_height := blk_height blk;
                                     row_branch := branch;
                                     row_data := data |}]> (blocks s)).

Definition GetFreeBranchNumber : M Chainstate Z :=
  s <- get;;
  o <- step_one (take 1 (order_by row_branch DESC (select (fun _ _ => true) (blocks s))));;
  match o with
  | None => ret 1
  | Some (_, r) => b <- get_u64 (row_branch r);; ret (u64 (b + 1))
  end.

Definition row_for (hash : string) : M Chainstate (option row) :=
  s <- get;; ret (blocks s !! hash).

Definition GetHashForHeight (height : Z) : M Chainstate (option string) :=
  bind_u64 height;;
  s <- get;;
  o <- step_one (select (fun h r => (row_branch r =? 0) && (row_height r =? height))
                        (blocks s));;
  ret (fst <$> o).

Definition GetHeightForHash (hash : string) : M Chainstate (option Z) :=
  o <- row_for hash;;
  match o with
  | None => ret None
  | Some r => h <- get_u64 (row_height r);; ret (Some h)
  end.

(** Reading the block of a row, with the cross-checks against its columns. *)
Definition read_row (x : string * row) : M Chainstate BlockData :=
  blk <- lift (block_read (row_data x.2));;
  check (bool_decide (blk_hash blk = x.1));;
  check (bool_decide (blk_parent blk = row_parent x.2));;
  h <- get_u64 (row_height x.2);;
  check (blk_height blk =? h);;
  ret blk.

(** [GetForkBranch]: one iteration of the loop per branch.  The fuel bounds the
    number of branches passed. *)
Fixpoint fork_loop (fuel : nat) (curHash : string) (branch : list BlockData)
  : M Chainstate (bool * list BlockData) :=
  match fuel with
  | O => diverge
  | S fuel' =>
      o <- row_for curHash;;
      match o with
      | None => ret (negb (empty_b branch), branch)
      | Some r =>
          curBranch <- get_u64 (row_branch r);;
          curHeight <- get_u64 (row_height r);;
          if curBranch =? 0 then ret (true, branch) else
          s <- get;;
          blks <- traverse read_row (order_by row_height DESC
            (select (fun _ r' => (row_branch r' =? curBranch)
                                 && (row_height r' <=? curHeight)) (blocks s)));;
          let branch' := branch ++ blks in
          match last branch' with
          | None => undefined
          | Some b => fork_loop fuel' (blk_parent b) branch'
          end
      end
  end.

Definition GetForkBranch (hash : string) : M Chainstate (bool * list BlockData) :=
  s <- get;; fork_loop (S (size (blocks s))) hash [].

(** ** Updates *)

Definition UpdateBranch (P : string -> row -> bool) (b : Z) : M Chainstate unit :=
  s <- get;; write_blocks (update_branch P b (blocks s)).

Definition MarkAsTip (blk : BlockData) : M Chainstate unit :=
  o <- row_for (blk_hash blk);;
  match o with
  | None => fatal
  | Some r =>
      oldBranch <- get_u64 (row_branch r);;
      if oldBranch =? 0 then
        fresh <- GetFreeBranchNumber;;
        bind_u64 fresh;;
        bind_u64 (blk_height blk);;
        UpdateBranch (fun _ r' => (row_branch r' =? 0)
                                  && (blk_height blk <? row_height r')) fresh
      else
        let* '(ok, branch) := GetForkBranch (blk_hash blk) in
        check ok;;
        match last branch with
        | None => fatal
        | Some d =>
            fresh <- GetFreeBranchNumber;;
            bind_u64 fresh;;
            bind_u64 (blk_height d);;
            UpdateBranch (fun _ r' => (row_branch r' =? 0)
                                      && (blk_height d <=? row_height r')) fresh;;
            forM branch (fun b =>
              UpdateBranch (fun h _ => bool_decide (h = blk_hash b)) 0)
        end
  end.

Definition Prune (untilHeight : Z) : M Chainstate unit :=
  with_batch (
    bind_u64 untilHeight;;
    s <- get;;
    write_blocks (delete_where (fun _ r => (row_branch r =? 0)
                                           && (row_height r <=? untilHeight))
                               (blocks s))).

Definition SetChain (chain : string) : M Chainstate unit :=
  s <- get;;
  match variables s !! "chain"%string with
  | Some v => check (bool_decide (chain = v))
  | None => modify (set_variables (<["chain"%string := chain]> (variables s)))
  end.

(** [CHECK_LT (oldTip, tip.height)] compares as unsigned integers. *)
Definition ImportTip (tip : BlockData) : M Chainstate unit :=
  oldTip <- GetTipHeight;;
  (if oldTip =? -1 then ret tt else check (u64 oldTip <? blk_height tip));;
  with_batch (
    o <- GetHeightForHash (blk_hash tip);;
    match o with
    | Some _ => MarkAsTip tip
    | None => InsertBlock tip 0
    end;;
    if 0 <? blk_height tip then Prune (u64 (blk_height tip - 1)) else ret tt);;
  lowest <- GetLowestUnprunedHeight;;
  check (u64 lowest =? blk_height tip);;
  top <- GetTipHeight;;
  check (u64 top =? blk_height tip).

(** The result is [None] when the block cannot be attached, and otherwise the
    hash of the previous tip.  The out-parameter [oldTip] is set on some of the
    [None] paths too, but no caller reads it then. *)
Definition SetTip (blk : BlockData) : M Chainstate (option string) :=
  s <- get;;
  t <- step_one (take 1 (order_by row_height DESC (select (on_branch 0) (blocks s))));;
  match t with
  | None => ret None
  | Some (oldTip, _) =>
      o <- row_for (blk_hash blk);;
      match o with
      | Some r =>
          check (bool_decide (blk_parent blk = row_parent r));;
          h <- get_u64 (row_height r);;
          check (blk_height blk =? h);;
          with_batch (MarkAsTip blk);;
          ret (Some oldTip)
      | None =>
          p <- row_for (blk_parent blk);;
          match p with
          | None => ret None
          | Some pr =>
              ph <- get_u64 (row_height pr);;
              check (blk_height blk =? u64 (ph + 1));;
              with_batch (
                fresh <- GetFreeBranchNumber;;
                InsertBlock blk fresh;;
                MarkAsTip blk);;
              ret (Some oldTip)
          end
      end
  end.

(** ** SanityCheck *)

(** One step of the loop over the rows of a branch, from the top down.  The
    state is the height and the parent of the previous row. *)
Definition sanity_row (acc : Z * string) (x : string * row)
  : M Chainstate (Z * string) :=
  height <- get_u64 (row_height x.2);;
  blk <- lift (block_read (row_data x.2));;
  check (bool_decide (blk_hash blk = x.1));;
  check (bool_decide (blk_parent blk = row_parent x.2));;
  check (blk_height blk =? height);;
  (if acc.1 =? -1 then ret tt else
    check (height =? acc.1 - 1);;
    check (bool_decide (x.1 = acc.2)));;
  ret (height, row_parent x.2).

Definition sanity_branch (branch : Z) : M Chainstate unit :=
  s <- get;;
  let* '(lastHeight, expectedParent) :=
    foldM sanity_row (-1, EmptyString)
      (order_by row_height DESC (select (on_branch branch) (blocks s))) in
  o <- row_for expectedParent;;
  match o with
  | None =>
      lowest <- GetLowestUnprunedHeight;;
      check (lastHeight <=? lowest)
  | Some r =>
      b <- get_u64 (row_branch r);;
      check (negb (b =? branch));;
      check (row_height r =? lastHeight - 1)
  end.

(** The number of blocks is kept in an [unsigned]. *)
Definition SanityCheck : M Chainstate unit :=
  s <- get;;
  numBlocks <- get_u64 (Z.of_nat (size (blocks s)));;
  if u32 numBlocks =? 0 then ret tt else
  let branches := remove_dups ((fun x : string * row => row_branch x.2)
                                 <$> map_to_list (blocks s)) in
  forM branches (fun b =>
    branch <- get_u64 b;;
    if branch =? 0 then ret tt else sanity_branch branch);;
  check (bool_decide (0 ∈ branches)).

End Ops.
