(* ===== verification/ChainTree.v ===== *)
(** * The invariant of the chainstate table

    The declarative counterpart of [SanityCheck]: what the rows of the table
    [blocks] look like between operations, and that the changes of branch
    numbers, insertions and deletions which the operations make preserve it.

    Block hashes commit to the block header.  [Universe] names the parent and the
    height to which a hash commits; a block is [genuine] when it agrees with its
    own hash, and its data has the types that base chains promise. *)

From S2P Require Import Prelude Json BlockData Chainstate.

Class Universe := {
  par : string -> string;
  hgt : string -> Z
}.

Section Tree.
Context {J : JsonCpp} {C : BlockCodec} {U : Universe}.
Implicit Types (m : gmap string row) (h : string) (r : row).

Definition genuine (b : BlockData) : Prop :=
  (block_ok b /\ block_typed b) /\
  blk_parent b = par (blk_hash b) /\
  blk_height b = hgt (blk_hash b) /\
  hgt (blk_parent b) = blk_height b - 1 /\
  0 <= blk_height b <= i64_max.

(** A row stores a genuine block, on a non-negative branch. *)
Definition row_ok (h : string) (r : row) : Prop :=
  0 <= row_branch r /\
  exists b, block_read (row_data r) = Ok b /\ blk_hash b = h /\
    blk_parent b = row_parent r /\ blk_height b = row_height r /\ genuine b.

(** ** The invariant *)

(** No two blocks of a branch at one height. *)
Definition uniq (m : gmap string row) : Prop :=
  forall h1 h2 r1 r2, m !! h1 = Some r1 -> m !! h2 = Some r2 ->
    row_branch r1 = row_branch r2 -> row_height r1 = row_height r2 -> h1 = h2.

(** A branch has no gaps: below a block that is not the lowest of its branch
    comes its parent, on the same branch. *)
Definition contiguous (m : gmap string row) : Prop :=
  forall h h' r r', m !! h = Some r -> m !! h' = Some r' ->
    row_branch r = row_branch r' -> row_height r' < row_height r ->
    exists p, m !! row_parent r = Some p /\ row_branch p = row_branch r.

(** A block off the main chain whose parent is not stored sits at or below the
    lowest stored block of the main chain. *)
Definition anchored (m : gmap string row) : Prop :=
  forall h r, m !! h = Some r -> row_branch r <> 0 -> m !! row_parent r = None ->
    forall h0 r0, m !! h0 = Some r0 -> row_branch r0 = 0 ->
      row_height r <= row_height r0.

Record Inv (m : gmap string row) : Prop := {
  inv_rows : map_Forall row_ok m;
  inv_uniq : uniq m;
  inv_contiguous : contiguous m;
  inv_anchored : anchored m;
  inv_main : m <> ∅ -> exists h r, m !! h = Some r /\ row_branch r = 0
}.

(** The highest and the lowest stored block of the main chain. *)
Definition is_top (m : gmap string row) (h : string) (r : row) : Prop :=
  m !! h = Some r /\ row_branch r = 0 /\
  forall h' r', m !! h' = Some r' -> row_branch r' = 0 -> row_height r' <= row_height r.

Definition is_low (m : gmap string row) (h : string) (r : row) : Prop :=
  m !! h = Some r /\ row_branch r = 0 /\
  forall h' r', m !! h' = Some r' -> row_branch r' = 0 -> row_height r <= row_height r'.

Definition branches_below (m : gmap string row) (n : Z) : Prop :=
  map_Forall (fun _ r => row_branch r < n) m.

(** ** The branch of a block off the main chain

    [fork_path m h bs]: walking from [h] from parent to parent, [bs] are the
    blocks passed before the walk reaches the main chain or a block that is not
    stored. *)
Inductive fork_path (m : gmap string row) : string -> list BlockData -> Prop :=
  | fork_path_main h r :
      m !! h = Some r -> row_branch r = 0 -> fork_path m h []
  | fork_path_gone h :
      m !! h = None -> fork_path m h []
  | fork_path_step h r b bs :
      m !! h = Some r -> row_branch r <> 0 -> block_read (row_data r) = Ok b ->
      fork_path m (row_parent r) bs -> fork_path m h (b :: bs).

(** A reorganisation to the branch that ends in [d] stays within the stored
    blocks: the fork point is stored, or the branch goes down to the lowest
    height of the main chain. *)
Definition fork_retained (m : gmap string row) (d : BlockData) : Prop :=
  is_Some (m !! blk_parent d) \/
  exists h r, m !! h = Some r /\ row_branch r = 0 /\ row_height r = blk_height d.

(** ** Changes of branch numbers *)

Definition set_branch (b : Z) (r : row) : row :=
  {| row_parent := row_parent r; row_height := row_height r;
     row_branch := b; row_data := row_data r |}.

Definition retag (f : string -> row -> Z) (m : gmap string row) : gmap string row :=
  map_imap (fun h r => Some (set_branch (f h r) r)) m.

Lemma retag_lookup f m h : retag f m !! h = (fun r => set_branch (f h r) r) <$> m !! h.
Proof. unfold retag. rewrite map_lookup_imap. by destruct (m !! h). Qed.

Lemma retag_Some f m h r' :
  retag f m !! h = Some r' <->
  exists r, m !! h = Some r /\ r' = set_branch (f h r) r.
Proof. rewrite retag_lookup, fmap_Some. done. Qed.

Lemma retag_None f m h : retag f m !! h = None <-> m !! h = None.
Proof. rewrite retag_lookup, fmap_None. done. Qed.

Lemma retag_size f m : size (retag f m) = size m.
Proof.
  rewrite <- !(size_dom (D:=gset string)). f_equal. apply set_eq. intros h.
  rewrite !elem_of_dom, retag_lookup. apply fmap_is_Some.
Qed.

Lemma update_branch_retag P b m :
  update_branch P b m = retag (fun h r => if P h r then b else row_branch r) m.
Proof.
  apply map_eq. intros h. unfold update_branch. rewrite retag_lookup, map_lookup_imap.
  destruct (m !! h) as [r|]; cbn; [|done]. destruct (P h r); [done|]. by destruct r.
Qed.

Lemma retag_retag f g m :
  retag f (retag g m) = retag (fun h r => f h (set_branch (g h r) r)) m.
Proof.
  apply map_eq. intros h. rewrite !retag_lookup. by destruct (m !! h).
Qed.

Lemma retag_ext f g m :
  (forall h r, m !! h = Some r -> f h r = g h r) -> retag f m = retag g m.
Proof.
  intros H. apply map_eq. intros h. rewrite !retag_lookup.
  destruct (m !! h) eqn:E; cbn; [|done]. by rewrite (H _ _ E).
Qed.

Lemma retag_id m : retag (fun _ => row_branch) m = m.
Proof.
  apply map_eq. intros h. rewrite retag_lookup.
  destruct (m !! h) as [[]|] eqn:E; by rewrite ?E.
Qed.

(** ** Facts about rows *)

Lemma row_genuine m h r : Inv m -> m !! h = Some r ->
  row_parent r = par h /\ row_height r = hgt h /\
  hgt (row_parent r) = row_height r - 1 /\ 0 <= row_height r <= i64_max /\
  0 <= row_branch r.
Proof.
  intros HI Hr. destruct (inv_rows _ HI _ _ Hr) as (? & b & ? & ? & ? & ? & Hg).
  destruct Hg as (? & ? & ? & ? & ?). repeat split; congruence || lia.
Qed.

Lemma rows_parent m h r p pr : map_Forall row_ok m -> m !! h = Some r ->
  row_parent r = p -> m !! p = Some pr -> row_height pr = row_height r - 1.
Proof.
  intros Hok Hr <- Hp.
  destruct (Hok _ _ Hr) as (? & b & ? & ? & Hbp & ? & Hg).
  destruct (Hok _ _ Hp) as (? & b' & ? & ? & ? & ? & Hg').
  destruct Hg as (? & ? & ? & ? & ?). destruct Hg' as (? & ? & ? & ? & ?).
  rewrite Hbp in *. subst. congruence.
Qed.

Lemma parent_height m h r pr : Inv m -> m !! h = Some r ->
  m !! row_parent r = Some pr -> row_height pr = row_height r - 1.
Proof. intros HI Hr. eapply rows_parent; [apply HI|done|done]. Qed.

(** The parent of a block is the block below it on the same branch. *)
Lemma parent_is_below m h r h' r' : Inv m ->
  m !! h = Some r -> m !! h' = Some r' -> row_branch r = row_branch r' ->
  row_height r' = row_height r - 1 -> row_parent r = h'.
Proof.
  intros HI Hr Hr' Hb Hh.
  destruct (inv_contiguous _ HI h h' r r') as (p & Hp & Hpb); [done..|lia|].
  eapply (inv_uniq _ HI); [done..|congruence|].
  rewrite (parent_height _ _ _ _ HI Hr Hp). lia.
Qed.

Lemma row_ok_set_branch h r b : 0 <= b -> row_ok h r -> row_ok h (set_branch b r).
Proof. intros Hb (_ & Hr). split; done. Qed.

(** ** Fork paths *)

Lemma fork_path_elem m h bs b : map_Forall row_ok m -> fork_path m h bs -> b ∈ bs ->
  exists r, m !! blk_hash b = Some r /\ row_branch r <> 0 /\
    row_parent r = blk_parent b /\ row_height r = blk_height b /\ genuine b.
Proof.
  intros Hok. induction 1 as [| |h r b0 bs Hr Hb Hrd Hp IH]; [set_solver..|].
  intros [->|Hin]%elem_of_cons; [|by apply IH].
  destruct (Hok _ _ Hr) as (? & b' & E & <- & ? & ? & ?).
  rewrite Hrd in E. simplify_eq. eauto 10.
Qed.

(** Heights fall by one along a path. *)
Lemma fork_path_data m h bs b : map_Forall row_ok m -> fork_path m h bs -> b ∈ bs ->
  exists r, m !! blk_hash b = Some r /\ row_branch r <> 0 /\
    block_read (row_data r) = Ok b.
Proof.
  intros Hok. induction 1 as [| |h r b0 bs Hr Hb Hrd Hp IH]; [set_solver..|].
  intros [->|Hin]%elem_of_cons; [|by apply IH]. exists r.
  destruct (Hok _ _ Hr) as (? & b' & E & Hh & _). assert (b' = b0) as -> by congruence.
  by rewrite Hh.
Qed.

Lemma fork_path_heights m h bs b : map_Forall row_ok m -> fork_path m h bs ->
  b ∈ bs -> forall r, m !! h = Some r -> blk_height b <= row_height r.
Proof.
  intros Hok. induction 1 as [| |h r b0 bs Hr Hb Hrd Hp IH]; [set_solver..|].
  destruct (Hok _ _ Hr) as (_ & b' & E & Hbh & Hbp & Hbt & Hg).
  intros Hin r' Hr'. assert (r' = r) as -> by congruence.
  apply elem_of_cons in Hin as [->|Hin]; [rewrite Hrd in E; simplify_eq; lia|].
  destruct (m !! row_parent r) as [pr|] eqn:Epr.
  - specialize (IH Hin _ eq_refl). pose proof (rows_parent _ _ _ _ _ Hok Hr eq_refl Epr). lia.
  - inversion Hp; subst; [set_solver|set_solver|congruence].
Qed.

Lemma fork_path_head m h b bs : map_Forall row_ok m -> fork_path m h (b :: bs) ->
  blk_hash b = h /\ fork_path m (blk_parent b) bs.
Proof.
  intros Hok Hp. inversion Hp as [| |? r ? ? Hr Hb Hrd Hp']; subst.
  destruct (Hok _ _ Hr) as (_ & b' & E & Hbh & Hbp & Hbt & Hg).
  rewrite Hrd in E. simplify_eq. split; [done|]. congruence.
Qed.

(** Below the head of a path, the heights are smaller than its own. *)
Lemma fork_path_tail_below m h b bs b' : map_Forall row_ok m ->
  fork_path m h (b :: bs) -> b' ∈ bs -> blk_height b' < blk_height b.
Proof.
  intros Hok Hp Hin. inversion Hp as [| |? r ? ? Hr Hb Hrd Hp']; subst.
  destruct (Hok _ _ Hr) as (_ & b0 & E & Hbh & Hbp & Hbt & Hg).
  rewrite Hrd in E. simplify_eq.
  destruct (m !! row_parent r) as [pr|] eqn:Epr.
  - pose proof (fork_path_heights _ _ _ _ Hok Hp' Hin _ Epr).
    pose proof (rows_parent _ _ _ _ _ Hok Hr eq_refl Epr). lia.
  - inversion Hp'; subst; [set_solver|set_solver|congruence].
Qed.

Lemma fork_path_distinct m h bs b b' : map_Forall row_ok m -> fork_path m h bs ->
  b ∈ bs -> b' ∈ bs -> blk_height b = blk_height b' -> b = b'.
Proof.
  intros Hok Hp. revert h Hp. induction bs as [|b0 bs IH]; intros h Hp; [set_solver|].
  pose proof (fork_path_head _ _ _ _ Hok Hp) as [_ Hp'].
  intros [->|H1]%elem_of_cons [->|H2]%elem_of_cons Hh; [done|..].
  - pose proof (fork_path_tail_below _ _ _ _ _ Hok Hp H2). lia.
  - pose proof (fork_path_tail_below _ _ _ _ _ Hok Hp H1). lia.
  - by eapply IH.
Qed.

(** The path contains the parents of its blocks, as far as they are stored and
    off the main chain. *)
Lemma fork_path_closed m h bs b pr : map_Forall row_ok m -> fork_path m h bs ->
  b ∈ bs -> m !! blk_parent b = Some pr -> row_branch pr <> 0 ->
  exists b', b' ∈ bs /\ blk_hash b' = blk_parent b.
Proof.
  intros Hok Hp. revert h Hp. induction bs as [|b0 bs IH]; intros h Hp; [set_solver|].
  pose proof (fork_path_head _ _ _ _ Hok Hp) as [_ Hp'].
  intros [->|H1]%elem_of_cons Hpr Hb.
  - inversion Hp' as [| |? r b1 bs1 Hr Hbr Hrd Hp1 Eh Ebs]; simplify_eq.
    destruct (fork_path_head _ _ _ _ Hok Hp') as [<- _]. exists b1. set_solver.
  - destruct (IH _ Hp' H1 Hpr Hb) as (b' & ? & ?). exists b'. set_solver.
Qed.

(** A block of the path other than the last one has its parent on the path. *)
Lemma fork_path_parent m h bs b d : map_Forall row_ok m -> fork_path m h bs ->
  last bs = Some d -> b ∈ bs -> b = d \/ exists b', b' ∈ bs /\ blk_hash b' = blk_parent b.
Proof.
  intros Hok Hp. revert h Hp. induction bs as [|b0 bs IH]; intros h Hp; [set_solver|].
  pose proof (fork_path_head _ _ _ _ Hok Hp) as [_ Hp'].
  intros Hl [->|H1]%elem_of_cons.
  - destruct bs as [|b1 bs]; [left; cbn in Hl; congruence|right].
    destruct (fork_path_head _ _ _ _ Hok Hp') as [<- _]. exists b1. set_solver.
  - destruct bs as [|b1 bs]; [set_solver|].
    destruct (IH _ Hp' Hl H1) as [?|(b' & ? & ?)]; [by left|right]. exists b'. set_solver.
Qed.

(** The path ends at the main chain, or at a block that is not stored. *)
Lemma fork_path_end m h bs d : map_Forall row_ok m -> fork_path m h bs ->
  last bs = Some d -> forall pr, m !! blk_parent d = Some pr -> row_branch pr = 0.
Proof.
  intros Hok Hp. revert h Hp. induction bs as [|b0 bs IH]; intros h Hp; [done|].
  pose proof (fork_path_head _ _ _ _ Hok Hp) as [_ Hp'].
  destruct bs as [|b1 bs]; [|intros Hl; by apply (IH _ Hp')].
  intros [= <-] pr Hpr. inversion Hp'; simplify_eq. done.
Qed.

Lemma fork_path_last m h bs d b : map_Forall row_ok m -> fork_path m h bs ->
  last bs = Some d -> b ∈ bs -> blk_height d <= blk_height b.
Proof.
  intros Hok Hp. revert h Hp. induction bs as [|b0 bs IH]; intros h Hp; [set_solver|].
  pose proof (fork_path_head _ _ _ _ Hok Hp) as [_ Hp'].
  destruct bs as [|b1 bs]; [intros [= <-]; set_solver|].
  intros Hl [->|Hin]%elem_of_cons; [|by eapply IH].
  assert (Hb1 : b1 ∈ b1 :: bs) by set_solver.
  pose proof (fork_path_tail_below _ _ _ _ _ Hok Hp Hb1).
  assert (Hd : d ∈ b1 :: bs) by by apply last_Some_elem_of.
  pose proof (fork_path_tail_below _ _ _ _ _ Hok Hp Hd). lia.
Qed.

(** ** Deletions *)

Lemma delete_where_Some P m h r :
  delete_where P m !! h = Some r <-> m !! h = Some r /\ P h r = false.
Proof. apply map_lookup_filter_Some. Qed.

Lemma delete_where_None P m h :
  delete_where P m !! h = None <->
  m !! h = None \/ exists r, m !! h = Some r /\ P h r = true.
Proof.
  unfold delete_where. rewrite map_lookup_filter_None. split.
  - intros [?|H]; [by left|]. destruct (m !! h) as [r|] eqn:E; [right|by left].
    exists r. split; [done|]. specialize (H _ eq_refl). cbn in H.
    by destruct (P h r).
  - intros [?|(r & Hr & HP)]; [by left|right]. intros r' Hr'. cbn. congruence.
Qed.

Definition prune_pred (n : Z) (h : string) (r : row) : bool :=
  (row_branch r =? 0) && (row_height r <=? n).

Lemma prune_Some n m h r : delete_where (prune_pred n) m !! h = Some r <->
  m !! h = Some r /\ (row_branch r = 0 -> n < row_height r).
Proof.
  rewrite delete_where_Some. unfold prune_pred. split; intros [Hr HP]; (split; [done|]).
  - intros Hb. apply andb_false_iff in HP as [HP|HP]; zb; congruence || lia.
  - destruct (Z.eqb_spec (row_branch r) 0); cbn; [|done]. apply Z.leb_gt. auto.
Qed.

Lemma prune_None n m h : delete_where (prune_pred n) m !! h = None <->
  m !! h = None \/ exists r, m !! h = Some r /\ row_branch r = 0 /\ row_height r <= n.
Proof.
  rewrite delete_where_None. unfold prune_pred. split.
  - intros [?|(r & ? & ?)]; [by left|right]. zb. eauto.
  - intros [?|(r & ? & ? & ?)]; [by left|right]. exists r. split; [done|].
    apply andb_true_iff. split; [by apply Z.eqb_eq|by apply Z.leb_le].
Qed.

(** ** Reorganisations

    [reorg_tag bs dh fresh] is what [MarkAsTip] does to the branch numbers: the
    main chain from height [dh] on moves to the new branch [fresh], and the
    blocks [bs] move to the main chain. *)
Definition on_path (bs : list BlockData) (h : string) : Prop :=
  h ∈ blk_hash <$> bs.

Definition reorg_tag (bs : list BlockData) (dh fresh : Z) (h : string) (r : row) : Z :=
  if decide (h ∈ blk_hash <$> bs) then 0
  else if (row_branch r =? 0) && (dh <=? row_height r) then fresh
  else row_branch r.

Lemma reorg_tag_cases bs dh fresh h r :
  (on_path bs h /\ reorg_tag bs dh fresh h r = 0) \/
  (~ on_path bs h /\ row_branch r = 0 /\ dh <= row_height r /\
     reorg_tag bs dh fresh h r = fresh) \/
  (~ on_path bs h /\ (row_branch r = 0 -> row_height r < dh) /\
     reorg_tag bs dh fresh h r = row_branch r).
Proof.
  unfold reorg_tag, on_path. destruct (decide _); [by left|right].
  destruct (_ && _) eqn:E; zb; [by left|right].
  split_and!; [done| |done]. intros H0.
  apply andb_false_iff in E as [E|E]; zb; [congruence|lia].
Qed.

(** Where the old main chain is cut: at a stored block just below [dh], to which
    the path [bs] is attached; or at the lowest height of the main chain. *)
Definition cut_ok (m : gmap string row) (bs : list BlockData) (dh : Z) : Prop :=
  (exists hp rp, m !! hp = Some rp /\ row_branch rp = 0 /\ row_height rp = dh - 1 /\
     forall d, last bs = Some d -> blk_parent d = hp) \/
  (exists d h r, last bs = Some d /\ m !! blk_parent d = None /\
     m !! h = Some r /\ row_branch r = 0 /\ row_height r = dh).

Section Reorg.
Context (m : gmap string row) (HI : Inv m) (h0 : string) (bs : list BlockData)
  (dh fresh : Z) (Hpath : fork_path m h0 bs)
  (Hdh : forall d, last bs = Some d -> dh = blk_height d)
  (Hfresh : branches_below m fresh) (Hpos : 0 < fresh).

Let tag := reorg_tag bs dh fresh.

Lemma path_row h : on_path bs h ->
  exists b r, b ∈ bs /\ blk_hash b = h /\ m !! h = Some r /\ row_branch r <> 0 /\
    row_parent r = blk_parent b /\ row_height r = blk_height b /\ dh <= row_height r.
Proof.
  intros (b & -> & Hb)%list_elem_of_fmap.
  destruct (fork_path_elem _ _ _ _ (inv_rows _ HI) Hpath Hb) as (r & ? & ? & ? & ? & ?).
  exists b, r. split_and!; try done.
  destruct (elem_of_last _ _ Hb) as (d & El). rewrite (Hdh _ El).
  pose proof (fork_path_last _ _ _ _ _ (inv_rows _ HI) Hpath El Hb). lia.
Qed.

Lemma reorg_not_fresh h r : m !! h = Some r -> row_branch r <> fresh.
Proof. intros Hr. specialize (Hfresh _ _ Hr). cbn in *. lia. Qed.

Lemma reorg_rows : map_Forall row_ok (retag tag m).
Proof.
  intros h r' (r & Hr & ->)%retag_Some. apply row_ok_set_branch.
  - destruct (row_genuine _ _ _ HI Hr) as (_ & _ & _ & _ & ?).
    destruct (reorg_tag_cases bs dh fresh h r) as [[? E]|[(? & ? & ? & E)|(? & ? & E)]];
      unfold tag; rewrite E; lia.
  - by apply (inv_rows _ HI).
Qed.

(** The moves to the main chain happen one by one; after each of them the blocks
    [bs1] moved so far satisfy the constraint. *)
Lemma reorg_uniq bs1 : bs1 ⊆ bs -> uniq (retag (reorg_tag bs1 dh fresh) m).
Proof.
  intros Hsub.
  assert (Hp : forall h, on_path bs1 h -> exists b r, b ∈ bs /\ blk_hash b = h /\
    m !! h = Some r /\ row_branch r <> 0 /\ row_height r = blk_height b /\
    dh <= row_height r).
  { intros h (b & -> & Hb)%list_elem_of_fmap.
    destruct (path_row (blk_hash b)) as (b' & r & ? & ? & ? & ? & ? & ? & ?).
    { apply list_elem_of_fmap_2. set_solver. }
    exists b', r. done. }
  intros h1 h2 r1' r2' (r1 & H1 & ->)%retag_Some (r2 & H2 & ->)%retag_Some.
  cbn; intros Hb Hh.
  pose proof (reorg_not_fresh _ _ H1). pose proof (reorg_not_fresh _ _ H2).
  destruct (reorg_tag_cases bs1 dh fresh h1 r1) as [[P1 E1]|[(P1 & B1 & L1 & E1)|(P1 & L1 & E1)]];
  destruct (reorg_tag_cases bs1 dh fresh h2 r2) as [[P2 E2]|[(P2 & B2 & L2 & E2)|(P2 & L2 & E2)]];
    rewrite E1, E2 in Hb; try (by eapply (inv_uniq _ HI); eauto; congruence);
    try congruence.
  all: try lia.
  - destruct (Hp _ P1) as (b1 & ? & ? & <- & ? & ? & ? & ?).
    destruct (Hp _ P2) as (b2 & ? & ? & <- & ? & ? & ? & ?).
    simplify_eq. f_equal.
    eapply fork_path_distinct; [apply HI|exact Hpath|done..|congruence].
  - destruct (Hp _ P1) as (b1 & ? & ? & <- & ? & ? & ? & ?). simplify_eq.
    assert (row_height r2 < dh) by (apply L2; congruence). lia.
  - destruct (Hp _ P2) as (b2 & ? & ? & <- & ? & ? & ? & ?). simplify_eq.
    assert (row_height r1 < dh) by (apply L1; congruence). lia.
Qed.

(** Once a path enters a branch, it contains the rest of it. *)
Lemma path_branch_down h r h' r' (n : nat) : m !! h = Some r -> m !! h' = Some r' ->
  row_branch r = row_branch r' -> row_height r = row_height r' + Z.of_nat n ->
  on_path bs h -> on_path bs h'.
Proof.
  revert h r. induction n as [|n IH]; intros h r Hr Hr' Hb Hh Hp.
  - by rewrite <- (inv_uniq _ HI _ _ _ _ Hr Hr' Hb) by lia.
  - destruct (inv_contiguous _ HI h h' r r') as (p & Hpr & Hpb); [done..|lia|].
    pose proof (parent_height _ _ _ _ HI Hr Hpr).
    eapply (IH (row_parent r) p); [done|done|congruence|lia|].
    destruct (path_row _ Hp) as (b & r0 & Hin & <- & Hr0 & Hb0 & Hbp & _).
    assert (r0 = r) as -> by congruence.
    destruct (fork_path_closed _ _ _ b p (inv_rows _ HI) Hpath Hin) as (b' & ? & Hbb);
      [congruence|congruence|].
    rewrite Hbp, <- Hbb. by apply list_elem_of_fmap_2.
Qed.

Lemma path_not_main h r : on_path bs h -> m !! h = Some r -> row_branch r <> 0.
Proof. intros (b & r0 & ? & ? & ? & ? & _)%path_row ?. congruence. Qed.

Lemma tag_path h r : on_path bs h -> reorg_tag bs dh fresh h r = 0.
Proof. intros H. unfold reorg_tag. by rewrite decide_True. Qed.

Lemma tag_other h r : ~ on_path bs h -> row_branch r <> 0 ->
  reorg_tag bs dh fresh h r = row_branch r.
Proof.
  intros H Hb. unfold reorg_tag. rewrite decide_False by done.
  by destruct (Z.eqb_spec (row_branch r) 0).
Qed.

Lemma tag_main_low h r : m !! h = Some r -> row_branch r = 0 -> row_height r < dh ->
  reorg_tag bs dh fresh h r = 0.
Proof.
  intros Hr Hb Hh. destruct (reorg_tag_cases bs dh fresh h r) as
    [[? ->]|[(? & ? & ? & _)|(? & ? & ->)]]; lia || congruence.
Qed.

Lemma tag_main_high h r : m !! h = Some r -> row_branch r = 0 -> dh <= row_height r ->
  reorg_tag bs dh fresh h r = fresh.
Proof.
  intros Hr Hb Hh. destruct (reorg_tag_cases bs dh fresh h r) as
    [[Hp _]|[(? & ? & ? & ->)|(? & Hl & _)]]; [|done|specialize (Hl Hb); lia].
  by apply (path_not_main _ _ Hp) in Hr.
Qed.

(** Away from branch zero, branches stay free of gaps. *)
Lemma reorg_contiguous_off h h' r r' : m !! h = Some r -> m !! h' = Some r' ->
  reorg_tag bs dh fresh h r = reorg_tag bs dh fresh h' r' ->
  row_height r' < row_height r ->
  ~ on_path bs h ->
  exists p, m !! row_parent r = Some p /\
    reorg_tag bs dh fresh (row_parent r) p = reorg_tag bs dh fresh h r.
Proof.
  intros Hr Hr' Hb Hh Hoff.
  pose proof (reorg_not_fresh _ _ Hr). pose proof (reorg_not_fresh _ _ Hr').
  destruct (reorg_tag_cases bs dh fresh h r) as [[P1 E1]|[(P1 & B1 & L1 & E1)|(P1 & L1 & E1)]].
  - done.
  - rewrite E1 in Hb |- *.
    destruct (reorg_tag_cases bs dh fresh h' r') as [[P2 E2]|[(P2 & B2 & L2 & E2)|(P2 & L2 & E2)]];
      rewrite E2 in Hb; [lia| |congruence].
    destruct (inv_contiguous _ HI h h' r r') as (p & Hp & Hpb); [done..|congruence|lia|].
    exists p. split; [done|]. pose proof (parent_height _ _ _ _ HI Hr Hp).
    apply tag_main_high; [done|congruence|lia].
  - rewrite E1 in Hb |- *.
    destruct (reorg_tag_cases bs dh fresh h' r') as [[P2 E2]|[(P2 & B2 & L2 & E2)|(P2 & L2 & E2)]];
      rewrite E2 in Hb; [exfalso| congruence|].
    { destruct (path_row _ P2) as (? & ? & ? & ? & ? & ? & ? & ? & ?).
      simplify_eq. specialize (L1 Hb). lia. }
    destruct (inv_contiguous _ HI h h' r r') as (p & Hp & Hpb); [done..|].
    exists p. split; [done|]. pose proof (parent_height _ _ _ _ HI Hr Hp).
    destruct (decide (row_branch r = 0)) as [E|E].
    + rewrite E. apply tag_main_low; [done|congruence|]. specialize (L1 E). lia.
    + rewrite <- Hpb. apply tag_other; [|congruence]. intros Hpp. apply P2.
      apply (path_branch_down (row_parent r) p h' r'
               (Z.to_nat (row_height p - row_height r'))); [done|done|congruence|lia|done].
Qed.

(** Importing a stored block above everything on the main chain: it becomes the
    tip, and then everything else of branch zero goes. *)
Lemma Inv_import_stored tip rt n : m !! tip = Some rt -> on_path bs tip ->
  row_height rt = n ->
  (forall h, on_path bs h -> forall r, m !! h = Some r -> row_height r <= n) ->
  (forall h r, m !! h = Some r -> row_branch r = 0 -> row_height r < n) ->
  Inv (delete_where (prune_pred (n - 1)) (retag tag m)).
Proof.
  intros Htip Hpt Hnt Hpath_le Hmain_lt.
  assert (Hzero : forall h r, m !! h = Some r -> tag h r = 0 -> row_height r <= n).
  { intros h r Hr Ht. destruct (reorg_tag_cases bs dh fresh h r) as
      [[P _]|[(_ & _ & _ & E)|(P & L & E)]]; unfold tag in Ht; [by eapply Hpath_le|lia|].
    rewrite E in Ht. specialize (Hmain_lt _ _ Hr Ht). lia. }
  split.
  - intros h r [Hr _]%prune_Some. by apply reorg_rows.
  - intros h1 h2 r1 r2 [H1 _]%prune_Some [H2 _]%prune_Some. by apply (reorg_uniq bs).
  - intros h h' r1 r1' [(r & Hr & ->)%retag_Some K1]%prune_Some
      [(r' & Hr' & ->)%retag_Some K2]%prune_Some Hb Hh. cbn in *.
    destruct (decide (tag h r = 0)) as [E|E].
    { pose proof (Hzero _ _ Hr E). specialize (K2 ltac:(congruence)). lia. }
    destruct (reorg_contiguous_off h h' r r') as (p & Hp & Ep); [done..| |].
    { intros P. apply E. by apply tag_path. }
    exists (set_branch (tag (row_parent r) p) p). split; [|done].
    apply prune_Some. rewrite retag_lookup, Hp. cbn. split; [done|].
    unfold tag in *. congruence.
  - intros h r1 [(r & Hr & ->)%retag_Some _]%prune_Some Hb Hn h1 r2
      [(r0 & Hr0 & ->)%retag_Some K0]%prune_Some Hb0. cbn in *.
    enough (row_height r <= n) by (specialize (K0 Hb0); lia).
    apply prune_None in Hn as [Hn|(p & (p0 & Hp0 & ->)%retag_Some & Hpb & Hph)].
    + apply retag_None in Hn. destruct (decide (row_branch r = 0)) as [E|E].
      * specialize (Hmain_lt _ _ Hr E). lia.
      * destruct (inv_main _ HI) as (hm & rm & Hm & Hbm); [by intros Em; rewrite Em in Hr|].
        pose proof (inv_anchored _ HI _ _ Hr E Hn _ _ Hm Hbm).
        specialize (Hmain_lt _ _ Hm Hbm). lia.
    + cbn in *. pose proof (parent_height _ _ _ _ HI Hr Hp0). lia.
  - intros _. exists tip, (set_branch 0 rt). split; [|done]. apply prune_Some.
    rewrite retag_lookup, Htip. cbn. unfold tag. rewrite tag_path by done.
    split; [done|lia].
Qed.

Context (Hcut : cut_ok m bs dh).

(** The parent of a block on the path has branch zero afterwards, if anything of
    branch zero is below. *)
Lemma path_parent_tag h r h' r' : m !! h = Some r -> on_path bs h ->
  m !! h' = Some r' -> reorg_tag bs dh fresh h' r' = 0 -> row_height r' < row_height r ->
  exists p, m !! row_parent r = Some p /\ reorg_tag bs dh fresh (row_parent r) p = 0.
Proof.
  intros Hr Hp Hr' Ht Hh.
  destruct (path_row _ Hp) as (b & r0 & Hin & <- & Hr0 & Hb0 & Hbp & Hbh & Hd).
  assert (r0 = r) as -> by congruence.
  destruct (elem_of_last _ _ Hin) as (d & El).
  destruct (fork_path_parent _ _ _ _ _ (inv_rows _ HI) Hpath El Hin) as [->|(b' & Hin' & Hbb)].
  - assert (Hlow : row_height r' < dh) by (rewrite (Hdh _ El); lia).
    pose proof Hcut as [(hp & rp & Hrp & Hb & Hhp & Hd')|(d' & h1 & r1 & Hl & Hn & Hr1 & Hb1 & Hh1)].
    + rewrite Hbp, (Hd' _ El).
      exists rp. split; [done|]. apply tag_main_low; [done..|lia].
    + exfalso. assert (d' = d) as -> by congruence.
      assert (~ on_path bs h').
      { intros Hp'. destruct (path_row _ Hp') as (? & ? & ? & ? & ? & ? & ? & ? & ?).
        simplify_eq. lia. }
      destruct (decide (row_branch r' = 0)) as [E|E]; [|rewrite tag_other in Ht; congruence].
      rewrite <- Hbp in Hn.
      pose proof (inv_anchored _ HI _ _ Hr Hb0 Hn _ _ Hr' E). lia.
  - destruct (path_row (blk_hash b')) as (b2 & r2 & ? & ? & Hr2 & _).
    { by apply list_elem_of_fmap_2. }
    rewrite Hbp, <- Hbb. exists r2. split; [done|]. apply tag_path.
    by apply list_elem_of_fmap_2.
Qed.

Lemma reorg_contiguous : contiguous (retag tag m).
Proof.
  intros h h' r1 r1' (r & Hr & ->)%retag_Some (r' & Hr' & ->)%retag_Some.
  unfold tag; cbn; intros Hb Hh.
  enough (exists p, m !! row_parent r = Some p /\
            reorg_tag bs dh fresh (row_parent r) p = reorg_tag bs dh fresh h r)
    as (p & Hp & Ep).
  { exists (set_branch (tag (row_parent r) p) p).
    rewrite retag_lookup, Hp. by unfold tag. }
  destruct (decide (h ∈ blk_hash <$> bs)) as [P|P].
  - rewrite (tag_path _ r P) in Hb |- *. by eapply path_parent_tag.
  - by eapply reorg_contiguous_off.
Qed.

(** Everything of branch zero afterwards is at or above a height that bounds the
    unattached blocks. *)
Lemma reorg_anchored : anchored (retag tag m).
Proof.
  intros h r1 (r & Hr & ->)%retag_Some Hb Hn h1 r2 (r0 & Hr0 & ->)%retag_Some Hb0.
  unfold tag in *; cbn in *. apply retag_None in Hn.
  assert (Hlow : forall h' r', m !! h' = Some r' -> row_branch r' = 0 ->
            row_height r <= row_height r').
  { intros h' r' Hr' Hb'. destruct (decide (row_branch r = 0)) as [E|E].
    - destruct (Z.le_gt_cases (row_height r) (row_height r')); [done|].
      destruct (inv_contiguous _ HI h h' r r') as (p & Hp & _); [done..|congruence|lia|congruence].
    - by apply (inv_anchored _ HI _ _ Hr E Hn _ _ Hr'). }
  assert (Hdh' : row_height r <= dh).
  { pose proof Hcut as [(hp & rp & Hrp & Hbp & Hhp & _)|(d & h' & r' & _ & _ & Hr' & Hb' & <-)].
    - specialize (Hlow _ _ Hrp Hbp). lia.
    - by apply (Hlow h'). }
  destruct (reorg_tag_cases bs dh fresh h1 r0) as [[P2 E2]|[(P2 & B2 & L2 & E2)|(P2 & L2 & E2)]].
  - destruct (path_row _ P2) as (? & ? & ? & ? & ? & ? & ? & ? & ?). simplify_eq. lia.
  - lia.
  - apply (Hlow h1); congruence.
Qed.

Lemma Inv_reorg : Inv (retag tag m).
Proof.
  split; [apply reorg_rows|by apply reorg_uniq|apply reorg_contiguous|apply reorg_anchored|].
  intros _.
  pose proof Hcut as [(hp & rp & Hrp & Hbp & Hhp & _)|(d & h & r & Hl & _)].
  - exists hp, (set_branch (tag hp rp) rp). rewrite retag_lookup, Hrp. split; [done|].
    unfold tag. cbn. apply tag_main_low; [done..|lia].
  - assert (Hp : on_path bs (blk_hash d)).
    { apply list_elem_of_fmap_2. by apply last_Some_elem_of. }
    destruct (path_row _ Hp) as (b & r' & _ & _ & Hr' & _).
    exists (blk_hash d), (set_branch (tag (blk_hash d) r') r').
    rewrite retag_lookup, Hr'. split; [done|]. unfold tag. cbn. by apply tag_path.
Qed.
End Reorg.

(** ** Insertions and deletions *)

(** A new block on a branch of its own, attached to a stored block. *)
Lemma Inv_insert m h r : Inv m -> m !! h = None -> row_ok h r ->
  branches_below m (row_branch r) -> 0 < row_branch r -> is_Some (m !! row_parent r) ->
  Inv (<[h := r]> m).
Proof.
  intros HI Hn Hok Hbb Hpos [pr Hpr].
  assert (Hold : forall h' r', m !! h' = Some r' -> row_branch r' <> row_branch r)
    by (intros h' r' Hr'; specialize (Hbb _ _ Hr'); cbn in *; lia).
  split.
  - apply map_Forall_insert_2; [done|apply HI].
  - intros h1 h2 r1 r2 [[<- <-]|[? H1]]%lookup_insert_Some
      [[<- <-]|[? H2]]%lookup_insert_Some Hb Hh; [done|..].
    + exfalso. by eapply Hold.
    + exfalso. by eapply Hold.
    + by eapply (inv_uniq _ HI).
  - intros h1 h2 r1 r2 [[<- <-]|[? H1]]%lookup_insert_Some
      [[<- <-]|[? H2]]%lookup_insert_Some Hb Hh; [lia|..].
    + exfalso. by eapply Hold.
    + exfalso. by eapply Hold.
    + destruct (inv_contiguous _ HI _ _ _ _ H1 H2 Hb Hh) as (p & Hp & Hpb).
      exists p. split; [|done]. rewrite lookup_insert_ne; [done|]. by intros ?; congruence.
  - intros h1 r1 [[<- <-]|[? H1]]%lookup_insert_Some Hb Hp h2 r2
      [[<- <-]|[? H2]]%lookup_insert_Some Hb2.
    + done.
    + apply lookup_insert_None in Hp as [Hp _]. congruence.
    + lia.
    + apply lookup_insert_None in Hp as [Hp _]. by eapply (inv_anchored _ HI).
  - intros _. destruct (inv_main _ HI) as (h1 & r1 & H1 & Hb1); [by intros ->|].
    exists h1, r1. rewrite lookup_insert_ne; [done|]. by intros ?; congruence.
Qed.

(** Pruning below the tip. *)
Lemma Inv_prune m n h0 r0 : Inv m -> m !! h0 = Some r0 -> row_branch r0 = 0 ->
  n < row_height r0 -> Inv (delete_where (prune_pred n) m).
Proof.
  intros HI H0 Hb0 Hn0. split.
  - intros h r [Hr _]%prune_Some. by apply (inv_rows _ HI).
  - intros h1 h2 r1 r2 [H1 _]%prune_Some [H2 _]%prune_Some. by apply (inv_uniq _ HI).
  - intros h1 h2 r1 r2 [H1 K1]%prune_Some [H2 K2]%prune_Some Hb Hh.
    destruct (inv_contiguous _ HI _ _ _ _ H1 H2 Hb Hh) as (p & Hp & Hpb).
    exists p. split; [|done]. apply prune_Some. split; [done|]. intros Hb1.
    pose proof (parent_height _ _ _ _ HI H1 Hp).
    assert (n < row_height r2) by (apply K2; congruence). lia.
  - intros h1 r1 [H1 _]%prune_Some Hb1 Hp h2 r2 [H2 K2]%prune_Some Hb2.
    apply prune_None in Hp as [Hp|(p & Hp & _ & Hpn)].
    + by eapply (inv_anchored _ HI).
    + pose proof (parent_height _ _ _ _ HI H1 Hp). specialize (K2 Hb2). lia.
  - intros _. exists h0, r0. split; [|done]. by apply prune_Some.
Qed.

(** Importing a block above everything on the main chain: the rest of the main
    chain goes. *)
Lemma Inv_import m tip r : Inv m -> m !! tip = None -> row_ok tip r ->
  row_branch r = 0 ->
  (forall h' r', m !! h' = Some r' -> row_branch r' = 0 -> row_height r' < row_height r) ->
  Inv (delete_where (prune_pred (row_height r - 1)) (<[tip := r]> m)).
Proof.
  intros HI Hn Hok Hb Hall.
  assert (Hin : forall h x, delete_where (prune_pred (row_height r - 1)) (<[tip := r]> m)
            !! h = Some x -> (h = tip /\ x = r) \/
            (h <> tip /\ m !! h = Some x /\ row_branch x <> 0)).
  { intros h x [[[<- <-]|[? Hx]]%lookup_insert_Some Hp]%prune_Some; [by left|right].
    split_and!; [done..|]. intros Hbx. specialize (Hall _ _ Hx Hbx).
    specialize (Hp Hbx). lia. }
  assert (Htip : delete_where (prune_pred (row_height r - 1)) (<[tip := r]> m)
            !! tip = Some r).
  { apply prune_Some. rewrite lookup_insert_eq. split; [done|lia]. }
  split.
  - intros h x [[-> ->]|(? & Hx & ?)]%Hin; [done|]. by apply (inv_rows _ HI).
  - intros h1 h2 r1 r2 [[-> ->]|(? & H1 & ?)]%Hin [[-> ->]|(? & H2 & ?)]%Hin; [done| | |].
    + congruence.
    + congruence.
    + by apply (inv_uniq _ HI).
  - intros h1 h2 r1 r2 [[-> ->]|(? & H1 & ?)]%Hin [[-> ->]|(? & H2 & ?)]%Hin Hbb Hh;
      [lia|congruence|congruence|].
    destruct (inv_contiguous _ HI _ _ _ _ H1 H2 Hbb Hh) as (p & Hp & Hpb).
    exists p. split; [|done]. apply prune_Some. rewrite lookup_insert_ne by congruence.
    split; [done|]. congruence.
  - intros h1 r1 [[-> ->]|(? & H1 & Hb1)]%Hin Hnb Hp h2 r2 H2 Hb2; [done|].
    apply Hin in H2 as [[-> ->]|(? & ? & ?)]; [|done].
    destruct (decide (m = ∅)) as [->|Hne]; [by rewrite lookup_empty in H1|].
    destruct (inv_main _ HI Hne) as (hm & rm & Hm & Hbm).
    pose proof (Hall _ _ Hm Hbm) as Hlt.
    apply prune_None in Hp as [Hp|(p & Hp & Hpb & Hph)].
    + apply lookup_insert_None in Hp as [Hp _].
      pose proof (inv_anchored _ HI _ _ H1 Hnb Hp _ _ Hm Hbm). lia.
    + apply lookup_insert_Some in Hp as [[? ->]|[? Hp]]; [lia|].
      pose proof (parent_height _ _ _ _ HI H1 Hp). specialize (Hall _ _ Hp Hpb). lia.
  - intros _. by exists tip, r.
Qed.

Lemma Inv_empty : Inv ∅.
Proof.
  by split.
Qed.
End Tree.
