(* ===== verification/ChainQueries.v ===== *)
(** * What the SQL statements of the chainstate compute

    Each query of [Chainstate] in terms of the rows of the table, for a table
    that satisfies the invariant: the result is determined, no [CHECK] fails and
    the state is unchanged. *)

From S2P Require Import Prelude Json BlockData Chainstate ChainTree.

(** ** Selection and order *)

Lemma elem_of_select P (m : gmap string row) h r :
  (h, r) ∈ select P m <-> m !! h = Some r /\ P h r = true.
Proof. unfold select. rewrite list_elem_of_filter, elem_of_map_to_list. cbn. tauto. Qed.

Lemma NoDup_select P (m : gmap string row) : NoDup (select P m).
Proof. apply NoDup_filter, NoDup_map_to_list. Qed.

Definition key_rel (key : row -> Z) (o : sort_order) : relation (string * row) :=
  match o with ASC => le_key key | DESC => ge_key key end.

#[export] Instance key_rel_trans key o : Transitive (key_rel key o).
Proof. destruct o; intros x y z; cbn; unfold le_key, ge_key; lia. Qed.

Lemma order_by_perm key o l : order_by key o l ≡ₚ l.
Proof. destruct o; apply merge_sort_Permutation. Qed.

Lemma order_by_sorted key o l : StronglySorted (key_rel key o) (order_by key o l).
Proof.
  apply Sorted_StronglySorted; [apply _|].
  destruct o; apply Sorted_merge_sort; intros x y; unfold le_key, ge_key; lia.
Qed.

Lemma elem_of_order_by key o l x : x ∈ order_by key o l <-> x ∈ l.
Proof. by rewrite (order_by_perm key o l). Qed.

Lemma order_by_nil key o l : order_by key o l = [] -> l = [].
Proof. intros H. apply Permutation_nil. by rewrite <- H, order_by_perm. Qed.

(** The first row of an ordered result. *)
Lemma order_by_head key o l x l' : order_by key o l = x :: l' ->
  x ∈ l /\ forall y, y ∈ l -> key_rel key o x y.
Proof.
  intros H. split; [rewrite <- (order_by_perm key o l), H; set_solver|].
  intros y Hy. rewrite <- (order_by_perm key o l), H in Hy.
  pose proof (order_by_sorted key o l) as Hs. rewrite H in Hs.
  apply StronglySorted_inv in Hs as [_ Hf].
  apply elem_of_cons in Hy as [->|Hy].
  - destruct o; cbn; unfold le_key, ge_key; lia.
  - rewrite Forall_forall in Hf. apply Hf. done.
Qed.

(** An ordered result is determined by its rows, if the keys differ. *)
Lemma order_by_unique key o l l' :
  (forall x y, x ∈ l -> y ∈ l -> key x.2 = key y.2 -> x = y) ->
  StronglySorted (key_rel key o) l' -> l' ≡ₚ l -> order_by key o l = l'.
Proof.
  intros Hinj Hs Hp. apply (StronglySorted_unique_strong (key_rel key o)).
  - intros x y Hx Hy H1 H2. apply Hinj.
    + by rewrite <- (order_by_perm key o l).
    + by rewrite <- Hp.
    + destruct o; cbn in *; unfold le_key, ge_key in *; lia.
  - apply order_by_sorted.
  - done.
  - by rewrite order_by_perm.
Qed.

Section Queries.
Context {J : JsonCpp} {C : BlockCodec} {U : Universe}.
Implicit Types (m : gmap string row) (h : string) (r : row) (s : Chainstate).

Lemma unique_ok_uniq m : uniq m -> unique_ok m = true.
Proof.
  intros Hu. apply bool_decide_eq_true. apply NoDup_fmap_2_strong.
  - intros [h1 r1] [h2 r2] H1%elem_of_map_to_list H2%elem_of_map_to_list [=].
    assert (h1 = h2) as -> by by eapply Hu. congruence.
  - apply NoDup_map_to_list.
Qed.

Lemma write_blocks_ok m s : uniq m -> write_blocks m s = (Ok tt, set_blocks m s).
Proof. intros Hu. unfold write_blocks. by rewrite check_true by by apply unique_ok_uniq. Qed.

Lemma bind_u64_ok {S B} v (k : unit -> M S B) (s : S) :
  v <= i64_max -> bind (bind_u64 v) k s = k tt s.
Proof. intros Hv. apply check_true. by apply Z.leb_le. Qed.

Lemma get_u64_ok {S B} v (k : Z -> M S B) (s : S) :
  0 <= v -> bind (get_u64 v) k s = k v s.
Proof. intros Hv. unfold get_u64. by rewrite bind_assoc, check_true by by apply Z.leb_le. Qed.

(** ** The ends of the main chain *)

Lemma is_top_exists m : Inv m -> m <> ∅ -> exists h r, is_top m h r.
Proof.
  intros HI Hne. destruct (inv_main _ HI Hne) as (h & r & Hr & Hb).
  destruct (order_by row_height DESC (select (on_branch 0) m)) as [|[h' r'] l] eqn:E.
  - apply order_by_nil in E.
    assert ((h, r) ∈ select (on_branch 0) m).
    { apply elem_of_select. split; [done|]. by apply Z.eqb_eq. }
    rewrite E in *. set_solver.
  - apply order_by_head in E as [Hin Hmax]. apply elem_of_select in Hin as [? Hb'].
    apply Z.eqb_eq in Hb'. exists h', r'. split_and!; [done..|].
    intros h1 r1 H1 Hb1. apply (Hmax (h1, r1)). apply elem_of_select.
    split; [done|]. by apply Z.eqb_eq.
Qed.

Lemma main_end o m h r :
  m !! h = Some r -> row_branch r = 0 -> uniq m ->
  (forall h' r', m !! h' = Some r' -> row_branch r' = 0 ->
     key_rel row_height o (h, r) (h', r')) ->
  exists l, order_by row_height o (select (on_branch 0) m) = (h, r) :: l.
Proof.
  intros Hr Hb Hu Hmax.
  assert (Hin : (h, r) ∈ select (on_branch 0) m).
  { apply elem_of_select. split; [done|]. by apply Z.eqb_eq. }
  destruct (order_by row_height o (select (on_branch 0) m)) as [|[h' r'] l] eqn:E.
  { apply order_by_nil in E. rewrite E in Hin. set_solver. }
  exists l. apply order_by_head in E as [Hin' Hmax'].
  apply elem_of_select in Hin' as [Hr' Hb']. apply Z.eqb_eq in Hb'.
  specialize (Hmax _ _ Hr' Hb'). specialize (Hmax' _ Hin).
  assert (h = h') as ->; [|congruence].
  eapply Hu; [done..|congruence|].
  destruct o; cbn in *; unfold le_key, ge_key in *; cbn in *; lia.
Qed.

Lemma no_main o m : (forall h r, m !! h = Some r -> row_branch r <> 0) ->
  order_by row_height o (select (on_branch 0) m) = [].
Proof.
  intros H. destruct (order_by _ _ _) as [|[h r] l] eqn:E; [done|].
  apply order_by_head in E as [Hin _]. apply elem_of_select in Hin as [Hr Hb].
  apply Z.eqb_eq in Hb. by apply H in Hr.
Qed.

Lemma GetTipHeight_ok s h r : Inv (blocks s) -> is_top (blocks s) h r ->
  GetTipHeight s = (Ok (row_height r), s).
Proof.
  intros HI (Hr & Hb & Hmax). unfold GetTipHeight, GetMainchainHeight.
  destruct (main_end DESC _ _ _ Hr Hb (inv_uniq _ HI)) as [l E]; [by apply Hmax|].
  run. rewrite E. cbn [take firstn step_one]; rewrite ?take_0; cbn [step_one]. run. done.
Qed.

Lemma GetLowestUnprunedHeight_ok s h r : Inv (blocks s) -> is_low (blocks s) h r ->
  GetLowestUnprunedHeight s = (Ok (row_height r), s).
Proof.
  intros HI (Hr & Hb & Hmin). unfold GetLowestUnprunedHeight, GetMainchainHeight.
  destruct (main_end ASC _ _ _ Hr Hb (inv_uniq _ HI)) as [l E]; [by apply Hmin|].
  run. rewrite E. cbn [take firstn step_one]; rewrite ?take_0; cbn [step_one]. run. done.
Qed.

Lemma GetTipHeight_empty s : blocks s = ∅ -> GetTipHeight s = (Ok (-1), s).
Proof.
  intros E. unfold GetTipHeight, GetMainchainHeight. run. rewrite E, no_main; [done|].
  intros h r. by rewrite lookup_empty.
Qed.

Lemma is_low_exists m : Inv m -> m <> ∅ -> exists h r, is_low m h r.
Proof.
  intros HI Hne. destruct (inv_main _ HI Hne) as (h & r & Hr & Hb).
  assert (Hin : (h, r) ∈ select (on_branch 0) m).
  { apply elem_of_select. split; [done|]. by apply Z.eqb_eq. }
  destruct (order_by row_height ASC (select (on_branch 0) m)) as [|[h' r'] l] eqn:E.
  { apply order_by_nil in E. rewrite E in Hin. set_solver. }
  apply order_by_head in E as [Hin' Hmin]. apply elem_of_select in Hin' as [? Hb'].
  apply Z.eqb_eq in Hb'. exists h', r'. split_and!; [done..|].
  intros h1 r1 H1 Hb1. apply (Hmin (h1, r1)). apply elem_of_select.
  split; [done|]. by apply Z.eqb_eq.
Qed.

(** ** Branch numbers *)

Lemma GetFreeBranchNumber_ok s n : Inv (blocks s) -> branches_below (blocks s) n ->
  0 < n <= i64_max ->
  exists f, GetFreeBranchNumber s = (Ok f, s) /\ branches_below (blocks s) f /\ 0 < f <= n.
Proof.
  intros HI Hbb Hn. unfold GetFreeBranchNumber. run.
  set (l := select (fun _ _ => true) (blocks s)).
  destruct (order_by row_branch DESC l) as [|[h r] l'] eqn:E; cbn [take firstn step_one]; rewrite ?take_0; cbn [step_one]; run.
  - exists 1. split_and!; [done| |lia|lia]. intros h r Hr. apply order_by_nil in E.
    assert ((h, r) ∈ l) by by apply elem_of_select. rewrite E in *. set_solver.
  - apply order_by_head in E as [Hin Hmax]. apply elem_of_select in Hin as [Hr _].
    destruct (row_genuine _ _ _ HI Hr) as (_ & _ & _ & _ & ?).
    pose proof (Hbb _ _ Hr) as Hlt. cbn in Hlt.
    rewrite get_u64_ok by done.
    rewrite u64_small by (unfold i64_max, u64_modulus in *; lia).
    exists (row_branch r + 1). split_and!; [done| |lia|lia].
    intros h' r' Hr'. assert (Hin : (h', r') ∈ l) by by apply elem_of_select.
    specialize (Hmax _ Hin). cbn in *. unfold ge_key in Hmax. cbn in *. lia.
Qed.

(** ** Rows of a branch *)

Definition below_on (b H : Z) (h : string) (r : row) : bool :=
  (row_branch r =? b) && (row_height r <=? H).

Definition branch_rows m (b H : Z) : list (string * row) :=
  order_by row_height DESC (select (below_on b H) m).

Lemma elem_of_branch_rows m b H h r :
  (h, r) ∈ branch_rows m b H <->
  m !! h = Some r /\ row_branch r = b /\ row_height r <= H.
Proof.
  unfold branch_rows. rewrite (order_by_perm row_height DESC), elem_of_select.
  unfold below_on. rewrite andb_true_iff, Z.eqb_eq, Z.leb_le. tauto.
Qed.

Lemma NoDup_branch_rows m b H : NoDup (branch_rows m b H).
Proof. unfold branch_rows. rewrite (order_by_perm row_height DESC). apply NoDup_select. Qed.

Lemma branch_rows_sorted m b H :
  StronglySorted (key_rel row_height DESC) (branch_rows m b H).
Proof. apply order_by_sorted. Qed.

(** The rows of a branch from a block downwards are the block and the rows from
    its parent downwards, if the parent is on the branch. *)
Lemma branch_rows_step m h r : Inv m -> m !! h = Some r ->
  branch_rows m (row_branch r) (row_height r) =
  (h, r) :: match m !! row_parent r with
            | Some p => if decide (row_branch p = row_branch r)
                        then branch_rows m (row_branch r) (row_height p) else []
            | None => []
            end.
Proof.
  intros HI Hr. set (tl := match m !! row_parent r with Some _ => _ | None => _ end).
  assert (Htl : forall h' r', (h', r') ∈ tl <->
            m !! h' = Some r' /\ row_branch r' = row_branch r /\ row_height r' < row_height r).
  { intros h' r'. subst tl. split.
    - destruct (m !! row_parent r) as [p|] eqn:Ep; [|set_solver].
      pose proof (parent_height _ _ _ _ HI Hr Ep). destruct (decide _); [|set_solver].
      intros (? & ? & ?)%elem_of_branch_rows. split_and!; [done..|lia].
    - intros (Hr' & Hb & Hh).
      destruct (inv_contiguous _ HI h h' r r') as (p & Hp & Hpb); [done..|].
      rewrite Hp, decide_True by done. pose proof (parent_height _ _ _ _ HI Hr Hp).
      apply elem_of_branch_rows. split_and!; [done..|lia]. }
  assert (Hsame : forall h' r', m !! h' = Some r' -> row_branch r' = row_branch r ->
            row_height r' = row_height r -> h' = h).
  { intros. by eapply (inv_uniq _ HI). }
  apply order_by_unique.
  - intros [h1 r1] [h2 r2] H1%elem_of_select H2%elem_of_select Hk. cbn in Hk.
    destruct H1 as [H1 K1], H2 as [H2 K2]. unfold below_on in *. zb.
    assert (h1 = h2) as -> by (apply (inv_uniq _ HI _ _ r1 r2); congruence). congruence.
  - constructor.
    + subst tl. destruct (m !! row_parent r); [|constructor].
      destruct (decide _); [apply branch_rows_sorted|constructor].
    + apply Forall_forall. intros [h' r'] (? & ? & ?)%Htl. cbn. unfold ge_key. cbn. lia.
  - apply NoDup_Permutation.
    + constructor; [|subst tl].
      * intros (? & ? & ?)%Htl. lia.
      * destruct (m !! row_parent r); [|constructor].
        destruct (decide _); [apply NoDup_branch_rows|constructor].
    + apply NoDup_select.
    + intros [h' r']. rewrite elem_of_cons, Htl, elem_of_select. unfold below_on.
      rewrite andb_true_iff, Z.eqb_eq, Z.leb_le. split.
      * intros [[= -> ->]|(? & ? & ?)]; [done|]. split_and!; [done..|lia].
      * intros (Hr' & Hb & Hh). destruct (decide (row_height r' = row_height r)).
        -- left. pose proof (Hsame _ _ Hr' Hb e) as Eh. congruence.
        -- right. split_and!; [done..|lia].
Qed.

(** ** Reading blocks back *)

Definition row_block (x : string * row) (b : BlockData) : Prop :=
  block_read (row_data x.2) = Ok b /\ blk_hash b = x.1 /\
  blk_parent b = row_parent x.2 /\ blk_height b = row_height x.2.

Lemma row_block_exists m h r : Inv m -> m !! h = Some r ->
  exists b, row_block (h, r) b /\ genuine b.
Proof.
  intros HI Hr. destruct (inv_rows _ HI _ _ Hr) as (_ & b & ? & ? & ? & ? & ?).
  by exists b.
Qed.

Lemma read_row_ok m h r b s : Inv m -> m !! h = Some r -> row_block (h, r) b ->
  read_row (h, r) s = (Ok b, s).
Proof.
  intros HI Hr (Hrd & Hh & Hp & Ht). cbn in *. unfold read_row; cbn.
  rewrite (lift_Ok_bind _ _ _ _ Hrd).
  rewrite check_true by by apply bool_decide_eq_true.
  rewrite check_true by by apply bool_decide_eq_true.
  destruct (row_genuine _ _ _ HI Hr) as (_ & _ & _ & ? & _).
  rewrite get_u64_ok by lia. rewrite check_true by by apply Z.eqb_eq. done.
Qed.

(** Reading the rows of a branch from a block downwards gives the part of its
    fork path on that branch; [p] is the hash where the walk goes on. *)
Lemma read_branch m s h r (n : nat) : Inv m -> m !! h = Some r -> row_branch r <> 0 ->
  (Z.to_nat (row_height r) < n)%nat ->
  exists bs d, traverse read_row (branch_rows m (row_branch r) (row_height r)) s
             = (Ok bs, s) /\
    last bs = Some d /\
    (forall rest, fork_path m (blk_parent d) rest -> fork_path m h (bs ++ rest)) /\
    (forall pr, m !! blk_parent d = Some pr -> row_height pr < row_height r).
Proof.
  intros HI. revert h r. induction n as [|n IH]; intros h r Hr Hb Hn; [lia|].
  destruct (row_block_exists _ _ _ HI Hr) as (b & Hrb & Hg).
  destruct (row_genuine _ _ _ HI Hr) as (_ & _ & _ & ? & _).
  pose proof Hrb as (Hrd & Hbh & Hbp & Hbt). cbn in *.
  rewrite (branch_rows_step _ _ _ HI Hr). cbn [traverse].
  rewrite (bind_Ok _ _ _ _ _ (read_row_ok _ _ _ _ s HI Hr Hrb)).
  assert (Hdone : forall pr, m !! blk_parent b = Some pr -> row_height pr < row_height r).
  { rewrite Hbp. intros pr Hpr. pose proof (parent_height _ _ _ _ HI Hr Hpr). lia. }
  assert (Hstep : forall rest, fork_path m (blk_parent b) rest -> fork_path m h (b :: rest)).
  { rewrite Hbp. intros. by eapply fork_path_step. }
  destruct (m !! row_parent r) as [p|] eqn:Ep; [destruct (decide _) as [Epb|_]|].
  - pose proof (parent_height _ _ _ _ HI Hr Ep).
    destruct (row_genuine _ _ _ HI Ep) as (_ & _ & _ & ? & _).
    destruct (IH (row_parent r) p) as (bs & d & Ht & Hl & Hf & Hlt); [done|congruence|lia|].
    exists (b :: bs), d. rewrite Epb in Ht. rewrite (bind_Ok _ _ _ _ _ Ht). split_and!.
    + done.
    + rewrite last_cons, Hl. done.
    + intros rest Hrest. cbn. apply Hstep. rewrite Hbp. by apply Hf.
    + intros pr Hpr. specialize (Hlt _ Hpr). lia.
  - exists [b], b. cbn [traverse]. run. done.
  - exists [b], b. cbn [traverse]. run. done.
Qed.

(** ** GetForkBranch *)

(** The number of rows up to a height bounds the iterations still to come. *)
Definition rows_upto m (H : Z) : nat :=
  length (select (fun _ r => row_height r <=? H) m).

Lemma rows_upto_size m H : (rows_upto m H <= size m)%nat.
Proof.
  unfold rows_upto, select. etrans; [apply length_filter|].
  by rewrite length_map_to_list.
Qed.

Lemma rows_upto_mono m h r H : m !! h = Some r -> H < row_height r ->
  (rows_upto m H < rows_upto m (row_height r))%nat.
Proof.
  intros Hr HH. unfold rows_upto.
  assert (Hsub : (h, r) :: select (fun _ r => row_height r <=? H) m
            ⊆ select (fun _ r' => row_height r' <=? row_height r) m).
  { intros [h' r'] [[= -> ->]|[Hr' HP]%elem_of_select]%elem_of_cons; apply elem_of_select.
    - split; [done|]. apply Z.leb_le. lia.
    - split; [done|]. zb. apply Z.leb_le. lia. }
  apply (submseteq_length ((h, r) :: _)), NoDup_submseteq; [|done].
  constructor; [|apply NoDup_select]. intros [_ HP]%elem_of_select. zb. lia.
Qed.

Lemma fork_loop_ok fuel s h acc : Inv (blocks s) ->
  match blocks s !! h with
  | Some r => (rows_upto (blocks s) (row_height r) < fuel)%nat
  | None => (0 < fuel)%nat
  end ->
  exists bs, fork_path (blocks s) h bs /\
    fork_loop fuel h acc s =
      (Ok (match blocks s !! h with Some _ => true | None => negb (empty_b acc) end,
           acc ++ bs), s).
Proof.
  intros HI. revert h acc. induction fuel as [|fuel IH]; intros h acc Hfuel.
  { destruct (blocks s !! h); lia. }
  cbn [fork_loop]. unfold row_for. run.
  destruct (blocks s !! h) as [r|] eqn:Hr.
  2: { exists []. rewrite app_nil_r. split; [by apply fork_path_gone|done]. }
  destruct (row_genuine _ _ _ HI Hr) as (_ & _ & _ & ? & ?).
  run. rewrite get_u64_ok by lia. rewrite get_u64_ok by lia.
  destruct (Z.eqb_spec (row_branch r) 0) as [E|E].
  { exists []. rewrite app_nil_r. split; [by eapply fork_path_main|done]. }
  run.
  destruct (read_branch (blocks s) s h r (S (Z.to_nat (row_height r))))
    as (bs & d & Ht & Hl & Hf & Hlt); [done..|lia|].
  rewrite (bind_Ok _ _ _ _ _ Ht). cbv zeta.
  assert (Hl' : last (acc ++ bs) = Some d) by by rewrite last_app, Hl.
  rewrite Hl'.
  destruct (IH (blk_parent d) (acc ++ bs)) as (rest & Hp & Hrun).
  { destruct (blocks s !! blk_parent d) as [pr|] eqn:Hpr.
    - pose proof (rows_upto_mono _ _ _ _ Hr (Hlt _ eq_refl)). lia.
    - pose proof (rows_upto_mono (blocks s) h r (row_height r - 1) Hr). lia. }
  exists (bs ++ rest). split; [by apply Hf|].
  rewrite Hrun, app_assoc. do 3 f_equal.
  destruct (blocks s !! blk_parent d); [done|].
  by destruct (acc ++ bs).
Qed.

Lemma GetForkBranch_ok s h : Inv (blocks s) ->
  exists bs, fork_path (blocks s) h bs /\
    GetForkBranch h s = (Ok (bool_decide (is_Some (blocks s !! h)), bs), s).
Proof.
  intros HI. unfold GetForkBranch. run.
  destruct (fork_loop_ok (S (size (blocks s))) s h [] HI) as (bs & Hp & Hrun).
  { destruct (blocks s !! h) as [r|]; [|lia].
    pose proof (rows_upto_size (blocks s) (row_height r)). lia. }
  exists bs. split; [done|]. rewrite Hrun. cbn. do 3 f_equal.
  destruct (blocks s !! h); [by rewrite bool_decide_eq_true_2|].
  by rewrite bool_decide_eq_false_2 by by intros [].
Qed.

Lemma fork_path_det m h bs bs' : fork_path m h bs -> fork_path m h bs' -> bs = bs'.
Proof.
  intros H. revert bs'. induction H; inversion 1; simplify_eq; try done.
  f_equal; [congruence|auto].
Qed.

(** ** MarkAsTip *)

Lemma mark_loop m s bs1 bs2 h0 dh fresh : Inv m ->
  fork_path m h0 (bs1 ++ bs2) ->
  (forall d, last (bs1 ++ bs2) = Some d -> dh = blk_height d) ->
  branches_below m fresh -> 0 < fresh ->
  forM bs2 (fun b => UpdateBranch (fun h _ => bool_decide (h = blk_hash b)) 0)
    (set_blocks (retag (reorg_tag bs1 dh fresh) m) s) =
  (Ok tt, set_blocks (retag (reorg_tag (bs1 ++ bs2) dh fresh) m) s).
Proof.
  intros HI. revert bs1. induction bs2 as [|b bs2 IH]; intros bs1 Hp Hd Hb Hf.
  { by rewrite app_nil_r. }
  cbn [forM].
  assert (Hstep : update_branch (fun h _ => bool_decide (h = blk_hash b)) 0
            (retag (reorg_tag bs1 dh fresh) m) = retag (reorg_tag (bs1 ++ [b]) dh fresh) m).
  { rewrite update_branch_retag, retag_retag. apply retag_ext. intros h r Hr.
    unfold reorg_tag. cbn. case_bool_decide as E.
    - rewrite decide_True; [done|]. rewrite fmap_app, elem_of_app. right. set_solver.
    - rewrite fmap_app. destruct (decide (h ∈ blk_hash <$> bs1)).
      + rewrite decide_True; [done|]. set_solver.
      + rewrite decide_False; [done|]. set_solver. }
  replace (bs1 ++ b :: bs2) with ((bs1 ++ [b]) ++ bs2) in * by by rewrite <- app_assoc.
  erewrite bind_Ok; [by apply IH|].
  unfold UpdateBranch. run. cbn [blocks set_blocks]. rewrite Hstep.
  rewrite write_blocks_ok; [done|].
  apply (reorg_uniq m HI h0 ((bs1 ++ [b]) ++ bs2) dh fresh Hp Hd Hb Hf). set_solver.
Qed.

(** For a block off the main chain: the first update moves the main chain above
    the fork to a new branch, the loop moves the fork branch to the main chain. *)
Lemma MarkAsTip_branch s blk r bs d n : Inv (blocks s) ->
  blocks s !! blk_hash blk = Some r -> row_branch r <> 0 ->
  fork_path (blocks s) (blk_hash blk) bs -> last bs = Some d ->
  branches_below (blocks s) n -> 0 < n <= i64_max ->
  exists fresh, branches_below (blocks s) fresh /\ 0 < fresh <= n /\
    MarkAsTip blk s =
      (Ok tt, set_blocks (retag (reorg_tag bs (blk_height d) fresh) (blocks s)) s).
Proof.
  intros HI Hr Hb Hp Hl Hbb Hn. unfold MarkAsTip, row_for. run. rewrite Hr. run.
  destruct (row_genuine _ _ _ HI Hr) as (_ & _ & _ & _ & ?).
  rewrite get_u64_ok by lia. rewrite (proj2 (Z.eqb_neq _ _) Hb).
  destruct (GetForkBranch_ok s (blk_hash blk) HI) as (bs' & Hp' & Hrun).
  rewrite (fork_path_det _ _ _ _ Hp' Hp) in Hrun. rewrite Hr in Hrun.
  rewrite (bind_Ok _ _ _ _ _ Hrun). cbn beta iota.
  rewrite check_true by by apply bool_decide_eq_true_2. rewrite Hl.
  destruct (GetFreeBranchNumber_ok s n HI Hbb Hn) as (f & Hf & Hfb & ?).
  rewrite (bind_Ok _ _ _ _ _ Hf). rewrite bind_u64_ok by lia.
  destruct (fork_path_elem _ _ _ d (inv_rows _ HI) Hp) as (rd & Hrd & ? & ? & ? & Hgd).
  { by apply last_Some_elem_of. }
  destruct Hgd as (_ & _ & _ & _ & ?). rewrite bind_u64_ok by lia.
  exists f. split_and!; [done|lia|lia|].
  destruct (inv_main _ HI) as (hm & rm & Hm & Hbm); [by intros E; rewrite E in Hr|].
  assert (Hfirst : update_branch (fun _ r' => (row_branch r' =? 0)
              && (blk_height d <=? row_height r')) f (blocks s)
            = retag (reorg_tag [] (blk_height d) f) (blocks s)).
  { rewrite update_branch_retag. apply retag_ext. intros h r' _. done. }
  erewrite bind_Ok.
  2: { unfold UpdateBranch. run. rewrite Hfirst. apply write_blocks_ok.
       apply (reorg_uniq _ HI hm [] (blk_height d) f); [by eapply fork_path_main|done|done|lia|done]. }
  apply (mark_loop _ s [] bs (blk_hash blk)); [done|done| |done|lia].
  cbn. intros d' Hd'. congruence.
Qed.

(** For a block of the main chain: what is above it moves to a new branch. *)
Lemma MarkAsTip_main s blk r n : Inv (blocks s) ->
  blocks s !! blk_hash blk = Some r -> row_branch r = 0 -> blk_height blk = row_height r ->
  branches_below (blocks s) n -> 0 < n <= i64_max ->
  exists fresh, branches_below (blocks s) fresh /\ 0 < fresh <= n /\
    MarkAsTip blk s =
      (Ok tt, set_blocks (retag (reorg_tag [] (blk_height blk + 1) fresh) (blocks s)) s).
Proof.
  intros HI Hr Hb Hh Hbb Hn. unfold MarkAsTip, row_for. run. rewrite Hr. run.
  destruct (row_genuine _ _ _ HI Hr) as (_ & _ & _ & ? & ?).
  rewrite get_u64_ok by lia. rewrite (proj2 (Z.eqb_eq _ _) Hb).
  destruct (GetFreeBranchNumber_ok s n HI Hbb Hn) as (f & Hf & Hfb & ?).
  rewrite (bind_Ok _ _ _ _ _ Hf). rewrite bind_u64_ok by lia. rewrite bind_u64_ok by lia.
  exists f. split_and!; [done|lia|lia|].
  unfold UpdateBranch. run.
  assert (E : update_branch (fun _ r' => (row_branch r' =? 0)
              && (blk_height blk <? row_height r')) f (blocks s)
            = retag (reorg_tag [] (blk_height blk + 1) f) (blocks s)).
  { rewrite update_branch_retag. apply retag_ext. intros h r' _.
    unfold reorg_tag. cbn [fmap list_fmap].
    rewrite decide_False by set_solver.
    replace (blk_height blk + 1 <=? row_height r') with (blk_height blk <? row_height r'); [done|].
    destruct (Z.ltb_spec (blk_height blk) (row_height r')), 
      (Z.leb_spec (blk_height blk + 1) (row_height r')); lia || done. }
  rewrite E. apply write_blocks_ok.
  apply (reorg_uniq _ HI (blk_hash blk) [] (blk_height blk + 1) f);
    [by eapply fork_path_main|done|done|lia|done].
Qed.

(** ** Lookup by height *)

Lemma GetHashForHeight_ok s n : Inv (blocks s) -> n <= i64_max ->
  exists o, GetHashForHeight n s = (Ok o, s) /\
    forall h, o = Some h <-> exists r, blocks s !! h = Some r /\ row_branch r = 0 /\
                                      row_height r = n.
Proof.
  intros HI Hn. unfold GetHashForHeight. rewrite bind_u64_ok by done. run.
  set (l := select _ (blocks s)).
  assert (Hl : forall h r, (h, r) ∈ l <->
    blocks s !! h = Some r /\ row_branch r = 0 /\ row_height r = n).
  { intros h r. unfold l. rewrite elem_of_select, andb_true_iff, !Z.eqb_eq. done. }
  assert (Hnd : NoDup l) by apply NoDup_select.
  destruct l as [|[h r] l].
  - exists None. split; [done|]. intros h. split; [done|]. intros (r & Hr).
    apply Hl in Hr. by apply not_elem_of_nil in Hr.
  - assert (l = []) as ->.
    { destruct l as [|[h1 r1] l]; [done|exfalso].
      destruct (proj1 (Hl h r)) as (Hr & ? & ?); [set_solver|].
      destruct (proj1 (Hl h1 r1)) as (Hr1 & ? & ?); [set_solver|].
      assert (h = h1) as <- by (apply (inv_uniq _ HI _ _ r r1); congruence).
      rewrite Hr in Hr1. simplify_eq. apply NoDup_cons in Hnd as [Hnd _]. set_solver. }
    exists (Some h). split; [done|]. intros h'. split.
    + intros [= <-]. exists r. apply Hl. set_solver.
    + intros (r' & Hr'). apply Hl in Hr'. apply list_elem_of_singleton in Hr'. congruence.
Qed.
End Queries.
