(* ===== verification/ChainstateProofs.v ===== *)
(** * Correctness of the chainstate operations

    Theorems about [SetTip], [ImportTip], [Prune], [GetForkBranch] and
    [SanityCheck] of Chainstate.v, for a database that satisfies the invariant
    [Inv] of ChainTree.v. *)

From S2P Require Import Prelude Json BlockData Chainstate ChainTree ChainQueries.

Section Batch.
Context {J : JsonCpp} {C : BlockCodec}.

(** The state inside an update batch. *)
Definition in_batch (s : Chainstate) : Chainstate :=
  {| blocks := blocks s; variables := variables s;
     savepoints := (blocks s, variables s) :: savepoints s |}.

Lemma with_batch_Ok {A} (body : M Chainstate A) (s : Chainstate) (a : A) m' :
  body (in_batch s) = (Ok a, set_blocks m' (in_batch s)) ->
  with_batch body s = (Ok a, set_blocks m' s).
Proof.
  intros H. unfold with_batch, sql_savepoint, modify, in_batch in *. by rewrite H.
Qed.

Lemma with_batch_Throw {A} (body : M Chainstate A) (s : Chainstate) e m' v' :
  body (in_batch s) = (Throw e, {| blocks := m'; variables := v';
                                   savepoints := savepoints (in_batch s) |}) ->
  with_batch body s = (Throw e, s).
Proof.
  intros H. unfold with_batch, sql_savepoint, modify, in_batch in *. rewrite H.
  by destruct s.
Qed.
End Batch.

Section Proofs.
Context {J : JsonCpp} {C : BlockCodec} {CL : BlockCodecLaws C} {U : Universe}.
Implicit Types (m : gmap string row) (h : string) (r : row) (s : Chainstate)
  (blk : BlockData).

(** ** MarkAsTip *)

(** The path from which a reorganisation to [h] takes its blocks ends within the
    stored part of the tree. *)
Definition path_retained m h : Prop :=
  forall bs d, fork_path m h bs -> last bs = Some d -> fork_retained m d.

(** Two tables agree on a block, up to the branch it is on. *)
Definition same_row m m' h : Prop := set_branch 0 <$> m' !! h = set_branch 0 <$> m !! h.

Lemma retag_same_row f m h : same_row m (retag f m) h.
Proof. unfold same_row. rewrite retag_lookup. by destruct (m !! h). Qed.

Lemma same_row_is_Some m m' h : same_row m m' h -> is_Some (m' !! h) <-> is_Some (m !! h).
Proof.
  unfold same_row. rewrite <- (fmap_is_Some (set_branch 0) (m !! h)).
  intros <-. by rewrite fmap_is_Some.
Qed.

(** The main chain after a reorganisation: the blocks of [path], whose highest is
    at height [top], on what the old main chain has below them. *)
Definition main_is m (path : list string) (top : Z) m' : Prop :=
  forall h r', m' !! h = Some r' ->
    row_branch r' = 0 <->
    h ∈ path \/
    exists r, m !! h = Some r /\ row_branch r = 0 /\
              row_height r < top + 1 - Z.of_nat (length path).

Lemma fork_path_length m h bs d : Inv m -> fork_path m h bs ->
  last bs = Some d -> forall r, m !! h = Some r ->
  blk_height d = row_height r + 1 - Z.of_nat (length bs).
Proof.
  intros HI Hp. induction Hp as [| |h r0 b bs Hr0 Hb Hrd Hp IH]; intros Hl r1 Hr; [done..|].
  simplify_eq.
  destruct (inv_rows _ HI _ _ Hr0) as (_ & b' & ? & _ & _ & Hh & _).
  assert (b' = b) as -> by congruence.
  destruct bs as [|b1 bs]; [cbn in Hl |- *; simplify_eq; lia|].
  destruct (m !! row_parent r0) as [p|] eqn:Ep.
  - rewrite (IH Hl p eq_refl).
    rewrite (parent_height _ _ _ _ HI Hr0 Ep). cbn. lia.
  - inversion Hp; congruence.
Qed.

Lemma reorg_main m bs dh fresh top : 0 < fresh ->
  dh = top + 1 - Z.of_nat (length bs) ->
  main_is m (map blk_hash bs) top (retag (reorg_tag bs dh fresh) m).
Proof.
  intros Hf -> h r' (r & Hr & ->)%retag_Some. cbn. rewrite length_map.
  destruct (reorg_tag_cases bs (top + 1 - Z.of_nat (length bs)) fresh h r)
    as [[P2 E2]|[(P2 & B2 & L2 & E2)|(P2 & L2 & E2)]]; rewrite E2.
  - split; [by left|done].
  - split; [lia|]. intros [?|(? & ? & ? & ?)]; [done|]. simplify_eq. lia.
  - split.
    + intros Hb. right. exists r. split_and!; [done..|by apply L2].
    + intros [?|(? & ? & ? & ?)]; [done|by simplify_eq].
Qed.

Lemma retag_below f m n : (forall h r, m !! h = Some r -> f h r < n) ->
  branches_below (retag f m) n.
Proof. intros H h r (r0 & Hr & ->)%retag_Some. cbn. by apply H. Qed.

Lemma reorg_below m bs dh fresh n : branches_below m n -> 0 < fresh <= n ->
  branches_below (retag (reorg_tag bs dh fresh) m) (n + 1).
Proof.
  intros Hb Hf. apply retag_below. intros h r Hr. specialize (Hb _ _ Hr). cbn in Hb.
  unfold reorg_tag. destruct (decide _); [lia|]. destruct (_ && _); lia.
Qed.

Lemma retained_cut m h bs d : Inv m -> fork_path m h bs -> last bs = Some d ->
  fork_retained m d -> cut_ok m bs (blk_height d).
Proof.
  intros HI Hp Hl Hret.
  destruct (fork_path_elem _ _ _ d (inv_rows _ HI) Hp) as (rd & Hrd & ? & Hdp & Hdh & _).
  { by apply last_Some_elem_of. }
  destruct (m !! blk_parent d) as [pr|] eqn:Epr.
  - left. exists (blk_parent d), pr. split_and!; [done| | |congruence].
    + by apply (fork_path_end _ _ _ _ (inv_rows _ HI) Hp Hl).
    + rewrite <- Hdp in Epr. rewrite (parent_height _ _ _ _ HI Hrd Epr). lia.
  - right. destruct Hret as [[? ?]|(h' & r' & ? & ? & ?)]; [congruence|].
    by exists d, h', r'.
Qed.

(** The outcome of making a stored block the tip. *)
Record marked m blk n m' : Prop := {
  marked_Inv : Inv m';
  marked_top : exists r, is_top m' (blk_hash blk) r /\ row_height r = blk_height blk;
  marked_rows : forall h, same_row m m' h;
  marked_main : exists bs, fork_path m (blk_hash blk) bs /\
    main_is m (map blk_hash bs) (blk_height blk) m';
  marked_below : branches_below m' (n + 1)
}.

Lemma path_head_high m blk r bs d dh fresh : Inv m -> m !! blk_hash blk = Some r ->
  row_branch r <> 0 -> fork_path m (blk_hash blk) bs -> last bs = Some d ->
  dh = blk_height d ->
  is_top (retag (reorg_tag bs dh fresh) m) (blk_hash blk) (set_branch 0 r) \/ fresh <= 0.
Proof.
  intros HI Hr Hb Hp Hl ->. destruct (Z.le_gt_cases fresh 0) as [?|Hf]; [by right|left].
  inversion Hp as [| |? r' b bs' Hr' _ Hrd Hp']; simplify_eq.
  destruct (fork_path_head _ _ _ _ (inv_rows _ HI) Hp) as [Hbh _].
  assert (Hon : on_path (b :: bs') (blk_hash blk)) by (unfold on_path; set_solver).
  assert (Hd : blk_height d <= row_height r).
  { eapply fork_path_heights; [apply HI|exact Hp| |done]. by apply last_Some_elem_of. }
  split_and!.
  - rewrite retag_lookup, Hr. cbn. by rewrite tag_path.
  - done.
  - intros h' r1 (r0 & Hr0 & ->)%retag_Some. cbn. intros Ht.
    destruct (reorg_tag_cases (b :: bs') (blk_height d) fresh h' r0)
      as [[P2 E2]|[(P2 & B2 & L2 & E2)|(P2 & L2 & E2)]]; [|lia|].
    + unfold on_path in P2. apply list_elem_of_fmap in P2 as (b2 & -> & Hin).
      destruct (fork_path_elem _ _ _ _ (inv_rows _ HI) Hp Hin) as (r2 & ? & _ & _ & Hh2 & _).
      simplify_eq. rewrite Hh2. eapply fork_path_heights; [apply HI|exact Hp|done|done].
    + assert (row_height r0 < blk_height d) by (apply L2; congruence). lia.
Qed.

Lemma MarkAsTip_ok s blk r n : Inv (blocks s) -> blocks s !! blk_hash blk = Some r ->
  row_height r = blk_height blk -> branches_below (blocks s) n -> 0 < n <= i64_max ->
  path_retained (blocks s) (blk_hash blk) ->
  exists m', MarkAsTip blk s = (Ok tt, set_blocks m' s) /\ marked (blocks s) blk n m'.
Proof.
  intros HI Hr Hh Hbb Hn Hret.
  destruct (decide (row_branch r = 0)) as [Hb|Hb].
  - destruct (MarkAsTip_main s blk r n) as (f & Hf & ? & Hrun); [done..|].
    eexists. split; [exact Hrun|].
    assert (Hpath : fork_path (blocks s) (blk_hash blk) []) by by eapply fork_path_main.
    split.
    + eapply Inv_reorg; [done|exact Hpath|done|done|lia|].
      left. exists (blk_hash blk), r. split_and!; [done..|lia|done].
    + exists (set_branch 0 r). split; [|done]. split_and!; [|done|].
      * rewrite retag_lookup, Hr. cbn. do 2 f_equal. unfold reorg_tag.
        rewrite decide_False by set_solver. rewrite Hb. cbn.
        destruct (Z.leb_spec (blk_height blk + 1) (row_height r)); [lia|done].
      * intros h' r1 (r0 & Hr0 & ->)%retag_Some. cbn. intros Ht.
        destruct (reorg_tag_cases [] (blk_height blk + 1) f h' r0)
          as [[P2 E2]|[(P2 & B2 & L2 & E2)|(P2 & L2 & E2)]];
          [unfold on_path in P2; set_solver|lia|].
        assert (row_height r0 < blk_height blk + 1) by (apply L2; congruence). lia.
    + intros h. apply retag_same_row.
    + exists []. split; [done|]. apply reorg_main; [lia|cbn; lia].
    + by apply reorg_below.
  - destruct (GetForkBranch_ok s (blk_hash blk) HI) as (bs & Hp & _).
    destruct (last bs) as [d|] eqn:Hl.
    2: { apply last_None in Hl. subst. inversion Hp; congruence. }
    destruct (MarkAsTip_branch s blk r bs d n) as (f & Hf & ? & Hrun); [done..|].
    eexists. split; [exact Hrun|]. split.
    + eapply Inv_reorg; [done|exact Hp|congruence|done|lia|].
      eapply retained_cut; [done..|by eapply Hret].
    + exists (set_branch 0 r). split; [|done].
      destruct (path_head_high (blocks s) blk r bs d (blk_height d) f) as [?|?];
        [done..|lia].
    + intros h. apply retag_same_row.
    + exists bs. split; [done|]. apply reorg_main; [lia|].
      rewrite (fork_path_length _ _ _ _ HI Hp Hl _ Hr). lia.
    + by apply reorg_below.
Qed.

(** ** InsertBlock *)

Lemma InsertBlock_ok s blk b : genuine blk -> blocks s !! blk_hash blk = None ->
  0 <= b <= i64_max ->
  exists r, row_ok (blk_hash blk) r /\ row_branch r = b /\
    row_parent r = blk_parent blk /\ row_height r = blk_height blk /\
    (uniq (<[blk_hash blk := r]> (blocks s)) ->
     InsertBlock blk b s = (Ok tt, set_blocks (<[blk_hash blk := r]> (blocks s)) s)).
Proof.
  intros Hg Hn Hb. pose proof Hg as (Hok & ? & ? & ? & ?).
  destruct (block_roundtrip _ (proj1 Hok)) as (data & Hw & Hrd).
  exists {| row_parent := blk_parent blk; row_height := blk_height blk;
            row_branch := b; row_data := data |}.
  split_and!; [|done..|].
  { split; [cbn; lia|]. exists blk. done. }
  intros Hu. unfold InsertBlock.
  rewrite bind_u64_ok by lia. rewrite bind_u64_ok by lia.
  rewrite (lift_Ok_bind _ _ _ _ Hw). run.
  rewrite check_true by by apply bool_decide_eq_true_2.
  by apply write_blocks_ok.
Qed.

Lemma fork_path_insert m h r x bs : Inv m -> m !! h = None -> fork_path m x bs ->
  hgt x < hgt h -> fork_path (<[h := r]> m) x bs.
Proof.
  intros HI Hn. induction 1 as [x r0 Hr0 Hb|x Hx|x r0 b bs Hr0 Hb Hrd Hp IH]; intros Hlt.
  - eapply fork_path_main; [|done]. rewrite lookup_insert_ne; [done|congruence].
  - apply fork_path_gone. apply lookup_insert_None. split; [done|]. intros ->. lia.
  - destruct (row_genuine _ _ _ HI Hr0) as (_ & ? & ? & _).
    eapply fork_path_step; [|done..|apply IH; lia].
    rewrite lookup_insert_ne; [done|congruence].
Qed.

Lemma fork_retained_insert m h r d : m !! h = None -> fork_retained m d ->
  fork_retained (<[h := r]> m) d.
Proof.
  intros Hn [[x Hx]|(h' & r' & ? & ? & ?)].
  - left. apply lookup_insert_is_Some. destruct (decide (h = blk_parent d)); [by left|].
    right. split; [done|]. by exists x.
  - right. exists h', r'. rewrite lookup_insert_ne; [done|congruence].
Qed.

Lemma path_retained_insert m blk r : Inv m -> m !! blk_hash blk = None -> genuine blk ->
  row_ok (blk_hash blk) r -> row_branch r <> 0 -> row_parent r = blk_parent blk ->
  is_Some (m !! blk_parent blk) -> path_retained m (blk_parent blk) ->
  path_retained (<[blk_hash blk := r]> m) (blk_hash blk).
Proof.
  intros HI Hn (_ & _ & Hh & Hp & _) (_ & b & Hrd & _ & Hbp & _) Hb Hrp Hpar Hret bs d Hpath Hl.
  destruct (GetForkBranch_ok {| blocks := m; variables := ∅; savepoints := [] |}
              (blk_parent blk) HI) as (bs0 & Hp0 & _). cbn in Hp0.
  assert (Hp1 : fork_path (<[blk_hash blk := r]> m) (blk_hash blk) (b :: bs0)).
  { eapply fork_path_step; [apply lookup_insert_eq|done..|]. rewrite Hrp.
    apply fork_path_insert; [done..|lia]. }
  rewrite (fork_path_det _ _ _ _ Hpath Hp1) in Hl.
  destruct bs0 as [|b0 bs0].
  - cbn in Hl. simplify_eq. left. rewrite Hbp, Hrp.
    apply lookup_insert_is_Some. destruct (decide (blk_hash blk = blk_parent blk)); [by left|].
    by right.
  - apply fork_retained_insert; [done|]. by eapply Hret.
Qed.

(** The branch of a block that was just inserted next to its parent. *)
Lemma path_inserted m blk r h bs : h = blk_hash blk -> Inv m -> m !! h = None -> genuine blk ->
  row_ok h r -> row_branch r <> 0 -> row_parent r = blk_parent blk ->
  fork_path m (blk_parent blk) bs ->
  exists b, blk_hash b = h /\ fork_path (<[h := r]> m) h (b :: bs).
Proof.
  intros -> HI Hn (_ & _ & Hh & Hp & _) (_ & b & Hrd & Hbh & _) Hb Hrp Hp0.
  exists b. split; [done|]. eapply fork_path_step; [apply lookup_insert_eq|done..|].
  rewrite Hrp. apply fork_path_insert; [done..|lia].
Qed.

Lemma main_is_insert m h r path top m' : m !! h = None -> row_branch r <> 0 ->
  main_is (<[h := r]> m) path top m' -> main_is m path top m'.
Proof.
  intros Hn Hb Hm h' r' Hr'. rewrite (Hm _ _ Hr'). f_equiv. split; intros (r0 & Hr0 & ? & ?).
  - apply lookup_insert_Some in Hr0 as [[_ <-]|[_ ?]]; [done|by exists r0].
  - exists r0. rewrite lookup_insert_ne by congruence. done.
Qed.

(** ** SetTip *)

(** Where a new tip meets the stored tree. *)
Definition attach_point m blk : string :=
  match m !! blk_hash blk with Some _ => blk_hash blk | None => blk_parent blk end.

Lemma GetTip_row s h r : Inv (blocks s) -> is_top (blocks s) h r ->
  exists l, order_by row_height DESC (select (on_branch 0) (blocks s)) = (h, r) :: l.
Proof.
  intros HI (Hr & Hb & Hmax). apply main_end; [done..|apply HI|]. by apply Hmax.
Qed.

(** The blocks, from the new tip down, that join the main chain. *)
Definition attached_path m blk (bs : list BlockData) : list string :=
  match m !! blk_hash blk with
  | Some _ => map blk_hash bs
  | None => blk_hash blk :: map blk_hash bs
  end.

(** What a successful [SetTip] leaves behind: the new block is stored, the others
    are what they were, and the main chain is what its name says. *)
Record tip_set m blk n m' : Prop := {
  tip_set_Inv : Inv m';
  tip_set_top : exists r, is_top m' (blk_hash blk) r /\
    row_height r = blk_height blk /\ row_parent r = blk_parent blk;
  tip_set_rows : forall h, h <> blk_hash blk -> same_row m m' h;
  tip_set_main : exists bs, fork_path m (attach_point m blk) bs /\
    main_is m (attached_path m blk bs) (blk_height blk) m';
  tip_set_below : branches_below m' (n + 2)
}.

Lemma same_row_parent m m' h r r' : same_row m m' h -> m !! h = Some r ->
  m' !! h = Some r' -> row_parent r' = row_parent r /\ row_height r' = row_height r.
Proof. unfold same_row. intros E Hr Hr'. rewrite Hr, Hr' in E. by injection E. Qed.

Lemma branches_below_mono m n n' : branches_below m n -> n <= n' -> branches_below m n'.
Proof. intros H Hn h r Hr. specialize (H _ _ Hr). cbn in *. lia. Qed.

(** On a stored block, [SetTip] marks it as the tip. *)
Lemma SetTip_known_run s blk r old ro m' : Inv (blocks s) -> is_top (blocks s) old ro ->
  blocks s !! blk_hash blk = Some r -> blk_parent blk = row_parent r ->
  blk_height blk = row_height r -> MarkAsTip blk (in_batch s) = (Ok tt, set_blocks m' (in_batch s)) ->
  SetTip blk s = (Ok (Some old), set_blocks m' s).
Proof.
  intros HI Htop Hr Hp Hh Hrun.
  destruct (row_genuine _ _ _ HI Hr) as (_ & _ & _ & ? & _).
  destruct (GetTip_row _ _ _ HI Htop) as [l El].
  unfold SetTip, row_for. run. rewrite El. cbn [take firstn step_one].
  rewrite take_0. cbn [step_one]. run. rewrite Hr. run.
  rewrite check_true by by apply bool_decide_eq_true_2.
  rewrite get_u64_ok by lia. rewrite check_true by by apply Z.eqb_eq.
  by rewrite (bind_Ok _ _ _ _ _ (with_batch_Ok _ _ _ _ Hrun)).
Qed.

Lemma SetTip_known s blk r n old ro : Inv (blocks s) -> genuine blk ->
  is_top (blocks s) old ro -> blocks s !! blk_hash blk = Some r ->
  branches_below (blocks s) n -> 0 < n < i64_max ->
  path_retained (blocks s) (blk_hash blk) ->
  exists m', SetTip blk s = (Ok (Some old), set_blocks m' s) /\ tip_set (blocks s) blk n m'.
Proof.
  intros HI (_ & Hp & Hh & _ & ?) Htop Hr Hbb Hn Hret.
  destruct (row_genuine _ _ _ HI Hr) as (Hrp & Hrh & _ & ? & _).
  destruct (MarkAsTip_ok (in_batch s) blk r n) as (m' & Hrun & [? (rt & Ht & Hth) Hk Hm Hb]);
    [done..|cbn; congruence|done|lia|done|].
  exists m'. split.
  - apply (SetTip_known_run s blk r old ro); [done..| | |done]; congruence.
  - split; [done| | | |].
    + exists rt. split_and!; [done..|]. destruct Ht as [Ht _].
      destruct (same_row_parent _ _ _ _ _ (Hk (blk_hash blk)) Hr Ht). congruence.
    + intros h _. apply Hk.
    + unfold attach_point, attached_path. rewrite Hr. exact Hm.
    + eapply branches_below_mono; [exact Hb|lia].
Qed.

Lemma SetTip_new s blk pr n old ro : Inv (blocks s) -> genuine blk ->
  is_top (blocks s) old ro -> blocks s !! blk_hash blk = None ->
  blocks s !! blk_parent blk = Some pr ->
  branches_below (blocks s) n -> 0 < n < i64_max ->
  path_retained (blocks s) (blk_parent blk) ->
  exists m', SetTip blk s = (Ok (Some old), set_blocks m' s) /\ tip_set (blocks s) blk n m'.
Proof.
  intros HI Hg Htop Hr Hpr Hbb Hn Hret. pose proof Hg as (_ & Hp & Hh & Hph & ?).
  destruct (row_genuine _ _ _ HI Hpr) as (_ & Hprh & _ & ? & _).
  destruct (GetTip_row _ _ _ HI Htop) as [l El].
  destruct (GetFreeBranchNumber_ok (in_batch s) n HI Hbb) as (f & Hf & Hfb & ?); [lia|].
  destruct (InsertBlock_ok (in_batch s) blk f Hg Hr) as (r & Hok & Hrb & Hrp & Hrh & Hins); [lia|].
  set (m1 := <[blk_hash blk := r]> (blocks s)) in *.
  assert (HI1 : Inv m1).
  { apply Inv_insert; [done|done|done|by rewrite Hrb|lia|by rewrite Hrp, Hpr]. }
  specialize (Hins (inv_uniq _ HI1)).
  destruct (MarkAsTip_ok (set_blocks m1 (in_batch s)) blk r (n + 1))
    as (m' & Hrun & [? (rt & Ht & Hth) Hk (bs & Hp1 & Hm) Hb]);
    [done|apply lookup_insert_eq|done| |lia| |].
  { apply map_Forall_insert_2; [lia|]. eapply branches_below_mono; [exact Hbb|lia]. }
  { apply path_retained_insert; [done..|lia|done|by rewrite Hpr|done]. }
  exists m'. split.
  - unfold SetTip, row_for. run. rewrite El. cbn [take firstn step_one].
    rewrite take_0. cbn [step_one]. run. rewrite Hr. run. rewrite Hpr. run.
    rewrite get_u64_ok by lia.
    rewrite u64_small by (unfold i64_max, u64_modulus in *; lia).
    rewrite check_true by (apply Z.eqb_eq; lia).
    erewrite bind_Ok; [done|]. apply with_batch_Ok.
    rewrite (bind_Ok _ _ _ _ _ Hf), (bind_Ok _ _ _ _ _ Hins). exact Hrun.
  - split; [done| | | |].
    + exists rt. split_and!; [done..|]. destruct Ht as [Ht _].
      destruct (same_row_parent _ _ _ _ _ (Hk (blk_hash blk)) (lookup_insert_eq _ _ _) Ht).
      congruence.
    + intros h Hne. specialize (Hk h). unfold same_row in *. cbn in Hk.
      rewrite Hk. unfold m1. by rewrite lookup_insert_ne by done.
    + destruct (GetForkBranch_ok s (blk_parent blk) HI) as (bs0 & Hp0 & _).
      exists bs0. unfold attach_point, attached_path. rewrite Hr. split; [done|].
      destruct (path_inserted _ _ _ _ bs0 eq_refl HI Hr Hg Hok) as (b & Hbh & Hp2); [lia|done..|].
      cbn in Hp1. rewrite (fork_path_det _ _ _ _ Hp1 Hp2) in Hm.
      cbn in Hm. rewrite Hbh in Hm. eapply main_is_insert; [exact Hr| |exact Hm]. lia.
    + eapply branches_below_mono; [exact Hb|lia].
Qed.

Lemma SetTip_unattached s blk :
  blocks s !! blk_hash blk = None -> blocks s !! blk_parent blk = None ->
  SetTip blk s = (Ok None, s).
Proof.
  intros Hh Hp. unfold SetTip, row_for. run.
  destruct (order_by row_height DESC _) as [|[old ro] l];
    cbn [take firstn step_one]; rewrite ?take_0; cbn [step_one]; run; [done|].
  rewrite Hh. run. by rewrite Hp.
Qed.

(** ** Prune *)

Lemma Prune_run s n : n <= i64_max -> Inv (blocks s) ->
  uniq (delete_where (prune_pred n) (blocks s)) ->
  Prune n s = (Ok tt, set_blocks (delete_where (prune_pred n) (blocks s)) s).
Proof.
  intros Hn HI Hu. unfold Prune. apply with_batch_Ok.
  rewrite bind_u64_ok by done. run. by apply write_blocks_ok.
Qed.

Lemma prune_uniq m n : uniq m -> uniq (delete_where (prune_pred n) m).
Proof. intros Hu h1 h2 r1 r2 [H1 _]%prune_Some [H2 _]%prune_Some. by apply Hu. Qed.

(** ** ImportTip *)

(** Only the imported block is on the main chain afterwards. *)
Definition sole_main m h n : Prop :=
  exists r, m !! h = Some r /\ row_branch r = 0 /\ row_height r = n /\
    forall h' r', m !! h' = Some r' -> row_branch r' = 0 -> h' = h.

Lemma sole_main_ends m h n : sole_main m h n ->
  exists r, is_top m h r /\ is_low m h r /\ row_height r = n.
Proof.
  intros (r & Hr & Hb & Hn & Hall). exists r.
  unfold is_top, is_low. split_and!; try done;
    intros h' r' Hr' Hb'; rewrite (Hall _ _ Hr' Hb') in Hr'; simplify_eq; lia.
Qed.

Lemma import_body_prune s n : 0 <= n <= i64_max ->
  (n = 0 -> uniq (blocks s) /\ delete_where (prune_pred (n - 1)) (blocks s) = blocks s) ->
  uniq (blocks s) ->
  (if 0 <? n then Prune (u64 (n - 1)) else ret tt) s =
  (Ok tt, set_blocks (delete_where (prune_pred (n - 1)) (blocks s)) s).
Proof.
  intros Hn H0 Hu. destruct (Z.ltb_spec 0 n).
  - rewrite u64_small by (unfold i64_max, u64_modulus in *; lia).
    unfold Prune. apply with_batch_Ok. rewrite bind_u64_ok by lia. run.
    by apply write_blocks_ok, prune_uniq.
  - destruct H0 as [_ ->]; [lia|]. by destruct s.
Qed.

Lemma prune_nothing m n : (forall h r, m !! h = Some r -> n <= row_height r) ->
  delete_where (prune_pred (n - 1)) m = m.
Proof.
  intros H. apply map_eq. intros h. destruct (m !! h) as [r|] eqn:E.
  - apply prune_Some. split; [done|]. specialize (H _ _ E). lia.
  - apply prune_None. by left.
Qed.

Lemma rows_nonneg m h r : map_Forall row_ok m -> m !! h = Some r -> 0 <= row_height r.
Proof.
  intros Hok Hr. destruct (Hok _ _ Hr) as (_ & b & _ & _ & _ & <- & (_ & _ & _ & _ & ?)).
  lia.
Qed.

Lemma GetHeightForHash_ok s h : Inv (blocks s) ->
  GetHeightForHash h s = (Ok (row_height <$> blocks s !! h), s).
Proof.
  intros HI. unfold GetHeightForHash, row_for. run.
  destruct (blocks s !! h) as [r|] eqn:E; run; [|done].
  destruct (row_genuine _ _ _ HI E) as (_ & _ & _ & ? & _). by rewrite get_u64_ok by lia.
Qed.

(** Above the main chain. *)
Definition above_main m n : Prop :=
  forall h r, m !! h = Some r -> row_branch r = 0 -> row_height r < n.

(** What an import leaves behind. *)
Record imported m blk n m' : Prop := {
  imported_Inv : Inv m';
  imported_sole : sole_main m' (blk_hash blk) (blk_height blk);
  imported_below : branches_below m' (n + 1);
  imported_branches : forall h r, m !! h = Some r -> row_branch r <> 0 ->
    h <> blk_hash blk ->
    m' !! h = None -> row_height r < blk_height blk;
  imported_only : forall h, is_Some (m' !! h) -> h = blk_hash blk \/ is_Some (m !! h)
}.

(** The body of the update batch in [ImportTip]. *)
Definition import_body (tip : BlockData) : M Chainstate unit :=
  o <- GetHeightForHash (blk_hash tip);;
  match o with
  | Some _ => MarkAsTip tip
  | None => InsertBlock tip 0
  end;;
  if 0 <? blk_height tip then Prune (u64 (blk_height tip - 1)) else ret tt.

Lemma import_body_new s tip n : Inv (blocks s) -> genuine tip ->
  blocks s !! blk_hash tip = None -> above_main (blocks s) (blk_height tip) ->
  branches_below (blocks s) n -> 0 < n ->
  exists m', import_body tip s = (Ok tt, set_blocks m' s) /\ imported (blocks s) tip n m'.
Proof.
  intros HI Hg Hn Hab Hbb Hpos. pose proof Hg as (_ & _ & _ & _ & ?).
  destruct (InsertBlock_ok s tip 0 Hg Hn) as (r & Hok & Hrb & Hrp & Hrh & Hins);
    [unfold i64_max; lia|].
  set (m1 := <[blk_hash tip := r]> (blocks s)) in *.
  assert (Hu : uniq m1).
  { intros h1 h2 r1 r2 [[<- <-]|[? H1]]%lookup_insert_Some
      [[<- <-]|[? H2]]%lookup_insert_Some Hb Hh; [done|..].
    - specialize (Hab _ _ H2). rewrite Hrb in Hb. specialize (Hab (eq_sym Hb)). lia.
    - specialize (Hab _ _ H1). rewrite Hrb in Hb. specialize (Hab Hb). lia.
    - by eapply (inv_uniq _ HI). }
  exists (delete_where (prune_pred (blk_height tip - 1)) m1). split.
  - unfold import_body. rewrite (bind_Ok _ _ _ _ _ (GetHeightForHash_ok _ _ HI)), Hn.
    cbn [fmap option_fmap option_map]. rewrite (bind_Ok _ _ _ _ _ (Hins Hu)).
    apply (import_body_prune (set_blocks m1 s)); [lia| |done].
    intros E. split; [done|]. apply prune_nothing. intros h r' Hr'. rewrite E.
    apply (rows_nonneg m1 h); [|done]. by apply map_Forall_insert_2, HI.
  - split.
    + rewrite <- Hrh. apply Inv_import; [done..|by rewrite Hrh].
    + exists r. split_and!; [|done..|].
      * apply prune_Some. unfold m1. rewrite lookup_insert_eq. split; [done|lia].
      * intros h' r' [[[<- <-]|[? Hr']]%lookup_insert_Some K]%prune_Some Hb'; [done|].
        specialize (Hab _ _ Hr' Hb'). specialize (K Hb'). lia.
    + intros h r' [[[<- <-]|[? Hr']]%lookup_insert_Some _]%prune_Some; [lia|].
      specialize (Hbb _ _ Hr'). cbn in *. lia.
    + intros h r' Hr' Hb' Hne [Hx|(x & Hx & Hxb & _)]%prune_None.
      * apply lookup_insert_None in Hx as [? _]. congruence.
      * apply lookup_insert_Some in Hx as [[? _]|[_ ?]]; congruence.
    + intros h [r' [[[<- _]|[_ ?]]%lookup_insert_Some _]%prune_Some]; [by left|right; by eexists].
Qed.

(** When the branch of a block above the main chain has been made part of it, no
    other block of the main chain is as high as the block. *)
Lemma import_top_sole m tip rt bs d f : Inv m -> fork_path m tip bs -> m !! tip = Some rt ->
  row_branch rt <> 0 -> 0 < f -> above_main m (row_height rt) ->
  forall h r, m !! h = Some r -> reorg_tag bs d f h r = 0 -> row_height rt - 1 < row_height r ->
    h = tip.
Proof.
  intros HI Hp Hr Hnb Hf Hab h r Hr' Ht Hlt.
  destruct (reorg_tag_cases bs d f h r) as [[P _]|[(_ & _ & _ & E)|(P & L & E)]]; [|lia|].
  - apply list_elem_of_fmap in P as (b & -> & Hin).
    inversion Hp as [| |? r' b' bs' Hr'' _ Hrd Hp' Eh Ebs]; simplify_eq.
    destruct (fork_path_head _ _ _ _ (inv_rows _ HI) Hp) as [Hbh _].
    apply elem_of_cons in Hin as [->|Hin]; [done|].
    destruct (fork_path_elem _ _ _ b (inv_rows _ HI) Hp) as (r2 & ? & _ & _ & Hh2 & _);
      [set_solver|].
    destruct (fork_path_elem _ _ _ b' (inv_rows _ HI) Hp) as (r3 & ? & _ & _ & Hh3 & _);
      [set_solver|].
    pose proof (fork_path_tail_below _ _ _ _ _ (inv_rows _ HI) Hp Hin).
    rewrite Hbh in *. simplify_eq. lia.
  - rewrite E in Ht. specialize (Hab _ _ Hr' Ht). lia.
Qed.

(** The block where a fork path starts is the highest on it. *)
Lemma fork_path_top m tip rt bs : Inv m -> m !! tip = Some rt -> row_branch rt <> 0 ->
  fork_path m tip bs -> on_path bs tip /\
  forall h, on_path bs h -> forall r, m !! h = Some r -> row_height r <= row_height rt.
Proof.
  intros HI Hr Hnb Hp. split.
  - inversion Hp as [| |? r' b bs' Hr' _ Hrd Hp' Eh Ebs]; simplify_eq.
    destruct (fork_path_head _ _ _ _ (inv_rows _ HI) Hp) as [<- _].
    unfold on_path. set_solver.
  - intros h (b & -> & Hin)%list_elem_of_fmap r Hr'.
    destruct (fork_path_elem _ _ _ _ (inv_rows _ HI) Hp Hin) as (r2 & ? & _ & _ & Hh2 & _).
    simplify_eq. rewrite Hh2. exact (fork_path_heights _ _ _ _ (inv_rows _ HI) Hp Hin _ Hr).
Qed.

Lemma import_body_stored s tip rt n : Inv (blocks s) -> genuine tip ->
  blocks s !! blk_hash tip = Some rt -> above_main (blocks s) (blk_height tip) ->
  branches_below (blocks s) n -> 0 < n <= i64_max ->
  exists m', import_body tip s = (Ok tt, set_blocks m' s) /\ imported (blocks s) tip n m'.
Proof.
  intros HI (_ & _ & Hth & _ & ?) Hr Hab Hbb Hn.
  destruct (row_genuine _ _ _ HI Hr) as (_ & Hrh & _ & _ & _).
  assert (Hnb : row_branch rt <> 0) by (intros E; specialize (Hab _ _ Hr E); lia).
  destruct (GetForkBranch_ok s (blk_hash tip) HI) as (bs & Hp & _).
  destruct (last bs) as [d|] eqn:Hl.
  2: { apply last_None in Hl. subst. inversion Hp; congruence. }
  destruct (MarkAsTip_branch s tip rt bs d n) as (f & Hf & ? & Hrun); [done..|].
  set (m1 := retag (reorg_tag bs (blk_height d) f) (blocks s)) in *.
  assert (Hd : forall d', last bs = Some d' -> blk_height d = blk_height d') by congruence.
  assert (Hu : uniq m1) by (apply (reorg_uniq _ HI _ _ _ _ Hp Hd Hf ltac:(lia) bs); done).
  destruct (fork_path_top _ _ _ _ HI Hr Hnb Hp) as [Hon Hple]. rewrite Hrh, <- Hth in Hple.
  exists (delete_where (prune_pred (blk_height tip - 1)) m1). split.
  - unfold import_body. rewrite (bind_Ok _ _ _ _ _ (GetHeightForHash_ok _ _ HI)), Hr.
    cbn [fmap option_fmap option_map]. rewrite (bind_Ok _ _ _ _ _ Hrun).
    apply (import_body_prune (set_blocks m1 s)); [lia| |done].
    intros E. split; [done|]. apply prune_nothing. intros h r' Hr'. rewrite E.
    apply (rows_nonneg m1 h); [|done].
    eapply reorg_rows; eauto; lia.
  - pose proof (import_top_sole (blocks s) _ rt bs (blk_height d) f HI Hp Hr Hnb ltac:(lia)) as Hzero.
    rewrite Hrh, <- Hth in Hzero. specialize (Hzero Hab).
    split.
    + eapply Inv_import_stored; [done|exact Hp|done|done|lia|exact Hr|done|lia|done|done].
    + exists (set_branch 0 rt). split_and!; [| done|cbn; lia|].
      * apply prune_Some. unfold m1. rewrite retag_lookup, Hr. cbn.
        rewrite tag_path by done. split; [done|lia].
      * intros h' r' [(r0 & Hr0 & ->)%retag_Some K]%prune_Some Hb'. cbn in *.
        apply (Hzero _ _ Hr0 Hb'). lia.
    + intros h r' [Hr' _]%prune_Some. by apply (reorg_below (blocks s) bs (blk_height d) f n Hbb) in Hr'.
    + intros h r' Hr' Hb' Hne [Hx|(x & (x0 & Hx0 & ->)%retag_Some & _ & Hxh)]%prune_None.
      * apply retag_None in Hx. congruence.
      * cbn in Hxh. simplify_eq. lia.
    + intros h [r' [(r & ? & _)%retag_Some _]%prune_Some]. right. by eexists.
Qed.

Lemma ImportTip_run s tip n : Inv (blocks s) -> genuine tip ->
  above_main (blocks s) (blk_height tip) -> branches_below (blocks s) n ->
  0 < n <= i64_max ->
  exists m', ImportTip tip s = (Ok tt, set_blocks m' s) /\ imported (blocks s) tip n m'.
Proof.
  intros HI Hg Hab Hbb Hn. pose proof Hg as (_ & _ & _ & _ & ?).
  assert (Hbody : exists m', import_body tip (in_batch s) = (Ok tt, set_blocks m' (in_batch s))
            /\ imported (blocks s) tip n m').
  { destruct (blocks s !! blk_hash tip) as [rt|] eqn:Et.
    - by eapply (import_body_stored (in_batch s)).
    - apply (import_body_new (in_batch s)); done || lia. }
  destruct Hbody as (m' & Hrun & Himp). exists m'. split; [|done].
  destruct (sole_main_ends _ _ _ (imported_sole _ _ _ _ Himp)) as (r & Ht & Hl & Hh).
  unfold ImportTip.
  assert (Hfin : (with_batch (import_body tip);;
            lowest <- GetLowestUnprunedHeight;;
            check (u64 lowest =? blk_height tip);;
            top <- GetTipHeight;; check (u64 top =? blk_height tip)) s
            = (Ok tt, set_blocks m' s)).
  { rewrite (bind_Ok _ _ _ _ _ (with_batch_Ok _ _ _ _ Hrun)).
    rewrite (bind_Ok _ _ _ _ _ (GetLowestUnprunedHeight_ok (set_blocks m' s) _ _
              (imported_Inv _ _ _ _ Himp) Hl)), Hh.
    rewrite u64_small by (unfold i64_max, u64_modulus in *; lia).
    rewrite check_true by by apply Z.eqb_refl.
    rewrite (bind_Ok _ _ _ _ _ (GetTipHeight_ok (set_blocks m' s) _ _
              (imported_Inv _ _ _ _ Himp) Ht)), Hh.
    rewrite u64_small by (unfold i64_max, u64_modulus in *; lia).
    unfold check. by rewrite Z.eqb_refl. }
  destruct (decide (blocks s = ∅)) as [E|E].
  - rewrite (bind_Ok _ _ _ _ _ (GetTipHeight_empty _ E)). cbn. run. exact Hfin.
  - destruct (is_top_exists _ HI E) as (ht & rt & Htt).
    rewrite (bind_Ok _ _ _ _ _ (GetTipHeight_ok _ _ _ HI Htt)).
    destruct Htt as (Hrt & Hbt & _). specialize (Hab _ _ Hrt Hbt).
    destruct (row_genuine _ _ _ HI Hrt) as (_ & _ & _ & ? & _).
    destruct (Z.eqb_spec (row_height rt) (-1)); [lia|].
    rewrite u64_small by (unfold i64_max, u64_modulus in *; lia).
    rewrite check_true by by apply Z.ltb_lt. exact Hfin.
Qed.
End Proofs.
