(* ===== verification/ChainCrash.v ===== *)
(** * Interrupted updates of the chainstate

    An update that does not succeed, because it throws or because the process is
    aborted while it runs, leaves no trace in the database: whatever was written
    was written inside an open savepoint, which SQLite rolls back. *)

From S2P Require Import Prelude Json BlockData Chainstate ChainTree ChainQueries ChainstateProofs.

(** An operation that only reads. *)
Definition readonly {A} (m : M Chainstate A) : Prop := forall s, (m s).2 = s.

(** The process stopped inside the operation. *)
Definition aborted {A} (r : result A) : bool :=
  match r with Ok _ | Throw _ => false | _ => true end.

(** The savepoints that were open stay as they are, and if the operation ends in
    the program (by returning or by an exception), no other one is open. *)
Definition framed {A} (m : M Chainstate A) : Prop := forall s,
  exists l, savepoints (m s).2 = l ++ savepoints s /\
            (aborted (m s).1 = false -> l = []).

(** All or nothing: seen from a database without open savepoint, the operation
    succeeds, or the contents of the database are the old ones. *)
Definition atomic {A} (m : M Chainstate A) : Prop := forall s,
  savepoints s = [] ->
  (is_Ok (m s).1 = true /\ savepoints (m s).2 = []) \/
  (is_Ok (m s).1 = false /\ recover (m s).2 = s).

Create HintDb crash discriminated.

(** ** Operations that only read *)

Section Readonly.
Context {A B : Type}.

Lemma readonly_ret (a : A) : readonly (ret a). Proof. by intros s. Qed.
Lemma readonly_fatal : readonly (@fatal _ A). Proof. by intros s. Qed.
Lemma readonly_undefined : readonly (@undefined _ A). Proof. by intros s. Qed.
Lemma readonly_diverge : readonly (@diverge _ A). Proof. by intros s. Qed.
Lemma readonly_lift (x : result A) : readonly (lift x). Proof. by intros s. Qed.
Lemma readonly_get : readonly get. Proof. by intros s. Qed.
Lemma readonly_check b : readonly (check b). Proof. intros s. by destruct b. Qed.

Lemma readonly_bind (m : M Chainstate A) (k : A -> M Chainstate B) :
  readonly m -> (forall a, readonly (k a)) -> readonly (bind m k).
Proof.
  intros Hm Hk s. unfold bind. specialize (Hm s).
  destruct (m s) as [[] s'] eqn:E; cbn in *; subst; [apply Hk|done..].
Qed.
End Readonly.

#[export] Hint Resolve readonly_ret readonly_fatal readonly_undefined readonly_diverge
  readonly_lift readonly_get readonly_check : crash.

(** Decides [readonly] by the shape of the program. *)
Ltac readonly :=
  repeat first
    [ solve [auto with crash]
    | apply readonly_bind; [|intros]
    | case_match ].

Lemma readonly_traverse {A B} (f : A -> M Chainstate B) l :
  (forall x, readonly (f x)) -> readonly (traverse f l).
Proof. intros Hf. induction l; cbn; readonly. Qed.

Lemma readonly_step_one {A} (l : list A) : readonly (step_one l).
Proof. unfold step_one. readonly. Qed.

Lemma readonly_bind_u64 v : readonly (bind_u64 v).
Proof. unfold bind_u64. readonly. Qed.

Lemma readonly_get_u64 v : readonly (get_u64 v).
Proof. unfold get_u64. readonly. Qed.

#[export] Hint Resolve readonly_traverse readonly_step_one readonly_bind_u64
  readonly_get_u64 : crash.

Section Ops.
Context {J : JsonCpp} {C : BlockCodec}.

Lemma readonly_row_for h : readonly (row_for h).
Proof. unfold row_for. readonly. Qed.

Lemma readonly_GetMainchainHeight o : readonly (GetMainchainHeight o).
Proof. unfold GetMainchainHeight. readonly. Qed.

Lemma readonly_GetFreeBranchNumber : readonly GetFreeBranchNumber.
Proof. unfold GetFreeBranchNumber. readonly. Qed.

#[local] Hint Resolve readonly_row_for : crash.

Lemma readonly_GetHeightForHash h : readonly (GetHeightForHash h).
Proof. unfold GetHeightForHash. readonly. Qed.

Lemma readonly_read_row x : readonly (read_row x).
Proof. unfold read_row. readonly. Qed.

#[local] Hint Resolve readonly_read_row : crash.

Lemma readonly_fork_loop fuel h acc : readonly (fork_loop fuel h acc).
Proof. revert h acc. induction fuel; intros; cbn; readonly. Qed.

Lemma readonly_GetForkBranch h : readonly (GetForkBranch h).
Proof. unfold GetForkBranch. apply readonly_bind; [apply readonly_get|]. intros. apply readonly_fork_loop. Qed.
End Ops.

#[export] Hint Resolve readonly_row_for readonly_GetMainchainHeight
  readonly_GetFreeBranchNumber readonly_GetHeightForHash readonly_GetForkBranch : crash.

(** ** Operations that write *)

Lemma framed_readonly {A} (m : M Chainstate A) : readonly m -> framed m.
Proof. intros H s. exists []. by rewrite (H s). Qed.

Lemma framed_bind {A B} (m : M Chainstate A) (k : A -> M Chainstate B) :
  framed m -> (forall a, framed (k a)) -> framed (bind m k).
Proof.
  intros Hm Hk s. unfold bind. destruct (Hm s) as (l & Hl & Ha).
  destruct (m s) as [r s'] eqn:E; cbn in *.
  destruct r; cbn in *; try (by exists l).
  specialize (Ha eq_refl). subst. cbn in Hl. rewrite <- Hl. apply Hk.
Qed.

Lemma framed_write m : framed (write_blocks m).
Proof. intros s. exists []. unfold write_blocks, bind, check. by destruct (unique_ok m). Qed.

Lemma framed_with_batch {A} (m : M Chainstate A) : framed m -> framed (with_batch m).
Proof.
  intros Hm s. unfold with_batch, sql_savepoint, modify.
  destruct (Hm {| blocks := blocks s; variables := variables s;
                  savepoints := (blocks s, variables s) :: savepoints s |}) as (l & Hl & Ha).
  destruct (m _) as [r s'] eqn:E; cbn in *.
  destruct r; cbn in *;
    [| |eexists; split; [rewrite Hl; by rewrite cons_middle, app_assoc|done]..];
    rewrite (Ha eq_refl) in Hl; cbn in Hl; exists [];
    unfold sql_rollback_to, sql_release, bind; by rewrite Hl.
Qed.

#[export] Hint Resolve framed_write framed_with_batch : crash.

Ltac framed :=
  repeat first
    [ solve [auto with crash]
    | apply framed_readonly; solve [readonly]
    | apply framed_with_batch
    | apply framed_bind; [|intros]
    | case_match ].

Lemma framed_forM {A} (l : list A) f : (forall x, framed (f x)) -> framed (forM l f).
Proof. intros Hf. induction l; cbn; framed. Qed.

#[export] Hint Resolve framed_forM : crash.

Section Writes.
Context {J : JsonCpp} {C : BlockCodec}.

Lemma framed_UpdateBranch P b : framed (UpdateBranch P b).
Proof. unfold UpdateBranch. framed. Qed.

#[local] Hint Resolve framed_UpdateBranch : crash.

Lemma framed_InsertBlock blk b : framed (InsertBlock blk b).
Proof. unfold InsertBlock. framed. Qed.

Lemma framed_MarkAsTip blk : framed (MarkAsTip blk).
Proof. unfold MarkAsTip. framed. Qed.

Lemma framed_Prune n : framed (Prune n).
Proof. unfold Prune. framed. Qed.
End Writes.

#[export] Hint Resolve framed_UpdateBranch framed_InsertBlock framed_MarkAsTip
  framed_Prune : crash.

(** ** Atomic operations *)

Lemma atomic_readonly {A} (m : M Chainstate A) : readonly m -> atomic m.
Proof.
  intros H s Hs. rewrite (H s). destruct (is_Ok (m s).1); [by left|right].
  split; [done|]. unfold recover. by rewrite Hs.
Qed.

Lemma atomic_with_batch {A} (m : M Chainstate A) : framed m -> atomic (with_batch m).
Proof.
  intros Hm s Hs. unfold with_batch, sql_savepoint, modify.
  destruct (Hm {| blocks := blocks s; variables := variables s;
                  savepoints := (blocks s, variables s) :: savepoints s |}) as (l & Hl & Ha).
  destruct (m _) as [r s'] eqn:E; cbn in *. rewrite Hs in Hl.
  destruct r; cbn in *.
  - rewrite (Ha eq_refl) in Hl. left. unfold sql_release, bind. by rewrite Hl.
  - rewrite (Ha eq_refl) in Hl. right.
    unfold sql_rollback_to, sql_release, bind. rewrite Hl. cbn.
    split; [done|]. unfold recover. cbn. rewrite <- Hs. by destruct s.
  - right. split; [done|]. unfold recover. rewrite Hl, last_snoc, <- Hs. by destruct s.
  - right. split; [done|]. unfold recover. rewrite Hl, last_snoc, <- Hs. by destruct s.
  - right. split; [done|]. unfold recover. rewrite Hl, last_snoc, <- Hs. by destruct s.
Qed.

Lemma atomic_then {A B} (m : M Chainstate A) (k : A -> M Chainstate B) :
  readonly m -> (forall a, atomic (k a)) -> atomic (bind m k).
Proof.
  intros Hm Hk s Hs. unfold bind. specialize (Hm s).
  destruct (m s) as [r s'] eqn:E; cbn in *; subst s'.
  destruct r; cbn; [by apply Hk|right; unfold recover; by rewrite Hs..].
Qed.

Lemma atomic_ret {A B} (m : M Chainstate A) (b : B) : atomic m -> atomic (m;; ret b).
Proof.
  intros Hm s Hs. specialize (Hm s Hs). unfold bind.
  destruct (m s) as [r s']; by destruct r.
Qed.

(** Decides [atomic]: a program that reads, then runs one update batch. *)
Ltac atomic :=
  repeat first
    [ apply atomic_with_batch; solve [framed]
    | apply atomic_readonly; solve [readonly]
    | apply atomic_ret
    | apply atomic_then; [solve [readonly]|intros]
    | case_match ].

Section Atomic.
Context {J : JsonCpp} {C : BlockCodec}.

Lemma atomic_SetTip blk : atomic (SetTip blk).
Proof. unfold SetTip. atomic. Qed.

Lemma atomic_Prune n : atomic (Prune n).
Proof. unfold Prune. atomic. Qed.

Lemma framed_import tip : framed (
    o <- GetHeightForHash (blk_hash tip);;
    match o with
    | Some _ => MarkAsTip tip
    | None => InsertBlock tip 0
    end;;
    if 0 <? blk_height tip then Prune (u64 (blk_height tip - 1)) else ret tt).
Proof. framed. Qed.
End Atomic.
