(* ===== verification/ChainSanity.v ===== *)
(** * SanityCheck

    [SanityCheck] decides a declarative condition on the table, [Sane], which the invariant
    implies. *)

From S2P Require Import Prelude Json BlockData Chainstate ChainTree ChainQueries ChainstateProofs ChainCrash.

Section Sanity.
Context {J : JsonCpp} {C : BlockCodec} {CL : BlockCodecLaws C} {U : Universe}.
Implicit Types (m : gmap string row) (h : string) (r : row) (s : Chainstate)
  (blk : BlockData).

(** ** The rows of one branch *)

Lemma sanity_row_ok m s h r b acc : Inv m -> m !! h = Some r -> row_block (h, r) b ->
  acc.1 = -1 \/ (acc.1 = row_height r + 1 /\ acc.2 = h) ->
  sanity_row acc (h, r) s = (Ok (row_height r, row_parent r), s).
Proof.
  intros HI Hr (Hrd & Hh & Hp & Ht) Hacc. cbn in *. unfold sanity_row. cbn.
  destruct (row_genuine _ _ _ HI Hr) as (_ & _ & _ & ? & _).
  rewrite get_u64_ok by lia. rewrite (lift_Ok_bind _ _ _ _ Hrd).
  rewrite check_true by by apply bool_decide_eq_true.
  rewrite check_true by by apply bool_decide_eq_true.
  rewrite check_true by by apply Z.eqb_eq.
  destruct (Z.eqb_spec acc.1 (-1)); [by run|].
  destruct Hacc as [?|[Ha ->]]; [done|]. run.
  rewrite check_true by (apply Z.eqb_eq; lia).
  by rewrite check_true by by apply bool_decide_eq_true.
Qed.

(** The fold over a branch from a block downwards ends at the lowest block of the
    branch. *)
Lemma sanity_fold m s h r acc (n : nat) : Inv m -> m !! h = Some r ->
  (Z.to_nat (row_height r) < n)%nat ->
  acc.1 = -1 \/ (acc.1 = row_height r + 1 /\ acc.2 = h) ->
  exists hb rb, m !! hb = Some rb /\ row_branch rb = row_branch r /\
    (forall p, m !! row_parent rb = Some p -> row_branch p <> row_branch r) /\
    foldM sanity_row acc (branch_rows m (row_branch r) (row_height r)) s =
    (Ok (row_height rb, row_parent rb), s).
Proof.
  intros HI. revert h r acc. induction n as [|n IH]; intros h r acc Hr Hn Hacc; [lia|].
  destruct (row_block_exists _ _ _ HI Hr) as (b & Hrb & _).
  destruct (row_genuine _ _ _ HI Hr) as (_ & _ & _ & ? & _).
  rewrite (branch_rows_step _ _ _ HI Hr). cbn [foldM].
  rewrite (bind_Ok _ _ _ _ _ (sanity_row_ok _ s _ _ _ _ HI Hr Hrb Hacc)).
  destruct (m !! row_parent r) as [p|] eqn:Ep; [destruct (decide _) as [Epb|Epb]|].
  - pose proof (parent_height _ _ _ _ HI Hr Ep).
    destruct (row_genuine _ _ _ HI Ep) as (_ & _ & _ & ? & _).
    destruct (IH (row_parent r) p (row_height r, row_parent r)) as (hb & rb & ? & ? & ? & Hf);
      [done|lia|right; cbn; split; [lia|done]|].
    exists hb, rb. rewrite Epb in *. done.
  - exists h, r. split_and!; [done..| |done]. intros p' Hp'. congruence.
  - exists h, r. split_and!; [done..| |done]. intros p' Hp'. congruence.
Qed.

Lemma whole_branch m b : Inv m -> (exists h r, m !! h = Some r /\ row_branch r = b) ->
  exists h r, m !! h = Some r /\ row_branch r = b /\
    order_by row_height DESC (select (on_branch b) m) = branch_rows m b (row_height r).
Proof.
  intros HI (h0 & r0 & H0 & Hb0).
  destruct (order_by row_height DESC (select (on_branch b) m)) as [|[h r] l] eqn:E.
  { apply order_by_nil in E.
    assert ((h0, r0) ∈ select (on_branch b) m).
    { apply elem_of_select. split; [done|]. by apply Z.eqb_eq. }
    rewrite E in *. set_solver. }
  pose proof E as E'. apply order_by_head in E' as [Hin Hmax].
  apply elem_of_select in Hin as [Hr Hb]. apply Z.eqb_eq in Hb.
  exists h, r. split_and!; [done..|]. rewrite <- E. apply order_by_unique.
  - intros [h1 r1] [h2 r2] H1%elem_of_select H2%elem_of_select Hk. cbn in Hk.
    destruct H1 as [H1 K1], H2 as [H2 K2]. unfold on_branch in *. zb.
    assert (h1 = h2) as -> by (apply (inv_uniq _ HI _ _ r1 r2); congruence). congruence.
  - apply branch_rows_sorted.
  - apply NoDup_Permutation; [apply NoDup_branch_rows|apply NoDup_select|].
    intros [h' r']. rewrite elem_of_branch_rows, elem_of_select. unfold on_branch.
    rewrite Z.eqb_eq. split; [tauto|]. intros [Hr' Hb']. split_and!; [done..|].
    specialize (Hmax (h', r')). cbn in Hmax. apply Hmax. apply elem_of_select.
    split; [done|]. by apply Z.eqb_eq.
Qed.

Lemma sanity_branch_ok s b : Inv (blocks s) -> b <> 0 ->
  (exists h r, blocks s !! h = Some r /\ row_branch r = b) ->
  sanity_branch b s = (Ok tt, s).
Proof.
  intros HI Hb Hex. unfold sanity_branch. run.
  destruct (whole_branch _ _ HI Hex) as (h & r & Hr & Hrb & ->).
  destruct (sanity_fold (blocks s) s h r (-1, EmptyString) (S (Z.to_nat (row_height r))))
    as (hb & rb & Hhb & Hbb & Hend & Hf); [done..|lia|by left|].
  rewrite Hrb in *. rewrite (bind_Ok _ _ _ _ _ Hf). cbn beta iota.
  unfold row_for. run.
  destruct (blocks s !! row_parent rb) as [p|] eqn:Ep.
  - destruct (row_genuine _ _ _ HI Ep) as (_ & _ & _ & _ & ?). run.
    rewrite get_u64_ok by done. specialize (Hend _ eq_refl).
    rewrite check_true by by apply negb_true_iff, Z.eqb_neq.
    rewrite (parent_height _ _ _ _ HI Hhb Ep). unfold check. by rewrite Z.eqb_refl.
  - run. destruct (is_low_exists _ HI) as (hl & rl & Hl); [by intros E; rewrite E in Hr|].
    rewrite (bind_Ok _ _ _ _ _ (GetLowestUnprunedHeight_ok _ _ _ HI Hl)).
    destruct Hl as (Hl & Hlb & _).
    unfold check. rewrite (proj2 (Z.leb_le _ _)); [done|].
    eapply (inv_anchored _ HI); [exact Hhb|congruence|done|exact Hl|done].
Qed.

Lemma elem_of_branches m b :
  b ∈ remove_dups ((fun x : string * row => row_branch x.2) <$> map_to_list m) <->
  exists h r, m !! h = Some r /\ row_branch r = b.
Proof.
  rewrite elem_of_remove_dups, list_elem_of_fmap. split.
  - intros ([h r] & -> & Hin%elem_of_map_to_list). by exists h, r.
  - intros (h & r & Hr & <-). exists (h, r). split; [done|]. by apply elem_of_map_to_list.
Qed.

Lemma SanityCheck_Inv s : Inv (blocks s) -> SanityCheck s = (Ok tt, s).
Proof.
  intros HI. unfold SanityCheck. rewrite get_bind, get_u64_ok by lia.
  destruct (u32 _ =? 0) eqn:Hne; [done|]. apply Z.eqb_neq in Hne.
  assert (Hne' : blocks s <> ∅) by (intros E%map_size_empty_iff; rewrite E in Hne; done).
  erewrite bind_Ok.
  2: { apply forM_pure. intros b (h & r & Hr & Hb)%elem_of_branches.
       destruct (row_genuine _ _ _ HI Hr) as (_ & _ & _ & _ & ?).
       rewrite get_u64_ok by lia. destruct (Z.eqb_spec b 0); [done|].
       apply sanity_branch_ok; [done..|]. by exists h, r. }
  unfold check. rewrite bool_decide_eq_true_2; [done|].
  apply elem_of_branches. by apply inv_main.
Qed.

(** ** What a passing check tells *)

(** The condition that the check decides, for the blocks off the main chain:
    each is stored under its own hash and parent, and its parent is stored one
    block below, or else it sits at or below the lowest main-chain block. *)
Record Sane m : Prop := {
  sane_main : m <> ∅ -> exists h r, m !! h = Some r /\ row_branch r = 0;
  sane_row : forall h r, m !! h = Some r -> row_branch r <> 0 ->
    0 <= row_branch r /\ 0 <= row_height r /\ exists b, row_block (h, r) b;
  sane_link : forall h r, m !! h = Some r -> row_branch r <> 0 ->
    match m !! row_parent r with
    | Some p => row_height p = row_height r - 1 /\
        (row_branch p = row_branch r \/
         forall h' r', m !! h' = Some r' -> row_branch r' = row_branch r ->
           row_height r <= row_height r')
    | None => forall h0 r0, m !! h0 = Some r0 -> row_branch r0 = 0 ->
        row_height r <= row_height r0
    end
}.

(** The links that the fold over a branch checks. *)
Fixpoint chain (acc : Z * string) (l : list (string * row)) (acc' : Z * string) : Prop :=
  match l with
  | [] => acc' = acc
  | x :: l' =>
      (acc.1 = -1 \/ (row_height x.2 = acc.1 - 1 /\ x.1 = acc.2)) /\
      0 <= row_height x.2 /\ (exists b, row_block x b) /\
      chain (row_height x.2, row_parent x.2) l' acc'
  end.

Lemma get_u64_inv {S} v a (s s' : S) : get_u64 v s = (Ok a, s') -> a = v /\ 0 <= v /\ s = s'.
Proof. unfold get_u64. intros H. run_inv. by zb. Qed.

Lemma lift_inv {S A} (x : result A) a (s s' : S) : lift x s = (Ok a, s') -> x = Ok a /\ s = s'.
Proof. unfold lift. by intros [= -> ->]. Qed.

Lemma sanity_row_inv s s' acc x acc' : sanity_row acc x s = (Ok acc', s') ->
  s' = s /\ acc' = (row_height x.2, row_parent x.2) /\ chain acc [x] acc'.
Proof.
  unfold sanity_row. intros H. run_inv.
  match goal with H : get_u64 _ _ = _ |- _ => apply get_u64_inv in H as (-> & ? & ->) end.
  match goal with H : lift _ _ = _ |- _ => apply lift_inv in H as (? & ->) end.
  repeat match goal with H : bool_decide _ = true |- _ => apply bool_decide_eq_true in H end.
  zb. cbn [chain]. destruct (Z.eqb_spec acc.1 (-1)); run_inv.
  - split_and!; try done; [by left|]. eexists. done.
  - repeat match goal with H : bool_decide _ = true |- _ => apply bool_decide_eq_true in H end.
    zb. split_and!; try done; [by right|]. eexists. done.
Qed.

Lemma sanity_fold_inv l s s' acc acc' : foldM sanity_row acc l s = (Ok acc', s') ->
  s' = s /\ chain acc l acc'.
Proof.
  revert s acc. induction l as [|x l IH]; intros s acc H; cbn [foldM] in H; run_inv; [done|].
  match goal with H : sanity_row _ _ _ = _ |- _ =>
    apply sanity_row_inv in H as (-> & -> & (? & ? & ? & _)) end.
  apply IH in H as [-> ?]. cbn. done.
Qed.

Lemma chain_end l acc acc' : chain acc l acc' ->
  acc.1 = -1 \/ 0 <= acc.1 -> forall x, x ∈ l -> acc'.1 <= row_height x.2.
Proof.
  revert acc. induction l as [|y l IH]; cbn; intros acc; [set_solver|].
  intros (_ & ? & _ & Hc) _ x [->|Hx]%elem_of_cons.
  - clear IH. revert y acc' Hc H. induction l as [|z l IH]; cbn; intros y acc'; [by intros ->|].
    intros ([?|[Hz _]] & ? & _ & Hc) ?; [lia|]. specialize (IH z acc' Hc). cbn in *. lia.
  - eapply IH; [exact Hc|cbn; lia|done].
Qed.

Lemma chain_link l acc acc' x : chain acc l acc' -> x ∈ l ->
  0 <= row_height x.2 /\ (exists b, row_block x b) /\
  ((exists y, y ∈ l /\ y.1 = row_parent x.2 /\ row_height y.2 = row_height x.2 - 1) \/
   acc' = (row_height x.2, row_parent x.2)).
Proof.
  revert acc. induction l as [|y l IH]; cbn; intros acc; [set_solver|].
  intros (_ & Hh & Hb & Hc) [->|Hx]%elem_of_cons.
  - split_and!; [done..|]. destruct l as [|z l]; [by right|]. left.
    destruct Hc as ([?|[? ?]] & _); cbn in *; [lia|]. exists z. split; [set_solver|done].
  - destruct (IH _ Hc Hx) as (? & ? & [(z & ? & ?)|?]); split_and!; try done; [|by right].
    left. exists z. set_solver.
Qed.

Lemma sanity_branch_inv s s' b : sanity_branch b s = (Ok tt, s') -> b <> 0 ->
  s' = s /\ exists low,
    chain (-1, EmptyString) (order_by row_height DESC (select (on_branch b) (blocks s))) low /\
    match blocks s !! low.2 with
    | Some p => row_branch p <> b /\ row_height p = low.1 - 1
    | None => exists l, GetLowestUnprunedHeight s = (Ok l, s) /\ low.1 <= l
    end.
Proof.
  unfold sanity_branch. rewrite get_bind. intros H Hb.
  apply bind_Ok_inv in H as ([lh ep] & s1 & Hf & H).
  apply sanity_fold_inv in Hf as [-> Hc].
  unfold row_for in H. rewrite bind_assoc, get_bind, ret_bind in H.
  destruct (blocks s !! ep) as [p|] eqn:Ep; run_inv.
  - match goal with H : get_u64 _ _ = _ |- _ => apply get_u64_inv in H as (-> & ? & ->) end.
    match goal with H : negb _ = true |- _ => apply negb_true_iff in H end.
    split; [done|]. exists (lh, ep). split; [done|]. cbn. rewrite Ep. by zb.
  - match goal with H : GetLowestUnprunedHeight _ = _ |- _ => pose proof H as Hl end.
    pose proof (readonly_GetMainchainHeight ASC s) as Hro.
    unfold GetLowestUnprunedHeight in *. rewrite Hl in Hro. cbn in Hro. subst.
    split; [done|]. exists (lh, ep). split; [done|]. cbn. rewrite Ep.
    eexists. split; [done|]. by zb.
Qed.

(** The height that [GetLowestUnprunedHeight] returns is a lower bound. *)
Lemma GetLowestUnprunedHeight_bound s l : GetLowestUnprunedHeight s = (Ok l, s) ->
  forall h r, blocks s !! h = Some r -> row_branch r = 0 -> l <= row_height r.
Proof.
  unfold GetLowestUnprunedHeight, GetMainchainHeight. run. intros H h r Hr Hb.
  assert (Hin : (h, r) ∈ order_by row_height ASC (select (on_branch 0) (blocks s))).
  { apply elem_of_order_by, elem_of_select. split; [done|]. by apply Z.eqb_eq. }
  destruct (order_by _ _ _) as [|[h0 r0] l0] eqn:E; [set_solver|].
  apply order_by_head in E as [_ Hmin].
  cbn [take firstn step_one] in H. rewrite take_0 in H. cbn [step_one] in H.
  rewrite ret_bind in H. run_inv.
  specialize (Hmin (h, r)). cbn in Hmin. apply Hmin. apply elem_of_select.
  split; [done|]. by apply Z.eqb_eq.
Qed.

Lemma forM_inv {A} (f : A -> M Chainstate unit) (P : A -> Prop) l s s' :
  (forall x s1, x ∈ l -> f x s = (Ok tt, s1) -> s1 = s /\ P x) ->
  forM l f s = (Ok tt, s') -> s' = s /\ Forall P l.
Proof.
  induction l as [|x l IH]; cbn; intros Hf H; run_inv; [by split|].
  match goal with H : f x s = _, u : unit |- _ => destruct u;
    apply Hf in H as [-> Hx]; [|set_solver] end.
  apply IH in H as [-> ?]; [|set_solver]. split; [done|]. by constructor.
Qed.

Lemma elem_of_branch_list (m : gmap string row) b (x : string * row) :
  x ∈ order_by row_height DESC (select (on_branch b) m) <->
  m !! x.1 = Some x.2 /\ row_branch x.2 = b.
Proof.
  rewrite elem_of_order_by. destruct x as [h r]. rewrite elem_of_select.
  unfold on_branch. by rewrite Z.eqb_eq.
Qed.

(** One branch that passed. *)
Definition branch_passed s b : Prop :=
  0 <= b /\ (b <> 0 -> exists low,
    chain (-1, EmptyString) (order_by row_height DESC (select (on_branch b) (blocks s))) low /\
    match blocks s !! low.2 with
    | Some p => row_branch p <> b /\ row_height p = low.1 - 1
    | None => exists l, GetLowestUnprunedHeight s = (Ok l, s) /\ low.1 <= l
    end).

Lemma SanityCheck_inv s s' : SanityCheck s = (Ok tt, s') ->
  Z.of_nat (size (blocks s)) < u32_modulus ->
  s' = s /\ (blocks s = ∅ \/ exists h r, blocks s !! h = Some r /\ row_branch r = 0) /\
  forall h r, blocks s !! h = Some r -> branch_passed s (row_branch r).
Proof.
  intros H Hsz. unfold SanityCheck in H. rewrite get_bind, get_u64_ok in H by lia.
  rewrite u32_small in H by lia. destruct (Z.eqb_spec (Z.of_nat (size (blocks s))) 0) as [E|E].
  { run_inv. assert (blocks s' = ∅) as -> by (apply map_size_empty_iff; lia).
    split_and!; [done|by left|]. intros h r. by rewrite lookup_empty. }
  cbn zeta in H. apply bind_Ok_inv in H as ([] & s1 & Hf & H).
  apply (forM_inv _ (branch_passed s)) in Hf as [-> Hall].
  - apply check_inv in H as [Hm%bool_decide_eq_true ->]. split; [done|].
    apply elem_of_branches in Hm as (h & r & ? & ?). split; [right; by exists h, r|].
    intros h' r' Hr'. rewrite Forall_forall in Hall. apply Hall.
    apply elem_of_branches. by exists h', r'.
  - intros b s2 _ Hb. apply bind_Ok_inv in Hb as (a & s3 & Hg & Hb).
    apply get_u64_inv in Hg as (-> & ? & <-).
    destruct (Z.eqb_spec b 0) as [->|Hne]; [run_inv; by split_and!|].
    apply sanity_branch_inv in Hb as [-> ?]; [|done]. by split_and!.
Qed.

Lemma SanityCheck_Sane s s' : Z.of_nat (size (blocks s)) < u32_modulus ->
  SanityCheck s = (Ok tt, s') -> s' = s /\ Sane (blocks s).
Proof.
  intros Hsz H. destruct (SanityCheck_inv _ _ H Hsz) as (-> & Hm & Hp). split; [done|].
  split.
  - intros Hne. by destruct Hm.
  - intros h r Hr Hb. destruct (Hp _ _ Hr) as [? Hl]. destruct (Hl Hb) as (low & Hc & _).
    destruct (chain_link _ _ _ (h, r) Hc) as (? & ? & _); [by apply elem_of_branch_list|done].
  - intros h r Hr Hb. destruct (Hp _ _ Hr) as [? Hl]. destruct (Hl Hb) as (low & Hc & Hend).
    destruct (chain_link _ _ _ (h, r) Hc) as (? & ? & [([h1 r1] & H1 & Hpar & Hh)| ->]);
      [by apply elem_of_branch_list|..]; cbn in *.
    + apply elem_of_branch_list in H1 as [H1 ?]. cbn in *. subst h1. rewrite H1.
      split; [done|by left].
    + destruct (blocks s !! row_parent r) as [p|] eqn:Ep.
      * destruct Hend as [? ?]. split; [done|right]. intros h' r' Hr' Hb'.
        apply (chain_end _ _ _ Hc (or_introl eq_refl) (h', r')). by apply elem_of_branch_list.
      * intros h0 r0 Hr0 Hb0. destruct Hend as (l & Hlow & ?).
        pose proof (GetLowestUnprunedHeight_bound _ _ Hlow _ _ Hr0 Hb0). lia.
Qed.

(** ** The check decides

    It only reads, and when the data of all rows are readable, then it ends, with success or
    with an aborted check. *)

Definition decides {A} (m : M Chainstate A) s : Prop :=
  m s = (Fatal, s) \/ exists a, m s = (Ok a, s).

Lemma decides_ret {A} (a : A) s : decides (ret a) s.
Proof. right. by exists a. Qed.

Lemma decides_check b s : decides (check b) s.
Proof. destruct b; [right; by exists tt|by left]. Qed.

Lemma decides_bind {A D} (m : M Chainstate A) (k : A -> M Chainstate D) s :
  decides m s -> (forall a, m s = (Ok a, s) -> decides (k a) s) -> decides (bind m k) s.
Proof.
  unfold decides, bind. intros [->|[a Ha]] Hk; [by left|]. rewrite Ha. by apply Hk.
Qed.

Lemma decides_get_u64 v s : decides (get_u64 v) s.
Proof. apply decides_bind; [apply decides_check|intros; apply decides_ret]. Qed.

Lemma decides_row_for h s : decides (row_for h) s.
Proof. right. by eexists. Qed.

Lemma decides_forM {A} (f : A -> M Chainstate unit) l s : (forall x, decides (f x) s) ->
  decides (forM l f) s.
Proof.
  intros Hf. induction l as [|x l IH]; [apply decides_ret|]. cbn [forM].
  apply decides_bind; [apply Hf|done].
Qed.

Lemma decides_foldM {A D} (f : D -> A -> M Chainstate D) l s :
  (forall d x, x ∈ l -> decides (f d x) s) -> forall d, decides (foldM f d l) s.
Proof.
  induction l as [|x l IH]; intros Hf d; [apply decides_ret|]. cbn [foldM].
  apply decides_bind; [apply Hf; set_solver|]. intros d' _. apply IH. set_solver.
Qed.

Create HintDb decides.
#[local] Hint Resolve decides_ret decides_check decides_get_u64 decides_row_for : decides.

Lemma decides_lowest s : decides GetLowestUnprunedHeight s.
Proof.
  unfold GetLowestUnprunedHeight, GetMainchainHeight. apply decides_bind; [right; by eexists|].
  intros s1 [= <-]. apply decides_bind.
  - destruct (order_by _ _ _) as [|x l]; cbn [take firstn step_one]; [auto with decides|].
    rewrite take_0. apply decides_ret.
  - intros [[h r]|] _; auto with decides.
Qed.

Lemma decides_sanity_row s acc h r : row_ok h r -> decides (sanity_row acc (h, r)) s.
Proof.
  intros (_ & b & Hb & _). unfold sanity_row. cbn [fst snd].
  apply decides_bind; [auto with decides|].
  intros height _. apply decides_bind; [right; exists b; unfold lift; by rewrite Hb|].
  intros blk _. repeat (apply decides_bind; [auto with decides|intros _ _]).
  - destruct (_ =? -1); [auto with decides|].
    apply decides_bind; [auto with decides|intros _ _]. auto with decides.
  - auto with decides.
Qed.

Lemma SanityCheck_decides s : map_Forall row_ok (blocks s) -> decides SanityCheck s.
Proof.
  intros Hok. unfold SanityCheck. apply decides_bind; [right; by eexists|]. intros s1 [= <-].
  apply decides_bind; [auto with decides|]. intros n _. destruct (_ =? 0); [auto with decides|].
  apply decides_bind; [apply decides_forM|auto with decides]. intros b.
  apply decides_bind; [auto with decides|]. intros b' _. destruct (b' =? 0); [auto with decides|].
  unfold sanity_branch. apply decides_bind; [right; by eexists|]. intros s1 [= <-].
  apply decides_bind.
  - apply decides_foldM. intros d [h r] [Hr _]%elem_of_branch_list.
    apply decides_sanity_row. by apply (Hok h r).
  - intros [lh ep] _. apply decides_bind; [auto with decides|]. intros [p|] _.
    + apply decides_bind; [auto with decides|]. intros b1 _.
      apply decides_bind; auto with decides.
    + apply decides_bind; [apply decides_lowest|auto with decides].
Qed.

(** A table that is not sane does not pass. *)
Lemma SanityCheck_not_Sane s : map_Forall row_ok (blocks s) ->
  Z.of_nat (size (blocks s)) < u32_modulus -> ~ Sane (blocks s) -> SanityCheck s = (Fatal, s).
Proof.
  intros Hok Hs Hn. destruct (SanityCheck_decides s Hok) as [?|[[] H]]; [done|].
  by apply SanityCheck_Sane in H as [_ ?].
Qed.
End Sanity.
