(* ===== verification/ChainstateProps.v ===== *)
(** * The promises of the chainstate

    The contract of the class [Chainstate]: for a database that satisfies the
    invariant, what [SetTip], [ImportTip], [Prune], [GetForkBranch] and
    [SanityCheck] do; and that the invariant holds in every state that a sequence
    of these operations reaches. *)

From S2P Require Import Prelude Json BlockData Chainstate ChainTree ChainQueries ChainstateProofs ChainSanity ChainCrash.

Section Spec.
Context {J : JsonCpp} {C : BlockCodec} {CL : BlockCodecLaws C} {U : Universe}.

(** ** Sequences of operations *)

Inductive op :=
  | OpImport (tip : BlockData)
  | OpSet (blk : BlockData)
  | OpPrune (n : Z).

Definition exec (o : op) : M Chainstate unit :=
  match o with
  | OpImport tip => ImportTip tip
  | OpSet blk => SetTip blk;; ret tt
  | OpPrune n => Prune n
  end.

(** What the callers must respect: blocks agree with their hashes, an imported
    tip is above the current one, the tip is never pruned, and no chain is
    activated whose fork point has been pruned away. *)
Definition admissible (s : Chainstate) (o : op) : Prop :=
  match o with
  | OpImport tip => genuine tip /\ above_main (blocks s) (blk_height tip)
  | OpSet blk => genuine blk /\
      path_retained (blocks s) (attach_point (blocks s) blk)
  | OpPrune n => n <= i64_max /\
      exists h r, blocks s !! h = Some r /\ row_branch r = 0 /\ n < row_height r
  end.

Inductive reachable : nat -> Chainstate -> Prop :=
  | reachable_init : reachable 0 SetupSchema
  | reachable_step k s o r s' :
      reachable k s -> admissible s o -> exec o s = (r, s') -> reachable (S k) s'.

Lemma SetTip_run s blk n : Inv (blocks s) -> genuine blk ->
  branches_below (blocks s) n -> 0 < n < i64_max ->
  path_retained (blocks s) (attach_point (blocks s) blk) ->
  is_Some (blocks s !! attach_point (blocks s) blk) ->
  exists old ro m', is_top (blocks s) old ro /\
    SetTip blk s = (Ok (Some old), set_blocks m' s) /\ tip_set (blocks s) blk n m'.
Proof.
  intros HI Hg Hb Hn Hret [ra Ha].
  destruct (is_top_exists _ HI) as (old & ro & Ht); [by intros E; rewrite E in Ha|].
  exists old, ro. unfold attach_point in *.
  destruct (blocks s !! blk_hash blk) as [r|] eqn:Er.
  - destruct (SetTip_known s blk r n old ro) as (m' & ? & ?); [done..|]. by exists m'.
  - destruct (SetTip_new s blk ra n old ro) as (m' & ? & ?); [done..|]. by exists m'.
Qed.

(** One admissible operation succeeds, and keeps the invariant. *)
Lemma step_Inv s o n : Inv (blocks s) -> branches_below (blocks s) n ->
  0 < n < i64_max -> admissible s o ->
  exists m', exec o s = (Ok tt, set_blocks m' s) /\ Inv m' /\ branches_below m' (n + 2).
Proof.
  intros HI Hb Hn. destruct o as [tip|blk|u]; cbn [exec admissible].
  - intros [Hg Ha]. destruct (ImportTip_run s tip n) as (m' & ? & [? _ ? _ _]); [done..|lia|].
    exists m'. split_and!; [done..|]. eapply branches_below_mono; [done|lia].
  - intros [Hg Hret]. unfold attach_point in Hret.
    destruct (blocks s !! attach_point (blocks s) blk) as [ra|] eqn:Ea.
    + destruct (SetTip_run s blk n) as (? & ? & m' & ? & Hrun & [? _ _ _ ?]); [done..|].
      exists m'. by rewrite (bind_Ok _ _ _ _ _ Hrun).
    + exists (blocks s). unfold attach_point in Ea.
      destruct (blocks s !! blk_hash blk) eqn:Eh; [congruence|].
      rewrite (bind_Ok _ _ _ _ _ (SetTip_unattached s blk Eh Ea)).
      split_and!; [by destruct s|done|]. eapply branches_below_mono; [done|lia].
  - intros (Hu & h & r & Hr & Hrb & Hlt).
    exists (delete_where (prune_pred u) (blocks s)).
    split_and!; [apply Prune_run; [done..|by apply prune_uniq, HI]|by eapply Inv_prune|].
    intros h' r' [Hr' _]%prune_Some. specialize (Hb _ _ Hr'). cbn in *. lia.
Qed.

Lemma reachable_Inv k s : reachable k s -> 2 * Z.of_nat k + 1 < i64_max ->
  Inv (blocks s) /\ branches_below (blocks s) (2 * Z.of_nat k + 1).
Proof.
  induction 1 as [|k s o r s' Hr IH Ha Hx]; intros Hk.
  - split; [apply Inv_empty|]. apply map_Forall_empty.
  - destruct IH as [HI Hb]; [lia|].
    destruct (step_Inv s o _ HI Hb) as (m' & Hrun & HI' & Hb'); [lia|done|].
    rewrite Hrun in Hx. simplify_eq. split; [done|]. cbn.
    eapply branches_below_mono; [exact Hb'|lia].
Qed.

(** ** The walk to the main chain *)

(** The reference for [GetForkBranch]: go from parent to parent until the main
    chain, or a block that is not stored. *)
Fixpoint walk (fuel : nat) (m : gmap string row) (h : string) : list string :=
  match fuel with
  | O => []
  | S fuel' =>
      match m !! h with
      | Some r => if row_branch r =? 0 then [] else h :: walk fuel' m (row_parent r)
      | None => []
      end
  end.

Lemma walk_fork_path m h bs fuel : Inv m -> fork_path m h bs ->
  (forall r, m !! h = Some r -> (Z.to_nat (row_height r) < fuel)%nat) ->
  walk fuel m h = map blk_hash bs.
Proof.
  intros HI Hp. revert fuel. induction Hp as [h r Hr Hb|h Hr|h r b bs Hr Hb Hrd Hp IH];
    intros fuel Hf; (destruct fuel as [|fuel]; [try done|cbn; rewrite Hr]).
  - by rewrite (proj2 (Z.eqb_eq _ _) Hb).
  - done.
  - specialize (Hf _ Hr). lia.
  - rewrite (proj2 (Z.eqb_neq _ _) Hb).
    destruct (fork_path_head m h b bs (inv_rows _ HI)) as [-> _];
      [by eapply fork_path_step|].
    f_equal. apply IH. intros p Ep. specialize (Hf _ Hr).
    destruct (row_genuine _ _ _ HI Ep) as (_ & _ & _ & ? & _).
    pose proof (parent_height _ _ _ _ HI Hr Ep). lia.
Qed.

(** ** The theorems *)

(** C1.  [SetTip] on a block that is stored, or whose parent is: it succeeds,
    names the previous tip, makes the block the tip, leaves all other stored blocks
    as they are, and the main chain becomes the branch of the new tip on top of
    what the old main chain has below its fork point.  The invariant is kept.  The
    fork point must not have been pruned. *)
Theorem SetTip_reorganises s blk n
    (HI : Inv (blocks s)) (Hg : genuine blk)
    (Hb : branches_below (blocks s) n) (Hn : 0 < n < i64_max)
    (Hret : path_retained (blocks s) (attach_point (blocks s) blk))
    (Hat : is_Some (blocks s !! attach_point (blocks s) blk)) :
  exists old ro m', is_top (blocks s) old ro /\
    SetTip blk s = (Ok (Some old), set_blocks m' s) /\
    Inv m' /\
    (exists r, is_top m' (blk_hash blk) r /\ row_height r = blk_height blk /\
       row_parent r = blk_parent blk) /\
    (forall h, h <> blk_hash blk -> same_row (blocks s) m' h) /\
    (exists bs, fork_path (blocks s) (attach_point (blocks s) blk) bs /\
       main_is (blocks s) (attached_path (blocks s) blk bs) (blk_height blk) m').
Proof.
  destruct (SetTip_run s blk n) as (old & ro & m' & Ht & Hr & []); [done..|].
  by exists old, ro, m'.
Qed.

(** [SetTip] on a block that is not stored and whose parent is not stored
    either returns without a result, and does not touch the database. *)
Theorem SetTip_detached s blk (Hh : blocks s !! blk_hash blk = None)
    (Hp : blocks s !! blk_parent blk = None) :
  SetTip blk s = (Ok None, s).
Proof. by apply SetTip_unattached. Qed.

(** C5.  Every state that is reached from an empty database by admissible imports,
    new tips and prunings satisfies the invariant of the block tree and passes
    [SanityCheck], and there no admissible operation fails: no check aborts, no statement
    violates a constraint of the schema; and the invariant and the check hold again
    afterwards.  (The number of operations is bounded by the branch numbers that a signed
    64-bit column can hold.) *)
Theorem reachable_sane k s o (Hr : reachable k s) (Hk : 2 * Z.of_nat k + 1 < i64_max)
    (Ho : admissible s o) :
  Inv (blocks s) /\ SanityCheck s = (Ok tt, s) /\ (exec o s).1 = Ok tt /\
  Inv (blocks (exec o s).2) /\ SanityCheck (exec o s).2 = (Ok tt, (exec o s).2).
Proof.
  destruct (reachable_Inv k s Hr Hk) as [HI Hb].
  destruct (step_Inv s o _ HI Hb) as (m' & Hrun & HI' & _); [lia|done|].
  rewrite Hrun. cbn. split_and!; [done| |done|done|]; by apply SanityCheck_Inv.
Qed.

(** C33.  [GetForkBranch] is the walk along parents: its loop over whole branches
    terminates, it returns exactly the stored blocks from the given one down to the
    main chain, each as it was written, and it reports failure exactly when the
    given block is not stored. *)
Theorem GetForkBranch_walk s h (HI : Inv (blocks s)) :
  exists bs, GetForkBranch h s = (Ok (bool_decide (is_Some (blocks s !! h)), bs), s) /\
    map blk_hash bs = walk (S (Z.to_nat (hgt h))) (blocks s) h /\
    (forall b, b ∈ bs -> exists r, blocks s !! blk_hash b = Some r /\
       row_branch r <> 0 /\ block_read (row_data r) = Ok b).
Proof.
  destruct (GetForkBranch_ok s h HI) as (bs & Hp & Hrun). exists bs.
  split; [done|]. split.
  - symmetry. apply walk_fork_path; [done..|]. intros r Hr.
    destruct (row_genuine _ _ _ HI Hr) as (_ & -> & _). lia.
  - intros b Hb. by apply (fork_path_data _ h bs b (inv_rows _ HI)).
Qed.

(** [ImportTip] of a block above the current tip succeeds; afterwards that
    block is the only one of the main chain, and so both its tip and its lowest
    block, and blocks that were stored off the main chain at or above that height
    are still there. *)
Theorem ImportTip_resets s tip n
    (HI : Inv (blocks s)) (Hg : genuine tip)
    (Ha : above_main (blocks s) (blk_height tip))
    (Hb : branches_below (blocks s) n) (Hn : 0 < n <= i64_max) :
  exists m', ImportTip tip s = (Ok tt, set_blocks m' s) /\ Inv m' /\
    sole_main m' (blk_hash tip) (blk_height tip) /\
    GetTipHeight (set_blocks m' s) = (Ok (blk_height tip), set_blocks m' s) /\
    GetLowestUnprunedHeight (set_blocks m' s) = (Ok (blk_height tip), set_blocks m' s) /\
    (forall h r, blocks s !! h = Some r -> row_branch r <> 0 ->
       blk_height tip <= row_height r -> is_Some (m' !! h)).
Proof.
  destruct (ImportTip_run s tip n) as (m' & Hrun & [HI' Hs Hb' Hk _]); [done..|].
  exists m'. split_and!; [done..| | |].
  - destruct (sole_main_ends _ _ _ Hs) as (r & Ht & _ & <-). by eapply GetTipHeight_ok.
  - destruct (sole_main_ends _ _ _ Hs) as (r & _ & Hl & <-).
    by eapply GetLowestUnprunedHeight_ok.
  - intros h r Hr Hrb Hh. destruct (m' !! h) as [r'|] eqn:E; [done|].
    destruct (decide (h = blk_hash tip)) as [->|Hne].
    + destruct Hs as (x & Hx & _). congruence.
    + specialize (Hk h r Hr Hrb Hne E). lia.
Qed.

(** [Prune] removes exactly the main-chain blocks up to the given height.  If
    the tip is above it, the invariant is kept and the tip stays the tip. *)
Theorem Prune_below_tip s n h r (HI : Inv (blocks s)) (Hn : n <= i64_max)
    (Ht : is_top (blocks s) h r) (Hlt : n < row_height r) :
  exists m', Prune n s = (Ok tt, set_blocks m' s) /\ Inv m' /\ is_top m' h r /\
    (forall h' r', m' !! h' = Some r' <->
       blocks s !! h' = Some r' /\ ~ (row_branch r' = 0 /\ row_height r' <= n)).
Proof.
  destruct Ht as (Hr & Hb & Hmax).
  exists (delete_where (prune_pred n) (blocks s)). split_and!.
  - apply Prune_run; [done..|]. by apply prune_uniq, HI.
  - by eapply Inv_prune.
  - split_and!; [|done|].
    + by apply prune_Some.
    + intros h' r' [Hr' _]%prune_Some. by eapply Hmax.
  - intros h' r'. rewrite prune_Some. split; intros [Hr' K]; (split; [done|]).
    + intros [K1 K2]. specialize (K K1). lia.
    + intros K1. destruct (Z.le_gt_cases (row_height r') n); [|lia]. by destruct K.
Qed.

(** C35.  A database that passes [SanityCheck] is sane: it has a main chain unless
    it is empty, and every block off the main chain is stored as written, below it
    comes its parent one height lower (on the same branch, unless the block is the
    lowest of its branch), or the block is at or below the lowest block of the main
    chain. *)
Theorem SanityCheck_sound s s' (Hs : Z.of_nat (size (blocks s)) < u32_modulus)
    (Hrun : SanityCheck s = (Ok tt, s')) :
  s' = s /\ Sane (blocks s).
Proof. by apply SanityCheck_Sane. Qed.

(** C34.  New tips and prunings are atomic: if [SetTip] or [Prune] does not return,
    because of an exception, a failed check or a violated constraint at any
    point of the update, then what is on disk afterwards is the database from
    before the call. *)
Theorem updates_atomic s blk n (Hs : savepoints s = []) :
  (is_Ok (SetTip blk s).1 = false -> recover (SetTip blk s).2 = s) /\
  (is_Ok (Prune n s).1 = false -> recover (Prune n s).2 = s).
Proof.
  split; intros Hf.
  - destruct (atomic_SetTip blk s Hs) as [[Ht _]|[_ H]]; [congruence|done].
  - destruct (atomic_Prune n s Hs) as [[Ht _]|[_ H]]; [congruence|done].
Qed.

(** The queries by height and by hash agree: the hash at a height is the
    stored main-chain block with that height, and there is at most one; and the
    height of any stored block is found by its hash. *)
Theorem queries_agree s (HI : Inv (blocks s)) (n : Z) (Hn : n <= i64_max) :
  exists o, GetHashForHeight n s = (Ok o, s) /\
    (forall h, o = Some h <-> exists r, blocks s !! h = Some r /\ row_branch r = 0 /\
                                       row_height r = n) /\
    (forall h, GetHeightForHash h s = (Ok (row_height <$> blocks s !! h), s)).
Proof.
  destruct (GetHashForHeight_ok s n HI Hn) as (o & Hrun & Ho).
  exists o. split_and!; [done..|]. intros h. by apply GetHeightForHash_ok.
Qed.

(** Heights beyond the signed 64-bit range of the database never reach it:
    looking one up or storing a block at one aborts, and changes nothing. *)
Theorem height_overflow_aborts s blk b n (Hn : i64_max < n) (Hb : i64_max < blk_height blk) :
  GetHashForHeight n s = (Fatal, s) /\ InsertBlock blk b s = (Fatal, s) /\
  recover (Prune n s).2 = recover s.
Proof.
  assert (Hf : forall A v (k : unit -> M Chainstate A) s1, i64_max < v ->
            bind (bind_u64 v) k s1 = (Fatal, s1)).
  { intros A v k s1 Hv. unfold bind, bind_u64, check. by rewrite (proj2 (Z.leb_gt _ _) Hv). }
  unfold GetHashForHeight, InsertBlock, Prune, with_batch, sql_savepoint, modify.
  rewrite !Hf by done. split_and!; [done..|]. unfold recover. cbn.
  destruct s as [m v [|x l]]; [done|]. cbn [savepoints]. rewrite last_cons_cons.
  destruct (last (x :: l)) as [[]|] eqn:E; [done|]. by apply last_None in E.
Qed.
(** The block at which a reorganisation would attach has been pruned: no main-chain block
    is as low as the end of the branch. *)
Lemma not_retained m h : Inv m -> ~ path_retained m h -> exists bs d,
  fork_path m h bs /\ last bs = Some d /\ m !! blk_parent d = None /\
  forall h' r', m !! h' = Some r' -> row_branch r' = 0 -> blk_height d < row_height r'.
Proof.
  intros HI Hret.
  destruct (GetForkBranch_ok {| blocks := m; variables := ∅; savepoints := [] |} h HI)
    as (bs & Hp & _). cbn in Hp.
  assert (Hd : ~ (forall d, last bs = Some d -> fork_retained m d)).
  { intros H. apply Hret. intros bs' d' Hp' Hl. apply H. by rewrite (fork_path_det _ _ _ _ Hp Hp'). }
  destruct (last bs) as [d|] eqn:El; [|by destruct Hd].
  assert (Hno : ~ fork_retained m d) by (intros ?; apply Hd; by intros ? [= <-]).
  assert (Hpar : m !! blk_parent d = None).
  { destruct (m !! blk_parent d) eqn:E; [|done]. destruct Hno. left. by eexists. }
  exists bs, d. split_and!; [done..|]. intros h' r' Hr' Hb'.
  destruct (fork_path_elem _ _ _ d (inv_rows _ HI) Hp) as (rd & Hrd & Hbd & Hdp & Hdh & _);
    [by apply last_Some_elem_of|]. rewrite <- Hdp in Hpar.
  pose proof (inv_anchored _ HI _ _ Hrd Hbd Hpar _ _ Hr' Hb') as Hle.
  destruct (decide (row_height r' = blk_height d)) as [E|]; [|lia].
  destruct Hno. right. by exists h', r'.
Qed.

(** A reorganisation onto such a branch takes the whole main chain off, and the lowest block
    of it then hangs in the air above the new main chain. *)
Lemma reorg_not_Sane m h bs d f hl rl : Inv m -> fork_path m h bs -> last bs = Some d ->
  is_low m hl rl -> m !! row_parent rl = None -> blk_height d < row_height rl -> 0 < f ->
  ~ Sane (retag (reorg_tag bs (blk_height d) f) m).
Proof.
  intros HI Hp Hl (Hrl & Hbl & Hmin) Hpar Hlt Hf Hs.
  set (g := reorg_tag bs (blk_height d) f) in *.
  destruct (fork_path_elem _ _ _ d (inv_rows _ HI) Hp) as (rd & Hrd & Hbd & _ & Hdh & _);
    [by apply last_Some_elem_of|].
  assert (Hgl : g hl rl = f).
  { destruct (reorg_tag_cases bs (blk_height d) f hl rl)
      as [[P2 _]|[(_ & _ & _ & E2)|(_ & L2 & _)]]; [|done|specialize (L2 Hbl); lia].
    apply list_elem_of_fmap in P2 as (b & -> & Hin).
    destruct (fork_path_elem _ _ _ b (inv_rows _ HI) Hp Hin) as (r & Hr & Hb & _).
    simplify_eq. }
  pose proof (sane_link _ Hs hl (set_branch (g hl rl) rl)) as Hlink.
  rewrite retag_lookup, Hrl in Hlink. specialize (Hlink eq_refl). cbn in Hlink.
  rewrite (proj2 (retag_None g m _) Hpar) in Hlink.
  specialize (Hlink ltac:(lia) (blk_hash d) (set_branch (g (blk_hash d) rd) rd)).
  rewrite retag_lookup, Hrd in Hlink. specialize (Hlink eq_refl). cbn in Hlink.
  assert (Hgd : g (blk_hash d) rd = 0).
  { unfold g, reorg_tag. rewrite decide_True; [done|].
    apply list_elem_of_fmap. exists d. split; [done|]. by apply last_Some_elem_of. }
  specialize (Hlink Hgd). lia.
Qed.

(** C38.  The exception that the other theorems make for pruned fork points is needed: to
    every stored block off the main chain whose fork point has been pruned away, when also the
    parent of the lowest main-chain block is not stored (as pruning leaves it), [SetTip]
    succeeds, although the database was sane before; but the table that it leaves never
    passes [SanityCheck]. *)
Theorem SetTip_past_pruned_fork s blk r n hl rl
    (HI : Inv (blocks s)) (Hg : genuine blk)
    (Hs : Z.of_nat (size (blocks s)) < u32_modulus)
    (Hr : blocks s !! blk_hash blk = Some r) (Hoff : row_branch r <> 0)
    (Hb : branches_below (blocks s) n) (Hn : 0 < n < i64_max)
    (Hret : ~ path_retained (blocks s) (blk_hash blk))
    (Hl : is_low (blocks s) hl rl) (Hpar : blocks s !! row_parent rl = None) :
  exists old ro m', SanityCheck s = (Ok tt, s) /\ is_top (blocks s) old ro /\
    SetTip blk s = (Ok (Some old), set_blocks m' s) /\
    (exists r', is_top m' (blk_hash blk) r' /\ row_height r' = blk_height blk) /\
    SanityCheck (set_blocks m' s) = (Fatal, set_blocks m' s).
Proof.
  destruct (is_top_exists _ HI) as (old & ro & Ht); [by intros E; rewrite E in Hr|].
  destruct (not_retained _ _ HI Hret) as (bs & d & Hp & Hd & _ & Hlow).
  destruct (MarkAsTip_branch (in_batch s) blk r bs d n) as (f & _ & Hf & Hrun); [done..|lia|].
  destruct Hg as (_ & Hgp & Hgh & _ & ?). destruct (row_genuine _ _ _ HI Hr) as (Hrp & Hrh & _ & ? & _).
  set (m' := retag (reorg_tag bs (blk_height d) f) (blocks s)) in *.
  exists old, ro, m'. split; [by apply SanityCheck_Inv|]. split; [done|]. split_and!.
  - apply (SetTip_known_run s blk r old ro); [done|done|done| | |exact Hrun]; congruence.
  - destruct (path_head_high (blocks s) blk r bs d (blk_height d) f) as [Htop|?]; [done..| |lia].
    exists (set_branch 0 r). split; [done|]. cbn. congruence.
  - apply SanityCheck_not_Sane; cbn [blocks set_blocks].
    + intros h r' (r0 & Hr0 & ->)%retag_Some. apply row_ok_set_branch; [|by apply (inv_rows _ HI)].
      destruct (inv_rows _ HI _ _ Hr0) as [? _].
      destruct (reorg_tag_cases bs (blk_height d) f h r0) as [[_ ->]|[(_ & _ & _ & ->)|(_ & _ & ->)]]; lia.
    + replace (size m') with (size (blocks s)); [done|]. symmetry. apply retag_size.
    + apply (reorg_not_Sane _ (blk_hash blk) _ _ _ hl rl); [done..| |lia].
      by apply (Hlow hl rl); apply Hl.
Qed.
End Spec.

(** ** A concrete chain

    [g], [a], [b] is a chain from height 10; [a2], [b2], [c2] is another branch from
    [g]. *)
Module Chain.
Import Model BitsProto.

Definition tree (h : string) : string * Z :=
  if decide (h = "g") then ("f", 10)
  else if decide (h = "a") then ("g", 11)
  else if decide (h = "b") then ("a", 12)
  else if decide (h = "a2") then ("g", 11)
  else if decide (h = "b2") then ("a2", 12)
  else if decide (h = "c2") then ("b2", 13)
  else if decide (h = "z") then ("y", 20)
  else if decide (h = "f") then ("e", 9)
  else ("", 19).

#[export] Instance chain_universe : Universe := {|
  par h := (tree h).1;
  hgt h := (tree h).2
|}.

Definition blk (h : string) : BlockData := {|
  blk_hash := h; blk_parent := par h; blk_height := hgt h;
  blk_rngseed := ""; blk_metadata := JNull; blk_moves := []
|}.

Definition known : list string := ["g"; "a"; "b"; "a2"; "b2"; "c2"; "z"].

(** Membership in a list of constants, by evaluation. *)
Ltac is_known := apply (bool_decide_unpack _); vm_compute; exact I.

Lemma blk_genuine h : h ∈ known -> genuine (blk h).
Proof.
  intros Hin. repeat (apply elem_of_cons in Hin as [->|Hin]);
    [..|by apply not_elem_of_nil in Hin];
    repeat split; try constructor; try (vm_compute; congruence).
Qed.

(** Running a list of operations. *)
Fixpoint exec_all (l : list op) (s : Chainstate) : Chainstate :=
  match l with
  | [] => s
  | o :: l' => exec_all l' (exec o s).2
  end.

(** Imports [g], and attaches [a] and [b]. *)
Definition s1 : Chainstate := (exec (OpImport (blk "g")) SetupSchema).2.
Definition s2 : Chainstate := (exec (OpSet (blk "a")) s1).2.
Definition s3 : Chainstate := (exec (OpSet (blk "b")) s2).2.

(** A block on the main chain is its own attach point, and needs no branch. *)
Lemma main_retained (m : gmap string row) h r : m !! h = Some r -> row_branch r = 0 -> path_retained m h.
Proof. intros Hr Hb bs d Hp Hl. inversion Hp; simplify_eq; congruence. Qed.

(** The row of a stored block, evaluated. *)
Definition branch_of (s : Chainstate) (h : string) : option Z := row_branch <$> blocks s !! h.

Lemma on_main s h : branch_of s h = Some 0 ->
  path_retained (blocks s) h /\ is_Some (blocks s !! h).
Proof.
  unfold branch_of. destruct (blocks s !! h) as [r|] eqn:E; cbn; [|done].
  intros [= Hb]. split; [by eapply main_retained|done].
Qed.

Lemma next_attach s h : h ∈ known ->
  bool_decide (blocks s !! h = None) = true -> branch_of s (par h) = Some 0 ->
  path_retained (blocks s) (attach_point (blocks s) (blk h)) /\
  is_Some (blocks s !! attach_point (blocks s) (blk h)).
Proof.
  intros _ Hn%bool_decide_eq_true Hb. unfold attach_point. cbn. rewrite Hn.
  by apply on_main.
Qed.

Lemma reach_s1 : reachable 1 s1.
Proof.
  unfold s1. destruct (exec (OpImport (blk "g")) SetupSchema) as [r s'] eqn:E.
  eapply (reachable_step 0 SetupSchema (OpImport (blk "g"))); [constructor| |exact E].
  split; [apply blk_genuine; is_known|].
  intros h r0. cbn. by rewrite lookup_empty.
Qed.

Lemma reach_set k s h : reachable k s -> h ∈ known ->
  bool_decide (blocks s !! h = None) = true -> branch_of s (par h) = Some 0 ->
  reachable (S k) (exec (OpSet (blk h)) s).2.
Proof.
  intros Hr Hin Hn Hb. destruct (exec (OpSet (blk h)) s) as [r s'] eqn:E.
  eapply (reachable_step k s (OpSet (blk h))); [done| |exact E].
  split; [by apply blk_genuine|]. by apply next_attach.
Qed.

Lemma reach_s2 : reachable 2 s2.
Proof. apply reach_set; [apply reach_s1|is_known|vm_compute; done..]. Qed.

Lemma reach_s3 : reachable 3 s3.
Proof. apply reach_set; [apply reach_s2|is_known|vm_compute; done..]. Qed.

Lemma s3_Inv : Inv (blocks s3) /\ branches_below (blocks s3) 7.
Proof. apply (reachable_Inv 3 s3 reach_s3). done. Qed.

(** [b] is the tip; [a2] attaches to [g], and reorganises the chain. *)
Lemma SetTip_reorganises_witness :
  exists old ro m', is_top (blocks s3) old ro /\
    SetTip (blk "a2") s3 = (Ok (Some old), set_blocks m' s3) /\ Inv m'.
Proof.
  destruct (SetTip_reorganises s3 (blk "a2") 7) as (old & ro & m' & H1 & H2 & H3 & _).
  - apply s3_Inv.
  - apply blk_genuine. is_known.
  - apply s3_Inv.
  - done.
  - apply next_attach; [is_known|vm_compute; done..].
  - apply next_attach; [is_known|vm_compute; done..].
  - exact (ex_intro _ old (ex_intro _ ro (ex_intro _ m' (conj H1 (conj H2 H3))))).
Defined.

Lemma SetTip_detached_witness : SetTip (blk "z") s3 = (Ok None, s3).
Proof. apply SetTip_detached; apply (bool_decide_eq_true_1 _); vm_compute; reflexivity. Defined.

Lemma reachable_sane_witness :
  Inv (blocks s3) /\ SanityCheck s3 = (Ok tt, s3) /\ (exec (OpSet (blk "a2")) s3).1 = Ok tt /\
  Inv (blocks (exec (OpSet (blk "a2")) s3).2).
Proof.
  destruct (reachable_sane 3 s3 (OpSet (blk "a2")) reach_s3) as (H1 & H2 & H3 & H4 & _).
  - done.
  - split; [apply blk_genuine; is_known|].
    apply next_attach; [is_known|vm_compute; done..].
  - exact (conj H1 (conj H2 (conj H3 H4))).
Defined.

(** After the reorganisation, [b] is on a branch that goes down to [g]. *)
Definition s4 : Chainstate := (exec (OpSet (blk "a2")) s3).2.

Lemma reach_s4 : reachable 4 s4.
Proof. apply reach_set; [apply reach_s3|is_known|vm_compute; done..]. Qed.

Lemma s4_Inv : Inv (blocks s4).
Proof. by apply (reachable_Inv 4 s4 reach_s4). Qed.

Lemma GetForkBranch_walk_witness :
  exists bs, GetForkBranch "b" s4 = (Ok (true, bs), s4) /\ map blk_hash bs = ["b"; "a"].
Proof.
  destruct (GetForkBranch_walk s4 "b" s4_Inv) as (bs & Hrun & Hw & _). exists bs.
  rewrite Hrun, Hw. split; vm_compute; reflexivity.
Defined.

Lemma ImportTip_resets_witness :
  exists m', ImportTip (blk "z") s3 = (Ok tt, set_blocks m' s3) /\ sole_main m' "z" 20.
Proof.
  destruct (ImportTip_resets s3 (blk "z") 7) as (m' & Hrun & _ & Hs & _).
  - apply s3_Inv.
  - apply blk_genuine. is_known.
  - assert (Hall : map_Forall (fun _ r => row_branch r = 0 -> row_height r < 20) (blocks s3)).
    { apply (bool_decide_unpack _). vm_compute. exact I. }
    intros h r Hr. apply (Hall h r Hr).
  - apply s3_Inv.
  - done.
  - exact (ex_intro _ m' (conj Hrun Hs)).
Defined.

Lemma top_of s h n : row_height <$> blocks s !! h = Some n -> branch_of s h = Some 0 ->
  map_Forall (fun _ r => row_branch r = 0 -> row_height r <= n) (blocks s) ->
  exists r, is_top (blocks s) h r /\ row_height r = n.
Proof.
  unfold branch_of. destruct (blocks s !! h) as [r|] eqn:E; cbn; [|done].
  intros [= Hh] [= Hb] Hall. exists r. split; [|done]. split_and!; [done..|].
  intros h' r' Hr' ?. rewrite Hh. by apply (Hall h' r' Hr').
Qed.

Lemma s3_top : exists r, is_top (blocks s3) "b" r /\ row_height r = 12.
Proof.
  apply top_of; [vm_compute; reflexivity..|].
  apply (bool_decide_unpack _). vm_compute. exact I.
Qed.

Lemma Prune_below_tip_witness :
  exists m', Prune 11 s3 = (Ok tt, set_blocks m' s3) /\ Inv m'.
Proof.
  destruct s3_top as (r & Ht & Hh).
  destruct (Prune_below_tip s3 11 "b" r) as (m' & Hrun & HI & _).
  - apply s3_Inv.
  - done.
  - exact Ht.
  - lia.
  - exact (ex_intro _ m' (conj Hrun HI)).
Defined.

Lemma SanityCheck_sound_witness : Sane (blocks s3).
Proof.
  apply (SanityCheck_sound s3 s3); [vm_compute; done|].
  apply SanityCheck_Inv, s3_Inv.
Defined.

Lemma updates_atomic_witness :
  recover (SetTip {| blk_hash := "x"; blk_parent := "b"; blk_height := 99;
                     blk_rngseed := ""; blk_metadata := JNull; blk_moves := [] |} s3).2 = s3.
Proof.
  assert (Hs : savepoints s3 = []) by (vm_compute; reflexivity).
  refine (proj1 (updates_atomic s3 _ 0 Hs) _). vm_compute. reflexivity.
Defined.

Lemma queries_agree_witness : exists o, GetHashForHeight 11 s3 = (Ok o, s3).
Proof.
  destruct (queries_agree s3 (proj1 s3_Inv) 11) as (o & H & _); [done|].
  exact (ex_intro _ o H).
Defined.

(** A block beyond the range of the database. *)
Definition far : BlockData := {|
  blk_hash := "x"; blk_parent := "b"; blk_height := 2 ^ 63;
  blk_rngseed := ""; blk_metadata := JNull; blk_moves := []
|}.

Lemma height_overflow_aborts_witness : GetHashForHeight (2 ^ 64 - 1) s3 = (Fatal, s3).
Proof.
  exact (proj1 (height_overflow_aborts s3 far 0 (2 ^ 64 - 1)
                  ltac:(reflexivity) ltac:(reflexivity))).
Defined.

(** ** A reorganisation past pruned blocks

    After [g], [a], [b] and then the branch [a2], [b2], [c2], pruning up to [a2] removes the
    fork point [g] of the old branch [a], [b]. *)

Definition pruned : Chainstate :=
  exec_all [OpImport (blk "g"); OpSet (blk "a"); OpSet (blk "b");
            OpSet (blk "a2"); OpSet (blk "b2"); OpSet (blk "c2"); OpPrune 11] SetupSchema.
Lemma reach_pruned : reachable 7 pruned.
Proof.
  unfold pruned. cbn [exec_all].
  change (exec (OpSet (blk "b")) _).2 with s3.
  assert (H6 : reachable 6 (exec (OpSet (blk "c2")) (exec (OpSet (blk "b2")) (exec (OpSet (blk "a2")) s3).2).2).2).
  { do 3 (apply reach_set; [|is_known|vm_compute; done..]). exact reach_s3. }
  destruct (exec (OpPrune 11) _) as [r s'] eqn:E.
  eapply (reachable_step 6 _ (OpPrune 11)); [exact H6| |exact E].
  split; [done|]. destruct (top_of (exec (OpSet (blk "c2")) (exec (OpSet (blk "b2"))
    (exec (OpSet (blk "a2")) s3).2).2).2 "c2" 13) as (rt & (Hr & Hb & _) & Hh); [vm_compute; reflexivity..| |].
  { apply (bool_decide_unpack _). vm_compute. exact I. }
  exists "c2"%string, rt. split_and!; [done..|lia].
Qed.

Lemma pruned_Inv : Inv (blocks pruned) /\ branches_below (blocks pruned) 15.
Proof. by apply (reachable_Inv 7 pruned reach_pruned). Qed.

(** The branch of [b] ends at [a], whose parent is gone, and the main chain starts at height
    12. *)
Lemma cut_off s h bs d p k : Inv (blocks s) -> GetForkBranch h s = (Ok (true, bs), s) ->
  last bs = Some d -> blk_parent d = p -> blk_height d = k -> blocks s !! p = None ->
  map_Forall (fun _ r => row_branch r = 0 -> k < row_height r) (blocks s) ->
  ~ path_retained (blocks s) h.
Proof.
  intros HI Hrun Hl Hp Hk Hnone Hall Hret.
  destruct (GetForkBranch_ok s h HI) as (bs' & Hpath & Hrun'). rewrite Hrun in Hrun'.
  injection Hrun' as _ <-. destruct (Hret bs d Hpath Hl) as [[x Hx]|(h' & r & Hr & Hb & Hh)].
  - congruence.
  - specialize (Hall h' r Hr Hb). cbn in Hall. lia.
Qed.

Lemma b_not_retained : ~ path_retained (blocks pruned) "b".
Proof.
  apply (cut_off pruned "b" [blk "b"; blk "a"] (blk "a") "g" 11 (proj1 pruned_Inv)).
  - vm_compute. reflexivity.
  - reflexivity.
  - reflexivity.
  - reflexivity.
  - apply (bool_decide_eq_true_1 _). vm_compute. reflexivity.
  - apply (bool_decide_unpack _). vm_compute. exact I.
Qed.

Lemma lowest_of s h n p : row_height <$> blocks s !! h = Some n -> branch_of s h = Some 0 ->
  row_parent <$> blocks s !! h = Some p ->
  map_Forall (fun _ r => row_branch r = 0 -> n <= row_height r) (blocks s) ->
  exists r, is_low (blocks s) h r /\ row_parent r = p.
Proof.
  unfold branch_of. destruct (blocks s !! h) as [r|] eqn:E; cbn; [|done].
  intros [= Hh] [= Hb] [= Hp] Hall. exists r. split; [|done]. split_and!; [done..|].
  intros h' r' Hr' ?. rewrite Hh. by apply (Hall h' r' Hr').
Qed.

Lemma row_on s h b : branch_of s h = Some b -> exists r, blocks s !! h = Some r /\ row_branch r = b.
Proof.
  unfold branch_of. destruct (blocks s !! h) as [r|]; [|done]. intros [= <-]. by exists r.
Qed.

Lemma SetTip_past_pruned_fork_witness :
  exists old m', SetTip (blk "b") pruned = (Ok (Some old), set_blocks m' pruned) /\
    SanityCheck (set_blocks m' pruned) = (Fatal, set_blocks m' pruned).
Proof.
  destruct (row_on pruned "b" 2) as (r & Er & Hb); [vm_compute; reflexivity|].
  destruct (lowest_of pruned "b2" 12 "a2") as (rl & Hl & Hp); [vm_compute; reflexivity..| |].
  { apply (bool_decide_unpack _). vm_compute. exact I. }
  destruct (SetTip_past_pruned_fork pruned (blk "b") r 15 "b2" rl)
    as (old & ro & m' & _ & _ & Hset & _ & Hf).
  - apply pruned_Inv.
  - apply blk_genuine. is_known.
  - vm_compute. reflexivity.
  - exact Er.
  - by rewrite Hb.
  - apply pruned_Inv.
  - split; reflexivity.
  - exact b_not_retained.
  - exact Hl.
  - rewrite Hp. apply (bool_decide_eq_true_1 _). vm_compute. reflexivity.
  - exact (ex_intro _ old (ex_intro _ m' (conj Hset Hf))).
Defined.
End Chain.
