(* ===== verification/Database.v ===== *)
(** * The SQLite wrapper (src/database.cpp, src/private/database.hpp)

    Prepared statements are kept in a cache by their text; a [Statement] is a handle that
    owns an entry of the cache while it refers to it, and gives it back when it is
    destroyed or assigned to.  The SQLite library is the parameter [Sqlite].

    The theorems are about handles in variables that are prepared, moved, used and
    destroyed in any order, whatever codes SQLite returns: ownership is unique, and but for
    errors of SQLite the only way to fail is to prepare a statement that is still in use, or
    to use a handle that is empty. *)

From S2P Require Import Prelude Json BlockData Chainstate.

(** ** The library *)

Inductive sq_value :=
  | SqNull
  | SqInt (z : Z)
  | SqText (s : string)
  | SqBlob (s : string).

Definition SQLITE_OK : Z := 0.
Definition SQLITE_ROW : Z := 100.
Definition SQLITE_DONE : Z := 101.

(** The functions return their result codes; [sq_column_text] and [sq_column_blob] are
    [None] for a null pointer. *)
Class Sqlite := {
  SqDb : Type;
  SqStmt : Type;
  sq_exec : string -> M SqDb Z;
  sq_prepare : string -> M SqDb (Z * SqStmt);
  sq_clear_bindings : SqStmt -> M SqDb Z;
  sq_reset : SqStmt -> M SqDb unit;
  sq_finalize : SqStmt -> M SqDb unit;
  sq_step : SqStmt -> M SqDb Z;
  sq_changes : M SqDb Z;
  sq_close : M SqDb Z;
  sq_bind : SqStmt -> Z -> sq_value -> M SqDb Z;
  sq_column_is_null : SqStmt -> Z -> M SqDb bool;
  sq_column_int64 : SqStmt -> Z -> M SqDb Z;
  sq_column_text : SqStmt -> Z -> M SqDb (option string);
  sq_column_blob : SqStmt -> Z -> M SqDb (option string);
  sq_column_bytes : SqStmt -> Z -> M SqDb Z
}.

Section Database.
Context {SQ : Sqlite}.

Record CachedStatement := {
  cs_stmt : SqStmt;
  cs_used : bool
}.

Record Database := {
  dbh : SqDb;
  statements : gmap string CachedStatement
}.

Definition on_db {A} (m : M SqDb A) : M Database A :=
  zoom dbh (fun d s => {| dbh := d; statements := statements s |}) m.

Definition set_statements (m : gmap string CachedStatement) (s : Database) : Database :=
  {| dbh := dbh s; statements := m |}.

(** A pointer to an entry is the text of its statement: entries are never removed. *)
Definition Statement : Type := option string.

(** Dereferencing the pointer. *)
Definition entry (sql : string) : M Database CachedStatement :=
  s <- get;; match statements s !! sql with Some e => ret e | None => undefined end.

Definition set_used (sql : string) (u : bool) : M Database unit :=
  modify (fun s => set_statements
    (alter (fun e => {| cs_stmt := cs_stmt e; cs_used := u |}) sql (statements s)) s).

(** ** Entries and handles *)

Definition Acquire (sql : string) : M Database unit :=
  e <- entry sql;;
  check (negb (cs_used e));;
  set_used sql true.

Definition Release (sql : string) : M Database unit :=
  e <- entry sql;;
  check (cs_used e);;
  set_used sql false;;
  rc <- on_db (sq_clear_bindings (cs_stmt e));;
  check (rc =? SQLITE_OK);;
  on_db (sq_reset (cs_stmt e)).

Definition Clear (st : Statement) : M Database unit :=
  match st with Some sql => Release sql | None => ret tt end.

(** The new entry is acquired before it gets into the map. *)
Definition PrepareRo (sql : string) : M Database Statement :=
  s <- get;;
  match statements s !! sql with
  | Some _ => Acquire sql;; ret (Some sql)
  | None =>
      let* '(rc, stmt) := on_db (sq_prepare sql) in
      check (rc =? SQLITE_OK);;
      modify (fun s => set_statements
        (<[sql := {| cs_stmt := stmt; cs_used := true |}]> (statements s)) s);;
      ret (Some sql)
  end.

Definition Prepare (sql : string) : M Database Statement := PrepareRo sql.

(** [operator*]. *)
Definition deref (st : Statement) : M Database SqStmt :=
  match st with Some sql => e <- entry sql;; ret (cs_stmt e) | None => fatal end.

Definition Step (st : Statement) : M Database bool :=
  stmt <- deref st;;
  rc <- on_db (sq_step stmt);;
  if rc =? SQLITE_ROW then ret true
  else if rc =? SQLITE_DONE then ret false
  else fatal.

Definition Execute (st : Statement) : M Database unit :=
  b <- Step st;; check (negb b).

Definition db_Execute (sql : string) : M Database unit :=
  rc <- on_db (sq_exec sql);; check (rc =? SQLITE_OK).

Definition RowsModified : M Database Z :=
  res <- on_db sq_changes;; check (0 <=? res);; ret res.

(** ** Parameters and columns *)

Definition bind_value (st : Statement) (ind : Z) (v : sq_value) : M Database unit :=
  stmt <- deref st;;
  rc <- on_db (sq_bind stmt ind v);;
  check (rc =? SQLITE_OK).

Definition BindNull (st : Statement) (ind : Z) : M Database unit := bind_value st ind SqNull.
Definition Bind_int64 (st : Statement) (ind val : Z) : M Database unit :=
  bind_value st ind (SqInt val).
Definition Bind_uint64 (st : Statement) (ind val : Z) : M Database unit :=
  check (val <=? i64_max);; Bind_int64 st ind val.
Definition Bind_string (st : Statement) (ind : Z) (val : string) : M Database unit :=
  bind_value st ind (SqText val).
Definition BindBlob (st : Statement) (ind : Z) (val : string) : M Database unit :=
  bind_value st ind (SqBlob val).

Definition IsNull (st : Statement) (ind : Z) : M Database bool :=
  stmt <- deref st;; on_db (sq_column_is_null stmt ind).
Definition Get_int64 (st : Statement) (ind : Z) : M Database Z :=
  stmt <- deref st;; on_db (sq_column_int64 stmt ind).
Definition Get_uint64 (st : Statement) (ind : Z) : M Database Z :=
  val <- Get_int64 st ind;; check (0 <=? val);; ret val.

(** The bytes of a column: a null pointer is allowed if there are none. *)
Definition get_bytes (column : SqStmt -> Z -> M SqDb (option string)) (st : Statement) (ind : Z)
  : M Database string :=
  stmt <- deref st;;
  data <- on_db (column stmt ind);;
  len <- on_db (sq_column_bytes stmt ind);;
  if len =? 0 then ret EmptyString else
  match data with
  | None => fatal
  | Some d => ret (String.substring 0 (Z.to_nat len) d)
  end.

Definition Get_string : Statement -> Z -> M Database string := get_bytes sq_column_text.
Definition GetBlob : Statement -> Z -> M Database string := get_bytes sq_column_blob.

(** [~Database]: the entries are destroyed, and must not be in use. *)
Definition close : M Database unit :=
  s <- get;;
  forM (map_to_list (statements s)) (fun x =>
    check (negb (cs_used x.2));; on_db (sq_finalize (cs_stmt x.2)));;
  modify (set_statements ∅);;
  rc <- on_db sq_close;;
  check (rc =? SQLITE_OK).
End Database.

(** ** Handles in variables *)

(** What the program does with handles.  [OpPrepare x sql] is [x = db.Prepare (sql)], also
    for a new variable; [OpMove x y] is [x = std::move (y)]. *)
Inductive handle_op :=
  | OpPrepare (x sql : string)
  | OpMove (x y : string)
  | OpDestroy (x : string)
  | OpStep (x : string).

Section Handles.
Context {SQ : Sqlite}.

(** The database, and the handles that are not empty, by variable. *)
Definition Handles : Type := Database * gmap string string.

Definition in_db {A} (m : M Database A) : M Handles A :=
  zoom fst (fun d s => (d, s.2)) m.

Definition set_handle (x : string) (st : Statement) : M Handles unit :=
  modify (fun s => (s.1, partial_alter (fun _ => st) x s.2)).

(** [operator=] for [x = std::move (y)], where the two may be the same. *)
Definition move_assign (x y : string) : M Handles unit :=
  s <- get;;
  in_db (Clear (s.2 !! x));;
  set_handle x None;;
  s' <- get;;
  set_handle x (s'.2 !! y);;
  if bool_decide (x = y) then ret tt else set_handle y None.

Definition exec_op (op : handle_op) : M Handles unit :=
  s <- get;;
  match op with
  | OpPrepare x sql =>
      tmp <- in_db (Prepare sql);;
      in_db (Clear (s.2 !! x));;
      set_handle x tmp
  | OpMove x y => move_assign x y
  | OpDestroy x =>
      in_db (Clear (s.2 !! x));;
      set_handle x None
  | OpStep x => in_db (Step (s.2 !! x));; ret tt
  end.

(** The operation does not violate the discipline: no variable has a statement that is
    prepared, and no empty handle is used. *)
Definition allowed (op : handle_op) (s : Handles) : Prop :=
  match op with
  | OpPrepare _ sql => forall x, s.2 !! x <> Some sql
  | OpStep x => is_Some (s.2 !! x)
  | _ => True
  end.

#[export] Instance allowed_dec op s : Decision (allowed op s).
Proof.
  destruct op as [x sql|x y|x|x]; cbn; try apply _.
  refine (cast_if (decide (map_Forall (fun _ q => q <> sql) s.2))).
  - abstract (intros z Hz; by apply (m z sql)).
  - abstract (intros H; apply n; intros z q Hz ->; by apply (H z)).
Defined.

(** *** The library

    Its functions are C functions, which return; nothing is assumed of the codes with which
    they do. *)

Class SqliteReturns := {
  sr_prepare : forall sql d, exists rc stmt d', sq_prepare sql d = (Ok (rc, stmt), d');
  sr_clear : forall stmt d, exists rc d', sq_clear_bindings stmt d = (Ok rc, d');
  sr_reset : forall stmt d, exists d', sq_reset stmt d = (Ok tt, d');
  sr_finalize : forall stmt d, exists d', sq_finalize stmt d = (Ok tt, d');
  sr_step : forall stmt d, exists rc d', sq_step stmt d = (Ok rc, d');
  sr_close : forall d, exists rc d', sq_close d = (Ok rc, d')
}.

(** The code that a call returns. *)
Definition code (m : M SqDb Z) (d : SqDb) : Z :=
  match m d with (Ok rc, _) => rc | _ => SQLITE_OK end.

(** The codes of the calls that the operations make: to prepare a statement that is not in
    the cache, to clear the one that a handle gives back, and to step. *)
Definition prepare_code (sql : string) (s : Database) : Z :=
  match statements s !! sql with
  | Some _ => SQLITE_OK
  | None => code (rc <- sq_prepare sql;; ret rc.1) (dbh s)
  end.

Definition clear_code (st : Statement) (s : Database) : Z :=
  match st ≫= (fun sql => statements s !! sql) with
  | Some e => code (sq_clear_bindings (cs_stmt e)) (dbh s)
  | None => SQLITE_OK
  end.

Definition step_code (st : Statement) (s : Database) : Z :=
  match st ≫= (fun sql => statements s !! sql) with
  | Some e => code (sq_step (cs_stmt e)) (dbh s)
  | None => SQLITE_DONE
  end.

(** SQLite accepts what the operation asks for. *)
Definition accepted (op : handle_op) (s : Handles) : Prop :=
  match op with
  | OpPrepare x sql =>
      prepare_code sql s.1 = SQLITE_OK /\
      clear_code (s.2 !! x) (PrepareRo sql s.1).2 = SQLITE_OK
  | OpMove x _ | OpDestroy x => clear_code (s.2 !! x) s.1 = SQLITE_OK
  | OpStep x => step_code (s.2 !! x) s.1 = SQLITE_ROW \/ step_code (s.2 !! x) s.1 = SQLITE_DONE
  end.

#[export] Instance accepted_dec op s : Decision (accepted op s).
Proof. destruct op; cbn; apply _. Defined.

Context {SR : SqliteReturns}.

Definition in_use (s : Database) (sql : string) : bool :=
  match statements s !! sql with Some e => cs_used e | None => false end.

Lemma in_use_entry s sql : in_use s sql = true ->
  exists stmt, statements s !! sql = Some {| cs_stmt := stmt; cs_used := true |}.
Proof.
  unfold in_use. destruct (statements s !! sql) as [[stmt u]|]; [|done]. cbn. intros ->. by exists stmt.
Qed.

Lemma entry_run s sql e : statements s !! sql = Some e -> entry sql s = (Ok e, s).
Proof. intros H. unfold entry. by rewrite get_bind, H. Qed.

Lemma sq_run {A} (m : M SqDb A) (s : Database) a d : m (dbh s) = (Ok a, d) ->
  on_db m s = (Ok a, {| dbh := d; statements := statements s |}).
Proof. unfold on_db, zoom. by intros ->. Qed.

Lemma in_use_set s sql u k e : statements s !! sql = Some e ->
  in_use (set_statements (alter (fun e => {| cs_stmt := cs_stmt e; cs_used := u |}) sql
    (statements s)) s) k = if bool_decide (k = sql) then u else in_use s k.
Proof.
  intros He. unfold in_use. cbn [statements set_statements]. case_bool_decide as Hk.
  - subst k. by rewrite lookup_alter_eq, He.
  - by rewrite lookup_alter_ne.
Qed.

Lemma PrepareRo_free s sql : in_use s sql = false ->
  if decide (prepare_code sql s = SQLITE_OK) then exists s',
    PrepareRo sql s = (Ok (Some sql), s') /\
    forall k, in_use s' k = if bool_decide (k = sql) then true else in_use s k
  else (PrepareRo sql s).1 = Fatal.
Proof.
  intros Hu. unfold PrepareRo, prepare_code. rewrite get_bind. pose proof Hu as Hu2. unfold in_use in Hu2.
  destruct (statements s !! sql) as [e|] eqn:E.
  - rewrite decide_True by done. unfold Acquire, set_used.
    rewrite bind_assoc, (bind_Ok _ _ _ _ _ (entry_run _ _ _ E)).
    rewrite bind_assoc, check_true by by rewrite Hu2. rewrite modify_bind.
    eexists. split; [reflexivity|]. intros k. by apply (in_use_set _ _ _ _ e).
  - destruct (sr_prepare sql (dbh s)) as (rc & stmt & d & H).
    assert (Hc : code (rc <- sq_prepare sql;; ret rc.1) (dbh s) = rc) by (unfold code, bind; by rewrite H).
    rewrite Hc, (bind_Ok _ _ _ _ _ (sq_run _ _ _ _ H)). case_decide as Hrc.
    + rewrite check_true, modify_bind by by apply Z.eqb_eq.
      eexists. split; [reflexivity|]. intros k. unfold in_use. cbn [statements set_statements].
      case_bool_decide; [subst; by rewrite lookup_insert_eq|by rewrite lookup_insert_ne].
    + by rewrite (proj2 (Z.eqb_neq rc SQLITE_OK) Hrc).
Qed.

Lemma PrepareRo_used s sql : in_use s sql = true -> (PrepareRo sql s).1 = Fatal.
Proof.
  intros [stmt E]%in_use_entry. unfold PrepareRo, Acquire. rewrite get_bind, E.
  by rewrite bind_assoc, (bind_Ok _ _ _ _ _ (entry_run _ _ _ E)).
Qed.

(** Giving back a statement: the outcome depends on the code of the library. *)
Lemma Release_used s sql : in_use s sql = true ->
  if decide (clear_code (Some sql) s = SQLITE_OK) then exists s', Release sql s = (Ok tt, s') /\
    forall k, in_use s' k = if bool_decide (k = sql) then false else in_use s k
  else (Release sql s).1 = Fatal.
Proof.
  intros [stmt E]%in_use_entry. unfold Release, set_used, clear_code. cbn [mbind option_bind].
  rewrite E. cbn [cs_stmt].
  rewrite (bind_Ok _ _ _ _ _ (entry_run _ _ _ E)), check_true, modify_bind by done.
  match goal with |- context [bind _ _ ?x] => set (s1 := x) end.
  destruct (sr_clear stmt (dbh s)) as (rc & d1 & H1).
  assert (Hc : code (sq_clear_bindings stmt) (dbh s) = rc) by (unfold code; by rewrite H1).
  rewrite Hc, (bind_Ok _ _ _ _ _ (sq_run _ s1 _ _ H1)). case_decide as Hrc.
  - rewrite check_true by by apply Z.eqb_eq.
    destruct (sr_reset stmt d1) as (d2 & H2). eexists.
    split; [by apply (sq_run _ {| dbh := d1; statements := _ |})|].
    intros k. by apply (in_use_set s _ _ _ _ E).
  - by rewrite (proj2 (Z.eqb_neq rc SQLITE_OK) Hrc).
Qed.

Lemma Step_used s sql : in_use s sql = true ->
  if decide (step_code (Some sql) s = SQLITE_ROW \/ step_code (Some sql) s = SQLITE_DONE) then
    exists b s', Step (Some sql) s = (Ok b, s') /\ statements s' = statements s
  else (Step (Some sql) s).1 = Fatal.
Proof.
  intros [stmt E]%in_use_entry. unfold Step, deref, step_code. cbn [mbind option_bind]. rewrite E.
  rewrite bind_assoc, (bind_Ok _ _ _ _ _ (entry_run _ _ _ E)), ret_bind. cbn [cs_stmt].
  destruct (sr_step stmt (dbh s)) as (rc & d & H).
  assert (Hc : code (sq_step stmt) (dbh s) = rc) by (unfold code; by rewrite H).
  rewrite Hc, (bind_Ok _ _ _ _ _ (sq_run _ _ _ _ H)). case_decide as Hrc.
  - destruct Hrc as [-> | ->]; by eexists _, _.
  - destruct (Z.eqb_spec rc SQLITE_ROW) as [?|_]; [by destruct Hrc; left|].
    destruct (Z.eqb_spec rc SQLITE_DONE) as [?|_]; [by destruct Hrc; right|done].
Qed.

(** *** Ownership *)

(** A statement is in use just when a variable has it, and then only one has. *)
Record owned (s : Handles) : Prop := {
  ow_used : forall sql, in_use s.1 sql = true <-> exists x, s.2 !! x = Some sql;
  ow_unique : forall x y sql, s.2 !! x = Some sql -> s.2 !! y = Some sql -> x = y
}.

(** Without the statement of a variable, the others are owned as before. *)
Lemma owned_released d d' env x sql : owned (d, env) -> env !! x = Some sql ->
  (forall k, in_use d' k = if bool_decide (k = sql) then false else in_use d k) ->
  owned (d', delete x env).
Proof.
  intros [Hu Hx] E Hk. cbn [fst snd] in *. split; cbn [fst snd].
  - intros k. rewrite Hk. case_bool_decide as Ek.
    { subst k. split; [done|]. intros [y [Hne Hy]%lookup_delete_Some]. by destruct Hne; apply (Hx x y sql). }
    rewrite Hu. split; intros [y Hy]; exists y.
    { rewrite lookup_delete_ne; [done|]. congruence. }
    { by apply lookup_delete_Some in Hy as [_ ?]. }
  - intros y z k [_ Hy]%lookup_delete_Some [_ Hz]%lookup_delete_Some. by apply (Hx y z k).
Qed.

(** Giving back what a variable has. *)
Lemma owned_clear s x : owned s ->
  if decide (clear_code (s.2 !! x) s.1 = SQLITE_OK) then exists d,
    in_db (Clear (s.2 !! x)) s = (Ok tt, (d, s.2)) /\ owned (d, delete x s.2)
  else (in_db (Clear (s.2 !! x)) s).1 = Fatal.
Proof.
  intros Ho. destruct s as [d env]. cbn [fst snd] in *. unfold in_db, zoom.
  destruct (env !! x) as [sql|] eqn:E; cbn [fst snd Clear].
  - pose proof (Release_used d sql (proj2 (ow_used _ Ho sql) (ex_intro _ x E))) as Hr.
    case_decide.
    + destruct Hr as (d' & -> & Hk). exists d'. split; [done|]. by apply (owned_released d d' env x sql).
    + destruct (Release sql d) as [r d']. cbn in Hr. by subst r.
  - rewrite decide_True by done. exists d. split; [done|]. by rewrite delete_id.
Qed.

(** A variable gets a statement that was not in use. *)
Lemma owned_insert d d' env x sql : owned (d, env) -> env !! x = None -> in_use d sql = false ->
  (forall k, in_use d' k = if bool_decide (k = sql) then true else in_use d k) ->
  owned (d', <[x := sql]> env).
Proof.
  intros [Hu Hx] Ex Hfree Hk. cbn [fst snd] in *.
  assert (Hno : forall y, env !! y <> Some sql).
  { intros y Hy. assert (in_use d sql = true) by (apply Hu; by exists y). congruence. }
  split; cbn [fst snd].
  - intros k. rewrite Hk. case_bool_decide as Ek.
    + subst k. split; [|done]. intros _. exists x. by rewrite lookup_insert_eq.
    + rewrite Hu. split; intros [y Hy]; exists y.
      * rewrite lookup_insert_ne; [done|]. congruence.
      * apply lookup_insert_Some in Hy as [[_ ?]|[_ ?]]; [congruence|done].
  - intros y z k [[<- <-]|[Hy1 Hy]]%lookup_insert_Some [[<- E]|[Hz1 Hz]]%lookup_insert_Some.
    + done.
    + by destruct (Hno z).
    + subst k. by destruct (Hno y).
    + by apply (Hx y z k).
Qed.

(** A statement goes from one variable to another one. *)
Lemma owned_move d env x y : owned (d, env) -> env !! x = None -> x <> y ->
  owned (d, delete y (partial_alter (fun _ => env !! y) x env)).
Proof.
  intros [Hu Hx] Ex Hne. cbn [fst snd] in *. destruct (env !! y) as [q|] eqn:Ey.
  2: { change (partial_alter (fun _ => None) x env) with (delete x env).
       rewrite !delete_id by (rewrite ?lookup_delete_ne by done; done). by split. }
  change (partial_alter (fun _ => Some q) x env) with (<[x := q]> env). split; cbn [fst snd].
  - intros k. rewrite Hu. split.
    + intros [z Hz]. destruct (decide (z = y)) as [->|Hzy].
      * exists x. rewrite lookup_delete_ne, lookup_insert_eq by done. congruence.
      * exists z. rewrite lookup_delete_ne, lookup_insert_ne by congruence. done.
    + intros [z [_ Hz]%lookup_delete_Some]. apply lookup_insert_Some in Hz as [[_ <-]|[_ Hz]]; eauto.
  - intros z1 z2 k [H1 K1]%lookup_delete_Some [H2 K2]%lookup_delete_Some.
    apply lookup_insert_Some in K1 as [[<- <-]|[N1 K1]], K2 as [[<- E]|[N2 K2]]; try done.
    + by destruct H2; apply (Hx y z2 q).
    + subst k. by destruct H1; apply (Hx y z1 q).
    + by apply (Hx z1 z2 k).
Qed.

(** What an operation makes of the handles, or else it aborts. *)
Definition done_or_aborts (ok : Prop) (m : result unit * Handles) : Prop :=
  (ok -> exists s', m = (Ok tt, s') /\ owned s') /\ (~ ok -> m.1 = Fatal).

Lemma exec_prepare d env x sql : owned (d, env) -> (forall z, env !! z <> Some sql) ->
  done_or_aborts (accepted (OpPrepare x sql) (d, env)) (exec_op (OpPrepare x sql) (d, env)).
Proof.
  intros Ho Ha. unfold done_or_aborts, exec_op. rewrite get_bind. cbn [accepted fst snd].
  assert (Hfree : in_use d sql = false).
  { destruct (in_use d sql) eqn:E; [|done]. apply (ow_used _ Ho) in E as [z Hz]. by destruct (Ha z). }
  pose proof (PrepareRo_free d sql Hfree) as Hp. case_decide as Hpc.
  2: { split; [tauto|]. intros _. unfold bind, in_db, zoom, Prepare. cbn [fst snd].
       destruct (PrepareRo sql d) as [r d']. cbn in Hp. by subst r. }
  destruct Hp as (d1 & H1 & Hk1). rewrite H1. cbn [snd].
  rewrite bind_Ok with (a := Some sql) (s' := (d1, env))
    by (unfold in_db, zoom, Prepare; cbn [fst snd]; by rewrite H1).
  destruct (env !! x) as [old|] eqn:E.
  - assert (Hold : in_use d old = true) by (apply (ow_used _ Ho); by exists x).
    assert (Hne : old <> sql) by (intros ->; by destruct (Ha x)).
    pose proof (Release_used d1 old) as Hr. rewrite Hk1, bool_decide_eq_false_2 in Hr by done.
    specialize (Hr Hold). unfold in_db, zoom, bind, set_handle. cbn [fst snd Clear].
    case_decide as Hc; [split; [intros _|tauto]|split; [tauto|intros _]].
    + destruct Hr as (d2 & -> & Hk2). eexists. split; [reflexivity|].
      cbn [fst snd]. change (partial_alter (fun _ => Some sql) x env) with (<[x := sql]> env).
      set (m := alter (fun e => {| cs_stmt := cs_stmt e; cs_used := false |}) old (statements d)).
      rewrite <- insert_delete_eq.
      assert (Hd : forall k, in_use (set_statements m d) k = if bool_decide (k = old) then false else in_use d k).
      { apply in_use_entry in Hold as [stmt Hs]. intros k. by apply (in_use_set d old false k _ Hs). }
      apply (owned_insert (set_statements m d)).
      * by apply (owned_released d _ env x old).
      * apply lookup_delete_eq.
      * rewrite Hd, Hfree. by case_bool_decide.
      * intros k. rewrite Hk2, Hk1, Hd. repeat case_bool_decide; congruence.
    + destruct (Release old d1) as [r d2]. cbn in Hr. by subst r.
  - split; [intros _|by intros []]. eexists. split; [reflexivity|]. cbn [fst snd].
    change (partial_alter (fun _ => Some sql) x env) with (<[x := sql]> env).
    by apply (owned_insert d).
Qed.

(** Giving back what a variable has, and going on. *)
Lemma clear_then d env x (k : unit -> M Handles unit) : owned (d, env) ->
  (forall d', owned (d', delete x env) -> exists s', k tt (d', env) = (Ok tt, s') /\ owned s') ->
  done_or_aborts (clear_code (env !! x) d = SQLITE_OK) (bind (in_db (Clear (env !! x))) k (d, env)).
Proof.
  intros Ho Hk. pose proof (owned_clear (d, env) x Ho) as Hc. cbn [fst snd] in Hc.
  case_decide; (split; [intros ?|intros ?]); try done.
  - destruct Hc as (d' & Hc & Ho'). rewrite (bind_Ok _ _ _ _ _ Hc). by apply Hk.
  - unfold bind. destruct (in_db _ _) as [r s']. cbn in Hc. by subst r.
Qed.

Lemma exec_allowed op s : owned s -> allowed op s ->
  done_or_aborts (accepted op s) (exec_op op s).
Proof.
  intros Ho Ha. destruct s as [d env].
  destruct op as [x sql|x y|x|x]; cbn in Ha; [by apply exec_prepare|..];
    unfold exec_op; rewrite get_bind; cbn [fst snd] in *.
  - unfold move_assign, set_handle. rewrite get_bind. cbn [fst snd].
    apply (clear_then d env x); [done|]. intros dc Hoc. rewrite modify_bind, get_bind, modify_bind.
    cbn [fst snd]. change (partial_alter (fun _ => None) x env) with (delete x env).
    case_bool_decide as Exy.
    + subst y. eexists. split; [reflexivity|]. rewrite lookup_delete_eq.
      change (partial_alter (fun _ => None) x (delete x env)) with (delete x (delete x env)).
      by rewrite delete_delete_eq.
    + eexists. split; [reflexivity|]. cbn [fst snd].
      apply owned_move; [done|apply lookup_delete_eq|done].
  - apply (clear_then d env x); [done|]. intros dc Hoc. eexists. split; [reflexivity|]. exact Hoc.
  - destruct Ha as [sql Hx]. unfold done_or_aborts. cbn [accepted fst snd]. rewrite Hx.
    pose proof (Step_used d sql (proj2 (ow_used _ Ho sql) (ex_intro _ x Hx))) as Hs.
    unfold bind, in_db, zoom. cbn [fst snd].
    case_decide; [split; [intros _|tauto]|split; [tauto|intros _]].
    + destruct Hs as (b & d' & -> & Hst). exists (d', env). split; [done|].
      destruct Ho as [Hu Hi]. split; [|done]. intros k. cbn [fst]. rewrite <- (Hu k).
      unfold in_use. cbn [fst]. by rewrite Hst.
    + destruct (Step (Some sql) d) as [r d']. cbn in Hs. by subst r.
Qed.

Lemma exec_not_allowed op s : owned s -> ~ allowed op s -> (exec_op op s).1 = Fatal.
Proof.
  intros Ho Ha. destruct s as [d env]. unfold exec_op. rewrite get_bind. cbn [fst snd] in *.
  destruct op as [x sql|x y|x|x]; cbn in Ha; try by destruct Ha.
  - assert (Hu : in_use d sql = true).
    { destruct (in_use d sql) eqn:E; [done|]. destruct Ha. intros z Hz.
      assert (in_use d sql = true) by (apply (ow_used _ Ho); by exists z). congruence. }
    pose proof (PrepareRo_used d sql Hu) as Hp. unfold bind, in_db, zoom, Prepare. cbn [fst snd].
    destruct (PrepareRo sql d) as [r d']. cbn in Hp. by subst r.
  - destruct (env !! x) as [q|] eqn:E; [destruct Ha; by eexists|]. reflexivity.
Qed.

(** *** Closing *)

Lemma close_loop (l : list (string * CachedStatement)) : forall d,
  (Forall (fun x => cs_used x.2 = false) l -> exists d', forM l (fun x =>
     check (negb (cs_used x.2));; on_db (sq_finalize (cs_stmt x.2))) d = (Ok tt, d')) /\
  (Exists (fun x => cs_used x.2 = true) l -> (forM l (fun x =>
     check (negb (cs_used x.2));; on_db (sq_finalize (cs_stmt x.2))) d).1 = Fatal).
Proof.
  induction l as [|[k [stmt u]] l IH]; intros d; cbn [forM].
  { split; [by exists d|]. intros H. inversion H. }
  cbn [snd cs_used cs_stmt]. destruct u; cbn [negb].
  { split; [|by intros _]. intros [H _]%Forall_cons. discriminate H. }
  destruct (sr_finalize stmt (dbh d)) as (d1 & H1).
  rewrite bind_assoc, check_true, (bind_Ok _ _ _ _ _ (sq_run _ _ _ _ H1)) by done.
  split; [intros [_ H]%Forall_cons|intros [H|H]%Exists_cons; [discriminate H|]]; by apply IH.
Qed.

(** Without handles, only SQLite can refuse to close. *)
Lemma close_run s : (forall sql, in_use s sql = false) -> exists d,
  (close s).1 = if code sq_close d =? SQLITE_OK then Ok tt else Fatal.
Proof.
  intros Hu. unfold close. rewrite get_bind.
  destruct (proj1 (close_loop (map_to_list (statements s)) s)) as [s1 H1].
  { apply Forall_forall. intros [k e] He%elem_of_map_to_list. specialize (Hu k).
    unfold in_use in Hu. by rewrite He in Hu. }
  rewrite (bind_Ok _ _ _ _ _ H1), modify_bind. exists (dbh s1).
  destruct (sr_close (dbh s1)) as (rc & d & H2). unfold code. rewrite H2.
  rewrite bind_Ok with (a := rc) (s' := {| dbh := d; statements := ∅ |})
    by by apply (sq_run _ (set_statements ∅ s1)).
  unfold check. by destruct (rc =? SQLITE_OK).
Qed.

Lemma close_used s sql : in_use s sql = true -> (close s).1 = Fatal.
Proof.
  intros [stmt Hs]%in_use_entry. unfold close. rewrite get_bind.
  pose proof (proj2 (close_loop (map_to_list (statements s)) s)) as H.
  unfold bind at 1. destruct (forM _ _ s) as [r s1]. cbn [fst] in H.
  rewrite H; [done|]. apply Exists_exists. eexists. split; [apply elem_of_map_to_list, Hs|done].
Qed.

(** Ownership holds in every state that a program reaches. *)
Lemma owned_run ops : forall s0 s, owned s0 -> forM ops exec_op s0 = (Ok tt, s) -> owned s.
Proof.
  induction ops as [|op ops IH]; intros s0 s H0; cbn [forM]; [by intros [= <-]|].
  destruct (decide (allowed op s0)) as [Ha|Ha].
  - destruct (exec_allowed op s0 H0 Ha) as [Hd Hf]. destruct (decide (accepted op s0)) as [Hc|Hc].
    + destruct (Hd Hc) as (s1 & H1 & Ho1). rewrite (bind_Ok _ _ _ _ _ H1). by apply IH.
    + specialize (Hf Hc). unfold bind. destruct (exec_op op s0) as [r s1]. cbn in Hf. by subst r.
  - pose proof (exec_not_allowed op s0 H0 Ha) as Hf. unfold bind.
    destruct (exec_op op s0) as [r s1]. cbn in Hf. by subst r.
Qed.

Lemma owned_empty d : owned ({| dbh := d; statements := ∅ |}, ∅).
Proof.
  split; cbn; [|intros x y sql; by rewrite lookup_empty].
  intros sql. unfold in_use. cbn. rewrite lookup_empty. split; [done|].
  intros [x Hx]. by rewrite lookup_empty in Hx.
Qed.

(** C27. Statements have at most one owner, in every program that prepares, moves, uses and
    destroys handles, whatever codes SQLite returns: as long as the program has not aborted, a
    statement is marked as in use just when one variable has it, and just one has.  The next
    operation succeeds exactly if it neither prepares a statement that a variable still has
    (the one that is assigned included) nor uses an empty handle, and SQLite returns the
    expected codes for it (OK when it prepares or clears a statement, ROW or DONE for a step);
    otherwise it aborts.  Closing the database aborts when there are handles left, and
    without any it succeeds exactly if SQLite closes it. *)
Theorem statements_owned (d : SqDb) (ops : list handle_op) (s : Handles)
    (Hrun : forM ops exec_op ({| dbh := d; statements := ∅ |}, ∅) = (Ok tt, s)) :
  (forall sql, in_use s.1 sql = true <-> exists x, s.2 !! x = Some sql) /\
  (forall x y sql, s.2 !! x = Some sql -> s.2 !! y = Some sql -> x = y) /\
  (forall op, (exec_op op s).1 =
     if decide (allowed op s /\ accepted op s) then Ok tt else Fatal) /\
  (s.2 = ∅ -> exists d', (close s.1).1 = if code sq_close d' =? SQLITE_OK then Ok tt else Fatal) /\
  (s.2 <> ∅ -> (close s.1).1 = Fatal).
Proof.
  pose proof (owned_run ops _ s (owned_empty d) Hrun) as Ho. pose proof Ho as [Hu Hx].
  split_and!; [done|done| | |].
  - intros op. destruct (decide (allowed op s)) as [Ha|Ha].
    + destruct (exec_allowed op s Ho Ha) as [Hd Hf]. case_decide as Hc.
      * destruct (Hd (proj2 Hc)) as (s' & -> & _). done.
      * apply Hf. tauto.
    + rewrite decide_False by tauto. by apply exec_not_allowed.
  - intros Hs. apply close_run. intros sql.
    destruct (in_use s.1 sql) eqn:Eu; [|done]. apply Hu in Eu as [x Hx'].
    by rewrite Hs, lookup_empty in Hx'.
  - intros (x & sql & Hx')%map_choose. apply (close_used _ sql), Hu. by exists x.
Qed.
End Handles.

(** ** An example *)
Module DatabaseSample.

(** A library that also fails: the state counts the steps, every third of which reports that
    the database is busy, and a text that is not SQL does not prepare. *)
Definition SQLITE_ERROR : Z := 1.
Definition SQLITE_BUSY : Z := 5.

#[export] Instance library : Sqlite := {|
  SqDb := nat;
  SqStmt := string;
  sq_exec _ := ret SQLITE_OK;
  sq_prepare sql := ret (if String.eqb sql "garbage" then SQLITE_ERROR else SQLITE_OK, sql);
  sq_clear_bindings _ := ret SQLITE_OK;
  sq_reset _ := ret tt;
  sq_finalize _ := ret tt;
  sq_step _ := fun n => (Ok (match Nat.modulo n 3 with
                             | 0%nat => SQLITE_ROW | 1%nat => SQLITE_DONE | _ => SQLITE_BUSY end), S n);
  sq_changes := ret 0;
  sq_close := ret SQLITE_OK;
  sq_bind _ _ _ := ret SQLITE_OK;
  sq_column_is_null _ _ := ret false;
  sq_column_int64 _ _ := ret 7;
  sq_column_text _ _ := ret (Some "text"%string);
  sq_column_blob _ _ := ret None;
  sq_column_bytes _ _ := ret 4
|}.

#[export] Instance library_returns : SqliteReturns.
Proof. split; intros; repeat eexists. Qed.

(** Two variables take turns with two statements; [stmt] has the second one at the end. *)
Definition ops : list handle_op :=
  [OpPrepare "stmt" "SELECT 1"; OpStep "stmt"; OpPrepare "upd" "UPDATE 2"; OpStep "upd";
   OpMove "stmt" "upd"; OpPrepare "upd" "SELECT 1"; OpDestroy "upd"]%string.

Definition first_db : Handles := ({| dbh := 0%nat : @SqDb library; statements := ∅ |}, ∅).
Definition after : Handles := (forM ops exec_op first_db).2.

Lemma after_run : forM ops exec_op first_db = (Ok tt, after).
Proof. vm_compute. reflexivity. Qed.

(** Afterwards: a statement that is in use, an empty handle, a text that SQLite refuses, and
    a step when it is busy abort; another statement can be prepared. *)
Lemma statements_owned_witness :
  in_use after.1 "UPDATE 2" = true /\ in_use after.1 "SELECT 1" = false /\
  (exec_op (OpPrepare "stmt" "UPDATE 2") after).1 = Fatal /\
  (exec_op (OpStep "upd") after).1 = Fatal /\
  (exec_op (OpPrepare "upd" "garbage") after).1 = Fatal /\
  (exec_op (OpStep "stmt") after).1 = Fatal /\
  (exec_op (OpPrepare "upd" "SELECT 1") after).1 = Ok tt /\
  (close after.1).1 = Fatal.
Proof.
  destruct (statements_owned (0%nat : @SqDb library) ops after after_run) as (Hu & _ & Hop & _ & Hc).
  assert (Hs : after.2 = {[ "stmt"%string := "UPDATE 2"%string ]}) by (vm_compute; reflexivity).
  split; [apply Hu; exists "stmt"%string; by rewrite Hs|]. split; [vm_compute; reflexivity|].
  rewrite !Hop. split_and!; [vm_compute; reflexivity..|].
  apply Hc. by rewrite Hs.
Defined.
End DatabaseSample.
