(* ===== verification/BaseChain.v ===== *)
(** * Base chains (src/basechain.hpp, src/basechain.cpp)

    The interface [BaseChain] through which the program sees a blockchain, and
    what its clients rely on.  The methods may change the state [B] of the
    connector, and may throw.

    - [BaseChain] has the abstract methods;
    - [Connector] is the contract: the answers of a connector describe a main
      chain, its [View], which may evolve between calls;
    - [Serves] is the contract of a connector whose chain stands still and that
      does not fail, which is what termination of the sync depends on. *)

From S2P Require Import Prelude Json BlockData.

Section Interface.
Context {J : JsonCpp}.

(** The virtual methods.  [bc_VerifyMessage] returns the out-parameter [addr] if
    the method returns true. *)
Class BaseChain (B : Type) := {
  bc_Start : M B unit;
  bc_EnablePending : M B bool;
  bc_GetTipHeight : M B Z;
  bc_GetBlockRange : Z -> Z -> M B (list BlockData);
  bc_GetMainchainHeight : string -> M B Z;
  bc_GetMempool : M B (list string);
  bc_VerifyMessage : string -> string -> M B (option string);
  bc_GetChain : M B string;
  bc_GetVersion : M B Z
}.

(** ** Callbacks *)

(** The interface [BaseChain::Callbacks], acting on a state [S]. *)
Record Callbacks (S : Type) := {
  cb_TipChanged : string -> M S unit;
  cb_PendingMoves : list MoveData -> M S unit
}.
#[global] Arguments cb_TipChanged {S}.
#[global] Arguments cb_PendingMoves {S}.

(** [BaseChain::SetCallbacks], [BaseChain::TipChanged] and
    [BaseChain::PendingMoves]; the pointer is [None] for null. *)
Definition SetCallbacks {S} (c : option (Callbacks S)) (old : option (Callbacks S))
  : option (Callbacks S) := c.

Definition TipChanged {S} (cb : option (Callbacks S)) (tip : string) : M S unit :=
  match cb with Some c => cb_TipChanged c tip | None => ret tt end.

Definition PendingMoves {S} (cb : option (Callbacks S)) (moves : list MoveData)
  : M S unit :=
  match cb with Some c => cb_PendingMoves c moves | None => ret tt end.

(** ** The chain that a connector describes *)

Record View := { v_tip : Z; v_at : Z -> option BlockData }.

(** The blocks from height [start] on, at most [n] of them. *)
Fixpoint slice (ch : Z -> option BlockData) (start : Z) (n : nat) : list BlockData :=
  match n with
  | O => []
  | S n' =>
      match ch start with
      | Some b => b :: slice ch (start + 1) n'
      | None => []
      end
  end.

(** The contract.  [cn_evolves] says how the chain may change over time. *)
Class Connector {B} (BC : BaseChain B) := {
  cn_ok : B -> Prop;
  cn_view : B -> View;
  cn_evolves : View -> View -> Prop;
  cn_evolves_refl :: Reflexive cn_evolves;
  cn_evolves_trans :: Transitive cn_evolves;
  cn_tip : forall b r b', cn_ok b -> bc_GetTipHeight b = (r, b') ->
    cn_ok b' /\ cn_evolves (cn_view b) (cn_view b') /\
    forall t, r = Ok t -> t = v_tip (cn_view b');
  cn_range : forall b start count r b', cn_ok b -> 0 <= start -> 0 <= count ->
    start + count < 2 ^ 63 -> bc_GetBlockRange start count b = (r, b') ->
    cn_ok b' /\ cn_evolves (cn_view b) (cn_view b') /\
    forall l, r = Ok l -> l = slice (v_at (cn_view b')) start (Z.to_nat count)
}.

(** A connector in a state with [R] serves the chain [ch] up to the tip [T]. *)
Record Serves {B} (BC : BaseChain B) (R : B -> Prop) (T : Z)
  (ch : Z -> option BlockData) : Prop := {
  serves_tip : forall b, R b -> exists b', bc_GetTipHeight b = (Ok T, b') /\ R b';
  serves_range : forall b start count, R b -> 0 <= start <= i64_max ->
    0 <= count < 2 ^ 32 -> exists b', bc_GetBlockRange start count b
               = (Ok (slice ch start (Z.to_nat count)), b') /\ R b'
}.

(** ** Lemmas on slices *)

Lemma slice_length ch start n : (length (slice ch start n) <= n)%nat.
Proof.
  revert start. induction n as [|n IH]; intros start; cbn; [lia|].
  destruct (ch start); cbn; [|lia]. specialize (IH (start + 1)). lia.
Qed.

Lemma slice_ext ch ch' start n : (forall h, start <= h -> ch h = ch' h) ->
  slice ch start n = slice ch' start n.
Proof.
  revert start. induction n as [|n IH]; intros start Heq; cbn; [done|].
  rewrite <- Heq by lia. destruct (ch start); [|done]. f_equal. apply IH. intros h Hh. apply Heq. lia.
Qed.

Lemma slice_lookup ch start n i b : slice ch start n !! i = Some b ->
  ch (start + Z.of_nat i) = Some b.
Proof.
  revert start i. induction n as [|n IH]; intros start i; cbn; [by rewrite lookup_nil|].
  destruct (ch start) eqn:E; cbn; [|by rewrite lookup_nil].
  destruct i as [|i]; cbn.
  - intros [= <-]. by rewrite Z.add_0_r.
  - intros H%IH. rewrite <- H. f_equal. lia.
Qed.

Lemma slice_full ch start n :
  (forall i, (i < n)%nat -> is_Some (ch (start + Z.of_nat i))) ->
  length (slice ch start n) = n.
Proof.
  revert start. induction n as [|n IH]; intros start H; cbn; [done|].
  destruct (H 0%nat) as [b Hb]; [lia|]. rewrite Z.add_0_r in Hb. rewrite Hb. cbn.
  f_equal. apply IH. intros i Hi. replace (start + 1 + Z.of_nat i) with
    (start + Z.of_nat (S i)) by lia. apply H. lia.
Qed.

(** A list with the right blocks in the right places is the slice. *)
Lemma slice_eq ch start (l : list BlockData) :
  (forall i b, l !! i = Some b -> ch (start + Z.of_nat i) = Some b) ->
  l = slice ch start (length l).
Proof.
  revert start. induction l as [|b l IH]; intros start H; cbn; [done|].
  pose proof (H 0%nat b eq_refl) as Hb. rewrite Z.add_0_r in Hb. rewrite Hb.
  f_equal. apply IH. intros i b' Hi. replace (start + 1 + Z.of_nat i) with
    (start + Z.of_nat (S i)) by lia. by apply H.
Qed.

Lemma slice_elem ch start n b : b ∈ slice ch start n ->
  exists i, (i < n)%nat /\ ch (start + Z.of_nat i) = Some b.
Proof.
  intros [i Hi]%list_elem_of_lookup. exists i.
  split; [|by eapply slice_lookup].
  apply lookup_lt_Some in Hi. pose proof (slice_length ch start n). lia.
Qed.

(** The slice ends where the chain ends. *)
Lemma slice_beyond ch n : forall start m, (n <= m)%nat -> ch (start + Z.of_nat n) = None ->
  slice ch start m = slice ch start n.
Proof.
  induction n as [|n IH]; intros start m Hm Hn; cbn [slice].
  - rewrite Z.add_0_r in Hn. destruct m as [|m]; cbn [slice]; [done|by rewrite Hn].
  - destruct m as [|m]; [lia|]. cbn [slice]. destruct (ch start); [|done]. f_equal.
    apply IH; [lia|]. rewrite <- Hn. f_equal. lia.
Qed.
End Interface.

(** ** A concrete chain

    For the examples: a connector that holds a list of blocks, the first of which
    is at height [fx_start]. *)
Module Fixed.
Section Fixed.
Context {J : JsonCpp}.

Record Chain := { fx_start : Z; fx_blocks : list BlockData }.

Definition fx_at (c : Chain) (h : Z) : option BlockData :=
  if fx_start c <=? h then fx_blocks c !! Z.to_nat (h - fx_start c) else None.

Definition fx_tip (c : Chain) : Z := fx_start c + Z.of_nat (length (fx_blocks c)) - 1.

Definition fx_height (c : Chain) (hash : string) : Z :=
  match list_find (fun b => blk_hash b = hash) (fx_blocks c) with
  | Some (i, _) => fx_start c + Z.of_nat i
  | None => -1
  end.

#[export] Instance fixed_chain : BaseChain Chain := {|
  bc_Start := ret tt;
  bc_EnablePending := ret false;
  bc_GetTipHeight := c <- get;; ret (fx_tip c);
  bc_GetBlockRange start count := c <- get;; ret (slice (fx_at c) start (Z.to_nat count));
  bc_GetMainchainHeight hash := c <- get;; ret (fx_height c hash);
  bc_GetMempool := ret [];
  bc_VerifyMessage _ _ := ret None;
  bc_GetChain := ret "main"%string;
  bc_GetVersion := ret 1
|}.

Definition fx_view (c : Chain) : View := {| v_tip := fx_tip c; v_at := fx_at c |}.

(** Every block is at its height. *)
Definition fx_ok (c : Chain) : Prop :=
  0 <= fx_start c /\ 0 <= fx_tip c < 2 ^ 62 /\
  forall h b, fx_at c h = Some b -> blk_height b = h.

#[export] Program Instance fixed_connector : Connector fixed_chain := {|
  cn_ok := fx_ok;
  cn_view := fx_view;
  cn_evolves := eq
|}.
Next Obligation. intros b r b' Hok [= <- <-]. split_and!; [done..|]. by intros t [= <-]. Qed.
Next Obligation.
  intros b start count r b' Hok _ _ _ [= <- <-]. split_and!; [done..|]. by intros l [= <-].
Qed.

Lemma fixed_Serves c : Serves fixed_chain (eq c) (fx_tip c) (fx_at c).
Proof.
  split.
  - intros b <-. by exists c.
  - intros b start count <- _ _. by exists c.
Qed.
End Fixed.
End Fixed.
