(* ===== verification/BlockCache.v ===== *)
(** * The block cache (src/blockcache.hpp, src/blockcache.cpp)

    [BlockCacheChain] is a base chain on top of another one, which keeps blocks
    that are deep enough below the tip in a [Storage].  The theorems show that its
    clients cannot tell the difference: it fulfils the contract [Connector] with
    the view of the underlying chain, as long as that chain does not change blocks
    below the depth; and [Serves] is passed on as well. *)

From S2P Require Import Prelude Json BlockData BaseChain.

Section Cache.
Context {J : JsonCpp}.

(** ** The storage interface *)

Class Storage (T : Type) := {
  st_Store : list BlockData -> M T unit;
  st_GetRange : Z -> Z -> M T (list BlockData)
}.

(** What a storage promises: it holds no blocks but those that were stored
    ([st_has t h b]: the block [b] is found at height [h]), and a range that it
    returns in full has them in the right places.  [st_block] are the blocks that it
    can store. *)
Class StorageLaws {T} (ST : Storage T) := {
  st_ok : T -> Prop;
  st_has : T -> Z -> BlockData -> Prop;
  st_block : BlockData -> Prop;
  st_store : forall t l r t', st_ok t -> Forall st_block l -> st_Store l t = (r, t') ->
    st_ok t' /\ forall h b, st_has t' h b ->
      st_has t h b \/ (b ∈ l /\ h = blk_height b);
  st_range : forall t start count r t', st_ok t ->
    0 <= start <= i64_max -> 0 <= count <= i64_max ->
    st_GetRange start count t = (r, t') ->
    st_ok t' /\ (forall h b, st_has t' h b -> st_has t h b) /\
    forall l, r = Ok l -> Z.of_nat (length l) = count ->
      forall i b, l !! i = Some b -> st_has t (start + Z.of_nat i) b
}.

(** ** The caching chain *)

Record BlockCacheChain (B T : Type) := {
  bcc_base : B;
  bcc_store : T;
  lastTipHeight : Z
}.
#[global] Arguments bcc_base {B T}.
#[global] Arguments bcc_store {B T}.
#[global] Arguments lastTipHeight {B T}.

Section Chain.
Context {B T : Type} {BC : BaseChain B} {ST : Storage T} (minDepth : Z).

Definition on_base {A} (m : M B A) : M (BlockCacheChain B T) A :=
  zoom bcc_base (fun b c => {| bcc_base := b; bcc_store := bcc_store c;
                               lastTipHeight := lastTipHeight c |}) m.

Definition on_store {A} (m : M T A) : M (BlockCacheChain B T) A :=
  zoom bcc_store (fun t c => {| bcc_base := bcc_base c; bcc_store := t;
                                lastTipHeight := lastTipHeight c |}) m.

Definition cache_GetTipHeight : M (BlockCacheChain B T) Z :=
  h <- on_base bc_GetTipHeight;;
  modify (fun c => {| bcc_base := bcc_base c; bcc_store := bcc_store c;
                      lastTipHeight := h |});;
  ret h.

(** The comparison is one of [uint64_t] values. *)
Definition near_tip (start count last : Z) : bool :=
  u64 (last + 1) <? u64 (start + count + minDepth).

Definition cache_GetBlockRange (start count : Z)
  : M (BlockCacheChain B T) (list BlockData) :=
  last <- gets lastTipHeight;;
  if near_tip start count last then on_base (bc_GetBlockRange start count) else
  cached <- on_store (st_GetRange start count);;
  if Z.of_nat (length cached) =? count then ret cached else
  res <- on_base (bc_GetBlockRange start count);;
  on_store (st_Store res);;
  ret res.

(** The other methods are forwarded. *)
#[export] Instance BlockCacheChain_BaseChain : BaseChain (BlockCacheChain B T) := {|
  bc_Start := on_base bc_Start;
  bc_EnablePending := on_base bc_EnablePending;
  bc_GetTipHeight := cache_GetTipHeight;
  bc_GetBlockRange := cache_GetBlockRange;
  bc_GetMainchainHeight hash := on_base (bc_GetMainchainHeight hash);
  bc_GetMempool := on_base bc_GetMempool;
  bc_VerifyMessage msg sig := on_base (bc_VerifyMessage msg sig);
  bc_GetChain := on_base bc_GetChain;
  bc_GetVersion := on_base bc_GetVersion
|}.

Lemma cache_base_run {A} (m : M B A) c r b :
  m (bcc_base c) = (r, b) ->
  on_base m c = (r, {| bcc_base := b; bcc_store := bcc_store c;
                       lastTipHeight := lastTipHeight c |}).
Proof. unfold on_base, zoom. by intros ->. Qed.

Lemma on_store_run {A} (m : M T A) c r t :
  m (bcc_store c) = (r, t) ->
  on_store m c = (r, {| bcc_base := bcc_base c; bcc_store := t;
                        lastTipHeight := lastTipHeight c |}).
Proof. unfold on_store, zoom. by intros ->. Qed.
End Chain.

(** ** The contract *)

Section Contract.
Context {B T : Type} {BC : BaseChain B} {ST : Storage T} {SL : StorageLaws ST}
  {CN : Connector BC} (minDepth : Z).
Context (Hdepth : 0 <= minDepth < 2 ^ 62).

(** Heights are what they say, and leave room below 2^62. *)
Context (Hheights : forall b h blk, cn_ok b -> v_at (cn_view b) h = Some blk ->
  blk_height blk = h).
Context (Htips : forall b, cn_ok b -> 0 <= v_tip (cn_view b) < 2 ^ 62).

(** The blocks can be stored. *)
Context (Hblocks : forall b h blk, cn_ok b -> v_at (cn_view b) h = Some blk -> st_block blk).

(** Blocks with [minDepth] blocks on top of them are final. *)
Context (Hfinal : forall v v' h, cn_evolves v v' -> h + minDepth <= v_tip v ->
  v_at v' h = v_at v h).

(** A block that the chain of some earlier moment had, deep below its tip. *)
Definition final (b : B) (h : Z) (blk : BlockData) : Prop :=
  exists v, cn_evolves v (cn_view b) /\ h + minDepth <= v_tip v /\ v_at v h = Some blk.

Lemma final_now b h blk : final b h blk -> v_at (cn_view b) h = Some blk.
Proof. intros (v & He & Hh & Hv). by rewrite (Hfinal _ _ _ He Hh). Qed.

Lemma final_evolves b b' h blk : cn_evolves (cn_view b) (cn_view b') ->
  final b h blk -> final b' h blk.
Proof. intros He (v & Hv & ? & ?). exists v. split; [by etrans|done]. Qed.

(** The remembered tip height is one that the chain had, and every cached block
    is final. *)
Record cache_ok (c : BlockCacheChain B T) : Prop := {
  co_base : cn_ok (bcc_base c);
  co_store : st_ok (bcc_store c);
  co_last : exists v, cn_evolves v (cn_view (bcc_base c)) /\
    0 <= lastTipHeight c <= v_tip v /\ lastTipHeight c < 2 ^ 62;
  co_final : forall h blk, st_has (bcc_store c) h blk -> final (bcc_base c) h blk
}.

Lemma cache_tip c r c' : cache_ok c -> cache_GetTipHeight c = (r, c') ->
  cache_ok c' /\ cn_evolves (cn_view (bcc_base c)) (cn_view (bcc_base c')) /\
  forall t, r = Ok t -> t = v_tip (cn_view (bcc_base c')).
Proof.
  intros [Hb Hs (v & Hv & Hl) Hf]. unfold cache_GetTipHeight.
  destruct (bc_GetTipHeight (bcc_base c)) as [rt b'] eqn:E.
  destruct (cn_tip _ _ _ Hb E) as (Hb' & He & Ht).
  unfold bind at 1. rewrite (cache_base_run _ _ _ _ E).
  assert (Hf' : forall h blk, st_has (bcc_store c) h blk -> final b' h blk).
  { intros h blk H. eapply final_evolves; [exact He|]. by apply Hf. }
  destruct rt as [t| | | |]; intros [= <- <-]; cbn; (split; [|split; [done|]]);
    try done; try (split; cbn; [done|done| |done]; exists v; split; [by etrans|done]).
  - specialize (Ht _ eq_refl). subst t. split; cbn; [done|done| |done].
    exists (cn_view b'). specialize (Htips _ Hb'). split; [done|lia].
Qed.

(** The case in which the cache is not used. *)
Lemma cache_direct c start count r c' : cache_ok c -> 0 <= start -> 0 <= count ->
  start + count < 2 ^ 63 ->
  on_base (bc_GetBlockRange start count) c = (r, c') ->
  cache_ok c' /\ cn_evolves (cn_view (bcc_base c)) (cn_view (bcc_base c')) /\
  bcc_store c' = bcc_store c /\ lastTipHeight c' = lastTipHeight c /\
  forall l, r = Ok l ->
    l = slice (v_at (cn_view (bcc_base c'))) start (Z.to_nat count).
Proof.
  intros [Hb Hs (v & Hv & Hl) Hf] Hst Hc Hsum.
  destruct (bc_GetBlockRange start count (bcc_base c)) as [rt b'] eqn:E.
  destruct (cn_range _ _ _ _ _ Hb Hst Hc Hsum E) as (Hb' & He & Ht).
  rewrite (cache_base_run _ _ _ _ E). intros [= <- <-]. cbn. split_and!; try done.
  split; cbn; [done|done| |].
  - exists v. split; [by etrans|done].
  - intros h blk H. eapply final_evolves; [exact He|]. by apply Hf.
Qed.

Lemma near_tip_false start count last : 0 <= start -> 0 <= count ->
  start + count < 2 ^ 63 -> 0 <= last < 2 ^ 62 ->
  near_tip minDepth start count last = false -> start + count + minDepth <= last + 1.
Proof.
  intros ? ? ? ? H. unfold near_tip in H. apply Z.ltb_ge in H.
  rewrite !u64_small in H by (unfold u64_modulus; lia). done.
Qed.

Lemma cache_range c start count r c' : cache_ok c -> 0 <= start -> 0 <= count ->
  start + count < 2 ^ 63 ->
  cache_GetBlockRange minDepth start count c = (r, c') ->
  cache_ok c' /\ cn_evolves (cn_view (bcc_base c)) (cn_view (bcc_base c')) /\
  forall l, r = Ok l ->
    l = slice (v_at (cn_view (bcc_base c'))) start (Z.to_nat count).
Proof.
  intros Hok Hst Hc Hsum. unfold cache_GetBlockRange. rewrite gets_bind.
  destruct (near_tip _ _ _ _) eqn:En.
  { intros H. destruct (cache_direct _ _ _ _ _ Hok Hst Hc Hsum H) as (? & ? & _ & _ & ?). done. }
  pose proof (co_last _ Hok) as (v & Hv & Hl & Hl62).
  apply near_tip_false in En; [|lia..].
  destruct (st_GetRange start count (bcc_store c)) as [rg t'] eqn:Eg.
  assert (Hbnd : 0 <= start <= i64_max /\ 0 <= count <= i64_max) by (unfold i64_max; lia).
  destruct (st_range _ _ _ _ _ (co_store _ Hok) (proj1 Hbnd) (proj2 Hbnd) Eg) as (Ht' & Hsub & Hres).
  unfold bind at 1. rewrite (on_store_run _ _ _ _ Eg).
  set (c1 := {| bcc_base := bcc_base c; bcc_store := t'; lastTipHeight := lastTipHeight c |}).
  assert (Hok1 : cache_ok c1).
  { split; cbn; [apply Hok|done|by exists v|]. intros h blk H. apply Hok. by apply Hsub. }
  destruct rg as [cached| | | |]; try (intros [= <- <-]; by split_and!).
  destruct (Z.eqb_spec (Z.of_nat (length cached)) count) as [Elen|].
  { intros [= <- <-]. split_and!; [done|done|]. intros l [= <-].
    rewrite <- Elen, Nat2Z.id. apply slice_eq. intros i b Hi.
    apply final_now. apply Hok. by eapply Hres. }
  destruct (on_base (bc_GetBlockRange start count) c1) as [rb c2] eqn:Eb.
  destruct (cache_direct _ _ _ _ _ Hok1 Hst Hc Hsum Eb) as (Hok2 & He & Es & El & Hslice).
  unfold bind at 1. rewrite Eb.
  destruct rb as [res| | | |]; try (intros [= <- <-]; by split_and!).
  specialize (Hslice _ eq_refl).
  destruct (st_Store res (bcc_store c2)) as [rs t3] eqn:Est.
  assert (Hblk : Forall st_block res).
  { rewrite Hslice. apply Forall_forall. intros blk (i & _ & Hat)%slice_elem.
    by apply (Hblocks _ _ _ (co_base _ Hok2) Hat). }
  destruct (st_store _ _ _ _ (co_store _ Hok2) Hblk Est) as (Ht3 & Hnew).
  unfold bind. rewrite (on_store_run _ _ _ _ Est).
  set (c3 := {| bcc_base := bcc_base c2; bcc_store := t3; lastTipHeight := lastTipHeight c2 |}).
  assert (Hok3 : cache_ok c3).
  { split; cbn; [apply Hok2|done|rewrite El; exists v; split; [by etrans|done]|].
    intros h blk [Hold|[Hin ->]]%Hnew; [by apply Hok2|].
    rewrite Hslice in Hin. apply slice_elem in Hin as (i & Hi & Hat).
    pose proof (Hheights _ _ _ (co_base _ Hok2) Hat) as Hh. cbn in He.
    exists v. split; [by etrans|]. split; [lia|]. rewrite Hh.
    rewrite <- Hat. symmetry. apply Hfinal; [by etrans|lia]. }
  destruct rs; intros [= <- <-]; (split; [done|split; [done|]]); try done.
  by intros l [= <-].
Qed.

(** ** The life of a cache *)

(** From an empty storage: the methods are called, and in between the underlying
    chain evolves. *)
Inductive cache_reachable : BlockCacheChain B T -> Prop :=
  | cache_init b t : cn_ok b -> st_ok t -> (forall h blk, ~ st_has t h blk) ->
      cache_reachable {| bcc_base := b; bcc_store := t; lastTipHeight := 0 |}
  | cache_call_tip c r c' : cache_reachable c -> cache_GetTipHeight c = (r, c') ->
      cache_reachable c'
  | cache_call_range c start count r c' : cache_reachable c ->
      0 <= start -> 0 <= count -> start + count < 2 ^ 63 ->
      cache_GetBlockRange minDepth start count c = (r, c') -> cache_reachable c'
  | cache_env c b : cache_reachable c -> cn_ok b ->
      cn_evolves (cn_view (bcc_base c)) (cn_view b) ->
      cache_reachable {| bcc_base := b; bcc_store := bcc_store c;
                         lastTipHeight := lastTipHeight c |}.

Lemma cache_reachable_ok c : cache_reachable c -> cache_ok c.
Proof.
  induction 1 as [b t Hb Ht Hn|c r c' _ IH E|c a n r c' _ IH ? ? ? E|c b _ IH Hb He].
  - split; cbn; [done|done| |by intros h blk ?%Hn].
    exists (cn_view b). specialize (Htips _ Hb). split; [done|lia].
  - by apply cache_tip in E as [? _].
  - by apply cache_range in E as [? _].
  - destruct IH as [_ Hs (v & ? & ?) Hf]. split; cbn; [done|done| |].
    + exists v. split; [by etrans|done].
    + intros h blk Hh. eapply final_evolves; [exact He|]. by apply Hf.
Qed.
End Contract.

(** ** A chain that stands still *)

Section Still.
Context {B T : Type} {BC : BaseChain B} {ST : Storage T} {SL : StorageLaws ST}
  (minDepth : Z) (R : B -> Prop) (tip : Z) (ch : Z -> option BlockData).

(** The storage answers, and all it has are blocks of the chain. *)
Definition still_ok (c : BlockCacheChain B T) : Prop :=
  R (bcc_base c) /\ st_ok (bcc_store c) /\
  forall h blk, st_has (bcc_store c) h blk -> ch h = Some blk.

Lemma still_Serves (HS : Serves BC R tip ch)
  (Hh : forall h blk, ch h = Some blk -> blk_height blk = h)
  (Hblk : forall h blk, ch h = Some blk -> st_block blk)
  (Hstore : forall t l, st_ok t -> Forall st_block l -> exists t', st_Store l t = (Ok tt, t'))
  (Hrange : forall t a n, st_ok t -> exists l t', st_GetRange a n t = (Ok l, t')) :
  Serves (BlockCacheChain_BaseChain minDepth) still_ok tip ch.
Proof.
  split.
  - intros c (Hr & Hs & Hc). destruct (serves_tip _ _ _ _ HS _ Hr) as (b' & E & Hr').
    cbn. unfold cache_GetTipHeight. rewrite (bind_Ok _ _ _ _ _ (cache_base_run _ _ _ _ E)).
    by eexists.
  - intros c start count (Hr & Hs & Hc) Hst Hcnt. cbn. unfold cache_GetBlockRange.
    rewrite gets_bind. destruct (near_tip _ _ _ _).
    { destruct (serves_range _ _ _ _ HS _ _ _ Hr Hst Hcnt) as (b' & E & Hr').
      rewrite (cache_base_run _ _ _ _ E). by eexists. }
    destruct (Hrange _ start count Hs) as (cached & t' & Eg).
    assert (Hbnd : 0 <= count <= i64_max) by (unfold i64_max; lia).
    destruct (st_range _ _ _ _ _ Hs Hst Hbnd Eg) as (Ht' & Hsub & Hres).
    rewrite (bind_Ok _ _ _ _ _ (on_store_run _ _ _ _ Eg)).
    destruct (Z.eqb_spec (Z.of_nat (length cached)) count) as [<-|].
    { eexists. split; [unfold ret; do 2 f_equal|split_and!; cbn; try done; eauto].
      rewrite Nat2Z.id. apply slice_eq. intros i b Hi. eauto. }
    destruct (serves_range _ _ _ _ HS _ _ _ Hr Hst Hcnt) as (b' & E & Hr').
    erewrite bind_Ok; [|by apply cache_base_run].
    assert (Hall : Forall st_block (slice ch start (Z.to_nat count))).
    { apply Forall_forall. intros blk (i & _ & Hat)%slice_elem. by apply (Hblk _ _ Hat). }
    destruct (Hstore t' (slice ch start (Z.to_nat count)) Ht' Hall) as (t3 & Es).
    erewrite bind_Ok; [|by apply on_store_run].
    eexists. split; [done|]. destruct (st_store _ _ _ _ Ht' Hall Es) as (Ht3 & Hnew).
    split_and!; [done|done|]. cbn. intros h blk [Ho|[Hin ->]]%Hnew; [eauto|].
    apply slice_elem in Hin as (i & _ & Hat). by rewrite (Hh _ _ Hat).
Qed.
End Still.

(** ** Storage in memory *)

(** The [std::map], which iterates in the order of the heights. *)
Record InMemoryBlockStorage := { ims_data : gmap Z BlockData }.

Definition le_height (a b : Z * BlockData) : Prop := a.1 <= b.1.

#[export] Instance le_height_dec a b : Decision (le_height a b).
Proof. unfold le_height. apply _. Defined.

Definition iterate (m : gmap Z BlockData) : list (Z * BlockData) :=
  merge_sort le_height (map_to_list m).

(** From [find (start)] to the end. *)
Definition iterate_from (m : gmap Z BlockData) (start : Z) : list (Z * BlockData) :=
  match m !! start with
  | None => []
  | Some _ => base.filter (fun x => start <= x.1) (iterate m)
  end.

(** [emplace] keeps what is there. *)
Definition InMemory_Store (blocks : list BlockData) : M InMemoryBlockStorage unit :=
  forM blocks (fun blk => modify (fun s =>
    {| ims_data := match ims_data s !! blk_height blk with
                   | Some _ => ims_data s
                   | None => <[blk_height blk := blk]> (ims_data s)
                   end |})).

(** The loop, for [n] more blocks after [back]. *)
Fixpoint InMemory_more (n : nat) (back : BlockData) (mit : list (Z * BlockData))
  : option (list BlockData) :=
  match n with
  | O => Some []
  | S n' =>
      match mit with
      | [] => None
      | (_, b) :: mit' =>
          if blk_height b =? u64 (blk_height back + 1)
          then cons b <$> InMemory_more n' b mit' else None
      end
  end.

Definition InMemory_GetRange (start count : Z)
  : M InMemoryBlockStorage (list BlockData) :=
  s <- get;;
  match iterate_from (ims_data s) start with
  | [] => ret []
  | (_, b) :: mit =>
      ret (default [] (cons b <$> InMemory_more (Z.to_nat (count - 1)) b mit))
  end.

#[export] Instance InMemory_Storage : Storage InMemoryBlockStorage := {|
  st_Store := InMemory_Store;
  st_GetRange := InMemory_GetRange
|}.

(** *** The order of iteration *)

Definition after (m : gmap Z BlockData) (h : Z) : list (Z * BlockData) :=
  base.filter (fun x => h < x.1) (iterate m).

#[local] Instance le_height_trans : Transitive le_height.
Proof. intros x y z. unfold le_height. lia. Qed.

Lemma iterate_sorted m : StronglySorted le_height (iterate m).
Proof.
  apply Sorted_StronglySorted; [apply _|]. apply Sorted_merge_sort.
  intros x y. unfold le_height. lia.
Qed.

Lemma elem_of_iterate m h b : (h, b) ∈ iterate m <-> m !! h = Some b.
Proof. unfold iterate. by rewrite merge_sort_Permutation, elem_of_map_to_list. Qed.

Lemma iterate_NoDup m : NoDup (iterate m).
Proof. unfold iterate. rewrite merge_sort_Permutation. apply NoDup_map_to_list. Qed.

Lemma filter_sorted (P : Z * BlockData -> Prop) `{forall x, Decision (P x)} l :
  StronglySorted le_height l -> StronglySorted le_height (base.filter P l).
Proof.
  induction 1 as [|x l Hs IH Hf]; [constructor|]. rewrite filter_cons.
  destruct (decide (P x)); [|done]. constructor; [done|].
  rewrite Forall_forall in *. intros y [_ Hy]%list_elem_of_filter. by apply Hf.
Qed.

(** Sorted lists of entries of a map are determined by their elements. *)
Lemma entries_unique (m : gmap Z BlockData) l l' : StronglySorted le_height l -> StronglySorted le_height l' ->
  NoDup l -> NoDup l' -> (forall x, x ∈ l <-> x ∈ l') ->
  (forall x, x ∈ l -> m !! x.1 = Some x.2) -> l = l'.
Proof.
  intros Hs Hs' Hn Hn' He Hm. apply (StronglySorted_unique_strong le_height).
  - intros [h1 b1] [h2 b2] H1 H2 ? ?. apply He in H2.
    pose proof (Hm _ H1). pose proof (Hm _ H2). unfold le_height in *. cbn in *.
    assert (h1 = h2) as -> by lia. congruence.
  - done.
  - done.
  - by apply NoDup_Permutation.
Qed.

Lemma elem_of_after m h x : x ∈ after m h <-> h < x.1 /\ m !! x.1 = Some x.2.
Proof. unfold after. destruct x. by rewrite list_elem_of_filter, elem_of_iterate. Qed.

Lemma after_cons m h h' b : h < h' -> m !! h' = Some b ->
  (forall x y, m !! x = Some y -> h < x -> h' <= x) ->
  after m h = (h', b) :: after m h'.
Proof.
  intros Hlt Hb Hnext. apply (entries_unique m).
  - apply filter_sorted, iterate_sorted.
  - constructor; [apply filter_sorted, iterate_sorted|]. rewrite Forall_forall.
    intros x [? _]%elem_of_after. unfold le_height. cbn. lia.
  - apply NoDup_filter, iterate_NoDup.
  - constructor; [|apply NoDup_filter, iterate_NoDup]. rewrite elem_of_after. cbn. lia.
  - intros [h1 b1]. rewrite elem_of_cons, !elem_of_after. cbn. split.
    + intros [? H1]. specialize (Hnext _ _ H1 ltac:(lia)).
      destruct (decide (h1 = h')) as [->|]; [left; congruence|right; split; [lia|done]].
    + intros [[= -> ->]|[? ?]]; (split; [lia|done]).
  - intros x [_ ?]%elem_of_after. done.
Qed.

Lemma iterate_from_cons m h b : m !! h = Some b -> iterate_from m h = (h, b) :: after m h.
Proof.
  intros Hb. unfold iterate_from. rewrite Hb.
  transitivity (after m (h - 1)); [|by apply after_cons; [lia|done|intros; lia]].
  unfold after. apply list_filter_iff. intros x. lia.
Qed.

(** *** GetRange *)

(** The keys are the heights of the blocks. *)
Definition keyed (s : InMemoryBlockStorage) : Prop :=
  forall h b, ims_data s !! h = Some b -> blk_height b = h.

Lemma InMemory_more_sound s n h b l : keyed s -> 0 <= h -> ims_data s !! h = Some b ->
  InMemory_more n b (after (ims_data s) h) = Some l ->
  l = slice (fun x => ims_data s !! x) (h + 1) n /\ length l = n.
Proof.
  intros Hk. revert h b l. induction n as [|n IH]; intros h b l Hh Hb; cbn [InMemory_more].
  { by intros [= <-]. }
  destruct (after (ims_data s) h) as [|[h' b'] mit] eqn:Ea; [done|].
  assert (Hin : (h', b') ∈ after (ims_data s) h) by (rewrite Ea; set_solver).
  apply elem_of_after in Hin as [Hlt Hb']. cbn in Hlt, Hb'.
  rewrite (Hk _ _ Hb), (Hk _ _ Hb').
  destruct (Z.eqb_spec h' (u64 (h + 1))) as [E|]; [|done].
  assert (h' = h + 1) as ->.
  { unfold u64 in E.
    pose proof (Z.mod_le (h + 1) u64_modulus ltac:(lia) ltac:(unfold u64_modulus; lia)).
    lia. }
  rewrite (after_cons _ h (h + 1) b') in Ea by (done || lia || intros; lia).
  injection Ea as <-. intros (l' & Hl & ->)%fmap_Some.
  apply IH in Hl as [-> Hlen]; [|lia|done]. cbn [slice]. rewrite Hb'. cbn. by rewrite Hlen.
Qed.

Lemma InMemory_more_complete s n h b : keyed s -> 0 <= h -> h + Z.of_nat n < u64_modulus ->
  ims_data s !! h = Some b -> length (slice (fun x => ims_data s !! x) (h + 1) n) = n ->
  InMemory_more n b (after (ims_data s) h)
  = Some (slice (fun x => ims_data s !! x) (h + 1) n).
Proof.
  intros Hk. revert h b. induction n as [|n IH]; intros h b Hh Hsz Hb; [done|].
  cbn [InMemory_more slice]. destruct (ims_data s !! (h + 1)) as [b'|] eqn:E; [|done].
  intros [= Hlen]. rewrite (after_cons _ h (h + 1) b') by (done || lia || intros; lia).
  rewrite (Hk _ _ Hb), (Hk _ _ E), u64_small, Z.eqb_refl by lia.
  by rewrite (IH (h + 1) b' ltac:(lia) ltac:(lia) E Hlen).
Qed.

Lemma InMemory_GetRange_some s start count : keyed s -> 0 <= start ->
  exists l, InMemory_GetRange start count s = (Ok l, s) /\
    (Z.of_nat (length l) = count ->
     l = slice (fun x => ims_data s !! x) start (Z.to_nat count)).
Proof.
  intros Hk Hst. unfold InMemory_GetRange. rewrite get_bind.
  destruct (ims_data s !! start) as [b|] eqn:E.
  - rewrite (iterate_from_cons _ _ _ E). eexists. split; [done|].
    destruct (InMemory_more _ b _) as [l|] eqn:Em.
    + apply InMemory_more_sound in Em as [-> Hlen]; [|done..]. cbn.
      intros Hc. rewrite Hlen in Hc. replace (Z.to_nat count) with (S (Z.to_nat (count - 1))) by lia.
      cbn. by rewrite E.
    + cbn. intros <-. done.
  - unfold iterate_from. rewrite E. exists []. split; [done|]. by intros <-.
Qed.

(** Storing consecutive blocks. *)
Lemma InMemory_Store_run l : forall start m,
  (forall i b, l !! i = Some b -> blk_height b = start + Z.of_nat i) ->
  (forall h, start <= h -> m !! h = None) ->
  keyed {| ims_data := m |} ->
  exists m', InMemory_Store l {| ims_data := m |} = (Ok tt, {| ims_data := m' |}) /\
    keyed {| ims_data := m' |} /\
    (forall h, h < start -> m' !! h = m !! h) /\
    (forall i b, l !! i = Some b -> m' !! (start + Z.of_nat i) = Some b).
Proof.
  induction l as [|x l IH]; intros start m Hl Hm Hk; cbn.
  { exists m. by split_and!. }
  rewrite modify_bind. cbn.
  pose proof (Hl 0%nat x eq_refl) as Hx. rewrite Z.add_0_r in Hx. rewrite Hx, Hm by lia.
  destruct (IH (start + 1) (<[start := x]> m)) as (m' & Hrun & Hk' & Hlow & Hin).
  - intros i b Hi. rewrite (Hl (S i) b Hi). lia.
  - intros h Hh. rewrite lookup_insert_ne by lia. apply Hm. lia.
  - intros h b. cbn. intros [[<- <-]|[_ ?]]%lookup_insert_Some; [done|by apply Hk].
  - exists m'. split_and!; [done|done| |].
    + intros h Hh. rewrite Hlow by lia. by rewrite lookup_insert_ne by lia.
    + intros [|i] b; cbn.
      * intros [= <-]. rewrite Z.add_0_r, Hlow by lia. apply lookup_insert_eq.
      * intros Hi. rewrite <- (Hin i b Hi). f_equal. lia.
Qed.

#[export] Instance InMemory_Laws : StorageLaws InMemory_Storage.
Proof.
  refine {| st_ok := keyed; st_has s h b := ims_data s !! h = Some b; st_block _ := True |}.
  - intros t l. revert t. induction l as [|x l IH]; intros t r t' Hk Hx; cbn.
    { intros [= <- <-]. split; [done|]. by left. }
    apply Forall_cons in Hx as [_ Hx].
    rewrite modify_bind. intros H. apply IH in H as [Hk' Hn]; [|..|done].
    + split; [done|]. intros h b [Hb|[Hb ->]]%Hn; [|right; set_solver]. cbn in Hb.
      destruct (ims_data t !! blk_height x) eqn:E; [by left|].
      apply lookup_insert_Some in Hb as [[<- <-]|[_ ?]]; [right; set_solver|by left].
    + intros h b. cbn. destruct (ims_data t !! blk_height x) eqn:E; [apply Hk|].
      intros [[<- <-]|[_ ?]]%lookup_insert_Some; [done|by apply Hk].
  - intros t start count r t' Hk Hst _ H. cbn in H.
    destruct (InMemory_GetRange_some t start count Hk (proj1 Hst)) as (l & Hrun & Hl).
    rewrite Hrun in H. injection H as <- <-. split_and!; [done|done|].
    intros l' [= <-] Hlen i b Hi. rewrite (Hl Hlen) in Hi.
    by apply slice_lookup in Hi.
Defined.
End Cache.

(** ** The theorems *)

Section Theorems.
Context {J : JsonCpp}.

(** C15.  The cache is transparent, that is, it fulfils the contract of a base chain with the
    view of the underlying one: whatever was called before and however the underlying chain has
    evolved (without changing blocks that have [minDepth] others on top), a tip height that
    the cached chain returns is that of the underlying chain at that moment, and a block range
    is the range of the underlying chain, whether it comes from the cache or not.  During a
    call the view evolves as that of the underlying chain may, and the promise then holds
    again, also if the call fails. *)
Theorem cache_transparent {B T} {BC : BaseChain B} {ST : Storage T}
    {SL : StorageLaws ST} {CN : Connector BC} (minDepth : Z)
    (Hdepth : 0 <= minDepth < 2 ^ 62)
    (Hheights : forall b h blk, cn_ok b -> v_at (cn_view b) h = Some blk ->
       blk_height blk = h)
    (Hblocks : forall b h blk, cn_ok b -> v_at (cn_view b) h = Some blk -> st_block blk)
    (Htips : forall b, cn_ok b -> 0 <= v_tip (cn_view b) < 2 ^ 62)
    (Hfinal : forall v v' h, cn_evolves v v' -> h + minDepth <= v_tip v ->
       v_at v' h = v_at v h)
    (c : BlockCacheChain B T) (Hc : cache_reachable minDepth c) :
  (forall r c', cache_GetTipHeight c = (r, c') ->
     cache_reachable minDepth c' /\ cn_ok (bcc_base c') /\
     cn_evolves (cn_view (bcc_base c)) (cn_view (bcc_base c')) /\
     forall t, r = Ok t -> t = v_tip (cn_view (bcc_base c'))) /\
  (forall start count r c', 0 <= start -> 0 <= count -> start + count < 2 ^ 63 ->
     cache_GetBlockRange minDepth start count c = (r, c') ->
     cache_reachable minDepth c' /\ cn_ok (bcc_base c') /\
     cn_evolves (cn_view (bcc_base c)) (cn_view (bcc_base c')) /\
     forall l, r = Ok l -> l = slice (v_at (cn_view (bcc_base c'))) start (Z.to_nat count)).
Proof.
  pose proof (cache_reachable_ok minDepth Hdepth Hheights Htips Hblocks Hfinal c Hc) as Hok.
  split.
  - intros r c' Hrun. destruct (cache_tip minDepth Htips c r c' Hok Hrun) as (Hok' & He & Ht).
    split_and!; [by apply (cache_call_tip minDepth c r c')|apply Hok'|done|done].
  - intros start count r c' Hs Hn Hend Hrun.
    destruct (cache_range minDepth Hdepth Hheights Hblocks Hfinal c start count r c')
      as (Hok' & He & Hl); [done..|].
    split_and!; [by apply (cache_call_range minDepth c start count r c')|apply Hok'|done|done].
Qed.

Lemma InMemory_GetRange_full (s : InMemoryBlockStorage) (start count : Z)
    (Hk : keyed s) (Hs : 0 <= start) (Hc : 1 <= count) (He : start + count <= u64_modulus) :
  InMemory_GetRange start count s =
  (Ok (let l := slice (fun h => ims_data s !! h) start (Z.to_nat count) in
       if Z.of_nat (length l) =? count then l else []), s).
Proof.
  unfold InMemory_GetRange. rewrite get_bind. cbn zeta.
  replace (Z.to_nat count) with (S (Z.to_nat (count - 1))) by lia. cbn [slice].
  destruct (ims_data s !! start) as [b|] eqn:E.
  - rewrite (iterate_from_cons _ _ _ E). cbn [length].
    destruct (Z.eqb_spec (Z.of_nat (S (length (slice (fun h => ims_data s !! h) (start + 1)
      (Z.to_nat (count - 1)))))) count) as [Hl|Hl].
    + rewrite (InMemory_more_complete s) by (done || lia). done.
    + destruct (InMemory_more _ b _) as [l|] eqn:Em; [|done].
      apply InMemory_more_sound in Em as [-> Hlen]; [lia|done..].
  - unfold iterate_from. rewrite E. unfold ret. by destruct (_ =? _).
Qed.

(** The storage in memory: a range of at least one block is returned in full
    if all its blocks are stored, and is empty otherwise; the iterator of the loop
    never runs past a gap. *)
Theorem InMemory_GetRange_exact (s : InMemoryBlockStorage) (start count : Z)
    (Hk : keyed s) (Hs : 0 <= start) (Hc : 1 <= count) (He : start + count <= u64_modulus) :
  InMemory_GetRange start count s =
  (Ok (let l := slice (fun h => ims_data s !! h) start (Z.to_nat count) in
       if Z.of_nat (length l) =? count then l else []), s).
Proof. by apply InMemory_GetRange_full. Qed.

(** Blocks that are stored on consecutive heights of an empty storage are
    returned again, in order. *)
Theorem InMemory_Store_GetRange (start : Z) (l : list BlockData)
    (Hl : forall i b, l !! i = Some b -> blk_height b = start + Z.of_nat i)
    (Hs : 0 <= start) (Hne : l <> []) (He : start + Z.of_nat (length l) <= u64_modulus) :
  (InMemory_Store l;; InMemory_GetRange start (Z.of_nat (length l))) {| ims_data := ∅ |} =
  (Ok l, (InMemory_Store l {| ims_data := ∅ |}).2).
Proof.
  destruct (InMemory_Store_run l start ∅) as (m & Hrun & Hk & _ & Hin);
    [done|by intros; apply lookup_empty|intros h b; cbn; by rewrite lookup_empty|].
  rewrite (bind_Ok _ _ _ _ _ Hrun), Hrun. cbn [snd].
  assert (Hsl : slice (fun h => m !! h) start (length l) = l).
  { symmetry. by apply slice_eq. }
  destruct l as [|x l]; [done|].
  rewrite InMemory_GetRange_full by (done || cbn [length]; lia).
  rewrite Nat2Z.id. cbn [ims_data]. by rewrite Hsl, Z.eqb_refl.
Qed.
End Theorems.

(** ** Examples *)
Module CacheSample.
Import Model Fixed.

Definition blk (h : Z) (hash parent : string) : BlockData := {|
  blk_hash := hash; blk_parent := parent; blk_height := h;
  blk_rngseed := ""; blk_metadata := JNull; blk_moves := []
|}.

Definition blocks : list BlockData :=
  [blk 10 "g" "f"; blk 11 "a" "g"; blk 12 "b" "a"; blk 13 "c" "b"].

Definition chain : Chain := {| fx_start := 10; fx_blocks := blocks |}.

Definition c0 : BlockCacheChain Chain InMemoryBlockStorage :=
  {| bcc_base := chain; bcc_store := {| ims_data := ∅ |}; lastTipHeight := 0 |}.

(** The tip is queried, and a range, which is stored. *)
Definition c1 := (cache_GetTipHeight c0).2.
Definition c2 := (cache_GetBlockRange 1 10 2 c1).2.

Lemma chain_ok : fx_ok chain.
Proof.
  split; [done|]. split; [done|]. intros h b. unfold fx_at. cbn [fx_start fx_blocks chain].
  destruct (Z.leb_spec 10 h); [|done]. intros Hl.
  assert (Z.to_nat (h - 10) < 4)%nat as Hlt by (apply lookup_lt_Some in Hl; done).
  assert (h = 10 \/ h = 11 \/ h = 12 \/ h = 13) as [->|[->|[->| ->]]] by lia;
    vm_compute in Hl; injection Hl as <-; reflexivity.
Qed.

Lemma c2_reachable : cache_reachable 1 c2.
Proof.
  apply (cache_call_range 1 c1 10 2 (Ok [blk 10 "g" "f"; blk 11 "a" "g"]));
    [|lia..|vm_compute; reflexivity].
  apply (cache_call_tip 1 c0 (Ok 13)); [|vm_compute; reflexivity].
  apply cache_init; [apply chain_ok| |].
  - intros h b. cbn. by rewrite lookup_empty.
  - intros h b. cbn. by rewrite lookup_empty.
Qed.

(** A chain that may replace its last block, and grow. *)
Definition grows (v v' : View) : Prop :=
  v_tip v <= v_tip v' /\ forall h, h + 1 <= v_tip v -> v_at v' h = v_at v h.

Definition growing : Connector fixed_chain.
Proof.
  refine {| cn_ok := fx_ok; cn_view := fx_view; cn_evolves := grows |}.
  - intros v. by split.
  - intros v1 v2 v3 [H12 E12] [H23 E23]. split; [lia|]. intros h Hh.
    rewrite E23 by lia. by apply E12.
  - intros b r b' Hok [= <- <-]. split_and!; [done|done|]. by intros t [= <-].
  - intros b start count r b' Hok _ _ _ [= <- <-]. split_and!; [done|done|].
    by intros l [= <-].
Defined.

(** The block at height 13 has been replaced, and there is one more. *)
Definition chain' : Chain :=
  {| fx_start := 10; fx_blocks := [blk 10 "g" "f"; blk 11 "a" "g"; blk 12 "b" "a";
                                   blk 13 "c2" "b"; blk 14 "d2" "c2"] |}.

Definition c2' : BlockCacheChain Chain InMemoryBlockStorage :=
  {| bcc_base := chain'; bcc_store := bcc_store c2; lastTipHeight := lastTipHeight c2 |}.

Lemma chain'_ok : fx_ok chain'.
Proof.
  split; [done|]. split; [done|]. intros h b. unfold fx_at. cbn [fx_start fx_blocks chain'].
  destruct (Z.leb_spec 10 h); [|done]. intros Hl.
  assert (Z.to_nat (h - 10) < 5)%nat as Hlt by (apply lookup_lt_Some in Hl; done).
  assert (h = 10 \/ h = 11 \/ h = 12 \/ h = 13 \/ h = 14) as [->|[->|[->|[->| ->]]]] by lia;
    vm_compute in Hl; injection Hl as <-; reflexivity.
Qed.

Lemma chain_grows : grows (fx_view chain) (fx_view chain').
Proof.
  split; [vm_compute; discriminate|]. intros h Hh. change (v_tip (fx_view chain)) with 13 in Hh.
  cbn [v_at fx_view]. unfold fx_at. cbn [fx_start chain chain'].
  destruct (Z.leb_spec 10 h); [|done].
  assert (h = 10 \/ h = 11 \/ h = 12) as [->|[->| ->]] by lia; reflexivity.
Qed.

Lemma c2'_reachable : cache_reachable (CN:=growing) 1 c2'.
Proof.
  apply (cache_env (CN:=growing) 1 c2 chain'); [|exact chain'_ok|exact chain_grows].
  apply (cache_call_range (CN:=growing) 1 c1 10 2 (Ok [blk 10 "g" "f"; blk 11 "a" "g"]));
    [|lia..|vm_compute; reflexivity].
  apply (cache_call_tip (CN:=growing) 1 c0 (Ok 13)); [|vm_compute; reflexivity].
  apply cache_init; [apply chain_ok| |].
  - intros h b. cbn. by rewrite lookup_empty.
  - intros h b. cbn. by rewrite lookup_empty.
Qed.

(** After the chain has changed: the new tip, a range from the storage, and one near the tip
    with the new blocks. *)
Lemma cache_transparent_witness :
  14 = v_tip (fx_view (bcc_base (cache_GetTipHeight c2').2)) /\
  [blk 10 "g" "f"; blk 11 "a" "g"]
    = slice (v_at (fx_view (bcc_base (cache_GetBlockRange 1 10 2 c2').2))) 10 (Z.to_nat 2) /\
  [blk 12 "b" "a"; blk 13 "c2" "b"; blk 14 "d2" "c2"]
    = slice (v_at (fx_view (bcc_base (cache_GetBlockRange 1 12 3 c2').2))) 12 (Z.to_nat 3).
Proof.
  destruct (cache_transparent (CN:=growing) 1) with (c := c2') as [Htip Hrange].
  - done.
  - intros b h x (_ & _ & Hok). apply Hok.
  - done.
  - intros b (_ & Ht & _). exact Ht.
  - intros v v' h [_ H]. apply H.
  - exact c2'_reachable.
  - split; [|split].
    + eapply (Htip (Ok 14)); [vm_compute; reflexivity|reflexivity].
    + eapply (Hrange 10 2 (Ok _)); [lia|lia|lia|vm_compute; reflexivity|reflexivity].
    + eapply (Hrange 12 3 (Ok _)); [lia|lia|lia|vm_compute; reflexivity|reflexivity].
Defined.

Definition stored : InMemoryBlockStorage := bcc_store c2.

Lemma c2_ok : cache_ok 1 c2.
Proof.
  apply cache_reachable_ok; [done|..|exact c2_reachable].
  - intros b h x (_ & _ & Hok). apply Hok.
  - intros b (_ & Ht & _). exact Ht.
  - done.
  - by intros v v' h <-.
Qed.

Lemma stored_keyed : keyed stored.
Proof. exact (co_store _ _ c2_ok). Qed.

(** Two of the four blocks are stored. *)
Lemma InMemory_GetRange_exact_witness :
  InMemory_GetRange 10 2 stored = (Ok [blk 10 "g" "f"; blk 11 "a" "g"], stored) /\
  InMemory_GetRange 10 3 stored = (Ok [], stored).
Proof.
  split.
  - rewrite (InMemory_GetRange_exact stored 10 2 stored_keyed); [|done..].
    vm_compute. reflexivity.
  - rewrite (InMemory_GetRange_exact stored 10 3 stored_keyed); [|done..].
    vm_compute. reflexivity.
Defined.

Lemma InMemory_Store_GetRange_witness :
  exists s, (InMemory_Store blocks;; InMemory_GetRange 10 4) {| ims_data := ∅ |}
            = (Ok blocks, s).
Proof.
  eexists. apply (InMemory_Store_GetRange 10 blocks); try done.
  intros i b Hi. assert (i < 4)%nat as Hlt by (apply lookup_lt_Some in Hi; done).
  do 4 (destruct i as [|i]; [cbn in Hi; by simplify_eq|]). lia.
Defined.

(** A range of no blocks is answered with one block, if that is stored. *)
Lemma InMemory_GetRange_zero :
  InMemory_GetRange 10 0 stored = (Ok [blk 10 "g" "f"], stored).
Proof. vm_compute. reflexivity. Qed.
End CacheSample.
