(* ===== verification/MySql.v ===== *)
(** * Block storage in MySQL (src/cache/mysql.cpp)

    [MySqlBlockStorage] keeps serialised blocks in a table of a MySQL server, by their
    heights.  The mypp library and the server are the parameter [Mypp]; what the
    storage relies on is [MyppLaws], in which a statement that fails is allowed
    everywhere.  The storage implements the interface of the block cache. *)

From S2P Require Import Prelude Json BlockData BaseChain BlockCache.

(** ** The library *)

Inductive my_value :=
  | MyInt (z : Z)
  | MyBlob (s : string).

(** [MyDb] is a connection with the server behind it.  [my_Query] returns the blobs of the
    rows that [Fetch] delivers, and the error with which it ends, if there is one. *)
Class Mypp := {
  MyDb : Type;
  MyStmt : Type;
  MyUrl : Type;
  url_Parse : string -> result MyUrl;
  GetHost : MyUrl -> string;
  GetPort : MyUrl -> Z;
  GetUser : MyUrl -> string;
  GetPassword : MyUrl -> string;
  GetDatabase : MyUrl -> string;
  HasTable : MyUrl -> bool;
  GetTable : MyUrl -> string;
  HasOption : MyUrl -> string -> bool;
  GetOption : MyUrl -> string -> result string;
  my_UseClientCertificate : string -> string -> string -> M MyDb unit;
  my_Connect : string -> Z -> string -> string -> string -> M MyDb unit;
  my_Prepare : Z -> string -> M MyDb MyStmt;
  my_Execute : MyStmt -> list my_value -> M MyDb unit;
  my_Query : MyStmt -> list my_value -> M MyDb (list string * option exn)
}.

(** [catch (const mypp::Error& exc)]. *)
Definition try_mypp {S A} (m : M S A) (h : M S A) : M S A := fun s =>
  match m s with
  | (Throw (MyppError _), s') => h s'
  | r => r
  end.

(** ** The implementation class *)

Section Storage.
Context {J : JsonCpp} {BCo : BlockCodec} {MP : Mypp}.

Definition replace_sql (table : string) : string :=
  ("REPLACE INTO `" ++ table ++ "` (`height`, `data`) VALUES (?, ?)")%string.

Definition select_sql (table : string) : string :=
  ("SELECT `data` FROM `" ++ table ++
   "` WHERE `height` >= ? AND `height` < ? ORDER BY `height` ASC")%string.

Definition store_block (table : string) (b : BlockData) : M MyDb unit :=
  stmt <- try_mypp (my_Prepare 2 (replace_sql table)) fatal;;
  data <- lift (block_write b);;
  try_mypp (my_Execute stmt [MyInt (i64 (blk_height b)); MyBlob data]) (ret tt).

Definition impl_Store (table : string) (blocks : list BlockData) : M MyDb unit :=
  forM blocks (store_block table).

Definition impl_GetRange (table : string) (start count : Z) : M MyDb (list BlockData) :=
  stmt <- try_mypp (my_Prepare 2 (select_sql table)) fatal;;
  try_mypp
    (let* '(rows, err) := my_Query stmt [MyInt (i64 start); MyInt (i64 (u64 (start + count)))] in
     res <- lift (mapM block_read rows);;
     match err with None => ret res | Some e => throw e end)
    (ret []).

(** The implementation, if there is one, has the name of the table. *)
Record MySqlBlockStorage := {
  my_db : MyDb;
  impl : option string
}.

Definition on_db {A} (m : M MyDb A) : M MySqlBlockStorage A :=
  zoom my_db (fun d s => {| my_db := d; impl := impl s |}) m.

Definition set_impl (i : option string) (s : MySqlBlockStorage) : MySqlBlockStorage :=
  {| my_db := my_db s; impl := i |}.

Definition impl_Connect (host : string) (port : Z) (user password db tbl : string)
  : M MySqlBlockStorage bool :=
  try_mypp
    (on_db (my_Connect host port user password db);; modify (set_impl (Some tbl));; ret true)
    (ret false).

Definition mysql_Connect (url : string) : M MySqlBlockStorage bool :=
  s <- get;;
  check (match impl s with None => true | Some _ => false end);;
  o <- try_mypp (parser <- lift (url_Parse url);; ret (Some parser)) (ret None);;
  match o with
  | None => ret false
  | Some parser =>
      if negb (HasTable parser) then ret false else
      modify (set_impl (Some EmptyString));;
      (if HasOption parser "ssl-cert" then
         ca <- lift (GetOption parser "ssl-ca");;
         cert <- lift (GetOption parser "ssl-cert");;
         key <- lift (GetOption parser "ssl-key");;
         on_db (my_UseClientCertificate ca cert key)
       else ret tt);;
      ok <- impl_Connect (GetHost parser) (GetPort parser) (GetUser parser)
              (GetPassword parser) (GetDatabase parser) (GetTable parser);;
      check ok;;
      ret true
  end.

(** Before [Connect], the calls dereference a null pointer. *)
Definition with_impl {A} (m : string -> M MyDb A) : M MySqlBlockStorage A :=
  s <- get;; match impl s with None => undefined | Some table => on_db (m table) end.

#[export] Instance MySql_Storage : Storage MySqlBlockStorage := {|
  st_Store blocks := with_impl (fun table => impl_Store table blocks);
  st_GetRange start count := with_impl (fun table => impl_GetRange table start count)
|}.
End Storage.

(** ** What the storage relies on *)

(** The blobs are those of the rows with heights in the range, by ascending heights. *)
Definition selected (rows : gmap Z string) (a b : Z) (blobs : list string) : Prop :=
  exists l : list (Z * string), blobs = l.*2 /\
    StronglySorted (fun x y => x.1 < y.1) l /\
    forall h data, (h, data) ∈ l <-> rows !! h = Some data /\ a <= h < b.

(** [my_rows d table] are the rows of a table, by their primary key; [my_sql] is the text
    of a statement.  Any call may fail, also between the rows of a result; a [REPLACE] that
    fails may have had its effect. *)
Class MyppLaws (MP : Mypp) := {
  my_rows : MyDb -> string -> gmap Z string;
  my_sql : MyStmt -> string;
  my_prepare : forall n sql d r d', my_Prepare n sql d = (r, d') ->
    my_rows d' = my_rows d /\ forall stmt, r = Ok stmt -> my_sql stmt = sql;
  my_replace : forall stmt table h data d r d', my_sql stmt = replace_sql table -> 0 <= h ->
    my_Execute stmt [MyInt h; MyBlob data] d = (r, d') ->
    my_rows d' table = <[h := data]> (my_rows d table) \/
    (my_rows d' table = my_rows d table /\ r <> Ok tt);
  my_select : forall stmt table a b d r d', my_sql stmt = select_sql table ->
    my_Query stmt [MyInt a; MyInt b] d = (r, d') ->
    my_rows d' = my_rows d /\
    forall blobs err, r = Ok (blobs, err) -> exists all, selected (my_rows d table) a b all /\
      blobs `prefix_of` all /\ (err = None -> blobs = all)
}.

(** *** Sorted rows *)

Lemma sorted_rows_length (l : list (Z * string)) : forall a b,
  StronglySorted (fun x y => x.1 < y.1) l -> Forall (fun x => a <= x.1 < b) l ->
  Z.of_nat (length l) <= Z.max 0 (b - a).
Proof.
  induction l as [|[h data] l IH]; intros a b Hs Ha; cbn [length]; [lia|].
  apply StronglySorted_inv in Hs as [Hs Hl]. apply Forall_cons in Ha as [Hh Ha]. cbn in Hh.
  assert (Ha' : Forall (fun x => h + 1 <= x.1 < b) l).
  { rewrite Forall_forall in *. intros x Hx. specialize (Hl x Hx). specialize (Ha x Hx).
    cbn in Hl. lia. }
  specialize (IH (h + 1) b Hs Ha'). lia.
Qed.

(** As many rows as heights: there is one for every height. *)
Lemma sorted_rows_full (l : list (Z * string)) : forall a b,
  StronglySorted (fun x y => x.1 < y.1) l -> Forall (fun x => a <= x.1 < b) l ->
  Z.of_nat (length l) = b - a ->
  forall i x, l !! i = Some x -> x.1 = a + Z.of_nat i.
Proof.
  induction l as [|[h data] l IH]; intros a b Hs Ha Hlen i x Hx; [done|].
  apply StronglySorted_inv in Hs as [Hs Hl]. apply Forall_cons in Ha as [Hh Ha]. cbn in Hh.
  assert (Ha' : Forall (fun x => h + 1 <= x.1 < b) l).
  { rewrite Forall_forall in *. intros y Hy. specialize (Hl y Hy). specialize (Ha y Hy).
    cbn in Hl. lia. }
  pose proof (sorted_rows_length l (h + 1) b Hs Ha') as Hle. cbn [length] in Hlen.
  assert (h = a) as -> by lia. destruct i as [|i]; cbn in Hx.
  - injection Hx as <-. cbn. lia.
  - rewrite (IH (a + 1) b Hs Ha' ltac:(lia) i x Hx). lia.
Qed.

(** *** Runs *)

Lemma try_mypp_inv {S A} (m : M S A) h s r s' : try_mypp m h s = (r, s') ->
  m s = (r, s') \/ exists msg s1, m s = (Throw (MyppError msg), s1) /\ h s1 = (r, s').
Proof.
  unfold try_mypp. destruct (m s) as [[a|[]| | |] s1]; intros H; try (by left).
  right. by eexists _, _.
Qed.

Section Laws.
Context {J : JsonCpp} {BCo : BlockCodec} {BL : BlockCodecLaws BCo}
  {MP : Mypp} {ML : MyppLaws MP}.

(** A statement for [sql] is prepared, or the operation does not return. *)
Lemma prepare_inv {A} n sql (k : MyStmt -> M MyDb A) d r d' :
  bind (try_mypp (my_Prepare n sql) fatal) k d = (r, d') ->
  (exists stmt d1, my_sql stmt = sql /\ my_rows d1 = my_rows d /\ k stmt d1 = (r, d')) \/
  (my_rows d' = my_rows d /\ is_Ok r = false).
Proof.
  intros [(stmt & d1 & H & Hk)|(r0 & H & Hr0 & Hr)]%bind_inv.
  - left. apply try_mypp_inv in H as [H|(msg & d2 & _ & H)]; [|discriminate H].
    apply my_prepare in H as [Hrows Hsql]. exists stmt, d1. split_and!; [by apply Hsql|done|done].
  - right. split; [|done]. apply try_mypp_inv in H as [H|(msg & d2 & H & [= _ <-])];
      by apply my_prepare in H as [Hrows _].
Qed.

Lemma store_block_run table b d r d' : block_ok b -> 0 <= blk_height b <= i64_max ->
  store_block table b d = (r, d') ->
  my_rows d' table = my_rows d table \/
  exists data, block_read data = Ok b /\
    my_rows d' table = <[blk_height b := data]> (my_rows d table).
Proof.
  intros Hok Hh. unfold store_block. destruct (block_roundtrip b Hok) as (data & Hw & Hr).
  intros [(stmt & d1 & Hsql & Hrows & H)|[Hrows _]]%prepare_inv; [|left; by rewrite Hrows].
  rewrite lift_Ok_bind with (a := data) in H by done. rewrite i64_small in H by done.
  assert (He : exists r1 d2, my_Execute stmt [MyInt (blk_height b); MyBlob data] d1 = (r1, d2) /\ d2 = d').
  { apply try_mypp_inv in H as [H|(msg & d2 & H & [= _ <-])]; by eexists _, _. }
  destruct He as (r1 & d2 & He & ->).
  destruct (my_replace _ _ _ _ _ _ _ Hsql (proj1 Hh) He) as [Hd|[Hd _]]; rewrite Hd, Hrows; eauto.
Qed.

(** The block that a row has. *)
Definition row_block (d : MyDb) (table : string) (h : Z) (b : BlockData) : Prop :=
  exists data, my_rows d table !! h = Some data /\ block_read data = Ok b.

(** All rows can be read. *)
Definition readable (d : MyDb) (table : string) : Prop :=
  forall h data, my_rows d table !! h = Some data -> exists b, block_read data = Ok b.

Lemma store_block_readable table b d r d' : block_ok b -> 0 <= blk_height b <= i64_max ->
  store_block table b d = (r, d') -> readable d table -> readable d' table.
Proof.
  intros Hok Hh H Hd h data. destruct (store_block_run _ _ _ _ _ Hok Hh H) as [->|(x & Hx & ->)];
    [apply Hd|]. intros [[_ <-]|[_ ?]]%lookup_insert_Some; [eauto|by eapply Hd].
Qed.

Lemma impl_Store_readable table l : forall d r d',
  Forall (fun b => block_ok b /\ 0 <= blk_height b <= i64_max) l ->
  impl_Store table l d = (r, d') -> readable d table -> readable d' table.
Proof.
  induction l as [|x l IH]; intros d r d' Hl; unfold impl_Store; cbn [forM].
  { by intros [= <- <-]. }
  apply Forall_cons in Hl as [[Hok Hh] Hl].
  intros [(u & d1 & H1 & H)|(r0 & H1 & _)]%bind_inv Hd.
  - eapply IH; [done|exact H|]. by eapply store_block_readable.
  - by eapply store_block_readable.
Qed.

Lemma impl_Store_rows table l : forall d r d',
  Forall (fun b => block_ok b /\ 0 <= blk_height b <= i64_max) l ->
  impl_Store table l d = (r, d') ->
  forall h b, row_block d' table h b -> row_block d table h b \/ (b ∈ l /\ h = blk_height b).
Proof.
  induction l as [|x l IH]; intros d r d' Hl; unfold impl_Store; cbn [forM].
  { intros [= <- <-]. by left. }
  apply Forall_cons in Hl as [[Hok Hh] Hl].
  assert (Hx : forall r1 d1, store_block table x d = (r1, d1) -> forall h b,
    row_block d1 table h b -> row_block d table h b \/ (b ∈ x :: l /\ h = blk_height b)).
  { intros r1 d1 H h b (data & Hd & Hb).
    destruct (store_block_run _ _ _ _ _ Hok Hh H) as [E|(data' & Hr & E)]; rewrite E in Hd.
    - left. by exists data.
    - apply lookup_insert_Some in Hd as [[<- <-]|[_ Hd]]; [|left; by exists data].
      right. rewrite Hr in Hb. injection Hb as <-. set_solver. }
  intros [(u & d1 & H1 & H)|(r0 & H1 & _)]%bind_inv h b Hb; [|by eapply Hx].
  destruct (IH _ _ _ Hl H h b Hb) as [Hb1|[Hin ->]]; [by eapply Hx|right; set_solver].
Qed.

Lemma query_run stmt table a b d r d' : my_sql stmt = select_sql table ->
  (let* '(rows, err) := my_Query stmt [MyInt a; MyInt b] in
   res <- lift (mapM block_read rows);;
   match err with None => ret res | Some e => throw e end) d = (r, d') ->
  my_rows d' = my_rows d /\
  forall l, r = Ok l -> exists blobs,
    selected (my_rows d table) a b blobs /\ Forall2 (fun x y => block_read x = Ok y) blobs l.
Proof.
  intros Hsql [([rows err] & d1 & Hq & H)|(r0 & Hq & _ & Hr)]%bind_inv;
    destruct (my_select _ _ _ _ _ _ _ Hsql Hq) as [Hd Hsel]; [|split; [done|by intros l ->]].
  unfold lift, bind in H. destruct (mapM block_read rows) as [res| | | |] eqn:Er;
    [|injection H as <- <-; by split..].
  destruct err as [e|]; injection H as <- <-; (split; [done|]); [done|].
  intros l [= <-]. destruct (Hsel rows None eq_refl) as (all & Hall & _ & Heq).
  rewrite <- Heq in Hall by done. exists rows. split; [done|by apply result_mapM_inv].
Qed.

Lemma selected_full rows a n blobs l : selected rows a (a + n) blobs ->
  Forall2 (fun x y => block_read x = Ok y) blobs l -> Z.of_nat (length l) = n ->
  forall i b, l !! i = Some b ->
  exists data, rows !! (a + Z.of_nat i) = Some data /\ block_read data = Ok b.
Proof.
  intros (L & -> & Hs & Hin) Hf Hlen i b Hi. apply Forall2_length in Hf as Hlen2.
  rewrite length_fmap in Hlen2. destruct (Forall2_lookup_r _ _ _ _ _ Hf Hi) as (data & Hd & Hr).
  apply list_lookup_fmap_Some in Hd as ([h data'] & -> & HL). cbn in *.
  exists data'. split; [|done].
  assert (Ha : Forall (fun x : Z * string => a <= x.1 < a + n) L).
  { apply Forall_forall. intros [h' d'] [_ ?]%Hin. done. }
  pose proof (sorted_rows_full L a (a + n) Hs Ha ltac:(lia) i _ HL) as Hh. cbn in Hh. subst h.
  by apply list_elem_of_lookup_2, Hin in HL as [HL _].
Qed.

(** A range above [2^63] has no rows. *)
Lemma selected_empty rows a b blobs : b <= a -> selected rows a b blobs -> blobs = [].
Proof.
  intros Hab (L & -> & _ & Hin). destruct L as [|[h data] L]; [done|].
  destruct (proj1 (Hin h data) ltac:(set_solver)) as [_ ?]. lia.
Qed.

Lemma impl_GetRange_run table start count d r d' :
  0 <= start <= i64_max -> 0 <= count <= i64_max ->
  impl_GetRange table start count d = (r, d') ->
  my_rows d' = my_rows d /\
  forall l, r = Ok l -> Z.of_nat (length l) = count ->
    forall i b, l !! i = Some b -> row_block d table (start + Z.of_nat i) b.
Proof.
  intros Hst Hc. unfold impl_GetRange.
  intros [(stmt & d1 & Hsql & Hrows & H)|[Hrows Hr]]%prepare_inv;
    [|split; [done|by intros l ->]].
  rewrite i64_small in H by done. rewrite <- Hrows. unfold row_block. rewrite <- Hrows.
  apply try_mypp_inv in H as [H|(msg & d2 & H & [= <- <-])];
    destruct (query_run _ _ _ _ _ _ _ Hsql H) as [Hd Hl].
  2: { split; [done|]. by intros l [= <-] _ i b Hi. }
  split; [done|]. intros l -> Hlen. destruct (Hl l eq_refl) as (blobs & Hsel & Hf).
  rewrite u64_small in Hsel by (unfold i64_max, u64_modulus in *; lia).
  destruct (decide (start + count <= i64_max)) as [Hle|Hgt].
  - rewrite i64_small in Hsel by lia. by eapply selected_full.
  - apply selected_empty in Hsel; [subst blobs|rewrite i64_large; unfold i64_max, u64_modulus in *; lia].
    apply Forall2_length in Hf. destruct l; [by intros i b Hi|done].
Qed.

(** The storage for a table keeps the promises of a storage. *)
#[export] Instance MySql_Laws (table : string) : StorageLaws MySql_Storage.
Proof.
  refine {| st_ok s := impl s = Some table /\ readable (my_db s) table;
            st_has s := row_block (my_db s) table;
            st_block b := block_ok b /\ 0 <= blk_height b <= i64_max |}.
  - intros s l r s' [Hi Hrd] Hl H. cbn in H. unfold with_impl in H. rewrite get_bind, Hi in H.
    unfold on_db, zoom in H. destruct (impl_Store table l (my_db s)) as [r1 d1] eqn:E.
    injection H as <- <-. split; [split; [done|]|by eapply impl_Store_rows].
    by eapply impl_Store_readable.
  - intros s start count r s' [Hi Hrd] Hst Hc H. cbn in H. unfold with_impl in H. rewrite get_bind, Hi in H.
    unfold on_db, zoom in H. destruct (impl_GetRange table start count (my_db s)) as [r1 d1] eqn:E.
    injection H as <- <-. destruct (impl_GetRange_run _ _ _ _ _ _ Hst Hc E) as [Hd Hr].
    split_and!; [done| | |done]; cbn; unfold readable, row_block; by rewrite Hd.
Defined.

(** *** A server that answers

    Statements can be prepared; that they fail is an answer, too. *)
Record my_answers : Prop := {
  ma_prepare : forall n sql d, exists stmt d', my_Prepare n sql d = (Ok stmt, d');
  ma_execute : forall stmt vals d, exists r d', my_Execute stmt vals d = (r, d') /\
    (r = Ok tt \/ exists msg, r = Throw (MyppError msg));
  ma_query : forall stmt vals d, exists r d', my_Query stmt vals d = (r, d') /\
    ((exists blobs, r = Ok (blobs, None)) \/
     (exists blobs msg, r = Ok (blobs, Some (MyppError msg))) \/
     exists msg, r = Throw (MyppError msg))
}.

Context (MA : my_answers).

Lemma prepare_answers n sql d : exists stmt d1,
  try_mypp (my_Prepare n sql) fatal d = (Ok stmt, d1) /\
  my_sql stmt = sql /\ my_rows d1 = my_rows d.
Proof.
  destruct (ma_prepare MA n sql d) as (stmt & d1 & E). exists stmt, d1.
  destruct (my_prepare _ _ _ _ _ E) as [Hd Hs]. split_and!; [|by apply Hs|done].
  unfold try_mypp. by rewrite E.
Qed.

Lemma impl_Store_answers table l : forall d, Forall block_ok l ->
  exists d', impl_Store table l d = (Ok tt, d').
Proof.
  induction l as [|x l IH]; intros d Hl; [by exists d|].
  apply Forall_cons in Hl as [Hok Hl]. unfold impl_Store. cbn [forM].
  assert (Hx : exists d1, store_block table x d = (Ok tt, d1)).
  { unfold store_block. destruct (block_roundtrip x Hok) as (data & Hw & _).
    destruct (prepare_answers 2 (replace_sql table) d) as (stmt & d1 & E & _).
    rewrite (bind_Ok _ _ _ _ _ E).
    rewrite lift_Ok_bind with (a := data) by done. unfold try_mypp.
    destruct (ma_execute MA stmt [MyInt (i64 (blk_height x)); MyBlob data] d1)
      as (r & d2 & -> & [-> |[msg ->]]); by eexists. }
  destruct Hx as [d1 E]. rewrite (bind_Ok _ _ _ _ _ E). by apply IH.
Qed.

Lemma readable_mapM d table a b all blobs : readable d table ->
  selected (my_rows d table) a b all -> blobs `prefix_of` all ->
  exists l, mapM block_read blobs = Ok l.
Proof.
  intros Hd (L & -> & _ & Hin) Hp.
  assert (Hf : Forall (fun x => exists y, block_read x = Ok y) blobs).
  { apply Forall_forall. intros x Hx. destruct Hp as [rest Hp].
    assert (Hx2 : x ∈ L.*2) by (rewrite Hp; set_solver).
    apply list_elem_of_fmap in Hx2 as ([h data] & -> & [HL _]%Hin). by eapply Hd. }
  clear Hp. induction Hf as [|x blobs [y Hy] _ [l IH]]; [by exists []|].
  exists (y :: l). cbn. by rewrite Hy, IH.
Qed.

Lemma impl_GetRange_answers table start count d : readable d table ->
  exists l d', impl_GetRange table start count d = (Ok l, d').
Proof.
  intros Hd. unfold impl_GetRange.
  destruct (prepare_answers 2 (select_sql table) d) as (stmt & d1 & Ep & Hsql & Hd1).
  rewrite (bind_Ok _ _ _ _ _ Ep). unfold try_mypp.
  destruct (ma_query MA stmt [MyInt (i64 start); MyInt (i64 (u64 (start + count)))] d1)
    as (r & d2 & E & Hr); destruct (my_select _ _ _ _ _ _ _ Hsql E) as [_ Hsel].
  destruct Hr as [[blobs ->]|[(blobs & msg & ->)|[msg ->]]].
  - destruct (Hsel _ _ eq_refl) as (all & Hall & Hp & _). rewrite Hd1 in Hall.
    destruct (readable_mapM _ _ _ _ _ _ Hd Hall Hp) as [l El].
    rewrite (bind_Ok _ _ _ _ _ E), lift_Ok_bind with (a := l) by done. by eexists _, _.
  - destruct (Hsel _ _ eq_refl) as (all & Hall & Hp & _). rewrite Hd1 in Hall.
    destruct (readable_mapM _ _ _ _ _ _ Hd Hall Hp) as [l El].
    rewrite (bind_Ok _ _ _ _ _ E), lift_Ok_bind with (a := l) by done. by eexists _, _.
  - unfold bind at 1. rewrite E. by eexists _, _.
Qed.

Lemma mysql_Store_answers table s l : @st_ok _ _ _ (MySql_Laws table) s ->
  Forall (@st_block _ _ _ (MySql_Laws table)) l -> exists s', st_Store l s = (Ok tt, s').
Proof.
  intros [Hi Hd] Hl. cbn. unfold with_impl. rewrite get_bind, Hi. unfold on_db, zoom.
  destruct (impl_Store_answers table l (my_db s)) as [d' ->]; [|by eexists].
  eapply Forall_impl; [exact Hl|]. by intros b [? _].
Qed.

Lemma mysql_GetRange_answers table s start count : @st_ok _ _ _ (MySql_Laws table) s ->
  exists l s', st_GetRange start count s = (Ok l, s').
Proof.
  intros [Hi Hd]. cbn. unfold with_impl. rewrite get_bind, Hi. unfold on_db, zoom.
  destruct (impl_GetRange_answers table start count (my_db s) Hd) as (l & d' & ->). by eexists _, _.
Qed.
End Laws.

(** ** The theorems *)

Section Theorems.
Context {J : JsonCpp} {BCo : BlockCodec} {BL : BlockCodecLaws BCo}
  {MP : Mypp} {ML : MyppLaws MP}.

(** C26. A block cache with MySQL as its storage is transparent, whichever statements
    fail: a range is the one of the underlying chain, whether it comes from the table or
    not, if blocks with [minDepth] others on top do not change. *)
Theorem mysql_cache_transparent {B} {BC : BaseChain B} {CN : Connector BC} (table : string)
    (minDepth : Z) (Hdepth : 0 <= minDepth < 2 ^ 62)
    (Hblocks : forall b h blk, cn_ok b -> v_at (cn_view b) h = Some blk ->
       blk_height blk = h /\ 0 <= h <= i64_max /\ block_ok blk)
    (Htips : forall b, cn_ok b -> 0 <= v_tip (cn_view b) < 2 ^ 62)
    (Hfinal : forall v v' h, cn_evolves v v' -> h + minDepth <= v_tip v ->
       v_at v' h = v_at v h)
    (c c' : BlockCacheChain B MySqlBlockStorage) (start count : Z) (l : list BlockData)
    (Hc : cache_reachable (SL:=MySql_Laws table) minDepth c)
    (Hstart : 0 <= start) (Hcount : 0 <= count) (Hend : start + count < 2 ^ 63)
    (Hrun : cache_GetBlockRange minDepth start count c = (Ok l, c')) :
  l = slice (v_at (cn_view (bcc_base c'))) start (Z.to_nat count).
Proof.
  assert (Hh : forall b h blk, cn_ok b -> v_at (cn_view b) h = Some blk -> blk_height blk = h).
  { intros b h blk Hb Ha. by apply (Hblocks b). }
  assert (Hs : forall b h blk, cn_ok b -> v_at (cn_view b) h = Some blk ->
    @st_block _ _ _ (MySql_Laws table) blk).
  { intros b h blk Hb Ha. destruct (Hblocks b h blk Hb Ha) as (<- & ? & ?). by split. }
  eapply (cache_range (SL:=MySql_Laws table) minDepth Hdepth Hh Hs Hfinal); [|done..].
  by apply (cache_reachable_ok (SL:=MySql_Laws table) minDepth Hdepth Hh Htips Hs Hfinal).
Qed.

(** *** A server that answers *)

Section Works.
Context (Hprep : forall n sql d, exists stmt d', my_Prepare n sql d = (Ok stmt, d'))
  (Hexec : forall stmt vals d, exists d', my_Execute stmt vals d = (Ok tt, d'))
  (Hquery : forall stmt vals d, exists blobs d', my_Query stmt vals d = (Ok (blobs, None), d')).

Lemma store_block_works table b d : block_ok b -> 0 <= blk_height b <= i64_max ->
  exists data d', store_block table b d = (Ok tt, d') /\ block_read data = Ok b /\
    my_rows d' table = <[blk_height b := data]> (my_rows d table).
Proof.
  intros Hok Hh. destruct (block_roundtrip b Hok) as (data & Hw & Hr).
  destruct (Hprep 2 (replace_sql table) d) as (stmt & d1 & E1).
  destruct (my_prepare _ _ _ _ _ E1) as [Hd1 Hsql]. specialize (Hsql _ eq_refl).
  destruct (Hexec stmt [MyInt (blk_height b); MyBlob data] d1) as (d2 & E2).
  exists data, d2. unfold store_block, try_mypp. split_and!; [|done|].
  - rewrite bind_Ok with (a := stmt) (s' := d1) by by rewrite E1.
    rewrite lift_Ok_bind with (a := data) by done. rewrite i64_small by done. by rewrite E2.
  - destruct (my_replace _ _ _ _ _ _ _ Hsql (proj1 Hh) E2) as [Hd|[_ Hne]]; [by rewrite Hd, Hd1|done].
Qed.

Lemma impl_Store_works table l : forall d,
  Forall (fun b => block_ok b /\ 0 <= blk_height b <= i64_max) l -> NoDup (blk_height <$> l) ->
  exists d', impl_Store table l d = (Ok tt, d') /\
    (forall b, b ∈ l -> row_block d' table (blk_height b) b) /\
    (forall h, h ∉ blk_height <$> l -> my_rows d' table !! h = my_rows d table !! h).
Proof.
  induction l as [|x l IH]; intros d Hl Hn.
  { exists d. split_and!; [done| |done]. by intros b ?%not_elem_of_nil. }
  apply Forall_cons in Hl as [[Hok Hh] Hl]. cbn in Hn. apply NoDup_cons in Hn as [Hx Hn].
  destruct (store_block_works table x d Hok Hh) as (data & d1 & E1 & Hr & Hd1).
  destruct (IH d1 Hl Hn) as (d2 & E2 & Hin & Hout). exists d2. split_and!.
  - unfold impl_Store. cbn [forM]. by rewrite (bind_Ok _ _ _ _ _ E1).
  - intros b [->|Hb]%elem_of_cons; [|by apply Hin].
    exists data. split; [|done]. by rewrite Hout, Hd1, lookup_insert_eq.
  - intros h [Hne Hb]%not_elem_of_cons. rewrite Hout, Hd1 by done. by rewrite lookup_insert_ne.
Qed.

(** The rows of a range in which every height has a row. *)
Lemma selected_all rows a l blobs : selected rows a (a + Z.of_nat (length l)) blobs ->
  (forall i b, l !! i = Some b -> exists data,
     rows !! (a + Z.of_nat i) = Some data /\ block_read data = Ok b) ->
  Forall2 (fun x y => block_read x = Ok y) blobs l.
Proof.
  intros (L & -> & Hs & Hin) Hrows.
  assert (Ha : Forall (fun x : Z * string => a <= x.1 < a + Z.of_nat (length l)) L).
  { apply Forall_forall. intros [h d] [_ ?]%Hin. done. }
  pose proof (sorted_rows_length _ _ _ Hs Ha) as Hle.
  assert (Hsub : seqZ a (Z.of_nat (length l)) ⊆+ L.*1).
  { apply NoDup_submseteq; [apply NoDup_seqZ|]. intros h Hh%elem_of_seqZ.
    destruct (lookup_lt_is_Some_2 l (Z.to_nat (h - a))) as [b Hb]; [lia|].
    destruct (Hrows _ _ Hb) as (data & Hd & _). rewrite Z2Nat.id in Hd by lia.
    apply list_elem_of_fmap. exists (h, data). split; [done|]. apply Hin.
    replace (a + (h - a)) with h in Hd by lia. split; [done|lia]. }
  apply submseteq_length in Hsub. rewrite length_seqZ, length_fmap in Hsub.
  assert (Hlen : length L = length l) by lia. clear Hsub Hle.
  apply Forall2_same_length_lookup. rewrite length_fmap. split; [done|].
  intros i data b Hi Hb. apply list_lookup_fmap_Some in Hi as ([h data'] & -> & HL).
  pose proof (sorted_rows_full L a _ Hs Ha ltac:(lia) i _ HL) as Hh. cbn in *. subst h.
  apply list_elem_of_lookup_2, Hin in HL as [HL _].
  destruct (Hrows _ _ Hb) as (d & Hd & Hr). congruence.
Qed.

(** If no statement fails, blocks that are stored on consecutive heights are
    returned again, in order, whatever the table had before. *)
Theorem mysql_Store_GetRange table l start d
    (Hl : Forall block_ok l) (Hh : forall i b, l !! i = Some b -> blk_height b = start + Z.of_nat i)
    (Hst : 0 <= start) (Hend : start + Z.of_nat (length l) <= i64_max) :
  exists d', (impl_Store table l;; impl_GetRange table start (Z.of_nat (length l))) d = (Ok l, d').
Proof.
  assert (Hseq : blk_height <$> l = seqZ start (Z.of_nat (length l))).
  { apply list_eq_same_length with (n := length l); [by rewrite length_seqZ; lia|by rewrite length_fmap|].
    intros i x y Hi (b & -> & Hb)%list_lookup_fmap_Some Hy. apply lookup_seqZ in Hy as [-> _].
    by rewrite (Hh _ _ Hb). }
  destruct (impl_Store_works table l d) as (d1 & E1 & Hin & _).
  { rewrite Forall_forall in *. intros b Hb. split; [by apply Hl|].
    apply list_elem_of_lookup in Hb as [i Hi]. rewrite (Hh _ _ Hi).
    apply lookup_lt_Some in Hi. lia. }
  { rewrite Hseq. apply NoDup_seqZ. }
  rewrite (bind_Ok _ _ _ _ _ E1). unfold impl_GetRange.
  destruct (Hprep 2 (select_sql table) d1) as (stmt & d2 & E2).
  destruct (my_prepare _ _ _ _ _ E2) as [Hd2 Hsql]. specialize (Hsql _ eq_refl).
  rewrite bind_Ok with (a := stmt) (s' := d2) by (unfold try_mypp; by rewrite E2).
  rewrite u64_small by (unfold i64_max, u64_modulus in *; lia). rewrite !i64_small by lia.
  destruct (Hquery stmt [MyInt start; MyInt (start + Z.of_nat (length l))] d2) as (blobs & d3 & E3).
  destruct (my_select _ _ _ _ _ _ _ Hsql E3) as [_ Hsel].
  destruct (Hsel blobs None eq_refl) as (all & Hall & _ & Heq).
  rewrite <- Heq, Hd2 in Hall by done. exists d3. unfold try_mypp. erewrite bind_Ok by exact E3. cbn beta iota.
  rewrite lift_Ok_bind with (a := l); [done|]. apply result_mapM_intro, (selected_all _ _ _ _ Hall).
  intros i b Hi. rewrite <- (Hh _ _ Hi). apply Hin. by eapply list_elem_of_lookup_2.
Qed.
End Works.
End Theorems.

(** ** A concrete server

    The rows by table and height, and a counter of the statements executed; [fails] tells
    which of them fail.  The name of a table is between backquotes; the name of a
    column precedes it in a query. *)
Module MySqlServer.

Fixpoint upto_tick (s : string) : string :=
  match s with
  | EmptyString => EmptyString
  | String c s' => if bool_decide (c = "`"%char) then EmptyString else String c (upto_tick s')
  end.

Fixpoint after_tick (s : string) : string :=
  match s with
  | EmptyString => EmptyString
  | String c s' => if bool_decide (c = "`"%char) then s' else after_tick s'
  end.

Definition table_of (sql : string) : string :=
  match sql with
  | String "S" _ => upto_tick (after_tick (after_tick (after_tick sql)))
  | _ => upto_tick (after_tick sql)
  end.

Lemma upto_tick_app t rest : upto_tick (t ++ String "`" rest) = upto_tick t.
Proof.
  induction t as [|c t IH]; [done|]. change (String c t ++ String "`" rest)%string
    with (String c (t ++ String "`" rest)%string). cbn [upto_tick].
  case_bool_decide; [done|]. by rewrite IH.
Qed.

Definition rows_in (m : gmap Z string) (a b : Z) : list (Z * string) :=
  omap (fun h => pair h <$> m !! h) (seqZ a (b - a)).

Lemma elem_of_rows_in m a b h data :
  (h, data) ∈ rows_in m a b <-> m !! h = Some data /\ a <= h < b.
Proof.
  unfold rows_in. rewrite list_elem_of_omap. split.
  - intros (h' & Hh & (data' & Hd & [= <- <-])%fmap_Some). apply elem_of_seqZ in Hh.
    split; [done|lia].
  - intros [Hd Hh]. exists h. split; [apply elem_of_seqZ; lia|]. by rewrite Hd.
Qed.

Lemma rows_in_sorted m a n : StronglySorted (fun x y => x.1 < y.1) (rows_in m a (a + Z.of_nat n)).
Proof.
  revert a. induction n as [|n IH]; intros a; unfold rows_in.
  { replace (a + Z.of_nat 0 - a) with 0 by lia. constructor. }
  rewrite seqZ_cons by lia. cbn [omap list_omap].
  replace (Z.pred (a + Z.of_nat (S n) - a)) with (Z.succ a + Z.of_nat n - Z.succ a) by lia.
  specialize (IH (Z.succ a)). destruct (m !! a) as [d|]; cbn; [|exact IH].
  constructor; [exact IH|]. apply Forall_forall. intros [h d'] [_ Hh]%elem_of_rows_in. cbn. lia.
Qed.

Section Server.
Context (fails : nat -> bool).

Definition Server : Type := nat * gmap string (gmap Z string).

Definition execute (sql : string) (vals : list my_value) : M Server unit := fun s =>
  if fails s.1 then (Throw (MyppError "lost connection"), (S s.1, s.2)) else
  match vals with
  | [MyInt h; MyBlob data] =>
      (Ok tt, (S s.1, <[table_of sql := <[h := data]> (default ∅ (s.2 !! table_of sql))]> s.2))
  | _ => (Ok tt, (S s.1, s.2))
  end.

Definition query (sql : string) (vals : list my_value) : M Server (list string * option exn) :=
  fun s =>
  match vals with
  | [MyInt a; MyInt b] => (Ok ((rows_in (default ∅ (s.2 !! table_of sql)) a b).*2, None), s)
  | _ => (Ok ([], None), s)
  end.

#[export] Instance server : Mypp := {|
  MyDb := Server;
  MyStmt := string;
  MyUrl := string;
  url_Parse s := if bool_decide (s = EmptyString) then Throw (MyppError "invalid URL") else Ok s;
  GetHost _ := "localhost"%string;
  GetPort _ := 3306;
  GetUser _ := "xaya"%string;
  GetPassword _ := "password"%string;
  GetDatabase _ := "xayax"%string;
  HasTable _ := true;
  GetTable s := s;
  HasOption _ _ := false;
  GetOption _ _ := Throw (MyppError "no option");
  my_UseClientCertificate _ _ _ := ret tt;
  my_Connect _ _ _ _ _ := ret tt;
  my_Prepare _ sql := ret sql;
  my_Execute := execute;
  my_Query := query
|}.

#[export] Instance server_laws : MyppLaws server.
Proof.
  refine {| my_rows := fun (d : @MyDb server) table => default ∅ (d.2 !! table_of (replace_sql table));
            my_sql := fun (stmt : @MyStmt server) => stmt |}.
  - intros n sql d r d' [= <- <-]. split; [done|]. by intros stmt [= <-].
  - intros stmt table h data d r d' -> Hh H. cbn in H. unfold execute in H.
    destruct (fails d.1); injection H as <- <-; cbn; [by right|left]. by rewrite lookup_insert_eq.
  - intros stmt table a b d r d' -> H.
    change (query (select_sql table) [MyInt a; MyInt b] d = (r, d')) in H. unfold query in H.
    assert (Ht : table_of (select_sql table) = table_of (replace_sql table)).
    { transitivity (upto_tick table); [|symmetry]; exact (upto_tick_app table _). }
    rewrite Ht in H. injection H as <- <-. split; [done|]. intros blobs err [= <- <-].
    eexists. split; [|done]. eexists. split; [done|]. split; [|intros h data; apply elem_of_rows_in].
    destruct (decide (a <= b)).
    + replace b with (a + Z.of_nat (Z.to_nat (b - a))) by lia. apply rows_in_sorted.
    + unfold rows_in. rewrite seqZ_nil by lia. constructor.
Defined.

Lemma server_answers : my_answers (MP:=server).
Proof.
  split.
  - intros n sql d. by eexists _, _.
  - intros stmt vals d. cbn. unfold execute.
    repeat case_match; eexists _, _; (split; [reflexivity|]); eauto.
  - intros stmt vals d. cbn. unfold query.
    repeat case_match; eexists _, _; (split; [reflexivity|]); eauto.
Qed.
End Server.
End MySqlServer.

(** ** Examples *)
Module MySqlSample.
Import Model BitsProto Fixed CacheSample MySqlServer.

(** The second statement fails. *)
Definition flaky (n : nat) : bool := (n =? 1)%nat.
Definition reliable (n : nat) : bool := false.

Definition flaky_server := server flaky.
#[export] Existing Instance flaky_server.
#[export] Instance flaky_laws : MyppLaws flaky_server := server_laws flaky.

Definition fresh : MySqlBlockStorage := {| my_db := (0%nat, ∅) : @MyDb flaky_server; impl := None |}.
Definition connected : MySqlBlockStorage := (mysql_Connect "blocks" fresh).2.

Lemma connects : mysql_Connect "blocks" fresh = (Ok true, connected).
Proof. reflexivity. Qed.

Definition d0 : BlockCacheChain Chain MySqlBlockStorage :=
  {| bcc_base := chain; bcc_store := connected; lastTipHeight := 0 |}.

(** The tip is queried, and a range three times: first only one of the two blocks could be
    stored, then both, and then they come from the table. *)
Definition d1 := (cache_GetTipHeight d0).2.
Definition d2 := (cache_GetBlockRange 1 10 2 d1).2.
Definition d3 := (cache_GetBlockRange 1 10 2 d2).2.
Definition d4 := (cache_GetBlockRange 1 10 2 d3).2.

Lemma range_reachable c : cache_reachable (SL:=MySql_Laws "blocks") 1 c ->
  cache_reachable (SL:=MySql_Laws "blocks") 1 (cache_GetBlockRange 1 10 2 c).2.
Proof.
  intros H. destruct (cache_GetBlockRange 1 10 2 c) as [r c'] eqn:E.
  apply (cache_call_range (SL:=MySql_Laws "blocks") 1 c 10 2 r c'); [done|lia..|done].
Qed.

Lemma d3_reachable : cache_reachable (SL:=MySql_Laws "blocks") 1 d3.
Proof.
  apply range_reachable, range_reachable.
  apply (cache_call_tip (SL:=MySql_Laws "blocks") 1 d0 (Ok 13));
    [|vm_cast_no_check (eq_refl (cache_GetTipHeight d0))].
  apply cache_init; [apply chain_ok|split; [reflexivity|]|].
  { intros h data Hd. vm_compute in Hd. discriminate Hd. }
  intros h b (data & Hd & _). vm_compute in Hd. discriminate Hd.
Qed.

Lemma valid_block (b : BlockData) : 0 <= blk_height b < u64_modulus -> BlockData_valid b.
Proof.
  intros Hh. do 2 (split; [done|]). split; [exact Hh|]. do 2 (split; [done|]).
  apply Forall_forall. intros mv _. by split_and!.
Qed.

Lemma mysql_cache_transparent_witness :
  [blk 10 "g" "f"; blk 11 "a" "g"]
  = slice (v_at (cn_view (bcc_base d4))) 10 (Z.to_nat 2).
Proof.
  apply (mysql_cache_transparent "blocks" 1) with (c := d3) (c' := d4).
  - done.
  - intros b h x (Hs & Ht & Hok) Hx. pose proof (Hok _ _ Hx) as Hh. cbn in Hx. unfold fx_at in Hx.
    destruct (Z.leb_spec (fx_start b) h); [|done]. apply lookup_lt_Some in Hx.
    assert (0 <= h < 2 ^ 62) by (unfold fx_tip in Ht; lia).
    split_and!; [done|lia|unfold i64_max; lia|]. apply valid_block. unfold u64_modulus. lia.
  - intros b (_ & Ht & _). exact Ht.
  - by intros v v' h <-.
  - exact d3_reachable.
  - done.
  - done.
  - done.
  - vm_cast_no_check (eq_refl (cache_GetBlockRange 1 10 2 d3)).
Defined.

(** The rows after each of the queries. *)
Lemma stored_rows :
  map (fun d => map fst (rows_in (my_rows (my_db (bcc_store d)) "blocks") 10 14)) [d1; d2; d3; d4] =
  [[]; [10]; [10; 11]; [10; 11]].
Proof. vm_compute. reflexivity. Qed.

Lemma mysql_Store_GetRange_witness :
  exists d', (impl_Store "blocks" blocks;; impl_GetRange "blocks" 10 4) ((0%nat, ∅) : @MyDb (server reliable))
             = (Ok blocks, d').
Proof.
  apply (mysql_Store_GetRange (MP:=server reliable) (ML:=server_laws reliable)).
  - intros n sql d. by eexists _, _.
  - intros stmt vals d. cbn. unfold execute. cbn. repeat case_match; by eexists.
  - intros stmt vals d. cbn. unfold query. repeat case_match; by eexists _, _.
  - repeat constructor; try (apply valid_block); done.
  - intros i b Hi. assert (i < 4)%nat as Hlt by (apply lookup_lt_Some in Hi; done).
    do 4 (destruct i as [|i]; [cbn in Hi; by simplify_eq|]). lia.
  - done.
  - done.
Defined.
End MySqlSample.
