(* ===== verification/TipUpdate.v ===== *)
(** * Notifications of tip updates

    The contract between [Sync], which calls [TipUpdatedFrom], and its callee (in
    the program, the controller): [tip_update m old attaches] is what holds of the
    arguments, [m] being the table of the chainstate at the time of the call.  It
    is enough to derive which blocks are detached and attached. *)

From S2P Require Import Prelude Json BlockData Chainstate ChainTree ChainQueries.

(** Each block is the parent of the next. *)
Fixpoint linked {J : JsonCpp} (l : list BlockData) : Prop :=
  match l with
  | b :: (b' :: _) as l' => blk_parent b' = blk_hash b /\ linked l'
  | _ => True
  end.

(** Where a walk from [h] past the blocks [bs] ends. *)
Definition fork_end {J : JsonCpp} (h : string) (bs : list BlockData) : string :=
  match last bs with Some d => blk_parent d | None => h end.

Section Contract.
Context {J : JsonCpp} {C : BlockCodec} {U : Universe}.
Implicit Types (m : gmap string row) (h : string) (r : row) (l att : list BlockData).

Record tip_update m (old : string) att : Prop := {
  tu_linked : linked att;
  tu_genuine : Forall genuine att;
  tu_top : exists b r, last att = Some b /\ is_top m (blk_hash b) r /\
    row_height r = blk_height b;
  tu_moved : forall b, last att = Some b -> blk_hash b <> EmptyString /\ blk_hash b <> old;
  tu_old : old = EmptyString \/
    exists bs rF, fork_path m old bs /\ m !! fork_end old bs = Some rF /\
      row_branch rF = 0 /\
      forall first, head att = Some first -> blk_height first <= row_height rF + 1
}.

(** ** Linked lists *)

Lemma linked_cons b l : linked (b :: l) <->
  (forall b', head l = Some b' -> blk_parent b' = blk_hash b) /\ linked l.
Proof. destruct l; cbn; naive_solver. Qed.

Lemma linked_app l1 l2 : linked l1 -> linked l2 ->
  (forall b b', last l1 = Some b -> head l2 = Some b' -> blk_parent b' = blk_hash b) ->
  linked (l1 ++ l2).
Proof.
  induction l1 as [|b l1 IH]; [done|]. intros [Hb Hl1]%linked_cons Hl2 H. cbn [app].
  apply linked_cons. destruct l1 as [|b1 l1].
  - split; [|done]. intros b' Hb'. by apply (H b).
  - split; [exact Hb|]. apply IH; [done..|]. intros x b' Hx. apply H.
    by rewrite last_cons_cons.
Qed.

(** The heights of linked genuine blocks are consecutive. *)
Lemma linked_height b b' l : linked (b :: b' :: l) -> genuine b -> genuine b' ->
  blk_height b' = blk_height b + 1.
Proof.
  intros [Hl _] (_ & _ & Hh & _) (_ & _ & _ & Hp & _). rewrite Hl in Hp. lia.
Qed.

Lemma linked_last_height b l d : linked (b :: l) -> Forall genuine (b :: l) ->
  last (b :: l) = Some d -> blk_height d = blk_height b + Z.of_nat (length l).
Proof.
  revert b. induction l as [|b' l IH]; intros b Hl Hg Hd.
  - injection Hd as <-. cbn. lia.
  - apply Forall_cons in Hg as [Hgb Hg]. pose proof Hg as [Hgb' _]%Forall_cons.
    pose proof (linked_height _ _ _ Hl Hgb Hgb').
    rewrite last_cons_cons in Hd. rewrite (IH b') by (done || apply Hl). cbn [length]. lia.
Qed.

(** A path down to the main chain is linked, upside down. *)
Lemma fork_path_linked m h bs : map_Forall row_ok m -> fork_path m h bs ->
  linked (reverse bs) /\ forall d, head bs = Some d -> blk_hash d = h.
Proof.
  intros Hok. induction 1 as [| |h r b bs Hr Hb Hrd Hp [IH IHh]]; [done..|].
  destruct (Hok _ _ Hr) as (_ & b' & E & Hbh & Hbp & _). assert (b' = b) as -> by congruence.
  split; [|by intros d [= <-]]. rewrite reverse_cons. apply linked_app; [done|done|].
  intros d x Hd [= <-]. rewrite last_reverse in Hd. rewrite Hbp. symmetry. by apply IHh.
Qed.

Lemma fork_path_genuine m h bs : map_Forall row_ok m -> fork_path m h bs -> Forall genuine bs.
Proof.
  intros Hok Hp. apply Forall_forall. intros b Hb.
  by destruct (fork_path_elem _ _ _ _ Hok Hp Hb) as (r & _ & _ & _ & _ & ?).
Qed.

Lemma fork_end_cons h r b bs : blk_parent b = row_parent r ->
  fork_end h (b :: bs) = fork_end (row_parent r) bs.
Proof.
  intros Hb. unfold fork_end. destruct bs as [|b' bs]; [done|]. rewrite last_cons_cons.
  destruct (last (b' :: bs)) eqn:E; [done|]. by apply last_None in E.
Qed.

(** ** The attached blocks are on the main chain *)

(** From the top of [att] down to a main-chain block [F] below: the blocks of
    [att] above [F] are on the main chain, and the lowest of them is attached
    to [F]. *)
Lemma attached_main m att F rF b0 l : Inv m -> m !! F = Some rF -> row_branch rF = 0 ->
  att = b0 :: l -> linked att -> Forall genuine att ->
  (exists b r, last att = Some b /\ is_top m (blk_hash b) r /\ row_height r = blk_height b) ->
  row_height rF < blk_height b0 ->
  exists r0, m !! blk_hash b0 = Some r0 /\ row_branch r0 = 0 /\
    row_height r0 = blk_height b0.
Proof.
  intros HI HF HbF. revert b0 att. induction l as [|b1 l IH]; intros b0 att -> Hl Hg Htop Hlt.
  - destruct Htop as (b & r & [= <-] & (Hr & Hb & _) & Hh). by exists r.
  - pose proof Hg as [Hg0 Hg1]%Forall_cons. pose proof Hg1 as [Hgb1 _]%Forall_cons.
    pose proof (linked_height _ _ _ Hl Hg0 Hgb1) as Hh.
    destruct (IH b1 (b1 :: l)) as (r1 & Hr1 & Hb1 & Hhr1); [done|apply Hl|done|..].
    { destruct Htop as (b & r & Hlast & ? & ?). exists b, r.
      by rewrite last_cons_cons in Hlast. }
    { lia. }
    destruct (inv_contiguous _ HI _ _ _ _ Hr1 HF) as (p & Hp & Hpb); [congruence|lia|].
    destruct (row_genuine _ _ _ HI Hr1) as (Hrp & _).
    destruct Hgb1 as (_ & Hpar1 & _). destruct Hl as [Hl01 _].
    assert (Hpe : row_parent r1 = blk_hash b0) by congruence.
    pose proof (parent_height _ _ _ _ HI Hr1 Hp). rewrite Hpe in Hp.
    exists p. split_and!; [done|congruence|lia].
Qed.

Lemma attached_first m att F rF b0 l : Inv m -> m !! F = Some rF -> row_branch rF = 0 ->
  att = b0 :: l -> linked att -> Forall genuine att ->
  (exists b r, last att = Some b /\ is_top m (blk_hash b) r /\ row_height r = blk_height b) ->
  blk_height b0 = row_height rF + 1 -> blk_parent b0 = F.
Proof.
  intros HI HF HbF E Hl Hg Ht Hh.
  destruct (attached_main m att F rF b0 l) as (r0 & Hr0 & Hb0 & Hh0); [done..|lia|].
  destruct (inv_contiguous _ HI _ _ _ _ Hr0 HF) as (p & Hp & Hpb); [congruence|lia|].
  destruct (row_genuine _ _ _ HI Hr0) as (Hrp & _).
  subst att. apply Forall_cons in Hg as [(_ & Hpar & _) _].
  pose proof (parent_height _ _ _ _ HI Hr0 Hp).
  rewrite Hpar, <- Hrp. apply (inv_uniq _ HI _ _ p rF); [done|done|congruence|lia].
Qed.
End Contract.
