(* ===== verification/Sync.v ===== *)
(** * The sync worker (src/sync.cpp, src/private/sync.hpp)

    [Sync] keeps a chainstate updated from a base chain, step by step.  The state
    [Sync] below has the data that the worker owns and the two components to
    which it has references; the callback [TipUpdatedFrom] may act on these and on
    the rest [X] of the program.  Since the worker holds the locks during a step,
    a step is one operation. *)

From S2P Require Import Prelude Json BlockData Chainstate BaseChain.

Section Worker.
Context {J : JsonCpp} {C : BlockCodec} {B X : Type} {BC : BaseChain B}.

Record Sync := {
  sy_base : B;
  sy_chain : Chainstate;
  sy_rest : X;
  numBlocks : Z;
  nextStartHeight : Z
}.

(** The callback [Sync::Callbacks::TipUpdatedFrom]. *)
Definition sync_callback : Type := string -> list BlockData -> M (B * Chainstate * X) unit.

Section Steps.
Context (pruningDepth : Z) (xayax_block_range : Z) (cb : option sync_callback).

Definition set_numBlocks (n : Z) (s : Sync) : Sync :=
  {| sy_base := sy_base s; sy_chain := sy_chain s; sy_rest := sy_rest s;
     numBlocks := n; nextStartHeight := nextStartHeight s |}.

Definition set_nextStartHeight (h : Z) (s : Sync) : Sync :=
  {| sy_base := sy_base s; sy_chain := sy_chain s; sy_rest := sy_rest s;
     numBlocks := numBlocks s; nextStartHeight := h |}.

Definition on_base {A} (m : M B A) : M Sync A :=
  zoom sy_base (fun b s =>
    {| sy_base := b; sy_chain := sy_chain s; sy_rest := sy_rest s;
       numBlocks := numBlocks s; nextStartHeight := nextStartHeight s |}) m.

Definition on_chain {A} (m : M Chainstate A) : M Sync A :=
  zoom sy_chain (fun c s =>
    {| sy_base := sy_base s; sy_chain := c; sy_rest := sy_rest s;
       numBlocks := numBlocks s; nextStartHeight := nextStartHeight s |}) m.

Definition notify (oldTip : string) (attaches : list BlockData) : M Sync unit :=
  match cb with
  | None => ret tt
  | Some f =>
      zoom (fun s => (sy_base s, sy_chain s, sy_rest s))
           (fun t s => {| sy_base := t.1.1; sy_chain := t.1.2; sy_rest := t.2;
                          numBlocks := numBlocks s;
                          nextStartHeight := nextStartHeight s |})
           (f oldTip attaches)
  end.

(** Both arguments of the [std::min<unsigned>] are converted to 32 bits. *)
Definition IncreaseNumBlocks : M Sync unit :=
  check (1 <=? xayax_block_range);;
  n <- gets numBlocks;;
  modify (set_numBlocks (Z.min (u32 xayax_block_range) (u32 (Z.shiftl n 1)))).

Definition ImportNewTip (height : Z) : M Sync bool :=
  blocks <- on_base (bc_GetBlockRange height 1);;
  match blocks with
  | [] => ret false
  | blk :: more =>
      check (empty_b more);;
      on_chain (ImportTip blk);;
      notify "" blocks;;
      ret true
  end.

(** The loop that attaches the blocks after the first one; [last] is the block
    before. *)
Fixpoint attach_rest (last : BlockData) (blocks : list BlockData) : M Chainstate unit :=
  match blocks with
  | [] => ret tt
  | b :: blocks' =>
      o <- SetTip b;;
      match o with
      | None => fatal
      | Some prev =>
          check (bool_decide (prev = blk_parent b));;
          check (bool_decide (prev = blk_hash last));;
          attach_rest b blocks'
      end
  end.

(** The start of a step: the height from which on blocks are requested, or [None]
    if the chainstate is empty. *)
Definition GetStartHeight : M Sync (option Z) :=
  next <- gets nextStartHeight;;
  if next =? -1 then
    tipHeight <- on_chain GetTipHeight;;
    ret (if tipHeight =? -1 then None else Some tipHeight)
  else ret (Some next).

(** The blocks do not fit: go back. *)
Definition StepBack (startHeight num : Z) : M Sync bool :=
  IncreaseNumBlocks;;
  lowest <- on_chain GetLowestUnprunedHeight;;
  modify (set_nextStartHeight (Z.max lowest (startHeight - num)));;
  check (Z.max lowest (startHeight - num) <? startHeight);;
  ret true.

(** The first block [front] is attached, and [oldTip] was the tip before. *)
Definition StepForward (genesisHeight num : Z) (oldForkBranch : list BlockData)
    (oldTip : string) (front : BlockData) (rest : list BlockData) : M Sync bool :=
  modify (set_nextStartHeight (-1));;
  on_chain (with_batch (attach_rest front rest));;
  let blocks := front :: rest in
  let back := default front (last blocks) in
  (if bool_decide (oldTip = blk_hash back) then ret tt
   else notify oldTip (reverse oldForkBranch ++ blocks));;
  if Z.of_nat (length blocks) <? num then
    modify (set_numBlocks 1);; ret false
  else
    imported <- (if blk_height back <? genesisHeight
                 then ImportNewTip genesisHeight else ret false);;
    if (imported : bool) then ret true else
    IncreaseNumBlocks;; ret true.

Definition genesis_height (baseTip : Z) : Z :=
  if baseTip <? pruningDepth then 0 else baseTip - pruningDepth.

Definition UpdateStep : M Sync bool :=
  baseTip <- on_base bc_GetTipHeight;;
  let genesisHeight := genesis_height baseTip in
  start <- GetStartHeight;;
  match start with
  | None => ImportNewTip genesisHeight
  | Some startHeight =>
      nb <- gets numBlocks;;
      let num := Z.max nb 3 in
      check (0 <=? startHeight);;
      blocks <- on_base (bc_GetBlockRange startHeight num);;
      match blocks with
      | [] => StepBack startHeight num
      | front :: rest =>
          let* '(_, oldForkBranch) := on_chain (GetForkBranch (blk_parent front)) in
          o <- on_chain (SetTip front);;
          match o with
          | None => StepBack startHeight num
          | Some oldTip =>
              StepForward genesisHeight num oldForkBranch oldTip front rest
          end
      end
  end.

(** [Start]: the fields are reset, and the chain of the database is checked.  An
    exception is fatal here. *)
Definition Start : M Sync unit :=
  modify (set_numBlocks 1);;
  modify (set_nextStartHeight (-1));;
  try_catch (chain <- on_base bc_GetChain;; on_chain (SetChain chain)) (fun _ => fatal).

(** One turn of the loop of the thread: the result tells whether the thread goes
    on at once or waits.  Exceptions are logged. *)
Definition loop_turn : M Sync bool := try_catch UpdateStep (fun _ => ret false).

(** The loop, until it has nothing more to do (or [fuel] turns). *)
Fixpoint run_loop (fuel : nat) : M Sync unit :=
  match fuel with
  | O => diverge
  | S fuel' =>
      more <- loop_turn;;
      if (more : bool) then run_loop fuel' else ret tt
  end.

(** A number of turns: whether the thread goes on at once or after a wait, another turn
    follows. *)
Fixpoint run_turns (n : nat) : M Sync unit :=
  match n with
  | O => ret tt
  | S n' => loop_turn;; run_turns n'
  end.
End Steps.
End Worker.
#[global] Arguments Sync : clear implicits.
