(* ===== verification/SyncProofs.v ===== *)
(** * Correctness of the sync worker

    The sync against a base chain that stands still: every step returns, or the callback
    throws after it has updated the database, and the thread goes on; after finitely many
    turns the chainstate has the tip of the base chain.  The base chain is seen through the
    contract [Serves] only. *)

From S2P Require Import Prelude Json BlockData Chainstate ChainTree ChainQueries ChainstateProofs BaseChain TipUpdate Sync.

(** ** The chainstate and a chain of blocks *)

Section OnChain.
Context {J : JsonCpp} {C : BlockCodec} {CL : BlockCodecLaws C} {U : Universe}.

(** A chain from height zero to [T], linked by hashes. *)
Record good_chain (T : Z) (ch : Z -> option BlockData) : Prop := {
  gc_tip : 0 <= T < i64_max;
  gc_some : forall h, 0 <= h <= T -> is_Some (ch h);
  gc_none : forall h, T < h -> ch h = None;
  gc_genuine : forall h b, ch h = Some b -> genuine b /\ blk_height b = h;
  gc_named : forall h b, ch h = Some b -> blk_hash b <> EmptyString;
  gc_link : forall h b b', ch h = Some b -> ch (h + 1) = Some b' ->
    blk_parent b' = blk_hash b
}.

Context (T : Z) (ch : Z -> option BlockData) (GC : good_chain T ch).
Implicit Types (m : gmap string row) (h : string) (r : row).

Definition hash_at (k : Z) (h : string) : Prop :=
  exists b, ch k = Some b /\ blk_hash b = h.

(** The main chain, or at least its lowest block, is part of the chain. *)
Definition main_on m : Prop :=
  forall h r, m !! h = Some r -> row_branch r = 0 -> hash_at (row_height r) h.

Definition low_on m : Prop :=
  forall h r, is_low m h r -> hash_at (row_height r) h.

Lemma main_low_on m : main_on m -> low_on m.
Proof. intros H h r (Hr & Hb & _). by apply H. Qed.

Lemma hash_at_height k h : hash_at k h -> hgt h = k /\ k <= T.
Proof.
  intros (b & Hb & <-). destruct (gc_genuine _ _ GC _ _ Hb) as [(_ & _ & <- & _) ?].
  split; [done|]. destruct (Z.le_gt_cases k T); [done|].
  rewrite (gc_none _ _ GC) in Hb by lia. done.
Qed.

Lemma hash_at_inj k k' h : hash_at k h -> hash_at k' h -> k = k'.
Proof. intros [? _]%hash_at_height [? _]%hash_at_height. congruence. Qed.

(** Below a block of the chain comes its predecessor. *)
Lemma hash_at_parent k b : ch k = Some b -> 0 < k -> hash_at (k - 1) (blk_parent b).
Proof.
  intros Hb Hk. destruct (hash_at_height k (blk_hash b)) as [_ HkT]; [by exists b|].
  destruct (gc_some _ _ GC (k - 1)) as [b0 Hb0]; [lia|]. exists b0. split; [done|].
  symmetry. apply (gc_link _ _ GC (k - 1)); [done|]. by rewrite Z.sub_add.
Qed.

Lemma row_hash_at m k h r : Inv m -> m !! h = Some r -> hash_at k h ->
  row_height r = k /\ (0 < k -> hash_at (k - 1) (row_parent r)).
Proof.
  intros HI Hr Hk. destruct (row_genuine _ _ _ HI Hr) as (Hp & Hh & _).
  destruct (hash_at_height _ _ Hk) as [Hg _]. split; [congruence|]. intros Hpos.
  destruct Hk as (b & Hb & <-). destruct (gc_genuine _ _ GC _ _ Hb) as [(_ & Hpb & _) _].
  rewrite Hp, <- Hpb. by apply hash_at_parent.
Qed.

(** If the tip is on the chain, all of the main chain is. *)
Lemma main_down m h r (n : nat) : Inv m -> is_top m h r -> hash_at (row_height r) h ->
  forall h' r', m !! h' = Some r' -> row_branch r' = 0 ->
  row_height r' <= row_height r - Z.of_nat n ->
  exists hx rx, m !! hx = Some rx /\ row_branch rx = 0 /\
    row_height rx = row_height r - Z.of_nat n /\ hash_at (row_height rx) hx.
Proof.
  intros HI (Hr & Hb & Hmax) Hat. induction n as [|n IH]; intros h' r' Hr' Hb' Hle.
  - exists h, r. split_and!; [done..|lia|done].
  - destruct (IH h' r') as (hx & rx & Hx & Hbx & Hhx & Hatx); [done..|lia|].
    destruct (inv_contiguous _ HI hx h' rx r') as (p & Hp & Hpb); [done|done|congruence|lia|].
    pose proof (parent_height _ _ _ _ HI Hx Hp).
    destruct (row_hash_at _ _ _ _ HI Hx Hatx) as [_ Hpar].
    destruct (row_genuine _ _ _ HI Hp) as (_ & _ & _ & ? & _).
    exists (row_parent rx), p. split_and!; [done|congruence|lia|].
    replace (row_height p) with (row_height rx - 1) by lia. apply Hpar. lia.
Qed.

Lemma top_main_on m h r : Inv m -> is_top m h r -> hash_at (row_height r) h -> main_on m.
Proof.
  intros HI Ht Hat h' r' Hr' Hb'. pose proof Ht as (_ & _ & Hmax).
  pose proof (Hmax _ _ Hr' Hb') as Hle.
  destruct (main_down m h r (Z.to_nat (row_height r - row_height r')) HI Ht Hat h' r')
    as (hx & rx & Hx & Hbx & Hhx & Hatx); [done..|lia|].
  assert (hx = h') as -> by (apply (inv_uniq _ HI _ _ rx r'); [done|done|congruence|lia]).
  by simplify_eq.
Qed.

Lemma top_unique m h r h' r' : Inv m -> is_top m h r -> is_top m h' r' -> h = h' /\ r = r'.
Proof.
  intros HI (Hr & Hb & Hm) (Hr' & Hb' & Hm').
  pose proof (Hm _ _ Hr' Hb'). pose proof (Hm' _ _ Hr Hb).
  assert (h = h') as -> by (apply (inv_uniq _ HI _ _ r r'); [done|done|congruence|lia]).
  by simplify_eq.
Qed.

(** ** SetTip with blocks of the chain *)

(** A stored main-chain block that is part of the chain: the point down to which
    both chains are known to agree. *)
Definition anchor m (hl : string) (L : Z) : Prop :=
  exists rl, m !! hl = Some rl /\ row_branch rl = 0 /\ row_height rl = L /\ hash_at L hl.

(** Stored blocks stay stored. *)
Definition kept m m' : Prop := forall h r, m !! h = Some r ->
  exists r', m' !! h = Some r' /\ row_parent r' = row_parent r /\
             row_height r' = row_height r.

Lemma kept_trans m1 m2 m3 : kept m1 m2 -> kept m2 m3 -> kept m1 m3.
Proof.
  intros H12 H23 h r Hr. destruct (H12 _ _ Hr) as (r2 & Hr2 & ? & ?).
  destruct (H23 _ _ Hr2) as (r3 & ? & ? & ?). exists r3. split_and!; [done|congruence..].
Qed.

Lemma anchor_range m hl L : Inv m -> anchor m hl L -> 0 <= L <= T.
Proof.
  intros HI (rl & Hr & _ & <- & Hat). destruct (row_genuine _ _ _ HI Hr) as (_ & _ & _ & ? & _).
  destruct (hash_at_height _ _ Hat). lia.
Qed.

Lemma hash_at_fun k h h' : hash_at k h -> hash_at k h' -> h = h'.
Proof. intros (b & Hb & <-) (b' & Hb' & <-). congruence. Qed.

(** A stored chain block off the main chain is above the anchor, and so is its
    parent, or it is the anchor. *)
Lemma off_main_above m hl L h r k : Inv m -> anchor m hl L -> m !! h = Some r ->
  row_branch r <> 0 -> hash_at k h -> L <= k ->
  L < k /\ is_Some (m !! row_parent r) /\ hash_at (k - 1) (row_parent r).
Proof.
  intros HI Ha Hr Hb Hk Hle. pose proof (anchor_range _ _ _ HI Ha).
  destruct Ha as (rl & Hrl & Hbl & Hhl & Hat).
  assert (L < k).
  { destruct (decide (k = L)) as [->|]; [|lia].
    rewrite (hash_at_fun _ _ _ Hat Hk) in Hrl. congruence. }
  destruct (row_hash_at _ _ _ _ HI Hr Hk) as [Hh Hpar]. split_and!; [done| |apply Hpar; lia].
  destruct (m !! row_parent r) as [p|] eqn:E; [by exists p|exfalso].
  pose proof (inv_anchored _ HI _ _ Hr Hb E _ _ Hrl Hbl). lia.
Qed.

(** The path from a chain block down to the main chain stays on the chain and
    above the anchor, and ends at the main chain. *)
Lemma path_on_chain m hl L h bs : Inv m -> anchor m hl L -> fork_path m h bs ->
  forall k, hash_at k h -> L <= k ->
  forall b, b ∈ bs -> L < blk_height b /\ hash_at (blk_height b) (blk_hash b) /\
    is_Some (m !! blk_parent b).
Proof.
  intros HI Ha Hp. induction Hp as [| |h r b0 bs Hr Hb Hrd Hp IH]; [set_solver..|].
  intros k Hk Hle b Hin.
  destruct (off_main_above _ _ _ _ _ _ HI Ha Hr Hb Hk Hle) as (Hlt & Hpar & Hat).
  apply elem_of_cons in Hin as [->|Hin]; [|apply (IH (k - 1)); [done|lia|done]].
  destruct (row_hash_at _ _ _ _ HI Hr Hk) as [Hh _].
  destruct (inv_rows _ HI _ _ Hr) as (_ & b' & Hrd' & Hbh & Hbp & Hbk & _).
  assert (b' = b0) as -> by congruence. rewrite Hbk, Hbh, Hbp, Hh. done.
Qed.

Lemma chain_retained m hl L h k : Inv m -> anchor m hl L -> hash_at k h -> L <= k ->
  path_retained m h.
Proof.
  intros HI Ha Hk Hle bs d Hp Hd. left.
  assert (Hin : d ∈ bs) by by apply last_Some_elem_of.
  by apply (path_on_chain _ _ _ _ _ HI Ha Hp _ Hk Hle).
Qed.

(** What is known after a block of the chain became the tip. *)
Record on_tip m (b : BlockData) (n : Z) : Prop := {
  ot_Inv : Inv m;
  ot_top : exists r, is_top m (blk_hash b) r /\ row_height r = blk_height b;
  ot_main : main_on m;
  ot_below : branches_below m n
}.

Lemma tip_set_kept m b n m' : Inv m -> genuine b -> tip_set m b n m' -> kept m m'.
Proof.
  intros HI (_ & Hp & Hh & _) [_ (rt & Ht & Hth & Htp) Hrows _ _] h r Hr.
  destruct (decide (h = blk_hash b)) as [->|Hne].
  - destruct (row_genuine _ _ _ HI Hr) as (? & ? & _). exists rt.
    split_and!; [apply Ht|congruence|congruence].
  - pose proof (Hrows _ Hne) as Hs.
    destruct (proj2 (same_row_is_Some _ _ _ Hs)) as [r' Hr']; [by exists r|].
    exists r'. split; [done|]. by apply (same_row_parent m m' h).
Qed.

Lemma tip_set_anchor m b k n m' hl L : Inv m -> anchor m hl L -> ch k = Some b ->
  L <= k -> is_Some (m !! attach_point m b) -> tip_set m b n m' -> anchor m' hl L.
Proof.
  intros HI Ha Hb Hle [ra Hra] Hset. pose proof Ha as (rl & Hrl & Hbl & Hhl & Hat).
  destruct (gc_genuine _ _ GC _ _ Hb) as [Hg Hh].
  destruct (tip_set_kept _ _ _ _ HI Hg Hset _ _ Hrl) as (r' & Hr' & _ & Hr'h).
  destruct Hset as [_ _ _ (bs & Hp & Hm) _]. exists r'. split_and!; [done| |congruence|done].
  apply (Hm _ _ Hr'). right. exists rl. split_and!; [done..|]. rewrite Hh.
  unfold attach_point, attached_path in *.
  destruct (m !! blk_hash b) as [r|] eqn:E.
  - rewrite length_map. destruct (last bs) as [d|] eqn:El.
    2: { apply last_None in El. subst. cbn. lia. }
    pose proof (fork_path_length _ _ _ _ HI Hp El _ E) as Hlen.
    destruct (row_hash_at m k (blk_hash b) r HI E) as [Hrh _]; [by exists b|].
    destruct (path_on_chain _ _ _ _ _ HI Ha Hp k (ex_intro _ b (conj Hb eq_refl)) Hle d) as (? & _);
      [by apply last_Some_elem_of|]. lia.
  - assert (Hlt : L < k).
    { destruct (decide (k = L)) as [->|]; [|lia].
      destruct Hat as (b1 & Hb1 & <-). simplify_eq. }
    pose proof (anchor_range _ _ _ HI Ha).
    pose proof (hash_at_parent _ _ Hb ltac:(lia)) as Hpar.
    cbn [length]. rewrite length_map. destruct (last bs) as [d|] eqn:El.
    2: { apply last_None in El. subst. cbn. lia. }
    pose proof (fork_path_length _ _ _ _ HI Hp El _ Hra) as Hlen.
    destruct (row_hash_at _ _ _ _ HI Hra Hpar) as [Hrh _].
    destruct (path_on_chain _ _ _ _ _ HI Ha Hp (k - 1) Hpar ltac:(lia) d) as (? & _);
      [by apply last_Some_elem_of|]. lia.
Qed.

Lemma SetTip_chain s k b n hl L : Inv (blocks s) -> anchor (blocks s) hl L ->
  ch k = Some b -> L <= k ->
  branches_below (blocks s) n -> 0 < n < i64_max ->
  is_Some (blocks s !! attach_point (blocks s) b) ->
  exists old ro m', is_top (blocks s) old ro /\
    SetTip b s = (Ok (Some old), set_blocks m' s) /\ on_tip m' b (n + 2) /\
    anchor m' hl L /\ kept (blocks s) m'.
Proof.
  intros HI Ha Hb Hle Hbb Hn Hatt.
  destruct (gc_genuine _ _ GC _ _ Hb) as [Hg Hh].
  destruct (is_top_exists _ HI) as (old & ro & Ht).
  { intros E. destruct Ha as (rl & Hl & _). by rewrite E in Hl. }
  assert (Hret : path_retained (blocks s) (attach_point (blocks s) b)).
  { unfold attach_point. destruct (blocks s !! blk_hash b) as [r|] eqn:E.
    - eapply chain_retained; [done|exact Ha| |exact Hle]. by exists b.
    - pose proof (anchor_range _ _ _ HI Ha). destruct (decide (k = L)) as [->|].
      + destruct Ha as (rl & Hrl & _ & _ & (b1 & Hb1 & <-)). simplify_eq.
      + eapply chain_retained; [done|exact Ha|apply hash_at_parent; [exact Hb|lia]|lia]. }
  assert (Hdone : exists m', SetTip b s = (Ok (Some old), set_blocks m' s) /\
            tip_set (blocks s) b n m').
  { unfold attach_point in *. destruct (blocks s !! blk_hash b) as [r|] eqn:E.
    - by eapply SetTip_known.
    - destruct Hatt as [pr Hpr]. by eapply SetTip_new. }
  destruct Hdone as (m' & Hrun & Hset). pose proof Hset as [HI' (r & Ht' & Hhr & _) _ _ Hb'].
  exists old, ro, m'. split_and!; [done|done| |exact (tip_set_anchor _ _ _ _ _ _ _ HI Ha Hb Hle Hatt Hset)|exact (tip_set_kept _ _ _ _ HI Hg Hset)].
  split; [done|by exists r| |done].
  eapply top_main_on; [done|exact Ht'|]. exists b. by rewrite Hhr, Hh.
Qed.

(** After the first block, the rest of a range is attached one by one. *)
Lemma attach_rest_ok hl L rest : forall s k front n, ch k = Some front ->
  rest = slice ch (k + 1) (length rest) -> L <= k -> anchor (blocks s) hl L ->
  on_tip (blocks s) front n -> 0 < n -> n + 2 * Z.of_nat (length rest) < i64_max ->
  exists m', attach_rest front rest s = (Ok tt, set_blocks m' s) /\
    on_tip m' (default front (last (front :: rest))) (n + 2 * Z.of_nat (length rest)) /\
    anchor m' hl L /\ kept (blocks s) m'.
Proof.
  induction rest as [|b rest IH];
    intros s k front n Hf Hsl Hle Ha [HI (rt & Ht & Hth) Hm Hb] Hn Hmax.
  - exists (blocks s). split; [by destruct s|]. cbn [length]. rewrite Z.add_0_r.
    split; [by split; [done|exists rt|..]|]. split; [done|]. intros h r Hr. by exists r.
  - cbn [length] in *. cbn [slice] in Hsl.
    destruct (ch (k + 1)) as [b'|] eqn:Eb; [|done]. injection Hsl as <- Hsl.
    pose proof (gc_link _ _ GC _ _ _ Hf Eb) as Hlink.
    destruct (SetTip_chain s (k + 1) b n hl L)
      as (old & ro & m1 & Ho & Hrun & Hot & Ha1 & Hk1);
      [done|done|done|lia|done|lia| |].
    { unfold attach_point. destruct (blocks s !! blk_hash b) eqn:E; [by rewrite E|].
      rewrite Hlink. exists rt. apply Ht. }
    destruct (top_unique _ _ _ _ _ HI Ho Ht) as [-> ->].
    destruct (IH (set_blocks m1 s) (k + 1) b (n + 2)) as (m' & Hrun' & Hot' & Ha' & Hk');
      [done|done|lia|done|done|lia|lia|].
    exists m'. cbn [attach_rest]. rewrite (bind_Ok _ _ _ _ _ Hrun). cbn beta iota.
    rewrite check_true by by apply bool_decide_eq_true.
    rewrite check_true by by apply bool_decide_eq_true.
    rewrite Hrun'. split; [done|].
    replace (n + 2 * Z.of_nat (S (length rest))) with (n + 2 + 2 * Z.of_nat (length rest)) by lia.
    rewrite last_cons_cons. split_and!; [|done|by eapply kept_trans].
    destruct (last (b :: rest)) eqn:El; [done|]. by apply last_None in El.
Qed.

(** ** The notification of a successful step *)

(** The old tip's branch meets the new main chain no lower than a block [P] that
    both main chains have. *)
Lemma old_fork m0 m' P rp rp' h bs : Inv m0 -> Inv m' -> kept m0 m' ->
  m0 !! P = Some rp -> row_branch rp = 0 -> m' !! P = Some rp' -> row_branch rp' = 0 ->
  fork_path m' h bs ->
  forall r0, m0 !! h = Some r0 -> row_branch r0 = 0 -> row_height rp <= row_height r0 ->
  exists rF, m' !! fork_end h bs = Some rF /\ row_branch rF = 0 /\
    row_height rp <= row_height rF.
Proof.
  intros HI0 HI' Hk HP HPb HP' HPb' Hp.
  induction Hp as [h r Hr Hb|h Hr|h r b bs Hr Hb Hrd Hp IH]; intros r0 Hr0 Hb0 Hle.
  - exists r. destruct (Hk _ _ Hr0) as (r' & Hr' & _ & ?). simplify_eq.
    split_and!; [done|done|lia].
  - destruct (Hk _ _ Hr0) as (r' & Hr' & _). congruence.
  - destruct (Hk _ _ Hr0) as (r' & Hr' & Hpar & _). simplify_eq.
    assert (row_height rp < row_height r0).
    { destruct (decide (row_height r0 = row_height rp)) as [E|]; [|lia].
      assert (h = P) as -> by (apply (inv_uniq _ HI0 _ _ r0 rp); [done|done|congruence|done]).
      congruence. }
    destruct (inv_contiguous _ HI0 _ _ _ _ Hr0 HP) as (p & Hpp & Hpb); [congruence|lia|].
    pose proof (parent_height _ _ _ _ HI0 Hr0 Hpp).
    destruct (inv_rows _ HI' _ _ Hr) as (_ & b' & Hrd' & _ & Hbp & _).
    assert (b' = b) as -> by congruence.
    rewrite (fork_end_cons _ _ _ _ Hbp). rewrite Hpar in *.
    apply (IH p); [done|congruence|lia].
Qed.

(** The parent of the first attached block, if it is not below the anchor, is on
    the old main chain. *)
Lemma attach_parent m0 hl L k front Q : Inv m0 -> anchor m0 hl L ->
  ch k = Some front -> L <= k -> is_Some (m0 !! attach_point m0 front) ->
  fork_path m0 (blk_parent front) Q ->
  let first := default front (last Q) in
  L <= blk_height first - 1 ->
  hash_at (blk_height first - 1) (blk_parent first) /\ blk_height first <= k /\
  exists rp, m0 !! blk_parent first = Some rp /\ row_branch rp = 0.
Proof.
  intros HI Ha Hf Hle [ra Hra] Hp first HL. pose proof (anchor_range _ _ _ HI Ha) as HLr.
  destruct (gc_genuine _ _ GC _ _ Hf) as [(_ & Hfp & _) Hfh].
  destruct (last Q) as [d|] eqn:El; cbn in first; subst first.
  - assert (Hin : d ∈ Q) by by apply last_Some_elem_of.
    assert (Hpar : hash_at (k - 1) (blk_parent front)).
    { apply hash_at_parent; [done|].
      destruct (fork_path_elem _ _ _ _ (inv_rows _ HI) Hp Hin) as (r & Hr & _ & _ & Hh & _).
      inversion Hp as [| |? r1 b1 ? Hr1]; subst; [set_solver..|].
      destruct (row_genuine _ _ _ HI Hr1) as (_ & Hh1 & _ & ? & _).
      destruct (gc_genuine _ _ GC _ _ Hf) as [(_ & _ & _ & ? & _) ?]. lia. }
    assert (Hdk : blk_height d <= k - 1).
    { inversion Hp as [| |? r1 b1 ? Hr1]; subst; [set_solver..|].
      destruct (row_hash_at _ _ _ _ HI Hr1 Hpar) as [<- _].
      by eapply fork_path_heights; [apply HI|exact Hp| |]. }
    destruct (path_on_chain _ _ _ _ _ HI Ha Hp _ Hpar ltac:(lia) d Hin) as (? & Hat & [rp Hrp]).
    destruct Hat as (bd & Hbd & Hbdh).
    destruct (gc_genuine _ _ GC _ _ Hbd) as [(_ & Hdp & _) _].
    destruct (fork_path_elem _ _ _ _ (inv_rows _ HI) Hp Hin) as (r & _ & _ & _ & _ & (_ & Hdp' & _)).
    pose proof (hash_at_parent _ _ Hbd ltac:(lia)) as Hpat.
    rewrite Hdp, Hbdh, <- Hdp' in Hpat. split_and!; [done|lia|]. exists rp.
    split; [done|]. by apply (fork_path_end _ _ _ _ (inv_rows _ HI) Hp El).
  - apply last_None in El. subst Q. rewrite Hfh in HL |- *.
    split_and!; [apply hash_at_parent; [done|lia]|lia|].
    inversion Hp as [? rp Hrp Hb| ? Hnone|]; subst; [by exists rp|exfalso].
    unfold attach_point in Hra. destruct (m0 !! blk_hash front) as [r|] eqn:E; [|congruence].
    destruct (row_genuine _ _ _ HI E) as (Hrp & _).
    assert (row_parent r = blk_parent front) as Hpe by congruence.
    destruct (decide (row_branch r = 0)) as [Hb|Hb].
    + destruct Ha as (rl & Hrl & Hbl & Hhl & _).
      destruct (row_hash_at _ (blk_height front) _ _ HI E) as [Hrh _]; [by exists front|].
      destruct (inv_contiguous _ HI _ _ _ _ E Hrl) as (p & Hpp & _); [congruence|lia|].
      rewrite Hpe in Hpp. congruence.
    + destruct (off_main_above _ _ _ _ _ (blk_height front) HI Ha E Hb) as (_ & [p Hpp] & _);
        [by exists front|lia|]. rewrite Hpe in Hpp. congruence.
Qed.

Lemma slice_rest k n front rest : front :: rest = slice ch k n ->
  rest = slice ch (k + 1) (length rest).
Proof.
  intros Hsl. apply slice_eq. intros i b Hi.
  replace (k + 1 + Z.of_nat i) with (k + Z.of_nat (S i)) by lia.
  apply (slice_lookup ch k n). by rewrite <- Hsl.
Qed.

Lemma slice_linked k l : l = slice ch k (length l) -> linked l /\ Forall genuine l.
Proof.
  revert k. induction l as [|b l IH]; intros k E; cbn [length slice] in E; [by split|].
  destruct (ch k) as [b0|] eqn:Eb; [|done]. injection E as <- E.
  destruct (IH _ E) as [Hl Hg]. destruct (gc_genuine _ _ GC _ _ Eb) as [Hgb _].
  split; [|by constructor]. apply linked_cons. split; [|done].
  destruct l as [|b1 l]; [done|]. intros b' [= <-]. cbn [length slice] in E.
  destruct (ch (k + 1)) eqn:Eb1; [|done]. injection E as <- _. by eapply gc_link.
Qed.

(** The branch of the old tip leads to a block of the new main chain, which is not
    below the parent of the first block in the notification. *)
Lemma forward_fork m0 m' old ro hl L k front rest Q n back :
  Inv m0 -> is_top m0 old ro -> anchor m0 hl L -> ch k = Some front -> L <= k ->
  linked (front :: rest) -> Forall genuine (front :: rest) -> last (front :: rest) = Some back ->
  fork_path m0 (blk_parent front) Q -> is_Some (m0 !! attach_point m0 front) ->
  on_tip m' back n -> anchor m' hl L -> kept m0 m' ->
  exists bs rF, fork_path m' old bs /\ m' !! fork_end old bs = Some rF /\ row_branch rF = 0 /\
    forall first, head (reverse Q ++ front :: rest) = Some first ->
      blk_height first <= row_height rF + 1.
Proof.
  intros HI0 Ht0 Ha Hf Hle Hlfr Hgfr Hback Hp Hatt [HI' (rt & Ht' & Hth) Hm' _] Ha' Hk.
  destruct (gc_genuine _ _ GC _ _ Hf) as [_ Hfh].
  destruct (GetForkBranch_ok {| blocks := m'; variables := ∅; savepoints := [] |} old HI')
    as (bs & Hpo & _). cbn in Hpo.
  assert (Hhead : forall first, head (reverse Q ++ front :: rest) = Some first ->
            first = default front (last Q)).
  { intros first Hfirst. rewrite <- head_reverse. destruct (reverse Q); cbn in *; congruence. }
  pose proof Ha as (rl & Hrl & Hbl & Hhl & _). pose proof Ha' as (rl' & Hrl' & Hbl' & Hhl' & _).
  pose proof Ht0 as (Hro & Hbo & Hmaxo).
  set (first := default front (last Q)) in *.
  destruct (Z.le_gt_cases L (blk_height first - 1)) as [HA|HA].
  - destruct (attach_parent _ _ _ _ _ _ HI0 Ha Hf Hle Hatt Hp HA) as (Hpat & Hfk & rp & Hrp & Hbp).
    fold first in Hpat, Hfk, Hrp.
    destruct (row_hash_at _ _ _ _ HI0 Hrp Hpat) as [Hrph _].
    pose proof (linked_last_height _ _ _ Hlfr Hgfr Hback).
    destruct (main_down m' _ rt (Z.to_nat (row_height rt - (blk_height first - 1))) HI' Ht')
      with hl rl' as (hx & rx & Hx & Hbx & Hhx & Hatx);
      [apply Hm'; apply Ht'|done|done|lia|].
    assert (hx = blk_parent first) as ->.
    { eapply hash_at_fun; [exact Hatx|]. replace (row_height rx) with (blk_height first - 1) by lia.
      done. }
    destruct (old_fork m0 m' _ rp rx old bs HI0 HI' Hk Hrp Hbp Hx Hbx Hpo ro Hro Hbo)
      as (rF & HF & HbF & HhF); [by apply (Hmaxo _ _ Hrp)|].
    exists bs, rF. split_and!; [done..|]. intros f Hfst. rewrite (Hhead f Hfst). lia.
  - destruct (old_fork m0 m' hl rl rl' old bs HI0 HI' Hk Hrl Hbl Hrl' Hbl' Hpo ro Hro Hbo)
      as (rF & HF & HbF & HhF); [by apply (Hmaxo _ _ Hrl)|].
    exists bs, rF. split_and!; [done..|]. intros f Hfst. rewrite (Hhead f Hfst). lia.
Qed.

Lemma forward_tip_update m0 m' old ro hl L k front rest Q n back :
  Inv m0 -> is_top m0 old ro -> anchor m0 hl L -> ch k = Some front -> L <= k ->
  rest = slice ch (k + 1) (length rest) -> fork_path m0 (blk_parent front) Q ->
  is_Some (m0 !! attach_point m0 front) ->
  back = default front (last (front :: rest)) ->
  on_tip m' back n -> anchor m' hl L -> kept m0 m' -> old <> blk_hash back ->
  tip_update m' old (reverse Q ++ front :: rest).
Proof.
  intros HI0 Ht0 Ha Hf Hle Hrest Hp Hatt -> Hot Ha' Hk Hmoved.
  destruct (slice_linked k (front :: rest)) as [Hlfr Hgfr].
  { cbn [length slice]. rewrite Hf. by f_equal. }
  destruct (fork_path_linked _ _ _ (inv_rows _ HI0) Hp) as [HlQ HhQ].
  assert (Hback : last (front :: rest) = Some (default front (last (front :: rest)))).
  { destruct (last (front :: rest)) eqn:E; [done|]. by apply last_None in E. }
  pose proof Hot as [_ (rt & Ht' & Hth) _ _].
  split.
  - apply linked_app; [done|done|]. intros b b' Hb [= <-]. rewrite last_reverse in Hb.
    symmetry. by apply HhQ.
  - apply Forall_app. split; [|done]. apply Forall_reverse.
    by apply (fork_path_genuine m0 (blk_parent front) Q (inv_rows _ HI0)).
  - rewrite last_app_cons by done. exists (default front (last (front :: rest))), rt. done.
  - intros b. rewrite last_app_cons by done. intros Hb. rewrite Hb in Hmoved.
    split; [|by apply not_eq_sym]. apply last_Some_elem_of in Hb.
    apply elem_of_cons in Hb as [->|Hb]; [by apply (gc_named _ _ GC k)|].
    rewrite Hrest in Hb. apply slice_elem in Hb as (i & _ & Hb).
    by apply (gc_named _ _ GC (k + 1 + Z.of_nat i)).
  - right. by eapply forward_fork.
Qed.

Lemma import_tip_update m blk k n : ch k = Some blk -> on_tip m blk n ->
  tip_update m "" [blk].
Proof.
  intros Hk [_ (r & Ht & Hh) _ _]. destruct (gc_genuine _ _ GC _ _ Hk) as [Hg _].
  split; [done|by constructor|by exists blk, r| |by left].
  intros b [= <-]. by split; apply (gc_named _ _ GC k).
Qed.
End OnChain.

(** ** Steps of the worker *)

Section Steps.
Context {J : JsonCpp} {C : BlockCodec} {CL : BlockCodecLaws C} {U : Universe}.
Context {B X : Type} {BC : BaseChain B}.
Context (pruningDepth range : Z) (cb : option (@sync_callback J B X)).

(** The base chain serves the chain [ch]. *)
Context (R : B -> Prop) (T : Z) (ch : Z -> option BlockData).
Context (HS : Serves BC R T ch) (GC : good_chain T ch).
Context (Hdepth : 0 <= pruningDepth) (Hrange : 1 <= range < 2 ^ 31).

(** A condition on the rest of the program that the callback maintains. *)
Context (P : X -> Prop).

(** What the callback may do to the chainstate: forget blocks, but not the tip. *)
Definition shrunk (m m' : gmap string row) : Prop :=
  Inv m' /\ (forall h r, m' !! h = Some r -> m !! h = Some r) /\
  (forall h r, is_top m h r -> is_top m' h r).

Lemma shrunk_refl m : Inv m -> shrunk m m.
Proof. intros HI. unfold shrunk. by split_and!. Qed.

(** The callback succeeds for the notification of a tip update, when the main chain
    is that of the base chain. *)
Definition callback_ok : Prop := forall f, cb = Some f ->
  forall old att b c x, R b -> P x -> Inv (blocks c) -> main_on ch (blocks c) ->
    tip_update (blocks c) old att ->
    exists b' c' x', f old att (b, c, x) = (Ok tt, (b', c', x')) /\ R b' /\ P x' /\
      shrunk (blocks c) (blocks c').

(** An operation returns with [Q], or it throws, which it only does when the callback is not
    reliable. *)
Definition returns {A} (rel : Prop) (Q : A -> Prop) (r : result A) : Prop :=
  match r with Ok a => Q a | Throw _ => ~ rel | _ => False end.

(** The same of a callback that may fail with an exception: also then it leaves everything
    in order. *)
Definition callback_ends (rel : Prop) : Prop := forall f, cb = Some f ->
  forall old att b c x, R b -> P x -> Inv (blocks c) -> main_on ch (blocks c) ->
    tip_update (blocks c) old att ->
    exists (res : result unit) b' c' x', f old att (b, c, x) = (res, (b', c', x')) /\
      returns rel (fun _ => True) res /\ R b' /\ P x' /\ shrunk (blocks c) (blocks c').

Lemma callback_ok_ends : callback_ok -> callback_ends True.
Proof.
  intros Hok f Hf old att b c x HR HP HI Hm Hu.
  destruct (Hok f Hf old att b c x HR HP HI Hm Hu) as (b' & c' & x' & Hrun & ? & ? & ?).
  by exists (Ok tt), b', c', x'.
Qed.

Context (rel : Prop) (Hcb : callback_ends rel).

Notation cblocks s := (blocks (sy_chain s)).

Definition max_blocks : Z := Z.max range 3.

Record good (s : Sync B X) (n : Z) : Prop := {
  g_base : R (sy_base s);
  g_rest : P (sy_rest s);
  g_Inv : Inv (cblocks s);
  g_low : low_on ch (cblocks s);
  g_below : branches_below (cblocks s) n;
  g_num : 1 <= numBlocks s <= range;
  g_next : nextStartHeight s = -1 \/
    exists hl rl, is_low (cblocks s) hl rl /\ row_height rl <= nextStartHeight s <= i64_max
}.

Lemma good_mono (s : Sync B X) n n' : good s n -> n <= n' -> good s n'.
Proof.
  intros [] ?. split; try done. by eapply branches_below_mono.
Qed.

(** The tip is that of the chain at height [k]. *)
Definition tip_at (s : Sync B X) (k : Z) : Prop :=
  exists h r, is_top (cblocks s) h r /\ row_height r = k /\ hash_at ch k h.

Definition synced (s : Sync B X) : Prop := tip_at s T.

Lemma on_base_run {A} (m : M B A) (s : Sync B X) r b : m (sy_base s) = (r, b) ->
  on_base m s = (r, {| sy_base := b; sy_chain := sy_chain s; sy_rest := sy_rest s;
    numBlocks := numBlocks s; nextStartHeight := nextStartHeight s |}).
Proof. unfold on_base, zoom. by intros ->. Qed.

Lemma on_chain_run {A} (m : M Chainstate A) (s : Sync B X) r c : m (sy_chain s) = (r, c) ->
  on_chain m s = (r, {| sy_base := sy_base s; sy_chain := c; sy_rest := sy_rest s;
    numBlocks := numBlocks s; nextStartHeight := nextStartHeight s |}).
Proof. unfold on_chain, zoom. by intros ->. Qed.

Lemma on_chain_read {A} (m : M Chainstate A) (s : Sync B X) r :
  m (sy_chain s) = (r, sy_chain s) -> on_chain m s = (r, s).
Proof. intros H. rewrite (on_chain_run _ _ _ _ H). by destruct s. Qed.

(** The range of blocks to request at most doubles. *)
Lemma IncreaseNumBlocks_ok (s : Sync B X) : 1 <= numBlocks s <= range ->
  exists n, IncreaseNumBlocks range s = (Ok tt, set_numBlocks n s) /\
    1 <= n <= range /\ n = Z.min range (2 * numBlocks s).
Proof.
  intros Hn. exists (Z.min range (2 * numBlocks s)).
  unfold IncreaseNumBlocks. rewrite check_true by (apply Z.leb_le; lia).
  rewrite gets_bind. rewrite Z.shiftl_mul_pow2, Z.mul_comm by lia.
  rewrite !u32_small by (unfold u32_modulus; lia).
  split; [done|lia].
Qed.

Lemma notify_ok (s : Sync B X) old att : R (sy_base s) -> P (sy_rest s) -> Inv (cblocks s) ->
  main_on ch (cblocks s) -> tip_update (cblocks s) old att ->
  exists res b c x, notify cb old att s =
    (res, {| sy_base := b; sy_chain := c; sy_rest := x; numBlocks := numBlocks s;
             nextStartHeight := nextStartHeight s |}) /\
    returns rel (fun _ => True) res /\ R b /\ P x /\ shrunk (cblocks s) (blocks c).
Proof.
  intros HR HP HI Hm Hu. unfold notify. destruct cb as [f|] eqn:E.
  - destruct (Hcb f E old att (sy_base s) (sy_chain s) (sy_rest s))
      as (res & b & c & x & Hf & ? & ? & ? & ?); [done..|].
    exists res, b, c, x. unfold zoom. by rewrite Hf.
  - exists (Ok tt), (sy_base s), (sy_chain s), (sy_rest s). split; [by destruct s|].
    split_and!; [done|done|done|by apply shrunk_refl].
Qed.

(** What follows an operation that may throw. *)
Lemma returns_bind {A D} (m : M (Sync B X) A) (k : A -> M (Sync B X) D) s r s' Q :
  m s = (r, s') -> returns rel Q r ->
  (forall a, r = Ok a -> Q a -> bind m k s = k a s') /\
  (forall e, r = Throw e -> ~ rel /\ bind m k s = (Throw e, s')).
Proof.
  intros Hm Hr. unfold bind. rewrite Hm. by destruct r; split; intros ? [= <-].
Qed.

Lemma shrunk_main m m' : shrunk m m' -> main_on ch m -> main_on ch m'.
Proof. intros (_ & Hs & _) Hm h r Hr. by apply Hm, Hs. Qed.

Lemma shrunk_below m m' n : shrunk m m' -> branches_below m n -> branches_below m' n.
Proof. intros (_ & Hs & _) Hb h r Hr. by apply (Hb h), Hs. Qed.

(** After a tip of the chain was set and the callback was run. *)
Lemma good_after (s : Sync B X) b c x k blk n : R b -> P x -> on_tip ch (cblocks s) blk n ->
  ch k = Some blk -> shrunk (cblocks s) (blocks c) ->
  forall nb s', s' = {| sy_base := b; sy_chain := c; sy_rest := x; numBlocks := nb;
                        nextStartHeight := -1 |} ->
  1 <= nb <= range -> good s' n /\ tip_at s' k.
Proof.
  intros HR HP [HI (r & Ht & Hth) Hm Hb] Hk Hs nb s' -> Hnb.
  destruct (gc_genuine _ _ GC _ _ Hk) as [_ Hh].
  split.
  - split; cbn; [done|done|apply Hs|by apply main_low_on, (shrunk_main _ _ Hs)|
      by eapply shrunk_below|done|by left].
  - exists (blk_hash blk), r. split_and!; [by apply Hs|lia|by exists blk].
Qed.

Lemma ImportNewTip_ok (s : Sync B X) g n : good s n -> nextStartHeight s = -1 -> 0 <= g <= T ->
  above_main (cblocks s) g -> 0 < n <= i64_max ->
  exists r s', ImportNewTip cb g s = (r, s') /\ returns rel (fun more => more = true) r /\
    good s' (n + 1) /\ tip_at s' g /\ nextStartHeight s' = -1.
Proof.
  intros [HR HP HI Hlow Hb Hnum _] Hnext Hg Hab Hn.
  pose proof (gc_tip _ _ GC).
  destruct (serves_range _ _ _ _ HS (sy_base s) g 1 HR) as (b & Hrun & HR'); [unfold i64_max in *; lia..|].
  destruct (gc_some _ _ GC g) as [blk Hblk]; [lia|].
  change (Z.to_nat 1) with 1%nat in Hrun. cbn [slice] in Hrun. rewrite Hblk in Hrun.
  destruct (gc_genuine _ _ GC _ _ Hblk) as [Hgen Hh].
  unfold ImportNewTip. rewrite (bind_Ok _ _ _ _ _ (on_base_run _ _ _ _ Hrun)).
  cbn beta iota. rewrite check_true by done.
  destruct (ImportTip_run (sy_chain s) blk n) as (m' & Himp & [HI' Hsole Hb' _ _]);
    [done|done|by rewrite Hh|done|lia|].
  erewrite bind_Ok; [|apply on_chain_run; exact Himp]. cbn [sy_chain sy_base].
  destruct (sole_main_ends _ _ _ Hsole) as (r & Ht & _ & Hr).
  assert (Hot : on_tip ch m' blk (n + 1)).
  { split; [done|by exists r| |done]. eapply (top_main_on T); [done|done|exact Ht|].
    exists blk. rewrite Hr. by rewrite Hh. }
  match goal with |- context [notify cb _ _] =>
    match goal with |- context [bind (notify _ ?o ?a) _ ?st] =>
      destruct (notify_ok st o a) as (res & b1 & c1 & x1 & Hnot & Hres & HR1 & HP1 & Hshr);
        [done|done|done|apply Hot|by eapply (import_tip_update T ch GC)|] end end.
  destruct (returns_bind _ (fun _ => ret true) _ _ _ _ Hnot Hres) as [Hok Hthrow].
  cbn [numBlocks nextStartHeight sy_chain] in *. rewrite Hnext in *.
  match goal with Hs : shrunk (blocks (set_blocks m' ?c0)) _ |- _ =>
    destruct (good_after {| sy_base := b; sy_chain := set_blocks m' c0; sy_rest := sy_rest s;
       numBlocks := numBlocks s; nextStartHeight := -1 |} b1 c1 x1 g blk (n + 1) HR1 HP1 Hot Hblk Hs
       (numBlocks s) _ eq_refl Hnum) as [? ?] end.
  destruct res as [[]|e| | |]; try done;
    [rewrite (Hok tt eq_refl I)|destruct (Hthrow e eq_refl) as [? ->]]; by eexists _, _.
Qed.

Lemma slice_chain_length k (n : nat) : 0 <= k <= T + 1 ->
  Z.of_nat (length (slice ch k n)) = Z.min (Z.of_nat n) (T + 1 - k).
Proof.
  revert k. induction n as [|n IH]; intros k Hk; cbn [slice]; [cbn; lia|].
  destruct (decide (k = T + 1)) as [->|].
  - rewrite (gc_none _ _ GC) by lia. cbn. lia.
  - destruct (gc_some _ _ GC k) as [b Hb]; [lia|]. rewrite Hb. cbn [length].
    rewrite Nat2Z.inj_succ, IH by lia. lia.
Qed.

Lemma slice_last k n front rest : front :: rest = slice ch k n ->
  ch (k + Z.of_nat (length rest)) = Some (default front (last (front :: rest))).
Proof.
  intros E. apply (slice_lookup ch k n). rewrite <- E, last_lookup. cbn [length Nat.pred].
  destruct ((front :: rest) !! length rest) eqn:El; [done|].
  apply lookup_ge_None in El. cbn in El. lia.
Qed.

Lemma StepBack_ok (s : Sync B X) n hl rl start num : good s n ->
  is_low (cblocks s) hl rl -> row_height rl < start <= i64_max -> 1 <= num ->
  exists s', StepBack range start num s = (Ok true, s') /\ good s' n /\
    0 <= nextStartHeight s' < start /\ cblocks s' = cblocks s.
Proof.
  intros [HR HP HI Hlow Hb Hnum _] Hl Hlt Hn1. unfold StepBack.
  destruct (IncreaseNumBlocks_ok s Hnum) as (nb & Hinc & Hnb & _).
  rewrite (bind_Ok _ _ _ _ _ Hinc).
  erewrite bind_Ok; [|apply on_chain_read; cbn; by eapply GetLowestUnprunedHeight_ok].
  rewrite modify_bind, check_true by (apply Z.ltb_lt; lia).
  pose proof Hl as (Hrl & _). destruct (row_genuine _ _ _ HI Hrl) as (_ & _ & _ & ? & _).
  eexists. split; [done|]. split_and!; cbn; [|lia|lia|done].
  split; cbn; [done..|]. right. exists hl, rl. split; [done|lia].
Qed.

Lemma good_set_numBlocks (s : Sync B X) n nb : good s n -> 1 <= nb <= range ->
  good (set_numBlocks nb s) n.
Proof. intros [] ?. by split. Qed.

(** A step forward has been made from height [k]. *)
Definition forwarded (k n : Z) (m : result bool * Sync B X) : Prop :=
  exists r s', m = (r, s') /\ good s' n /\ nextStartHeight s' = -1 /\
    exists k', tip_at s' k' /\ (k' = T \/ k + 2 <= k') /\
      returns rel (fun more : bool => if more then k + 2 <= k' else k' = T) r.

(** The end of [StepForward], when the blocks have been attached. *)
Lemma forward_end_ok (s : Sync B X) n k g len num back : good s n -> nextStartHeight s = -1 ->
  tip_at s (blk_height back) -> 0 <= g <= T -> 0 < n <= i64_max ->
  (len < num -> blk_height back = T) -> (num <= len -> k + 2 <= blk_height back) ->
  forwarded k (n + 1)
    ((if len <? num then modify (set_numBlocks 1);; ret false
      else imported <- (if blk_height back <? g then ImportNewTip cb g else ret false);;
           if (imported : bool) then ret true else IncreaseNumBlocks range;; ret true) s).
Proof.
  intros Hg Hns Htip Hgr Hn Hend Hmore.
  destruct (Z.ltb_spec len num) as [Hlt|Hge].
  { exists (Ok false), (set_numBlocks 1 s). split_and!; [done| |done|].
    - eapply good_mono; [apply good_set_numBlocks; [done|lia]|lia].
    - exists (blk_height back). specialize (Hend Hlt). split_and!; [exact Htip|by left|done]. }
  specialize (Hmore Hge).
  destruct (Z.ltb_spec (blk_height back) g) as [Hq|Hq].
  - destruct (ImportNewTip_ok s g n) as (r & s3 & Himp & Hr & Hg3 & Ht3 & Hn3); [done..| |lia|].
    { destruct Htip as (h & r & (_ & _ & Htop) & Hr & _). intros h' r' Hr' Hb'.
      specialize (Htop _ _ Hr' Hb'). lia. }
    unfold bind. rewrite Himp.
    destruct r as [more|e| | |]; try done; [cbn in Hr; subst more; exists (Ok true), s3|exists (Throw e), s3];
      (split_and!; [done..|]); exists g; (split_and!; [done|lia|]); cbn; [lia|done].
  - rewrite ret_bind. destruct (IncreaseNumBlocks_ok s (g_num _ _ Hg)) as (nb & Hinc & Hnb & _).
    rewrite (bind_Ok _ _ _ _ _ Hinc). exists (Ok true), (set_numBlocks nb s). split_and!; [done| |done|].
    + eapply good_mono; [by apply good_set_numBlocks|lia].
    + exists (blk_height back). split_and!; [exact Htip|by right|done].
Qed.

(** The notification that [StepForward] makes, if the tip has changed. *)
Lemma forward_notify (s : Sync B X) n old back attaches : R (sy_base s) -> P (sy_rest s) ->
  on_tip ch (cblocks s) back n ->
  (old <> blk_hash back -> tip_update (cblocks s) old attaches) ->
  exists res b c x,
    (if bool_decide (old = blk_hash back) then ret tt else notify cb old attaches) s =
      (res, {| sy_base := b; sy_chain := c; sy_rest := x; numBlocks := numBlocks s;
               nextStartHeight := nextStartHeight s |}) /\
    returns rel (fun _ => True) res /\ R b /\ P x /\ shrunk (cblocks s) (blocks c).
Proof.
  intros HR HP Hot Hupd. case_bool_decide.
  - exists (Ok tt), (sy_base s), (sy_chain s), (sy_rest s).
    split_and!; [by destruct s|done|done|done|]. apply shrunk_refl, Hot.
  - destruct (notify_ok s old attaches) as (res & b & c & x & ? & ? & ? & ? & ?);
      [done|done|apply Hot|apply Hot|by apply Hupd|]. by exists res, b, c, x.
Qed.

Lemma slice_front k num front rest : 0 <= k -> 0 < num ->
  front :: rest = slice ch k (Z.to_nat num) ->
  ch k = Some front /\ Z.of_nat (length (front :: rest)) = Z.min num (T + 1 - k).
Proof.
  intros Hk Hn Hsl. assert (Hch : ch k = Some front).
  { destruct (Z.to_nat num) as [|x] eqn:En; cbn [slice] in Hsl; [lia|].
    destruct (ch k); congruence. }
  split; [done|]. rewrite Hsl, slice_chain_length; [lia|]. split; [done|].
  destruct (Z.le_gt_cases k T); [lia|]. by rewrite (gc_none _ _ GC) in Hch by lia.
Qed.

Lemma StepForward_ok (s : Sync B X) n k num g fork old front rest hl L :
  R (sy_base s) -> P (sy_rest s) -> 1 <= numBlocks s <= range -> on_tip ch (cblocks s) front n ->
  0 <= k -> L <= k -> anchor ch (cblocks s) hl L ->
  (forall m' n', on_tip ch m' (default front (last (front :: rest))) n' ->
     anchor ch m' hl L -> kept (cblocks s) m' ->
     old <> blk_hash (default front (last (front :: rest))) ->
     tip_update m' old (reverse fork ++ front :: rest)) -> 3 <= num <= max_blocks -> front :: rest = slice ch k (Z.to_nat num) ->
  0 <= g <= T -> 0 < n -> n + 2 * num + 1 < i64_max ->
  forwarded k (n + 2 * num + 1) (StepForward range cb g num fork old front rest s).
Proof.
  intros HR HP Hnum Hot Hk0 HLk Ha Hupd Hn3 Hsl Hg Hn Hmax. unfold StepForward. rewrite modify_bind.
  pose proof (slice_last _ _ _ _ Hsl) as Hlast. pose proof (slice_rest _ _ _ _ _ Hsl) as Hrest.
  destruct (slice_front k num front rest) as [Hch Hlen]; [lia|lia|done|]. cbn [length] in Hlen.
  destruct (attach_rest_ok T ch GC hl L rest (in_batch (sy_chain s)) k front n)
    as (m' & Hatt & Hot' & Ha' & Hkept); [done|done|done|done|done|done|lia|].
  specialize (Hupd _ _ Hot' Ha' Hkept).
  erewrite bind_Ok; [|apply on_chain_run, with_batch_Ok; exact Hatt].
  cbn [sy_base sy_chain sy_rest numBlocks nextStartHeight set_nextStartHeight].
  set (back := default front (last (front :: rest))) in *.
  set (s1 := {| sy_base := sy_base s; sy_chain := set_blocks m' (sy_chain s);
                sy_rest := sy_rest s; numBlocks := numBlocks s; nextStartHeight := -1 |}).
  destruct (forward_notify s1 _ old back (reverse fork ++ front :: rest) HR HP Hot' Hupd)
    as (res & b & c & x & Hnot & Hres & HRb & HPx & Hshr).
  destruct (good_after s1 b c x _ back _ HRb HPx Hot' Hlast Hshr (numBlocks s) _ eq_refl Hnum)
    as [Hgood Htip].
  destruct (gc_genuine _ _ GC _ _ Hlast) as [_ Hbh]. rewrite <- Hbh in Htip.
  cbn zeta. unfold bind at 1. rewrite Hnot. clear Hnot. destruct res as [[]|e| | |]; try done.
  - destruct (forward_end_ok _ _ k g (Z.of_nat (length (front :: rest))) num back Hgood eq_refl Htip Hg)
      as (r & s' & Hrun & Hg' & Hns & Hk'); [lia|cbn [length]; lia..|].
    exists r, s'. split_and!; [exact Hrun| |done..]. eapply good_mono; [exact Hg'|lia].
  - eexists (Throw e), _. split_and!; [reflexivity| |done|].
    + eapply good_mono; [exact Hgood|lia].
    + exists (blk_height back). split_and!; [exact Htip|lia|exact Hres].
Qed.

(** ** Progress *)

(** How far the worker is from being done: it still has to import a first block;
    or it goes back from a height, looking for the fork point; or its tip is on the
    chain, at some distance from the end. *)
Definition distance (s : Sync B X) (d : Z) : Prop :=
  (cblocks s = ∅ /\ d = T + 1) \/
  (nextStartHeight s <> -1 /\ 0 <= nextStartHeight s /\ d = T + 2 + nextStartHeight s) \/
  (nextStartHeight s = -1 /\ exists k, tip_at s k /\ d = T - k) \/
  (nextStartHeight s = -1 /\ exists h r, is_top (cblocks s) h r /\ d = T + 2 + row_height r).

Definition genesis : Z := genesis_height pruningDepth T.

Lemma genesis_range : 0 <= genesis <= T.
Proof.
  pose proof (gc_tip _ _ GC). unfold genesis, genesis_height.
  destruct (Z.ltb_spec T pruningDepth); lia.
Qed.

Lemma tip_at_range s k : good s 0 \/ Inv (cblocks s) -> tip_at s k -> 0 <= k <= T.
Proof.
  intros HI (h & r & (Hr & _) & <- & Hat).
  assert (HI' : Inv (cblocks s)) by (destruct HI as [[]|]; done).
  destruct (row_genuine _ _ _ HI' Hr) as (_ & _ & _ & ? & _).
  destruct (hash_at_height _ _ GC _ _ Hat). lia.
Qed.

Lemma low_range s n hl rl : good s n -> is_low (cblocks s) hl rl ->
  0 <= row_height rl <= T /\ hash_at ch (row_height rl) hl.
Proof.
  intros Hg Hl. pose proof (g_low _ _ Hg _ _ Hl) as Hat. pose proof Hl as (Hr & _).
  destruct (row_genuine _ _ _ (g_Inv _ _ Hg) Hr) as (_ & _ & _ & ? & _).
  destruct (hash_at_height _ _ GC _ _ Hat). split; [lia|done].
Qed.

(** The height at which a step starts. *)
Lemma GetStartHeight_ok s n d : good s n -> distance s d ->
  (cblocks s = ∅ /\ nextStartHeight s = -1 /\ GetStartHeight s = (Ok None, s) /\ d = T + 1) \/
  exists start hl rl, GetStartHeight s = (Ok (Some start), s) /\
    is_low (cblocks s) hl rl /\ row_height rl <= start <= i64_max /\
    (d = T + 2 + start \/ (d = T - start /\ exists h, is_Some (cblocks s !! h) /\ hash_at ch start h)).
Proof.
  intros Hg Hd. unfold GetStartHeight. rewrite gets_bind.
  destruct (decide (cblocks s = ∅)) as [E|E].
  - left. destruct (g_next _ _ Hg) as [Hn|(hl & rl & (Hl & _) & _)].
    2: { by rewrite E in Hl. }
    rewrite Hn, Z.eqb_refl. erewrite bind_Ok; [|apply on_chain_read; by apply GetTipHeight_empty].
    split_and!; [done|done|done|].
    destruct Hd as [[_ ?]|[[? _]|[[_ (k & (h & r & (Hr & _) & _) & _)]|[_ (h & r & (Hr & _) & _)]]]];
      [done|done|by rewrite E in Hr..].
  - right. destruct (is_low_exists _ (g_Inv _ _ Hg) E) as (hl & rl & Hl).
    destruct (Z.eqb_spec (nextStartHeight s) (-1)) as [Hn|Hn].
    + destruct (is_top_exists _ (g_Inv _ _ Hg) E) as (h & r & Ht).
      erewrite bind_Ok; [|apply on_chain_read; by apply (GetTipHeight_ok _ _ _ (g_Inv _ _ Hg) Ht)].
      pose proof Ht as (Hr & Hb & _).
      destruct (row_genuine _ _ _ (g_Inv _ _ Hg) Hr) as (_ & _ & _ & ? & _).
      destruct (Z.eqb_spec (row_height r) (-1)); [lia|].
      exists (row_height r), hl, rl. split_and!; [done|done|by apply (proj2 (proj2 Hl) h)|lia|].
      destruct Hd as [[? _]|[[? _]|[[_ (k & (h1 & r1 & Ht1 & Hk & Hat) & ->)]|[_ (h1 & r1 & Ht1 & ->)]]]];
        [done|done|..]; destruct (top_unique _ _ _ _ _ (g_Inv _ _ Hg) Ht Ht1) as [<- <-].
      * right. subst k. split; [lia|]. exists h. by rewrite Hr.
      * left. lia.
    + exists (nextStartHeight s), hl, rl. split_and!; [done|done| | |].
      * destruct (g_next _ _ Hg) as [?|(hl' & rl' & Hl' & ?)]; [done|].
        pose proof (proj2 (proj2 Hl) _ _ (proj1 Hl') (proj1 (proj2 Hl'))). lia.
      * destruct (g_next _ _ Hg) as [?|(? & ? & _ & ?)]; [done|lia].
      * destruct Hd as [[? _]|[(_ & _ & ->)|[[? _]|[? _]]]]; [done|by left|done|done].
Qed.

(** The outcome of one step. *)
Definition step_budget : Z := 2 * max_blocks + 3.

(** The worker is in sync, and not on the way back. *)
Definition caught_up (s : Sync B X) : Prop := synced s /\ nextStartHeight s = -1.

Definition nearer (d : Z) (s' : Sync B X) : Prop :=
  exists d', distance s' d' /\ 0 <= d' < d.

(** Every step gets nearer, also one that ends with an exception. *)
Definition step_ends (n d : Z) (m : result bool * Sync B X) : Prop :=
  exists r s', m = (r, s') /\ good s' (n + step_budget) /\ (caught_up s' \/ nearer d s') /\
    returns rel (fun more : bool => if more then nearer d s' else caught_up s') r.

Lemma StepBack_done s n d hl rl start num : good s n -> is_low (cblocks s) hl rl ->
  row_height rl < start <= i64_max -> 1 <= num -> d = T + 2 + start ->
  step_ends n d (StepBack range start num s).
Proof.
  intros Hg Hl Hlt Hn ->.
  destruct (StepBack_ok s n hl rl start num) as (s' & Hrun & Hg' & Hnext & _); [done..|].
  pose proof (gc_tip _ _ GC). exists (Ok true), s'.
  assert (nearer (T + 2 + start) s').
  { exists (T + 2 + nextStartHeight s'). split; [|lia]. right. left. split_and!; lia. }
  split_and!; [done| |by right|done].
  eapply good_mono; [done|]. unfold step_budget, max_blocks. lia.
Qed.

(** The end of a step, for the blocks that the base chain has returned. *)
Definition UseBlocks (start num : Z) (blocks : list BlockData) : M (Sync B X) bool :=
  match blocks with
  | [] => StepBack range start num
  | front :: rest =>
      let* '(_, oldForkBranch) := on_chain (GetForkBranch (blk_parent front)) in
      o <- on_chain (SetTip front);;
      match o with
      | None => StepBack range start num
      | Some oldTip => StepForward range cb genesis num oldForkBranch oldTip front rest
      end
  end.

Lemma attached_done s n d hl rl start num front rest fork ra : good s n ->
  is_low (cblocks s) hl rl -> row_height rl <= start -> 3 <= num <= max_blocks ->
  d = T + 2 + start \/ d = T - start ->
  front :: rest = slice ch start (Z.to_nat num) ->
  fork_path (cblocks s) (blk_parent front) fork ->
  cblocks s !! attach_point (cblocks s) front = Some ra ->
  0 < n -> n + step_budget < i64_max ->
  step_ends n d
    ((o <- on_chain (SetTip front);;
      match o with
      | None => StepBack range start num
      | Some oldTip => StepForward range cb genesis num fork oldTip front rest
      end) s).
Proof.
  intros Hg Hl Hle Hnr Hdd Hsl Hpath Eatt Hn Hmax. unfold step_budget, max_blocks in Hmax, Hnr.
  destruct (low_range _ _ _ _ Hg Hl) as [Hlr Hlat]. pose proof genesis_range as Hgen.
  assert (Hnr' : 3 <= num <= max_blocks) by exact Hnr.
  destruct (slice_front start num front rest) as [Hch _]; [lia|lia|done|].
  assert (Hanc : anchor ch (cblocks s) hl (row_height rl)).
  { exists rl. split_and!; [apply Hl|apply Hl|done|done]. }
  destruct (SetTip_chain T ch GC (sy_chain s) start front n hl (row_height rl))
    as (old & ro & m' & Hold & Hset & Hot & Hanc' & Hkept);
    [apply Hg|done|done|lia|apply Hg|lia|by exists ra|].
  erewrite bind_Ok; [|apply on_chain_run; exact Hset]. cbn beta iota.
  match goal with |- step_ends _ _ (_ ?x) => set (s3 := x) end.
  destruct (StepForward_ok s3 (n + 2) start num genesis fork old front rest hl (row_height rl))
    as (r & s' & Hrun & Hg' & Hns & k' & Ht & Hk & Hr);
    [apply Hg|apply Hg|apply Hg|done|lia|lia|done| |done|done|done|lia|lia|].
  { intros m2 n2 Hot2 Ha2 Hk2 Hmoved.
    eapply (forward_tip_update T ch GC (cblocks s) m2 old ro hl (row_height rl) start);
      [apply Hg|done|done|done|lia| |done|by exists ra|reflexivity|done|done|by eapply kept_trans|done].
    by eapply (slice_rest ch start (Z.to_nat num)). }
  exists r, s'. split; [done|]. split.
  { eapply good_mono; [exact Hg'|]. unfold step_budget, max_blocks. lia. }
  pose proof (tip_at_range s' k' (or_intror (g_Inv _ _ Hg')) Ht) as Hkr.
  assert (Hup : k' = T -> caught_up s') by (intros ->; by split).
  assert (Hnear : start + 2 <= k' -> nearer d s').
  { intros Hk'. exists (T - k'). split; [right; right; left; split; [done|by exists k']|].
    destruct Hdd as [-> | ->]; lia. }
  split; [destruct Hk as [?|?]; [left|right]; auto|].
  destruct r as [more|e| | |]; [destruct more|..]; cbn in Hr |- *; auto.
Qed.

Lemma UseBlocks_done s n d hl rl start num : good s n -> is_low (cblocks s) hl rl ->
  row_height rl <= start <= i64_max -> 3 <= num <= max_blocks ->
  d = T + 2 + start \/
    (d = T - start /\ exists h, is_Some (cblocks s !! h) /\ hash_at ch start h) ->
  0 < n -> n + step_budget < i64_max ->
  step_ends n d (UseBlocks start num (slice ch start (Z.to_nat num)) s).
Proof.
  intros Hg Hl Hle Hnr Hdd Hn Hmax. destruct (low_range _ _ _ _ Hg Hl) as [Hlr Hlat].
  assert (Hback : row_height rl < start -> ~ (exists h, is_Some (cblocks s !! h) /\ hash_at ch start h) ->
            step_ends n d (StepBack range start num s)).
  { intros Hlt Hno. apply (StepBack_done s n d hl rl); [done|done|lia|lia|].
    destruct Hdd as [->|[_ ?]]; [done|]. by destruct Hno. }
  destruct (slice ch start (Z.to_nat num)) as [|front rest] eqn:Hsl; cbn [UseBlocks].
  { pose proof (slice_chain_length start (Z.to_nat num)) as Hlen. rewrite Hsl in Hlen.
    cbn in Hlen. destruct (Z.le_gt_cases start T) as [?|Hgt]; [specialize (Hlen ltac:(lia)); lia|].
    apply Hback; [lia|]. intros (h & _ & Hat). apply (hash_at_height _ _ GC) in Hat as [_ ?]. lia. }
  destruct (slice_front start num front rest) as [Hch _]; [lia|lia|done|].
  destruct (GetForkBranch_ok (sy_chain s) (blk_parent front) (g_Inv _ _ Hg))
    as (fork & Hpath & Hfork).
  erewrite bind_Ok; [|apply on_chain_read; exact Hfork]. cbn beta iota. clear Hfork.
  destruct (cblocks s !! attach_point (cblocks s) front) as [ra|] eqn:Eatt.
  - apply (attached_done s n d hl rl start num front rest fork ra); try done; [lia|].
    destruct Hdd as [->|[-> _]]; [by left|by right].
  - unfold attach_point in Eatt. destruct (cblocks s !! blk_hash front) eqn:Eh; [congruence|].
    erewrite bind_Ok; [|apply on_chain_read; by apply SetTip_unattached]. cbn beta iota.
    assert (Hno : ~ (exists h, is_Some (cblocks s !! h) /\ hash_at ch start h)).
    { intros (h & [x Hx] & (b1 & Hb1 & <-)). congruence. }
    apply Hback; [|done]. destruct (decide (start = row_height rl)) as [->|]; [|lia].
    exfalso. apply Hno. exists hl. split; [|done]. exists rl. apply Hl.
Qed.

Lemma good_base s b n : good s n -> R b ->
  good {| sy_base := b; sy_chain := sy_chain s; sy_rest := sy_rest s;
          numBlocks := numBlocks s; nextStartHeight := nextStartHeight s |} n.
Proof. intros [] ?. by split. Qed.

Lemma UpdateStep_ends s n d : good s n -> distance s d -> 0 < n ->
  n + step_budget < i64_max ->
  step_ends n d (UpdateStep pruningDepth range cb s).
Proof.
  intros Hg Hd Hn Hmax. pose proof Hmax as Hmax'. unfold step_budget, max_blocks in Hmax'.
  pose proof (gc_tip _ _ GC) as HT. pose proof genesis_range as Hgen. unfold UpdateStep.
  destruct (serves_tip _ _ _ _ HS (sy_base s) (g_base _ _ Hg)) as (b & Hrun & HRb).
  rewrite (bind_Ok _ _ _ _ _ (on_base_run _ _ _ _ Hrun)). clear Hrun. cbn zeta. fold genesis.
  pose proof (good_base _ b _ Hg HRb) as Hg1.
  match goal with |- step_ends _ _ (_ ?x) => set (s1 := x) in * end.
  assert (Hd1 : distance s1 d) by exact Hd.
  destruct (GetStartHeight_ok s1 n d Hg1 Hd1)
    as [(E & Hns & Hst & Hdd)|(start & hl & rl & Hst & Hl & Hle & Hdd)];
    rewrite (bind_Ok _ _ _ _ _ Hst); clear Hst.
  { destruct (ImportNewTip_ok s1 genesis n Hg1 Hns Hgen) as (r & s' & Hrun & Hr & Hg' & Ht & Hns').
    - intros h r. by rewrite E.
    - lia.
    - assert (Hnear : nearer d s').
      { exists (T - genesis). split; [|lia]. right; right; left. split; [done|]. by exists genesis. }
      exists r, s'. split_and!; [done| |by right|].
      + eapply good_mono; [done|unfold step_budget, max_blocks; lia].
      + destruct r as [more|e| | |]; cbn in Hr |- *; [by subst more|done..]. }
  destruct (low_range _ _ _ _ Hg1 Hl) as [Hlr Hlat].
  rewrite gets_bind. set (num := Z.max (numBlocks s1) 3).
  pose proof (g_num _ _ Hg1) as Hnum.
  assert (Hnr : 3 <= num <= max_blocks) by (unfold num, max_blocks; lia).
  rewrite check_true by (apply Z.leb_le; lia).
  destruct (serves_range _ _ _ _ HS (sy_base s1) start num (g_base _ _ Hg1))
    as (b2 & Hrun & HR2); [unfold i64_max in *; lia|unfold max_blocks in Hnr; lia|].
  rewrite (bind_Ok _ _ _ _ _ (on_base_run _ _ _ _ Hrun)). clear Hrun.
  exact (UseBlocks_done _ n d hl rl start num (good_base _ b2 _ Hg1 HR2) Hl Hle Hnr Hdd Hn Hmax).
Qed.

(** ** The loop *)

Lemma distance_exists s n : good s n -> exists d, distance s d /\ 0 <= d.
Proof.
  intros Hg. pose proof (gc_tip _ _ GC). destruct (decide (cblocks s = ∅)) as [E|E].
  - exists (T + 1). split; [by left|lia].
  - destruct (is_top_exists _ (g_Inv _ _ Hg) E) as (h & r & Ht).
    destruct (decide (nextStartHeight s = -1)) as [Hn|Hn].
    + exists (T + 2 + row_height r). pose proof Ht as (Hr & _).
      destruct (row_genuine _ _ _ (g_Inv _ _ Hg) Hr) as (_ & _ & _ & ? & _).
      split; [|lia]. right; right; right. split; [done|]. by exists h, r.
    + destruct (g_next _ _ Hg) as [?|(hl & rl & (Hr & _) & Hle)]; [done|].
      destruct (row_genuine _ _ _ (g_Inv _ _ Hg) Hr) as (_ & _ & _ & ? & _).
      exists (T + 2 + nextStartHeight s). split; [|lia]. right; left. split_and!; [done|lia|done].
Qed.

(** A distance is not negative, and at distance zero the worker has caught up. *)
Lemma distance_caught_up s n d : good s n -> distance s d -> 0 <= d /\ (d = 0 -> caught_up s).
Proof.
  intros Hg Hd. pose proof (gc_tip _ _ GC).
  destruct Hd as [[_ ->]|[(_ & ? & ->)|[(Hn & k & Hk & ->)|(_ & h & r & (Hr & _) & ->)]]].
  - split; lia.
  - split; lia.
  - pose proof (tip_at_range s k (or_intror (g_Inv _ _ Hg)) Hk). split; [lia|]. intros ?.
    replace k with T in Hk by lia. by split.
  - destruct (row_genuine _ _ _ (g_Inv _ _ Hg) Hr) as (_ & _ & _ & ? & _). split; lia.
Qed.

Lemma caught_up_distance s : caught_up s -> distance s 0.
Proof. intros [Hs Hn]. right; right; left. split; [done|]. exists T. split; [done|lia]. Qed.

(** One turn of the loop, which catches exceptions. *)
Lemma loop_turn_ends s n d : good s n -> distance s d -> 0 < n -> n + step_budget < i64_max ->
  exists more s', loop_turn pruningDepth range cb s = (Ok more, s') /\
    good s' (n + step_budget) /\ (caught_up s' \/ nearer d s') /\
    (rel -> if (more : bool) then nearer d s' else caught_up s').
Proof.
  intros Hg Hd Hn Hmax.
  destruct (UpdateStep_ends s n d Hg Hd Hn Hmax) as (r & s' & Hrun & Hg' & Hp & Hr).
  unfold loop_turn, try_catch. rewrite Hrun.
  destruct r as [more|e| | |]; try done; eexists _, s'; (split_and!; [reflexivity|done|done|]).
  - by intros _.
  - intros ?. by destruct Hr.
Qed.

Lemma run_loop_ends fuel : rel -> forall s n d, good s n -> distance s d -> 0 < n ->
  d < Z.of_nat fuel -> n + Z.of_nat fuel * step_budget < i64_max ->
  exists s', run_loop pruningDepth range cb fuel s = (Ok tt, s') /\
    good s' (n + Z.of_nat fuel * step_budget) /\ synced s'.
Proof.
  intros Hrel. assert (Hb : 0 < step_budget) by (unfold step_budget, max_blocks; lia).
  induction fuel as [|fuel IH]; intros s n d Hg Hd Hn Hlt Hmax.
  - destruct (distance_caught_up s n d Hg Hd). lia.
  - destruct (loop_turn_ends s n d Hg Hd Hn) as (more & s1 & Hrun & Hg1 & _ & Hm); [lia|].
    specialize (Hm Hrel). cbn [run_loop]. rewrite (bind_Ok _ _ _ _ _ Hrun). destruct more.
    + destruct Hm as (d' & Hd' & ?).
      destruct (IH s1 (n + step_budget) d' Hg1 Hd') as (s' & Hrun' & Hg' & Hs'); [lia..|].
      exists s'. split_and!; [done| |done]. eapply good_mono; [done|lia].
    + exists s1. split_and!; [done| |apply Hm]. eapply good_mono; [done|lia].
Qed.

(** The thread takes a number of turns.  Every one of them ends, also when the callback
    fails, and gets nearer or stays in sync. *)
Lemma run_turns_ends k : forall s n d, good s n -> distance s d -> 0 < n ->
  n + Z.of_nat k * step_budget < i64_max ->
  exists s', run_turns pruningDepth range cb k s = (Ok tt, s') /\
    good s' (n + Z.of_nat k * step_budget) /\ (d <= Z.of_nat k -> caught_up s').
Proof.
  assert (Hb : 0 < step_budget) by (unfold step_budget, max_blocks; lia).
  induction k as [|k IH]; intros s n d Hg Hd Hn Hmax.
  - exists s. split_and!; [done|eapply good_mono; [done|lia]|].
    destruct (distance_caught_up s n d Hg Hd) as [? Hz]. intros ?. apply Hz. lia.
  - destruct (loop_turn_ends s n d Hg Hd Hn) as (more & s1 & Hrun & Hg1 & Hp & _); [lia|].
    assert (Hd1 : exists d1, distance s1 d1 /\ d1 <= Z.max 0 (d - 1)).
    { destruct Hp as [Hup|(d' & Hd' & ?)]; [exists 0|exists d'; split; [done|lia]].
      split; [by apply caught_up_distance|lia]. }
    destruct Hd1 as (d1 & Hd1 & Hle).
    destruct (IH s1 (n + step_budget) d1 Hg1 Hd1) as (s' & Hrun' & Hg' & Hup); [lia..|].
    exists s'. cbn [run_turns]. rewrite (bind_Ok _ _ _ _ _ Hrun).
    split_and!; [done|eapply good_mono; [done|lia]|]. intros ?. apply Hup. lia.
Qed.
End Steps.

(** ** With a callback that does not fail *)

Section Reliable.
Context {J : JsonCpp} {C : BlockCodec} {CL : BlockCodecLaws C} {U : Universe}.
Context {B X : Type} {BC : BaseChain B}.
Context (pruningDepth range : Z) (cb : option (@sync_callback J B X)).
Context (R : B -> Prop) (T : Z) (ch : Z -> option BlockData).
Context (HS : Serves BC R T ch) (GC : good_chain T ch).
Context (Hdepth : 0 <= pruningDepth) (Hrange : 1 <= range < 2 ^ 31).
Context (P : X -> Prop) (Hcb : callback_ok cb R ch P).

Lemma UpdateStep_done s n d : good range R ch P s n -> distance T ch s d -> 0 < n ->
  n + step_budget range < i64_max ->
  exists more s', UpdateStep pruningDepth range cb s = (Ok more, s') /\
    good range R ch P s' (n + step_budget range) /\
    if (more : bool) then exists d', distance T ch s' d' /\ 0 <= d' < d else caught_up T ch s'.
Proof.
  intros Hg Hd Hn Hmax.
  destruct (UpdateStep_ends pruningDepth range cb R T ch HS GC Hdepth Hrange P True
    (callback_ok_ends cb R ch P Hcb) s n d Hg Hd Hn Hmax) as (r & s' & Hrun & Hg' & _ & Hr).
  destruct r as [more|e| | |]; try done. by exists more, s'.
Qed.

Lemma run_loop_done fuel s n d : good range R ch P s n -> distance T ch s d -> 0 < n ->
  d < Z.of_nat fuel -> n + Z.of_nat fuel * step_budget range < i64_max ->
  exists s', run_loop pruningDepth range cb fuel s = (Ok tt, s') /\
    good range R ch P s' (n + Z.of_nat fuel * step_budget range) /\ synced T ch s'.
Proof.
  by apply (run_loop_ends pruningDepth range cb R T ch HS GC Hdepth Hrange P True
    (callback_ok_ends cb R ch P Hcb)).
Qed.
End Reliable.
