(* ===== verification/SyncProps.v ===== *)
(** * The promises of the sync worker

    Against a base chain that stands still, the worker gets to its tip, and on the
    way it notifies about every update; the database stays consistent. *)

From S2P Require Import Prelude Json BlockData Chainstate ChainTree ChainQueries ChainstateProofs ChainSanity BaseChain BlockCache TipUpdate Sync SyncProofs ChainstateProps.

Section Theorems.
Context {J : JsonCpp} {C : BlockCodec} {CL : BlockCodecLaws C} {U : Universe}.
Context {B X : Type} {BC : BaseChain B}.

(** The callback that records what it is told. *)
Definition event : Type := gmap string row * string * list BlockData.

Definition record_event : @sync_callback J B (list event) := fun old att =>
  modify (fun '(b, c, log) => (b, c, log ++ [(blocks c, old, att)])).

Definition event_ok (e : event) : Prop := tip_update e.1.1 e.1.2 e.2.

Lemma record_event_ok (R : B -> Prop) ch :
  callback_ok (Some record_event) R ch (Forall event_ok).
Proof.
  intros f [= <-] old att b c x HR Hx HI _ Hu.
  exists b, c, (x ++ [(blocks c, old, att)]). split_and!; [done|done| |by apply shrunk_refl].
  apply Forall_app. split; [done|]. by constructor.
Qed.

(** C2.  The sync converges: from any state that is consistent with the base chain
    (an empty database; or one whose lowest main-chain block is still on the base
    chain, however far the rest has been reorganised away), the loop of the worker
    stops after at most [d + 1] steps, without an aborted check, and then the tip
    of the chainstate is the tip of the base chain and the database is sane.  The
    distance [d] is at most the height of the base chain plus that of the local
    tip. *)
Theorem sync_converges (pruningDepth range : Z) (cb : option (@sync_callback J B X))
    (R : B -> Prop) (T : Z) (ch : Z -> option BlockData) (P : X -> Prop)
    (s : Sync B X) (n d : Z) (fuel : nat)
    (HS : Serves BC R T ch) (GC : good_chain T ch)
    (Hdepth : 0 <= pruningDepth) (Hrange : 1 <= range < 2 ^ 31)
    (Hcb : callback_ok cb R ch P)
    (Hg : good range R ch P s n) (Hd : distance T ch s d)
    (Hn : 0 < n) (Hfuel : d < Z.of_nat fuel)
    (Hmax : n + Z.of_nat fuel * step_budget range < i64_max) :
  exists s', run_loop pruningDepth range cb fuel s = (Ok tt, s') /\
    synced T ch s' /\ SanityCheck (sy_chain s') = (Ok tt, sy_chain s').
Proof.
  destruct (run_loop_done pruningDepth range cb R T ch HS GC Hdepth Hrange P Hcb fuel s n d)
    as (s' & Hrun & [_ _ HI _ _ _ _] & Hs); [done..|].
  exists s'. split_and!; [done..|]. by apply SanityCheck_Inv.
Qed.

(** Every notification that a step of the worker makes describes the update
    of the chainstate: the attached blocks are linked and end with the current tip;
    the branch of the previous tip leads down to a stored block of the new main
    chain; and the attached blocks go back at least to the one after it. *)
Theorem step_notifies (pruningDepth range : Z)
    (R : B -> Prop) (T : Z) (ch : Z -> option BlockData)
    (s : Sync B (list event)) (n d : Z)
    (HS : Serves BC R T ch) (GC : good_chain T ch)
    (Hdepth : 0 <= pruningDepth) (Hrange : 1 <= range < 2 ^ 31)
    (Hg : good range R ch (Forall event_ok) s n) (Hd : distance T ch s d)
    (Hn : 0 < n) (Hmax : n + step_budget range < i64_max) :
  exists more s', UpdateStep pruningDepth range (Some record_event) s = (Ok more, s') /\
    Forall event_ok (sy_rest s').
Proof.
  destruct (UpdateStep_done pruningDepth range _ R T ch HS GC Hdepth Hrange
    (Forall event_ok) (record_event_ok R ch) s n d) as (more & s' & Hrun & Hg' & _); [done..|].
  exists more, s'. split; [done|]. apply Hg'.
Qed.

(** C37.  A reorganisation past the lowest block that is still stored is noticed:
    when the search for the fork point has arrived at that block and the base
    chain's block there does not attach either, the process aborts rather than
    going on with a chain that it cannot connect. *)
Theorem reorg_beyond_pruning (pruningDepth range : Z) (cb : option (@sync_callback J B X))
    (R : B -> Prop) (T : Z) (ch : Z -> option BlockData)
    (s : Sync B X) (hl : string) (rl : row) (front : BlockData)
    (HS : Serves BC R T ch) (HR : R (sy_base s))
    (HI : Inv (blocks (sy_chain s))) (Hl : is_low (blocks (sy_chain s)) hl rl)
    (Hnext : nextStartHeight s = row_height rl) (Hnum : 1 <= numBlocks s < 2 ^ 32)
    (Hrange : 1 <= range) (Hch : ch (row_height rl) = Some front)
    (Hf : blocks (sy_chain s) !! blk_hash front = None)
    (Hp : blocks (sy_chain s) !! blk_parent front = None) :
  exists s', UpdateStep pruningDepth range cb s = (Fatal, s') /\
    blocks (sy_chain s') = blocks (sy_chain s).
Proof.
  pose proof Hl as (Hrl & _). destruct (row_genuine _ _ _ HI Hrl) as (_ & _ & _ & ? & _).
  unfold UpdateStep. destruct (serves_tip _ _ _ _ HS (sy_base s) HR) as (b & Hrun & HRb).
  rewrite (bind_Ok _ _ _ _ _ (on_base_run _ _ _ _ Hrun)). clear Hrun. cbn zeta.
  unfold GetStartHeight. rewrite bind_assoc, gets_bind. cbn [nextStartHeight]. rewrite Hnext.
  destruct (Z.eqb_spec (row_height rl) (-1)); [lia|].
  rewrite ret_bind, gets_bind. cbn [numBlocks]. cbn zeta.
  rewrite check_true by (apply Z.leb_le; lia).
  match goal with |- context [bc_GetBlockRange ?a ?c] =>
    destruct (serves_range _ _ _ _ HS b a c HRb) as (b2 & Hrun & HR2); [lia..|] end.
  erewrite bind_Ok; [|apply on_base_run; exact Hrun]. cbn beta iota.
  destruct (slice ch (row_height rl) _) as [|b0 rest] eqn:Es.
  { destruct (Z.to_nat _) eqn:En in Es; [lia|]. cbn in Es. by rewrite Hch in Es. }
  assert (b0 = front) as ->.
  { destruct (Z.to_nat _) in Es; [done|]. cbn in Es. rewrite Hch in Es. congruence. }
  destruct (GetForkBranch_ok (sy_chain s) (blk_parent front) HI) as (fork & _ & Hfork).
  erewrite bind_Ok; [|apply on_chain_read; exact Hfork]. cbn beta iota.
  erewrite bind_Ok; [|apply on_chain_read; by apply SetTip_unattached]. cbn beta iota.
  unfold StepBack, IncreaseNumBlocks. rewrite bind_assoc, check_true by (apply Z.leb_le; lia).
  run. erewrite bind_Ok; [|apply on_chain_read; by eapply GetLowestUnprunedHeight_ok].
  rewrite modify_bind. unfold check.
  match goal with |- context [if ?c then _ else _] => replace c with false end.
  - eexists. split; [reflexivity|done].
  - symmetry. apply Z.ltb_ge. lia.
Qed.

(** The number of blocks that are requested at once doubles with every step
    that has more to do, up to the configured maximum, and never overflows. *)
Theorem numBlocks_doubles (range : Z) (s : Sync B X) (k : nat)
    (Hrange : 1 <= range < 2 ^ 31) (Hnum : 1 <= numBlocks s <= range) :
  exists s', Nat.iter k (fun m => m;; IncreaseNumBlocks range) (ret tt) s = (Ok tt, s') /\
    numBlocks s' = Z.min range (2 ^ Z.of_nat k * numBlocks s).
Proof.
  induction k as [|k IH].
  - exists s. split; [done|]. change (2 ^ Z.of_nat 0) with 1. lia.
  - destruct IH as (s1 & Hrun & Hn1). cbn [Nat.iter nat_rect].
    change (nat_rect (fun _ => M (Sync B X) unit) (ret tt)
      (fun _ m => m;; IncreaseNumBlocks range) k)
      with (Nat.iter k (fun m => m;; IncreaseNumBlocks range) (ret tt)).
    pose proof (Z.pow_pos_nonneg 2 (Z.of_nat k) ltac:(lia) ltac:(lia)).
    destruct (IncreaseNumBlocks_ok range Hrange s1) as (n & Hinc & _ & Hn).
    { rewrite Hn1. nia. }
    rewrite (bind_Ok _ _ _ _ _ Hrun). exists (set_numBlocks n s1). split; [done|].
    cbn. rewrite Hn, Hn1, Nat2Z.inj_succ, Z.pow_succ_r by lia. nia.
Qed.
End Theorems.

(** ** Examples

    The base chain is [m0] to [m5]; the chainstate has [m0], [m1] and then a branch
    [s2], [s3].  The connector is the block cache on top of a fixed chain. *)
Module SyncSample.
Import Model BitsProto Fixed.

Definition tree (h : string) : string * Z :=
  if decide (h = "m0") then ("pre", 0)
  else if decide (h = "m1") then ("m0", 1)
  else if decide (h = "m2") then ("m1", 2)
  else if decide (h = "m3") then ("m2", 3)
  else if decide (h = "m4") then ("m3", 4)
  else if decide (h = "m5") then ("m4", 5)
  else if decide (h = "s2") then ("m1", 2)
  else if decide (h = "s3") then ("s2", 3)
  else if decide (h = "x0") then ("pre", 0)
  else ("", -1).

#[export] Instance sync_universe : Universe := {|
  par h := (tree h).1;
  hgt h := (tree h).2
|}.

Definition blk (h : string) : BlockData := {|
  blk_hash := h; blk_parent := par h; blk_height := hgt h;
  blk_rngseed := ""; blk_metadata := JNull; blk_moves := []
|}.

Definition known : list string := ["m0"; "m1"; "m2"; "m3"; "m4"; "m5"; "s2"; "s3"; "x0"].

(** Membership in a list of constants, by evaluation. *)
Ltac is_known := apply (bool_decide_unpack _); vm_compute; exact I.

Lemma block_genuine h : h ∈ known -> genuine (blk h).
Proof.
  intros Hin. repeat (apply elem_of_cons in Hin as [->|Hin]);
    [..|by apply not_elem_of_nil in Hin];
    repeat split; try constructor; try (vm_compute; congruence).
Qed.

Definition chain : Chain :=
  {| fx_start := 0; fx_blocks := map blk ["m0"; "m1"; "m2"; "m3"; "m4"; "m5"] |}.

Lemma chain_at h b : fx_at chain h = Some b ->
  0 <= h <= 5 /\ exists x, b = blk x /\ x ∈ known /\ hgt x = h.
Proof.
  unfold fx_at. cbn [fx_start fx_blocks chain].
  destruct (Z.leb_spec 0 h); [|done]. intros Hl.
  assert (Z.to_nat (h - 0) < 6)%nat as Hlt by (apply lookup_lt_Some in Hl; done).
  assert (h = 0 \/ h = 1 \/ h = 2 \/ h = 3 \/ h = 4 \/ h = 5)
    as [->|[->|[->|[->|[->| ->]]]]] by lia;
    vm_compute in Hl; injection Hl as <-; (split; [lia|]).
  - exists "m0"%string. split_and!; [done|is_known|done].
  - exists "m1"%string. split_and!; [done|is_known|done].
  - exists "m2"%string. split_and!; [done|is_known|done].
  - exists "m3"%string. split_and!; [done|is_known|done].
  - exists "m4"%string. split_and!; [done|is_known|done].
  - exists "m5"%string. split_and!; [done|is_known|done].
Qed.

Lemma chain_good : good_chain 5 (fx_at chain).
Proof.
  split.
  - done.
  - intros h Hh. assert (h = 0 \/ h = 1 \/ h = 2 \/ h = 3 \/ h = 4 \/ h = 5)
      as [->|[->|[->|[->|[->| ->]]]]] by lia; vm_compute; by eexists.
  - intros h Hh. destruct (fx_at chain h) eqn:E; [|done]. apply chain_at in E. lia.
  - intros h b Hb. destruct (chain_at _ _ Hb) as (_ & x & -> & Hx & <-).
    split; [by apply block_genuine|done].
  - intros h b Hb. destruct (chain_at _ _ Hb) as (_ & x & -> & Hx & _).
    cbn [blk_hash blk]. intros ->. revert Hx. apply (bool_decide_unpack _). vm_compute. exact I.
  - intros h b b' Hb Hb'. destruct (chain_at _ _ Hb) as [Hh _].
    assert (h = 0 \/ h = 1 \/ h = 2 \/ h = 3 \/ h = 4 \/ h = 5)
      as [->|[->|[->|[->|[->| ->]]]]] by lia; vm_compute in Hb, Hb';
      injection Hb as <-; try injection Hb' as <-; done.
Qed.

(** The cached connector serves the chain as well. *)
Definition cached : BlockCacheChain Chain InMemoryBlockStorage :=
  {| bcc_base := chain; bcc_store := {| ims_data := ∅ |}; lastTipHeight := 0 |}.

#[export] Instance cached_chain : BaseChain (BlockCacheChain Chain InMemoryBlockStorage) :=
  BlockCacheChain_BaseChain 1.

Lemma sample_cached_Serves : Serves cached_chain
  (still_ok (eq chain) (fx_at chain)) 5 (fx_at chain).
Proof.
  apply still_Serves.
  - apply (fixed_Serves chain).
  - intros h b Hb. destruct (gc_genuine _ _ chain_good _ _ Hb) as [_ ?]. done.
  - done.
  - intros t l Hk _. cbn [st_ok InMemory_Laws]. revert t Hk. induction l as [|x l IH]; intros t Hk.
    + by exists t.
    + cbn. rewrite modify_bind. apply IH. intros h b. cbn.
      destruct (ims_data t !! blk_height x); [apply Hk|].
      intros [[<- <-]|[_ ?]]%lookup_insert_Some; [done|by apply Hk].
  - intros t a n _. cbn. unfold InMemory_GetRange. rewrite get_bind.
    destruct (iterate_from _ _) as [|[h b] l]; by eexists _, _.
Qed.

Lemma cached_ok : still_ok (eq chain) (fx_at chain) cached.
Proof.
  split_and!; [done| |]; intros h b; cbn; by rewrite lookup_empty.
Qed.

(** The chainstate after an import and three new tips. *)
Definition c1 : Chainstate := (exec (OpImport (blk "m0")) SetupSchema).2.
Definition c2 : Chainstate := (exec (OpSet (blk "m1")) c1).2.
Definition c3 : Chainstate := (exec (OpSet (blk "s2")) c2).2.
Definition c4 : Chainstate := (exec (OpSet (blk "s3")) c3).2.

Lemma reach_c1 : reachable 1 c1.
Proof.
  unfold c1. destruct (exec (OpImport (blk "m0")) SetupSchema) as [r s'] eqn:E.
  eapply (reachable_step 0 SetupSchema (OpImport (blk "m0"))); [constructor| |exact E].
  split; [apply block_genuine; is_known|].
  intros h r0. cbn. by rewrite lookup_empty.
Qed.

Lemma reach_next k s h : reachable k s -> h ∈ known ->
  bool_decide (blocks s !! h = None) = true -> Chain.branch_of s (par h) = Some 0 ->
  reachable (S k) (exec (OpSet (blk h)) s).2.
Proof.
  intros Hr Hin Hn Hb. destruct (exec (OpSet (blk h)) s) as [r s'] eqn:E.
  eapply (reachable_step k s (OpSet (blk h))); [done| |exact E].
  split; [by apply block_genuine|]. apply bool_decide_eq_true in Hn.
  unfold attach_point. cbn. rewrite Hn. by apply Chain.on_main.
Qed.

Lemma reach_c4 : reachable 4 c4.
Proof.
  unfold c4, c3, c2.
  repeat (apply reach_next; [|is_known|vm_compute; done|vm_compute; done]).
  exact reach_c1.
Qed.

Lemma c4_Inv : Inv (blocks c4) /\ branches_below (blocks c4) 9.
Proof. by apply (reachable_Inv 4 c4 reach_c4). Qed.

Lemma low_at s h k : Chain.branch_of s h = Some 0 -> row_height <$> blocks s !! h = Some k ->
  hash_at (fx_at chain) k h ->
  map_Forall (fun h' r => row_branch r = 0 -> row_height r <= k -> h' = h) (blocks s) ->
  low_on (fx_at chain) (blocks s).
Proof.
  unfold Chain.branch_of. destruct (blocks s !! h) as [r0|] eqn:E0; cbn; [|done].
  intros [= H0] [= Hh] Hat Hall h' r (Hr & Hb & Hmin).
  assert (Hle : row_height r <= k) by (rewrite <- Hh; by apply (Hmin _ _ E0)).
  pose proof (Hall h' r Hr Hb Hle) as ->. simplify_eq. exact Hat.
Qed.

Lemma c4_low : low_on (fx_at chain) (blocks c4).
Proof.
  apply (low_at c4 "m0" 0); [vm_compute; reflexivity..|by exists (blk "m0")|].
  apply (bool_decide_unpack _). vm_compute. exact I.
Qed.

Definition start_state : Sync (BlockCacheChain Chain InMemoryBlockStorage) (list event) := {|
  sy_base := cached; sy_chain := c4; sy_rest := []; numBlocks := 1; nextStartHeight := -1
|}.

Lemma start_good : good 4 (still_ok (eq chain) (fx_at chain)) (fx_at chain)
  (Forall event_ok) start_state 9.
Proof.
  split; cbn [sy_base sy_chain sy_rest numBlocks nextStartHeight start_state].
  - exact cached_ok.
  - constructor.
  - apply c4_Inv.
  - exact c4_low.
  - apply c4_Inv.
  - lia.
  - by left.
Qed.

Lemma start_distance : distance 5 (fx_at chain) start_state 10.
Proof.
  right; right; right. split; [done|].
  destruct (Chain.top_of c4 "s3" 3) as (r & Ht & Hr); [vm_compute; reflexivity..| |].
  - apply (bool_decide_unpack _). vm_compute. exact I.
  - exists "s3"%string, r. split; [exact Ht|]. by rewrite Hr.
Qed.

Lemma sync_converges_witness :
  exists s', run_loop 3 4 (Some record_event) 11 start_state = (Ok tt, s') /\
    synced 5 (fx_at chain) s'.
Proof.
  destruct (sync_converges 3 4 (Some record_event) (still_ok (eq chain) (fx_at chain)) 5
    (fx_at chain) (Forall event_ok) start_state 9 10 11) as (s' & Hrun & Hs & _).
  - exact sample_cached_Serves.
  - exact chain_good.
  - done.
  - done.
  - apply record_event_ok.
  - exact start_good.
  - exact start_distance.
  - done.
  - done.
  - done.
  - exact (ex_intro _ s' (conj Hrun Hs)).
Defined.

Lemma step_notifies_witness :
  exists more s', UpdateStep 3 4 (Some record_event) start_state = (Ok more, s').
Proof.
  destruct (step_notifies 3 4 (still_ok (eq chain) (fx_at chain)) 5 (fx_at chain)
    start_state 9 10) as (more & s' & Hrun & _).
  - exact sample_cached_Serves.
  - exact chain_good.
  - done.
  - done.
  - exact start_good.
  - exact start_distance.
  - done.
  - done.
  - exact (ex_intro _ more (ex_intro _ s' Hrun)).
Defined.

(** The loop in action: it goes back to [m0], and then attaches the new chain in two
    steps. *)
Lemma loop_notifications :
  (fun e : event => (e.1.2, map blk_hash e.2)) <$>
    sy_rest (run_loop 3 4 (Some record_event) 11 start_state).2
  = [("s3", ["m0"; "m1"; "m2"]); ("m2", ["m2"; "m3"; "m4"; "m5"])]%string.
Proof. vm_compute. reflexivity. Qed.

(** A chainstate that was imported from another chain. *)
Definition alien : Chainstate := (exec (OpImport (blk "x0")) SetupSchema).2.

Lemma alien_reachable : reachable 1 alien.
Proof.
  unfold alien. destruct (exec (OpImport (blk "x0")) SetupSchema) as [r s'] eqn:E.
  eapply (reachable_step 0 SetupSchema (OpImport (blk "x0"))); [constructor| |exact E].
  split; [apply block_genuine; is_known|].
  intros h r0. cbn. by rewrite lookup_empty.
Qed.

Lemma low_of s h k : Chain.branch_of s h = Some 0 -> row_height <$> blocks s !! h = Some k ->
  map_Forall (fun _ r => row_branch r = 0 -> k <= row_height r) (blocks s) ->
  exists r, is_low (blocks s) h r /\ row_height r = k.
Proof.
  unfold Chain.branch_of. destruct (blocks s !! h) as [r|] eqn:E; cbn; [|done].
  intros [= Hb] [= Hh] Hall. exists r. split; [|done]. split_and!; [done..|].
  intros h' r' Hr' ?. rewrite Hh. by apply (Hall h' r' Hr').
Qed.

Definition alien_state : Sync (BlockCacheChain Chain InMemoryBlockStorage) (list event) := {|
  sy_base := cached; sy_chain := alien; sy_rest := []; numBlocks := 1; nextStartHeight := 0
|}.

Lemma reorg_beyond_pruning_witness :
  exists s', UpdateStep 3 4 (Some record_event) alien_state = (Fatal, s').
Proof.
  destruct (low_of alien "x0" 0) as (r & Hl & Hr); [vm_compute; reflexivity..| |].
  { apply (bool_decide_unpack _). vm_compute. exact I. }
  destruct (reorg_beyond_pruning 3 4 (Some record_event) (still_ok (eq chain) (fx_at chain)) 5
    (fx_at chain) alien_state "x0" r (blk "m0")) as (s' & Hrun & _).
  - exact sample_cached_Serves.
  - exact cached_ok.
  - apply (reachable_Inv 1 alien alien_reachable). done.
  - exact Hl.
  - by rewrite Hr.
  - done.
  - done.
  - by rewrite Hr.
  - apply (bool_decide_eq_true_1 _). vm_compute. reflexivity.
  - apply (bool_decide_eq_true_1 _). vm_compute. reflexivity.
  - exact (ex_intro _ s' Hrun).
Defined.

Lemma numBlocks_doubles_witness :
  exists s', Nat.iter 5 (fun m => m;; IncreaseNumBlocks 20) (ret tt) start_state = (Ok tt, s') /\
    numBlocks s' = 20.
Proof.
  destruct (numBlocks_doubles 20 start_state 5) as (s' & Hrun & Hn); [lia|cbn; lia|].
  exact (ex_intro _ s' (conj Hrun Hn)).
Defined.
End SyncSample.
