(* ===== verification/SyncThread.v ===== *)
(** * The thread of the sync worker (src/sync.cpp, src/private/sync.hpp)

    [Sync] runs its steps on a thread of its own, which waits on a condition variable
    when there is nothing to do.  Others notify it of new tips of the base chain, change
    the callbacks, and stop it.  All of this is under the mutex [mut].

    [step] says which of the events can happen in a state, and what they do.  A section under the mutex is one event, except for
    those of the worker: it has the mutex while it is [AtTop], where the other
    events that need the mutex are blocked.  The wait can end at any time, by the timeout or
    spuriously ([EvWake]). *)

From S2P Require Import Prelude Events Json BlockData Chainstate ChainTree BaseChain BlockCache TipUpdate Sync SyncProofs SyncProps ChainSanity.

(** Where the thread is: there is none; it is about to lock the mutex (at its start,
    after the pause between two steps, or woken up); it is at the loop condition, with the
    mutex; it waits; it has left the loop; or the process has been aborted. *)
Inductive worker_at := NoThread | Locking | AtTop | Waiting | Exited | Aborted.

#[global] Instance worker_at_eq_dec : EqDecision worker_at.
Proof. solve_decision. Defined.

Section Thread.
Context {J : JsonCpp} {C : BlockCodec} {B X : Type} {BC : BaseChain B}.
Context (pruningDepth : Z) (xayax_block_range : Z).

(** The fields of [Sync] that the thread and its controllers share, besides the state
    of the steps.  [joining] is set while the destructor waits for the thread. *)
Record SyncThread := {
  th_sync : Sync B X;
  th_cb : option (@sync_callback J B X);
  shouldStop : bool;
  updater : worker_at;
  joining : bool
}.

Inductive event :=
  | EvStart
  | EvNewBaseChainTip
  | EvSetCallbacks (c : option (@sync_callback J B X))
  | EvDestroy
  | EvJoined
  | EvLock
  | EvTurn
  | EvExit
  | EvWake
  | EvBase (b : B).

(** Only the worker holds the mutex between two events. *)
Definition mutex_free (s : SyncThread) : bool :=
  match updater s with AtTop | Aborted => false | _ => true end.

Definition set_updater (w : worker_at) (s : SyncThread) : SyncThread :=
  {| th_sync := th_sync s; th_cb := th_cb s; shouldStop := shouldStop s; updater := w;
     joining := joining s |}.

(** The worker is the only one that waits on the condition variable. *)
Definition notify_all (s : SyncThread) : SyncThread :=
  match updater s with Waiting => set_updater Locking s | _ => s end.

(** [Start]: a [LOG (FATAL)] or [CHECK] aborts. *)
Definition start_thread (s : SyncThread) : SyncThread :=
  match updater s with
  | NoThread =>
      match Start (th_sync s) with
      | (Ok _, y) =>
          {| th_sync := y; th_cb := th_cb s; shouldStop := false; updater := Locking;
             joining := joining s |}
      | (_, y) => set_updater Aborted s
      end
  | _ => set_updater Aborted s
  end.

(** The destructor, up to the [join]. *)
Definition destroy (s : SyncThread) : SyncThread :=
  match updater s with
  | NoThread => s
  | _ =>
      notify_all {| th_sync := th_sync s; th_cb := th_cb s; shouldStop := true;
                    updater := updater s; joining := true |}
  end.

(** One turn of the loop: the step, then the pause or the wait. *)
Definition turn (s : SyncThread) : SyncThread :=
  match loop_turn pruningDepth xayax_block_range (th_cb s) (th_sync s) with
  | (Ok moreSteps, y) =>
      {| th_sync := y; th_cb := th_cb s; shouldStop := shouldStop s;
         updater := if (moreSteps : bool) then Locking else Waiting; joining := joining s |}
  | (_, y) =>
      {| th_sync := y; th_cb := th_cb s; shouldStop := shouldStop s; updater := Aborted;
         joining := joining s |}
  end.

Definition set_base (b : B) (y : Sync B X) : Sync B X :=
  {| sy_base := b; sy_chain := sy_chain y; sy_rest := sy_rest y;
     numBlocks := numBlocks y; nextStartHeight := nextStartHeight y |}.

Definition step (e : event) (s : SyncThread) : option SyncThread :=
  match e with
  | EvStart => if mutex_free s then Some (start_thread s) else None
  | EvNewBaseChainTip => if mutex_free s then Some (notify_all s) else None
  | EvSetCallbacks c =>
      if mutex_free s then
        Some {| th_sync := th_sync s; th_cb := c; shouldStop := shouldStop s;
                updater := updater s; joining := joining s |}
      else None
  | EvDestroy => if mutex_free s && negb (joining s) then Some (destroy s) else None
  | EvJoined =>
      if joining s && bool_decide (updater s = Exited) then
        Some {| th_sync := th_sync s; th_cb := th_cb s; shouldStop := shouldStop s;
                updater := NoThread; joining := false |}
      else None
  | EvLock => match updater s with Locking => Some (set_updater AtTop s) | _ => None end
  | EvTurn =>
      match updater s with AtTop => if shouldStop s then None else Some (turn s) | _ => None end
  | EvExit =>
      match updater s with
      | AtTop => if shouldStop s then Some (set_updater Exited s) else None
      | _ => None
      end
  | EvWake => match updater s with Waiting => Some (set_updater Locking s) | _ => None end
  | EvBase b =>
      match updater s with
      | Aborted => None
      | _ => Some {| th_sync := set_base b (th_sync s); th_cb := th_cb s;
                     shouldStop := shouldStop s; updater := updater s; joining := joining s |}
      end
  end.

Notation run_events := (Events.run_events step).

(** The thread has been started, and nobody has asked it to stop. *)
Definition running (s : SyncThread) : Prop :=
  shouldStop s = false /\ (updater s = Locking \/ updater s = AtTop \/ updater s = Waiting).

(** The events other than that the instance is started again or destroyed. *)
Definition in_operation (e : event) : bool :=
  match e with EvStart | EvDestroy | EvJoined => false | _ => true end.

Definition is_turn (e : event) : bool := match e with EvTurn => true | _ => false end.
Definition is_lock (e : event) : bool := match e with EvLock => true | _ => false end.
Definition is_exit (e : event) : bool := match e with EvExit => true | _ => false end.

(** The events by which the thread goes on. *)
Definition by_worker (e : event) : bool :=
  match e with EvLock | EvTurn | EvExit | EvWake => true | _ => false end.

(** ** No notification is lost *)

(** The thread will make another step before it waits. *)
Definition alert (s : SyncThread) : Prop :=
  shouldStop s = false /\ (updater s = Locking \/ updater s = AtTop).

Lemma alert_step s e s' : alert s -> in_operation e = true -> is_turn e = false ->
  step e s = Some s' -> alert s'.
Proof.
  intros [Hs Hw] Hop Ht E. unfold step, mutex_free, notify_all in E.
  destruct e; try done; destruct Hw as [Hw|Hw]; rewrite Hw, ?Hs in E; simplify_eq; try done;
    split; cbn; rewrite ?Hw; try done; auto.
Qed.

Lemma alert_run tr s s' : alert s -> forallb in_operation tr = true -> count is_turn tr = 0%nat ->
  run_events tr s = Some s' -> alert s'.
Proof.
  revert s. induction tr as [|e tr IH]; intros s Ha Htr Hno Hrun; cbn in Hrun.
  - by injection Hrun as <-.
  - cbn in Htr. apply andb_prop in Htr as [He Htr]. unfold count in Hno. cbn in Hno.
    destruct (step e s) as [s1|] eqn:E; [|done]. destruct (is_turn e) eqn:Ht; [done|].
    eapply (IH s1); [by eapply alert_step|done..].
Qed.

Lemma alert_goes_on s : alert s ->
  exists tr, (tr = [EvTurn] \/ tr = [EvLock; EvTurn]) /\ is_Some (run_events tr s).
Proof.
  intros [Hs [Hw|Hw]].
  - exists [EvLock; EvTurn]. split; [by right|]. cbn. rewrite Hw. cbn. rewrite Hs. by eexists.
  - exists [EvTurn]. split; [by left|]. cbn. rewrite Hw, Hs. by eexists.
Qed.

(** ** The end of the thread *)

(** [n] events of the worker after it has been asked to stop. *)
Definition stopping (n : nat) (s : SyncThread) : Prop :=
  shouldStop s = true /\
  ((joining s = true /\ (updater s = Locking /\ n = 0 \/ updater s = AtTop /\ n = 1 \/
                         updater s = Exited /\ n = 2)) \/
   (joining s = false /\ updater s = NoThread /\ n = 2))%nat.

Definition not_start (e : event) : bool := match e with EvStart => false | _ => true end.

Lemma stopping_step n s e s' : stopping n s -> not_start e = true -> step e s = Some s' ->
  is_turn e = false /\ stopping (n + if by_worker e then 1 else 0) s'.
Proof.
  intros [Hs Hw] Hop E. unfold step, mutex_free, notify_all, destroy in E.
  destruct e; try done;
    destruct Hw as [[Hj [[Hw ->]|[[Hw ->]|[Hw ->]]]]|(Hj & Hw & ->)];
    rewrite ?Hw, ?Hs, ?Hj in E; cbn in E; simplify_eq; (split; [done|]);
    split; cbn; rewrite ?Hw, ?Hs, ?Hj; naive_solver.
Qed.

Lemma stopping_ends n s : stopping n s ->
  exists tr s', (length tr <= 3)%nat /\ run_events tr s = Some s' /\ updater s' = NoThread.
Proof.
  intros [Hs [[Hj [[Hw ->]|[[Hw ->]|[Hw ->]]]]|(Hj & Hw & ->)]].
  - eexists [EvLock; EvExit; EvJoined], _. cbn. rewrite Hw. cbn. rewrite Hs. cbn. rewrite Hj.
    cbn. split_and!; [lia|reflexivity|done].
  - eexists [EvExit; EvJoined], _. cbn. rewrite Hw, Hs. cbn. rewrite Hj. cbn.
    split_and!; [lia|reflexivity|done].
  - eexists [EvJoined], _. cbn. rewrite Hj, Hw. cbn. split_and!; [lia|reflexivity|done].
  - exists [], s. split_and!; [cbn; lia|done|done].
Qed.

(** ** The steps in any interleaving *)

Section Still.
Context {CL : BlockCodecLaws C} {U : Universe}.
Context (cb : option (@sync_callback J B X)) (R : B -> Prop) (T : Z) (ch : Z -> option BlockData).
Context (HS : Serves BC R T ch) (GC : good_chain T ch).
Context (Hdepth : 0 <= pruningDepth) (Hrange : 1 <= xayax_block_range < 2 ^ 31).
Context (P : X -> Prop) (Hcb : callback_ok cb R ch P).

(** The events while the base chain stands still and the callbacks stay the same. *)
Definition calm (e : event) : bool :=
  match e with EvStart | EvSetCallbacks _ | EvBase _ => false | _ => true end.

Notation goodness := (good xayax_block_range R ch P).
Notation budget := (step_budget xayax_block_range).

Lemma distance_zero (y : Sync B X) n : goodness y n -> distance T ch y 0 <-> caught_up T ch y.
Proof.
  intros Hg. pose proof (gc_tip _ _ GC). split.
  - intros [[_ ?]|[(_ & ? & ?)|[(Hn & k & Hk & ?)|(_ & h & r & (Hr & _) & ?)]]]; [lia|lia| |].
    + replace k with T in Hk by lia. done.
    + destruct (row_genuine _ _ _ (g_Inv _ _ _ _ _ _ Hg) Hr) as (_ & _ & _ & ? & _). lia.
  - intros [Ht Hn]. right; right; left. split; [done|]. exists T. split; [done|lia].
Qed.

Lemma loop_turn_done y n d : goodness y n -> distance T ch y d -> 0 < n -> n + budget < i64_max ->
  exists more y', loop_turn pruningDepth xayax_block_range cb y = (Ok more, y') /\
    goodness y' (n + budget) /\
    exists d', distance T ch y' d' /\ 0 <= d' /\ if (more : bool) then d' < d else d' = 0.
Proof.
  intros Hg Hd Hn Hmax.
  destruct (UpdateStep_done pruningDepth xayax_block_range cb R T ch HS GC Hdepth Hrange P Hcb y n d)
    as (more & y' & Hrun & Hg' & Hm); [done..|].
  exists more, y'. unfold loop_turn, try_catch. rewrite Hrun. split_and!; [done..|].
  destruct more.
  - destruct Hm as (d' & Hd' & ?). exists d'. split_and!; [done|lia..].
  - exists 0. split_and!; [by eapply distance_zero|lia|done].
Qed.

(** After [k] turns: the distance has gone down with each of them until it was zero,
    and it is zero while the worker waits. *)
Definition after_turns (n d : Z) (k : nat) (s : SyncThread) : Prop :=
  n + Z.of_nat k * budget < i64_max ->
  th_cb s = cb /\ updater s <> Aborted /\ goodness (th_sync s) (n + Z.of_nat k * budget) /\
  exists d', distance T ch (th_sync s) d' /\ 0 <= d' /\ d' <= Z.max 0 (d - Z.of_nat k) /\
    (updater s = Waiting -> (0 < k)%nat -> d' = 0).

Lemma budget_pos : 0 < budget.
Proof. unfold step_budget, max_blocks. lia. Qed.

Lemma after_turns_turn n d k s : 0 < n -> after_turns n d k s ->
  after_turns n d (k + 1) (turn s).
Proof.
  intros Hn Hs Hmax. pose proof budget_pos. rewrite Nat2Z.inj_add in *.
  destruct Hs as (Hc & Hw & Hg & d' & Hd & H0 & Hle & _); [lia|].
  destruct (loop_turn_done (th_sync s) (n + Z.of_nat k * budget) d')
    as (more & y' & Hrun & Hg' & d2 & Hd2 & ? & Hm); [done|done|nia|lia|].
  unfold turn. rewrite Hc, Hrun. cbn. split_and!; [done|by destruct more| |].
  { eapply good_mono; [exact Hg'|lia]. }
  exists d2. destruct more; split_and!; try done; lia.
Qed.

Lemma after_turns_step n d k s e s' : 0 < n -> after_turns n d k s -> calm e = true ->
  step e s = Some s' -> after_turns n d (k + if is_turn e then 1 else 0) s'.
Proof.
  intros Hn Hs He E. unfold step in E.
  destruct (is_turn e) eqn:Ht.
  { destruct e; try done. destruct (updater s); try done. destruct (shouldStop s); [done|].
    injection E as <-. by apply after_turns_turn. }
  rewrite Nat.add_0_r. intros Hmax. destruct (Hs Hmax) as (Hc & Hw & Hg & d' & Hd & H0 & Hle & Hz).
  enough (th_sync s' = th_sync s /\ th_cb s' = th_cb s /\ updater s' <> Aborted /\
          updater s' <> Waiting \/ s' = s) as [(-> & -> & Hw' & Hww)| ->].
  - split_and!; [done..|]. by exists d'.
  - split_and!; [done..|]. by exists d'.
  - unfold mutex_free, notify_all, destroy in E.
    destruct e; try done; destruct (updater s) eqn:Ew; try done;
      repeat (case_match; try done); cbn in *; simplify_eq; cbn; auto; left; rewrite ?Ew; done.
Qed.

(** C7.  The thread syncs, whatever the order of its turns, the notifications, timeouts and
    a request to stop: no event aborts the process; when it waits after a turn, or after as
    many turns as the distance, the tip of the chainstate is that of the base
    chain and the database is sane. *)
Theorem thread_syncs (s : SyncThread) (n d : Z) (tr : list event) (s' : SyncThread)
    (Hs : running s) (Hc : th_cb s = cb) (Hg : goodness (th_sync s) n)
    (Hd : distance T ch (th_sync s) d) (Hpos : 0 <= d) (Hn : 0 < n)
    (Htr : forallb calm tr = true) (Hrun : run_events tr s = Some s')
    (Hmax : n + Z.of_nat (count is_turn tr) * budget < i64_max) :
  updater s' <> Aborted /\
  (d <= Z.of_nat (count is_turn tr) \/ (updater s' = Waiting /\ (0 < count is_turn tr)%nat) ->
   synced T ch (th_sync s') /\ SanityCheck (sy_chain (th_sync s')) = (Ok tt, sy_chain (th_sync s'))).
Proof.
  assert (H0 : after_turns n d 0 s).
  { intros _. rewrite Z.mul_0_l, Z.add_0_r. split_and!; [done|by destruct Hs as [_ [->|[->| ->]]]|done|].
    exists d. split_and!; [done|done|lia|lia]. }
  pose proof (run_events_inv step (after_turns n d) calm is_turn
    (fun k x e x' H He E => after_turns_step n d k x e x' Hn H He E) tr 0 s s' H0 Htr Hrun) as H.
  destruct (H Hmax) as (_ & Hw & Hg' & d' & Hd' & ? & Hle & Hz). split; [done|].
  intros Hdone. assert (d' = 0) as ->.
  { destruct Hdone as [?|[??]]; [cbn in *; lia|by apply Hz]. }
  split; [by eapply distance_zero|]. apply SanityCheck_Inv. by eapply g_Inv.
Qed.
End Still.

(** C8.  No notification is lost: when the running worker is told about a new tip of the
    base chain, it does not wait before it has made another step, which
    begins after the notification; until then that step is always possible,
    whatever the others do. *)
Theorem tip_not_lost (s s1 : SyncThread) (tr : list event) (s' : SyncThread)
    (Hs : running s) (Htip : step EvNewBaseChainTip s = Some s1)
    (Htr : forallb in_operation tr = true) (Hrun : run_events tr s1 = Some s')
    (Hno : count is_turn tr = 0%nat) :
  updater s' <> Waiting /\
  exists next, (next = [EvTurn] \/ next = [EvLock; EvTurn]) /\ is_Some (run_events next s').
Proof.
  assert (Ha : alert s1).
  { destruct Hs as [Hs Hw]. unfold step, mutex_free, notify_all in Htip.
    destruct Hw as [Hw|[Hw|Hw]]; rewrite Hw in Htip; simplify_eq; split; cbn; auto. }
  apply (alert_run tr) in Hrun as Hs'; [|done..].
  split; [by destruct Hs' as [_ [->| ->]]|by apply alert_goes_on].
Qed.

(** C11.  The destructor stops the thread: once it has asked, no other step begins and the
    thread makes at most two moves, to the loop condition and out of the loop; and at any
    moment those that are left are possible, so that the [join] ends. *)
Theorem thread_stops (s s1 : SyncThread) (tr : list event) (s' : SyncThread)
    (Hs : running s) (Hj : joining s = false) (Hstop : step EvDestroy s = Some s1)
    (Htr : forallb not_start tr = true) (Hrun : run_events tr s1 = Some s') :
  count is_turn tr = 0%nat /\ (count by_worker tr <= 2)%nat /\
  exists next s2, (length next <= 3)%nat /\ run_events next s' = Some s2 /\ updater s2 = NoThread.
Proof.
  assert (H0 : stopping 0 s1).
  { destruct Hs as [_ Hw]. unfold step, mutex_free, destroy, notify_all in Hstop.
    destruct Hw as [Hw|[Hw|Hw]]; rewrite ?Hw, ?Hj in Hstop; cbn in Hstop; rewrite ?Hw in Hstop;
      simplify_eq; (split; [done|]); left; cbn; auto. }
  pose proof (run_events_inv step stopping not_start by_worker
    (fun n x e x' H He E => proj2 (stopping_step n x e x' H He E)) tr 0 s1 s' H0 Htr Hrun) as H.
  split_and!; [|destruct H as [_ H]; cbn in H; lia|by eapply stopping_ends].
  refine (proj1 (run_events_inv step (fun k x => k = 0%nat /\ exists n, stopping n x) not_start is_turn
    _ tr 0%nat s1 s' _ Htr Hrun)); [|split; [done|by exists 0%nat]].
  intros k x e x' [-> [n Hx]] He E. destruct (stopping_step n x e x' Hx He E) as [-> ?].
  split; [done|by eexists].
Qed.
End Thread.
#[global] Arguments SyncThread {_} _ _.

(** ** Examples

    The state of SyncProps.v, in which the worker has to go back before it can
    follow the new chain. *)
Module ThreadSample.
Import Model BitsProto Fixed SyncSample.

Definition thread : SyncThread (BlockCacheChain Chain InMemoryBlockStorage) (list SyncProps.event) := {|
  th_sync := start_state; th_cb := Some record_event; shouldStop := false;
  updater := Locking; joining := false
|}.

(** Three turns with a notification and a request to stop in between. *)
Definition interleaving : list (@event _ (BlockCacheChain Chain InMemoryBlockStorage) (list SyncProps.event)) :=
  [EvNewBaseChainTip; EvLock; EvTurn; EvLock; EvTurn; EvNewBaseChainTip; EvLock; EvTurn;
   EvLock; EvTurn].

Lemma interleaving_runs : (fun s => (updater s, numBlocks (th_sync s))) <$>
  run_events (step 3 4) interleaving thread = Some (Waiting, 1).
Proof. vm_compute. reflexivity. Qed.

Lemma thread_running : running thread.
Proof. split; [done|by left]. Qed.

Lemma thread_syncs_witness : exists s', run_events (step 3 4) interleaving thread = Some s' /\
  updater s' = Waiting /\ synced 5 (fx_at chain) (th_sync s').
Proof.
  pose proof interleaving_runs as Hw.
  destruct (run_events (step 3 4) interleaving thread) as [s'|] eqn:E; [|discriminate Hw].
  injection Hw as Hw _. exists s'. split; [reflexivity|]. split; [exact Hw|].
  refine (proj1 (proj2 (thread_syncs 3 4 (Some record_event)
    (still_ok (eq chain) (fx_at chain)) 5 (fx_at chain) sample_cached_Serves chain_good
    _ _ (Forall event_ok) (record_event_ok _ _) thread 9 10 interleaving s'
    thread_running eq_refl start_good start_distance _ _ eq_refl E eq_refl) (or_intror (conj Hw _)))).
  - clear. lia.
  - clear. lia.
  - clear. lia.
  - clear. lia.
  - clear. apply Nat.ltb_lt. reflexivity.
Defined.

(** A notification while the worker waits. *)
Definition waiting : SyncThread (BlockCacheChain Chain InMemoryBlockStorage) (list SyncProps.event) :=
  set_updater Waiting thread.

Lemma waiting_running : running waiting.
Proof. split; [done|by right; right]. Qed.

Lemma tip_not_lost_witness : updater (set_updater AtTop waiting) <> Waiting /\
  exists next, (next = [EvTurn] \/ next = [EvLock; EvTurn]) /\
    is_Some (run_events (step 3 4) next (set_updater AtTop waiting)).
Proof.
  exact (tip_not_lost 3 4 waiting thread [EvNewBaseChainTip; EvLock] (set_updater AtTop waiting)
    waiting_running eq_refl eq_refl eq_refl eq_refl).
Defined.

Lemma thread_stops_witness :
  exists s1 s', step 3 4 EvDestroy waiting = Some s1 /\
    run_events (step 3 4) [EvNewBaseChainTip; EvLock; EvExit] s1 = Some s' /\
    exists next s2, (length next <= 3)%nat /\ run_events (step 3 4) next s' = Some s2 /\
      updater s2 = NoThread.
Proof.
  eexists _, _. split; [reflexivity|]. split; [reflexivity|].
  exact (proj2 (proj2 (thread_stops 3 4 waiting _ [EvNewBaseChainTip; EvLock; EvExit] _
    waiting_running eq_refl eq_refl eq_refl eq_refl))).
Defined.
End ThreadSample.
