(* ===== verification/TestChain.v ===== *)
(** * The base chain of the unit tests (src/testutils.hpp, src/testutils.cpp)

    [TestBaseChain] is a base chain in memory, which the tests of the program use as
    connector.  It keeps the tree of blocks in a [Chainstate] and the blocks with all
    their data in a map.  The theorems discharge the contracts of a connector for it. *)

From stdpp Require Import pretty.
From S2P Require Import Prelude Json BlockData Chainstate ChainTree ChainQueries ChainstateProofs BaseChain SyncProofs ChainstateProps SyncProps.

Section TestChain.
Context {J : JsonCpp} {C : BlockCodec}.

Record TestBaseChain := {
  chain : Chainstate;
  blocks : gmap string BlockData;
  hashCounter : Z;
  mempool : list string;
  chainString : string;
  version : Z;
  shouldThrow : bool;
  getBlockRangeCalls : Z
}.

Definition new_chain : TestBaseChain := {|
  chain := SetupSchema; blocks := ∅; hashCounter := 0; mempool := []; chainString := "test";
  version := 0; shouldThrow := false; getBlockRangeCalls := 0
|}.

Definition set_chain (c : Chainstate) (t : TestBaseChain) : TestBaseChain :=
  {| chain := c; blocks := blocks t; hashCounter := hashCounter t; mempool := mempool t;
     chainString := chainString t; version := version t; shouldThrow := shouldThrow t;
     getBlockRangeCalls := getBlockRangeCalls t |}.

Definition set_blocks (b : gmap string BlockData) (t : TestBaseChain) : TestBaseChain :=
  {| chain := chain t; blocks := b; hashCounter := hashCounter t; mempool := mempool t;
     chainString := chainString t; version := version t; shouldThrow := shouldThrow t;
     getBlockRangeCalls := getBlockRangeCalls t |}.

Definition set_hashCounter (n : Z) (t : TestBaseChain) : TestBaseChain :=
  {| chain := chain t; blocks := blocks t; hashCounter := n; mempool := mempool t;
     chainString := chainString t; version := version t; shouldThrow := shouldThrow t;
     getBlockRangeCalls := getBlockRangeCalls t |}.

Definition set_mempool (l : list string) (t : TestBaseChain) : TestBaseChain :=
  {| chain := chain t; blocks := blocks t; hashCounter := hashCounter t; mempool := l;
     chainString := chainString t; version := version t; shouldThrow := shouldThrow t;
     getBlockRangeCalls := getBlockRangeCalls t |}.

Definition set_calls (n : Z) (t : TestBaseChain) : TestBaseChain :=
  {| chain := chain t; blocks := blocks t; hashCounter := hashCounter t; mempool := mempool t;
     chainString := chainString t; version := version t; shouldThrow := shouldThrow t;
     getBlockRangeCalls := n |}.

Definition SetChain (str : string) : M TestBaseChain unit := modify (fun t =>
  {| chain := chain t; blocks := blocks t; hashCounter := hashCounter t; mempool := mempool t;
     chainString := str; version := version t; shouldThrow := shouldThrow t;
     getBlockRangeCalls := getBlockRangeCalls t |}).

Definition SetVersion (v : Z) : M TestBaseChain unit := modify (fun t =>
  {| chain := chain t; blocks := blocks t; hashCounter := hashCounter t; mempool := mempool t;
     chainString := chainString t; version := v; shouldThrow := shouldThrow t;
     getBlockRangeCalls := getBlockRangeCalls t |}).

Definition SetShouldThrow (v : bool) : M TestBaseChain unit := modify (fun t =>
  {| chain := chain t; blocks := blocks t; hashCounter := hashCounter t; mempool := mempool t;
     chainString := chainString t; version := version t; shouldThrow := v;
     getBlockRangeCalls := getBlockRangeCalls t |}).

Definition on_chain {A} (m : M Chainstate A) : M TestBaseChain A := zoom chain set_chain m.

(** The counter is an [unsigned]. *)
Definition NewBlockHash : M TestBaseChain string :=
  modify (fun t => set_hashCounter (u32 (hashCounter t + 1)) t);;
  n <- gets hashCounter;;
  ret ("block " ++ pretty n)%string.

Definition MaybeThrow : M TestBaseChain unit :=
  t <- get;;
  if shouldThrow t then throw (StdException "simulated base-chain error") else ret tt.

(** [std::map::at]. *)
Definition block_at (hash : string) : M TestBaseChain BlockData :=
  t <- get;;
  match blocks t !! hash with Some b => ret b | None => throw (StdException "map::at") end.

(** A block is made with default values otherwise. *)
Definition make_block (hash parent : string) (height : Z) : BlockData := {|
  blk_hash := hash; blk_parent := parent; blk_height := height; blk_rngseed := "";
  blk_metadata := nullValue; blk_moves := []
|}.

Definition NewGenesis (h : Z) : M TestBaseChain BlockData :=
  hash <- NewBlockHash;;
  ret (make_block hash "pregenesis" h).

Definition NewBlock (parent : string) : M TestBaseChain BlockData :=
  hash <- NewBlockHash;;
  p <- block_at parent;;
  ret (make_block hash parent (u64 (blk_height p + 1))).

(** The height of the tip is converted to [uint64_t] before its check. *)
Definition NewBlockOnTip : M TestBaseChain BlockData :=
  tipHeight <- on_chain GetTipHeight;;
  check (0 <=? u64 tipHeight);;
  o <- on_chain (GetHashForHeight (u64 tipHeight));;
  match o with None => fatal | Some parent => NewBlock parent end.

Definition SetGenesis (blk : BlockData) : M TestBaseChain BlockData :=
  modify (fun t => set_blocks (<[blk_hash blk := blk]> (blocks t)) t);;
  on_chain (ImportTip blk);;
  ret blk.

Definition SetTip (blk : BlockData) : M TestBaseChain BlockData :=
  modify (fun t => set_blocks (<[blk_hash blk := blk]> (blocks t)) t);;
  o <- on_chain (Chainstate.SetTip blk);;
  match o with None => fatal | Some _ => ret blk end.

(** [n] blocks, the first of which is on [parent] and the others on the tip. *)
Fixpoint attach_more (n : nat) : M TestBaseChain (list BlockData) :=
  match n with
  | O => ret []
  | S n' =>
      blk <- NewBlockOnTip;;
      SetTip blk;;
      more <- attach_more n';;
      ret (blk :: more)
  end.

Definition AttachBranch (parent : string) (n : nat) : M TestBaseChain (list BlockData) :=
  match n with
  | O => ret []
  | S n' =>
      blk <- NewBlock parent;;
      SetTip blk;;
      more <- attach_more n';;
      ret (blk :: more)
  end.

(** The transaction is in the mempool, and the callback is called; [X] is the state on
    which the callback acts besides. *)
Definition AddPending {X} (cb : option (Callbacks (TestBaseChain * X))) (moves : list MoveData)
  : M (TestBaseChain * X) unit :=
  match moves with
  | [] => fatal
  | mv :: _ =>
      modify (fun s => (set_mempool (mempool s.1 ++ [mv_txid mv]) s.1, s.2));;
      PendingMoves cb moves
  end.

(** The tip that the notifier thread reports when it has been woken up; the height is
    converted to [uint64_t]. *)
Definition current_tip : M TestBaseChain string :=
  newHeight <- on_chain GetTipHeight;;
  o <- on_chain (GetHashForHeight (u64 newHeight));;
  match o with None => fatal | Some newTip => ret newTip end.

(** ** The methods of the connector *)

Definition test_GetTipHeight : M TestBaseChain Z :=
  MaybeThrow;;
  height <- on_chain GetTipHeight;;
  check (0 <=? height);;
  ret (u64 height).

(** The loop over the heights from [h] on, [n] of them. *)
Fixpoint range_loop (n : nat) (h : Z) : M TestBaseChain (list BlockData) :=
  match n with
  | O => ret []
  | S n' =>
      o <- on_chain (GetHashForHeight h);;
      match o with
      | None => ret []
      | Some hash =>
          b <- block_at hash;;
          res <- range_loop n' (u64 (h + 1));;
          ret (b :: res)
      end
  end.

Definition test_GetBlockRange (start count : Z) : M TestBaseChain (list BlockData) :=
  MaybeThrow;;
  modify (fun t => set_calls (u32 (getBlockRangeCalls t + 1)) t);;
  range_loop (Z.to_nat (u64 (start + count) - start)) start.

Definition test_GetMainchainHeight (hash : string) : M TestBaseChain Z :=
  MaybeThrow;;
  o <- on_chain (GetHeightForHash hash);;
  match o with
  | None => ret (-1)
  | Some height =>
      m <- on_chain (GetHashForHeight height);;
      match m with
      | None => ret (-1)
      | Some mainchainHash =>
          if bool_decide (mainchainHash = hash) then ret (i64 height) else ret (-1)
      end
  end.

(** [Start] starts the notifier thread: see Notifier.v. *)
#[export] Instance TestBaseChain_BaseChain : BaseChain TestBaseChain := {|
  bc_Start := ret tt;
  bc_EnablePending := ret true;
  bc_GetTipHeight := test_GetTipHeight;
  bc_GetBlockRange := test_GetBlockRange;
  bc_GetMainchainHeight := test_GetMainchainHeight;
  bc_GetMempool := MaybeThrow;; gets mempool;
  bc_VerifyMessage _ _ := fatal;
  bc_GetChain := MaybeThrow;; gets chainString;
  bc_GetVersion := MaybeThrow;; gets version
|}.
End TestChain.

(** ** The tree of blocks *)

Section Tree.
Context {J : JsonCpp} {C : BlockCodec} {CL : BlockCodecLaws C} {U : Universe}.
Implicit Types (t : TestBaseChain) (m : gmap string row).

Notation rows t := (Chainstate.blocks (chain t)).

(** All blocks descend from the one genesis block [g]. *)
Definition rooted (g : string) m : Prop :=
  exists rg, m !! g = Some rg /\ row_branch rg = 0 /\
    forall h r, m !! h = Some r -> h = g \/ is_Some (m !! row_parent r).

Record good_tree (g : string) t (n : Z) : Prop := {
  gt_Inv : Inv (rows t);
  gt_below : branches_below (rows t) n;
  gt_root : rooted g (rows t);
  gt_blocks : forall h r, rows t !! h = Some r ->
    exists b, blocks t !! h = Some b /\ blk_hash b = h /\ genuine b /\ h <> EmptyString
}.

(** The block of the main chain at a height. *)
Definition test_at t (k : Z) : option BlockData :=
  match (GetHashForHeight k (chain t)).1 with
  | Ok (Some hash) => blocks t !! hash
  | _ => None
  end.

Lemma test_at_spec g t n k : good_tree g t n -> k <= i64_max ->
  (exists h r b, GetHashForHeight k (chain t) = (Ok (Some h), chain t) /\ test_at t k = Some b /\
     blocks t !! h = Some b /\ blk_hash b = h /\ genuine b /\ h <> EmptyString /\
     rows t !! h = Some r /\ row_branch r = 0 /\ row_height r = k) \/
  (GetHashForHeight k (chain t) = (Ok None, chain t) /\ test_at t k = None /\
   forall h r, rows t !! h = Some r -> row_branch r = 0 -> row_height r <> k).
Proof.
  intros Hg Hk. unfold test_at.
  destruct (GetHashForHeight_ok (chain t) k (gt_Inv _ _ _ Hg) Hk) as (o & Hrun & Ho).
  rewrite Hrun. cbn [fst]. destruct o as [h|].
  - left. destruct (proj1 (Ho h) eq_refl) as (r & Hr & Hb & Hh).
    destruct (gt_blocks _ _ _ Hg h r Hr) as (b & Hbl & Hbh & Hbg & Hne).
    exists h, r, b. by split_and!.
  - right. split_and!; [done..|]. intros h r Hr Hb Hh.
    assert (None = Some h) by (apply Ho; by exists r). done.
Qed.

Lemma test_at_high t k : i64_max < k -> test_at t k = None.
Proof.
  intros Hk. unfold test_at, GetHashForHeight, bind_u64, bind, check.
  destruct (Z.leb_spec k i64_max); [lia|done].
Qed.

Lemma test_at_row g t n k b : good_tree g t n -> test_at t k = Some b ->
  genuine b /\ blk_hash b <> EmptyString /\ exists r, rows t !! blk_hash b = Some r /\
    row_branch r = 0 /\ row_height r = k /\ blk_height b = k /\ blk_parent b = row_parent r.
Proof.
  intros Hg Hb. destruct (decide (k <= i64_max)) as [Hk|Hk];
    [|rewrite test_at_high in Hb by lia; done].
  destruct (test_at_spec g t n k Hg Hk)
    as [(h & r & b' & _ & Hb' & _ & Hbh & Hbg & Hne & Hr & Hbr & Hh)|(_ & Hn & _)]; [|congruence].
  rewrite Hb in Hb'. injection Hb' as <-. subst h. split_and!; [done..|]. exists r.
  destruct (row_genuine _ _ _ (gt_Inv _ _ _ Hg) Hr) as (Hp & Hhg & _).
  destruct Hbg as (_ & Hbp & Hbhg & _). split_and!; [done..|congruence|congruence].
Qed.

(** The main chain has a block at every height between that of the genesis block
    and that of the tip. *)
Lemma main_heights m h r g rg (n : nat) : Inv m -> is_top m h r -> m !! g = Some rg ->
  row_branch rg = 0 -> row_height rg <= row_height r - Z.of_nat n ->
  exists hx rx, m !! hx = Some rx /\ row_branch rx = 0 /\ row_height rx = row_height r - Z.of_nat n.
Proof.
  intros HI (Hr & Hb & _) Hg Hbg. induction n as [|n IH]; intros Hle.
  - exists h, r. split_and!; [done..|lia].
  - destruct IH as (hx & rx & Hx & Hbx & Hhx); [lia|].
    destruct (inv_contiguous _ HI hx g rx rg) as (p & Hp & Hpb); [done|done|congruence|lia|].
    pose proof (parent_height _ _ _ _ HI Hx Hp). exists (row_parent rx), p.
    split_and!; [done|congruence|lia].
Qed.

Lemma test_good_chain g t n h r : good_tree g t n -> is_top (rows t) h r ->
  hgt g = 0 -> row_height r < i64_max -> good_chain (row_height r) (test_at t).
Proof.
  intros Hg Ht Hg0 Hmax. pose proof (gt_Inv _ _ _ Hg) as HI.
  destruct (gt_root _ _ _ Hg) as (rg & Hrg & Hbg & _).
  destruct (row_genuine _ _ _ HI Hrg) as (_ & Hhg & _ & ? & _).
  pose proof Ht as (Hr & Hb & Htop). destruct (row_genuine _ _ _ HI Hr) as (_ & _ & _ & ? & _).
  split.
  - lia.
  - intros k Hk. destruct (main_heights _ _ _ g rg (Z.to_nat (row_height r - k)) HI Ht)
      as (hx & rx & Hx & Hbx & Hhx); [done|done|lia|].
    destruct (test_at_spec g t n k Hg) as [(? & ? & b & _ & -> & _)|(_ & _ & Hno)];
      [lia|by eexists|]. destruct (Hno _ _ Hx Hbx). lia.
  - intros k Hk. destruct (test_at t k) as [b|] eqn:E; [|done].
    destruct (test_at_row g t n k b Hg E) as (_ & _ & rb & Hrb & Hbb & Hhb & _).
    specialize (Htop _ _ Hrb Hbb). lia.
  - intros k b Hk. by destruct (test_at_row g t n k b Hg Hk) as (? & _ & rb & _ & _ & _ & ? & _).
  - intros k b Hk. by destruct (test_at_row g t n k b Hg Hk) as (_ & ? & _).
  - intros k b b' Hk Hk'.
    destruct (test_at_row g t n k b Hg Hk) as (_ & _ & rb & Hrb & Hbb & Hhb & _).
    destruct (test_at_row g t n _ b' Hg Hk') as (_ & _ & rb' & Hrb' & Hbb' & Hhb' & _ & ->).
    eapply parent_is_below; [exact HI|exact Hrb'|exact Hrb|congruence|lia].
Qed.
(** ** The connector serves its main chain *)

(** The methods of the connector leave the chain as it is. *)
Definition same_chain t t' : Prop :=
  chain t' = chain t /\ blocks t' = blocks t /\ shouldThrow t' = false.

Lemma on_chain_Ok {A} (m : M Chainstate A) t a :
  m (chain t) = (Ok a, chain t) -> on_chain m t = (Ok a, t).
Proof. intros H. unfold on_chain, zoom. rewrite H. by destruct t. Qed.

Lemma test_at_same t t' k : same_chain t t' -> test_at t' k = test_at t k.
Proof. intros (E & E' & _). unfold test_at. by rewrite E, E'. Qed.

Lemma good_tree_same g t t' n : same_chain t t' -> good_tree g t n -> good_tree g t' n.
Proof. intros (E & E' & _) []. split; by rewrite ?E, ?E'. Qed.

Lemma range_loop_ok g t n (l : nat) k : good_tree g t n ->
  (forall h r, rows t !! h = Some r -> row_branch r = 0 -> row_height r < i64_max) ->
  0 <= k <= i64_max -> range_loop l k t = (Ok (slice (test_at t) k l), t).
Proof.
  intros Hg Hmax. revert k. induction l as [|l IH]; intros k Hk; [done|]. cbn [range_loop slice].
  destruct (test_at_spec g t n k Hg) as [(h & r & b & Hrun & -> & Hb & _ & _ & _ & Hr & Hbr & <-)|
    (Hrun & -> & _)]; [lia| |]; rewrite (bind_Ok _ _ _ _ _ (on_chain_Ok _ _ _ Hrun)); [|done].
  specialize (Hmax _ _ Hr Hbr).
  assert (Hat : block_at h t = (Ok b, t)) by (unfold block_at; by rewrite get_bind, Hb).
  rewrite (bind_Ok _ _ _ _ _ Hat). unfold i64_max in *.
  rewrite u64_small by (unfold u64_modulus; lia).
  by rewrite (bind_Ok _ _ _ _ _ (IH (row_height r + 1) ltac:(lia))).
Qed.

Lemma MaybeThrow_ok t : shouldThrow t = false -> MaybeThrow t = (Ok tt, t).
Proof. intros E. unfold MaybeThrow. by rewrite get_bind, E. Qed.

Lemma test_Serves g t n h r : good_tree g t n -> is_top (rows t) h r ->
  row_height r < i64_max ->
  Serves TestBaseChain_BaseChain (same_chain t) (row_height r) (test_at t).
Proof.
  intros Hg Ht Hmax. destruct (row_genuine _ _ _ (gt_Inv _ _ _ Hg) (proj1 Ht)) as (_ & _ & _ & ? & _).
  split.
  - intros t' Hs. pose proof Hs as (E & _ & Hf). exists t'. split; [|done].
    cbn. unfold test_GetTipHeight. rewrite (bind_Ok _ _ _ _ _ (MaybeThrow_ok _ Hf)).
    rewrite (bind_Ok _ _ _ (row_height r) t');
      [|apply on_chain_Ok; rewrite E; by eapply GetTipHeight_ok; [apply Hg|]].
    rewrite check_true by (apply Z.leb_le; lia).
    by rewrite u64_small by (unfold i64_max, u64_modulus in *; lia).
  - intros t' start count Hs Hst Hc. pose proof Hs as (E & E' & Hf).
    exists (set_calls (u32 (getBlockRangeCalls t' + 1)) t'). split; [|done].
    cbn. unfold test_GetBlockRange. rewrite (bind_Ok _ _ _ _ _ (MaybeThrow_ok _ Hf)), modify_bind.
    rewrite u64_small by (unfold i64_max, u64_modulus in *; lia).
    replace (start + count - start) with count by lia.
    erewrite range_loop_ok; [|by eapply (good_tree_same g t)| |done].
    + do 2 f_equal. apply slice_ext. intros k _. by apply test_at_same.
    + cbn. intros x rx Hx Hb. rewrite E in Hx. pose proof (proj2 (proj2 Ht) _ _ Hx Hb). lia.
Qed.
(** ** New blocks *)

(** All blocks are above the genesis block. *)
Lemma rooted_above g m h r : Inv m -> rooted g m -> m !! h = Some r ->
  h = g \/ hgt g < row_height r.
Proof.
  intros HI (rg & Hrg & _ & Hup). assert (Hhg := row_genuine _ _ _ HI Hrg).
  assert (forall (k : nat) h r, m !! h = Some r -> (Z.to_nat (row_height r) < k)%nat ->
            h = g \/ hgt g < row_height r) as Hall; [|intros Hr; apply (Hall (S (Z.to_nat (row_height r))) _ _ Hr); lia].
  induction k as [|k IH]; intros x rx Hx Hk; [lia|].
  destruct (Hup x rx Hx) as [?|[p Hp]]; [by left|right].
  pose proof (parent_height _ _ _ _ HI Hx Hp) as Eh.
  destruct (row_genuine _ _ _ HI Hp) as (_ & _ & _ & ? & _).
  destruct (IH _ _ Hp) as [E|?]; [lia| |lia].
  rewrite E in Hp. rewrite Hrg in Hp. simplify_eq. lia.
Qed.

Lemma rooted_path g m h bs d : Inv m -> rooted g m -> fork_path m h bs -> last bs = Some d ->
  is_Some (m !! blk_parent d) /\ hgt g < blk_height d.
Proof.
  intros HI Hroot Hp Hl.
  destruct (fork_path_elem _ _ _ d (inv_rows _ HI) Hp (last_Some_elem_of _ _ Hl))
    as (rd & Hrd & Hb & Hdp & Hdh & _).
  assert (blk_hash d <> g).
  { destruct Hroot as (rg & Hrg & Hbg & _). intros E. rewrite E in Hrd. congruence. }
  destruct (rooted_above _ _ _ _ HI Hroot Hrd) as [?|?]; [done|].
  destruct Hroot as (_ & _ & _ & Hup). destruct (Hup _ _ Hrd) as [?|?]; [done|].
  split; [congruence|lia].
Qed.

Lemma rooted_retained g m h : Inv m -> rooted g m -> path_retained m h.
Proof. intros HI Hr bs d Hp Hl. left. by apply (rooted_path g m h bs d). Qed.

(** The branch of a new tip starts above the genesis block. *)
Lemma rooted_fork g m blk ra bs : Inv m -> rooted g m -> genuine blk ->
  m !! attach_point m blk = Some ra -> fork_path m (attach_point m blk) bs ->
  hgt g < blk_height blk + 1 - Z.of_nat (length (attached_path m blk bs)).
Proof.
  intros HI Hroot (_ & _ & Hh & Hph & _) Ha Hp.
  pose proof (rooted_above g m _ _ HI Hroot Ha) as Hab.
  destruct (row_genuine _ _ _ HI Ha) as (_ & Hrah & _).
  assert (Hlen : hgt g + Z.of_nat (length bs) <= row_height ra).
  { destruct (last bs) as [d|] eqn:Hl.
    - pose proof (fork_path_length _ _ _ _ HI Hp Hl _ Ha).
      destruct (rooted_path _ _ _ _ _ HI Hroot Hp Hl). lia.
    - apply last_None in Hl as ->. cbn. destruct Hab as [E|?]; [rewrite E in *|]; lia. }
  unfold attach_point, attached_path in *.
  destruct (m !! blk_hash blk); cbn [length]; rewrite length_map; lia.
Qed.

(** A new tip leaves the genesis block on the main chain. *)
Lemma rooted_tip_set g m blk n m' : Inv m -> rooted g m -> genuine blk ->
  is_Some (m !! attach_point m blk) -> tip_set m blk n m' -> rooted g m'.
Proof.
  intros HI Hroot Hg [ra Ha] [HI' (rt & Ht & Hth & Htp) Hsame (bs & Hp & Hmain) _].
  pose proof Hroot as (rg & Hrg & Hbg & Hup). pose proof Hg as (_ & _ & _ & Hph & _).
  assert (Hstored : forall h, is_Some (m !! h) -> is_Some (m' !! h)).
  { intros h Hh. destruct (decide (h = blk_hash blk)) as [->|Hne].
    - exists rt. apply Ht.
    - by apply (same_row_is_Some m m' h (Hsame _ Hne)). }
  destruct (Hstored g) as [rg' Hrg']; [by eexists|]. exists rg'. split_and!; [done| |].
  - apply (Hmain _ _ Hrg'). right. exists rg. split_and!; [done|done|].
    destruct (row_genuine _ _ _ HI Hrg) as (_ & -> & _).
    by apply (rooted_fork g m blk ra).
  - intros h r Hr. destruct (decide (h = blk_hash blk)) as [->|Hne].
    + rewrite (proj1 Ht) in Hr. injection Hr as <-. rewrite Htp. unfold attach_point in Ha.
      destruct (m !! blk_hash blk) as [r0|] eqn:Er; [|right; apply Hstored; by eexists].
      destruct Hg as (_ & -> & _). destruct (row_genuine _ _ _ HI Er) as (<- & _).
      destruct (Hup _ _ Er); [by left|right; by apply Hstored].
    + destruct (proj1 (same_row_is_Some m m' h (Hsame _ Hne))) as [r0 Hr0]; [by eexists|].
      destruct (same_row_parent _ _ _ _ _ (Hsame _ Hne) Hr0 Hr) as [-> _].
      destruct (Hup _ _ Hr0); [by left|right; by apply Hstored].
Qed.
(** What an update of the tip leaves behind. *)
Record tip_is (g : string) t blk t' (n : Z) : Prop := {
  ti_tree : good_tree g t' n;
  ti_top : exists r, is_top (rows t') (blk_hash blk) r /\ row_height r = blk_height blk;
  ti_block : blocks t' !! blk_hash blk = Some blk;
  ti_stored : forall h, h = blk_hash blk \/ is_Some (rows t !! h) -> is_Some (rows t' !! h);
  ti_throw : shouldThrow t' = shouldThrow t
}.

Lemma test_SetTip g t n blk : good_tree g t n -> genuine blk -> blk_hash blk <> EmptyString ->
  is_Some (rows t !! attach_point (rows t) blk) -> 0 < n < i64_max ->
  exists t', SetTip blk t = (Ok blk, t') /\ tip_is g t blk t' (n + 2).
Proof.
  intros Hg Hgen Hne Ha Hn. pose proof (gt_Inv _ _ _ Hg) as HI.
  destruct (SetTip_run (chain t) blk n) as (old & ro & m' & Ht & Hrun & Hset);
    [done|done|by apply (gt_below g)|done|eapply rooted_retained; [done|by eapply gt_root]|done|].
  exists (set_chain (Chainstate.set_blocks m' (chain t)) (set_blocks (<[blk_hash blk := blk]> (blocks t)) t)).
  split.
  { unfold SetTip. rewrite modify_bind. unfold on_chain, zoom, bind. cbn. by rewrite Hrun. }
  pose proof Hset as [HI' (r & Htop & Hh & _) Hsame _ Hb'].
  split; [split|by exists r| | |done]; cbn.
  - done.
  - done.
  - by eapply rooted_tip_set; [|apply (gt_root _ _ _ Hg)|..].
  - intros h rh Hr. destruct (decide (h = blk_hash blk)) as [->|Hneq].
    + exists blk. by rewrite lookup_insert_eq.
    + rewrite lookup_insert_ne by done.
      destruct (proj1 (same_row_is_Some _ _ _ (Hsame _ Hneq))) as [r0 Hr0]; [by eexists|].
      by apply (gt_blocks _ _ _ Hg _ _ Hr0).
  - apply lookup_insert_eq.
  - intros h Hs. destruct (decide (h = blk_hash blk)) as [->|Hneq]; [exists r; apply Htop|].
    destruct Hs as [?|Hs]; [done|]. by apply (same_row_is_Some _ _ _ (Hsame _ Hneq)).
Qed.

Lemma test_SetGenesis blk : genuine blk -> blk_hash blk <> EmptyString ->
  exists t', SetGenesis blk new_chain = (Ok blk, t') /\ tip_is (blk_hash blk) new_chain blk t' 2.
Proof.
  intros Hgen Hne.
  destruct (ImportTip_run SetupSchema blk 1) as (m' & Hrun & [HI' Hsole Hb' _ Honly]);
    [apply Inv_empty|done|by intros h r Hr|apply map_Forall_empty|done|].
  exists (set_chain (Chainstate.set_blocks m' SetupSchema) (set_blocks (<[blk_hash blk := blk]> ∅) new_chain)).
  split.
  { unfold SetGenesis. rewrite modify_bind. unfold on_chain, zoom, bind. cbn. by rewrite Hrun. }
  assert (Hone : forall h r, m' !! h = Some r -> h = blk_hash blk).
  { intros h r Hr. destruct (Honly h) as [?|[? Hx]]; [by eexists|done|].
    cbn in Hx. by rewrite lookup_empty in Hx. }
  destruct (sole_main_ends _ _ _ Hsole) as (r & Htop & _ & Hh).
  split; [split|by exists r| | |done]; cbn.
  - done.
  - done.
  - exists r. split_and!; [apply Htop|apply Htop|]. intros h r' Hr'. left. by apply (Hone _ r').
  - intros h r' Hr'. rewrite (Hone _ _ Hr'). exists blk. by rewrite lookup_insert_eq.
  - apply lookup_insert_eq.
  - intros h [->|[? Hs]]; [exists r; apply Htop|by rewrite lookup_empty in Hs].
Qed.

Lemma tip_is_at g t blk t' n : genuine blk -> tip_is g t blk t' n -> test_at t' (blk_height blk) = Some blk.
Proof.
  intros (_ & _ & _ & _ & Hmax) [Hg (r & (Hr & Hb & _) & Hh) Hbl _ _].
  destruct (test_at_spec g t' n (blk_height blk) Hg) as
    [(h & rh & b & _ & -> & Hb' & _ & _ & _ & Hrh & Hbh & Hhh)|(_ & _ & Hno)]; [lia| |by destruct (Hno _ _ Hr Hb)].
  pose proof (inv_uniq _ (gt_Inv _ _ _ Hg) _ _ _ _ Hr Hrh ltac:(congruence) ltac:(congruence)) as <-.
  congruence.
Qed.

(** ** A run of a test *)

(** The blocks are attached one after the other, each to one that is there; a block that
    is there already may become the tip again. *)
Fixpoint grows (seen : list string) (l : list BlockData) : Prop :=
  match l with
  | [] => True
  | b :: l' => genuine b /\ blk_hash b <> EmptyString /\
      (blk_hash b ∈ seen \/ blk_parent b ∈ seen) /\ grows (blk_hash b :: seen) l'
  end.

Definition new_tips (l : list BlockData) : M TestBaseChain unit :=
  forM l (fun b => SetTip b;; ret tt).

Lemma new_tips_ok g l : forall seen t0 t n blk, genuine blk -> tip_is g t0 blk t n ->
  (forall h, h ∈ seen -> is_Some (rows t !! h)) -> grows seen l ->
  0 < n -> n + 2 * Z.of_nat (length l) < i64_max ->
  exists t1 t', new_tips l t = (Ok tt, t') /\ genuine (default blk (last l)) /\
    tip_is g t1 (default blk (last l)) t' (n + 2 * Z.of_nat (length l)) /\
    shouldThrow t' = shouldThrow t.
Proof.
  induction l as [|b l IH]; intros seen t0 t n blk Hb Hti Hseen Hl Hpos Hn; cbn [length] in *.
  - exists t0, t. split_and!; [done|done| |done]. by rewrite Z.add_0_r.
  - destruct Hl as (Hgen & Hne & Hat & Hl).
    destruct (test_SetTip g t n b) as (t1 & Hrun & Hti1);
      [by eapply ti_tree|done|done| |lia|].
    { unfold attach_point. destruct (rows t !! blk_hash b) eqn:E; [by rewrite E|].
      destruct Hat as [H|H]; apply Hseen in H; [|done]. rewrite E in H. by destruct H. }
    destruct (IH (blk_hash b :: seen) t t1 (n + 2) b) as (t2 & t' & Hrun' & Hgen' & Hti' & Ht');
      [done|done| |done|lia|lia|].
    { intros h [->|Hin]%elem_of_cons; apply (ti_stored _ _ _ _ _ Hti1); [by left|right; by apply Hseen]. }
    exists t2, t'. rewrite last_cons. replace (default blk _) with (default b (last l)) by by destruct (last l).
    split_and!; [|done| |].
    + unfold new_tips. cbn [forM]. rewrite bind_assoc, (bind_Ok _ _ _ _ _ Hrun), ret_bind. exact Hrun'.
    + by replace (n + 2 * Z.of_nat (S (length l))) with (n + 2 + 2 * Z.of_nat (length l)) by lia.
    + rewrite Ht'. apply Hti1.
Qed.

(** The base chain of the tests does what a connector promises: after a genesis block
    at height zero and any sequence of new tips, each attached to a block that is there or
    itself there already (so that reorganisations to any known branch are among them), all
    calls have succeeded, its methods serve a chain without gaps that leads from the genesis
    block to the last of the tips, with the data of all blocks as they were given, and
    they leave it unchanged. *)
Theorem test_chain_serves (g : BlockData) (l : list BlockData)
    (Hg : genuine g) (Hne : blk_hash g <> EmptyString) (H0 : blk_height g = 0)
    (Hl : grows [blk_hash g] l) (Hn : 2 + 2 * Z.of_nat (length l) < i64_max)
    (Htop : blk_height (default g (last l)) < i64_max) :
  exists t, (SetGenesis g;; new_tips l) new_chain = (Ok tt, t) /\
    let tip := default g (last l) in
    Serves TestBaseChain_BaseChain (same_chain t) (blk_height tip) (test_at t) /\
    good_chain (blk_height tip) (test_at t) /\ same_chain t t /\
    test_at t (blk_height tip) = Some tip.
Proof.
  destruct (test_SetGenesis g Hg Hne) as (t0 & Hrun0 & Hti0).
  destruct (new_tips_ok (blk_hash g) l [blk_hash g] new_chain t0 2 g)
    as (t1 & t & Hrun & Hgen & Hti & Hthrow); [done|done| |done|done|done|].
  { intros h ->%list_elem_of_singleton. apply (ti_stored _ _ _ _ _ Hti0). by left. }
  exists t. rewrite (bind_Ok _ _ _ _ _ Hrun0). split; [done|].
  destruct (ti_top _ _ _ _ _ Hti) as (r & Ht & Hh). pose proof (ti_tree _ _ _ _ _ Hti) as Htree.
  cbv zeta. rewrite <- Hh in *. split_and!.
  - by eapply test_Serves.
  - eapply test_good_chain; [done|done| |done]. by destruct Hg as (_ & _ & <- & _).
  - split_and!; [done|done|]. rewrite Hthrow. apply Hti0.
  - rewrite Hh. by eapply tip_is_at.
Qed.
End Tree.

(** The tests attach a branch, leave it for another one and come back to it. *)
Module TestSample.
Import Model BitsProto SyncSample.

Definition attached : list BlockData :=
  map blk ["m1"; "m2"; "s2"; "s3"; "m3"; "s3"].

Lemma test_chain_serves_witness : exists t,
  (SetGenesis (blk "m0");; new_tips attached) new_chain = (Ok tt, t) /\
  good_chain 3 (test_at t) /\ test_at t 3 = Some (blk "s3").
Proof.
  destruct (test_chain_serves (blk "m0") attached) as (t & Hrun & _ & Hgc & _ & Htop).
  - apply block_genuine. is_known.
  - done.
  - done.
  - cbn [attached map grows].
    split_and!; try (apply block_genuine; is_known); try done; by left + right; is_known.
  - done.
  - done.
  - exact (ex_intro _ t (conj Hrun (conj Hgc Htop))).
Defined.

(** The other methods, on the tree of that run. *)
Definition tree : TestBaseChain := ((SetGenesis (blk "m0");; new_tips attached) new_chain).2.

Example test_block_on_tip : (NewBlockOnTip tree).1 = Ok (make_block "block 1" "s3" 4).
Proof. vm_compute. reflexivity. Qed.

Example test_height_off_main :
  (test_GetMainchainHeight "m3" tree).1 = Ok (-1) /\ (test_GetMainchainHeight "s2" tree).1 = Ok 2.
Proof. vm_compute. split; reflexivity. Qed.

Example test_error : ((SetShouldThrow true;; test_GetTipHeight) tree).1
  = Throw (StdException "simulated base-chain error").
Proof. vm_compute. reflexivity. Qed.

Example test_branch : (AttachBranch "m1" 2 tree).1 =
  Ok [make_block "block 1" "m1" 2; make_block "block 2" "block 1" 3].
Proof. vm_compute. reflexivity. Qed.
End TestSample.
