(* ===== verification/Notifier.v ===== *)
(** * The notifier thread of the unit tests' base chain (src/testutils.cpp)

    [TestBaseChain::Start] starts a thread that waits on a condition variable for new tips and
    reports the current one to the callbacks, for which it releases the mutex.  The system
    is given by [step], as in SyncThread.v; a section under the mutex is one event. *)

From S2P Require Import Prelude Events Json BlockData Chainstate BaseChain TestChain.

(** Where the thread is: there is none; it is about to lock the mutex for the condition of the
    loop; it waits; it has been woken up; it is in the callback, without the mutex; it has
    left the loop; it is joined; or the process has been aborted. *)
Inductive notifier_at :=
  | NoThread
  | Locking
  | Waiting
  | Woken
  | Calling (tip : string)
  | Left
  | Joined
  | Aborted.

Section Notifier.
Context {J : JsonCpp} {C : BlockCodec} {X : Type}.

(** The callback acts on the chain and on the rest [X] of the program. *)
Record NotifierThread := {
  nt_chain : TestBaseChain;
  nt_rest : X;
  nt_cb : option (Callbacks (TestBaseChain * X));
  notifier : notifier_at;
  shouldStop : bool;
  joining : bool
}.

Definition set_notifier (w : notifier_at) (s : NotifierThread) : NotifierThread :=
  {| nt_chain := nt_chain s; nt_rest := nt_rest s; nt_cb := nt_cb s; notifier := w;
     shouldStop := shouldStop s; joining := joining s |}.

Definition set_state (t : TestBaseChain) (x : X) (s : NotifierThread) : NotifierThread :=
  {| nt_chain := t; nt_rest := x; nt_cb := nt_cb s; notifier := notifier s;
     shouldStop := shouldStop s; joining := joining s |}.

(** The thread is the only one that waits on [cvNewTip]. *)
Definition notify_all (s : NotifierThread) : NotifierThread :=
  match notifier s with Waiting => set_notifier Woken s | _ => s end.

(** [SetGenesis] and [SetTip] of the chain, and the notification after them. *)
Definition set_tip (m : M TestBaseChain BlockData) (s : NotifierThread) : NotifierThread :=
  match m (nt_chain s) with
  | (Ok _, t) => notify_all (set_state t (nt_rest s) s)
  | (Throw _, t) => set_state t (nt_rest s) s
  | (_, t) => set_notifier Aborted (set_state t (nt_rest s) s)
  end.

Definition start_thread (s : NotifierThread) : NotifierThread :=
  match notifier s with
  | NoThread => {| nt_chain := nt_chain s; nt_rest := nt_rest s; nt_cb := nt_cb s;
                   notifier := Locking; shouldStop := false; joining := joining s |}
  | _ => set_notifier Aborted s
  end.

(** The destructor, up to the [join]. *)
Definition destroy (s : NotifierThread) : NotifierThread :=
  match notifier s with
  | NoThread => s
  | _ => notify_all {| nt_chain := nt_chain s; nt_rest := nt_rest s; nt_cb := nt_cb s;
                       notifier := notifier s; shouldStop := true; joining := true |}
  end.

(** The condition of the loop, and then the wait. *)
Definition loop_check (s : NotifierThread) : NotifierThread :=
  set_notifier (if shouldStop s then Left else Waiting) s.

(** After the wait: the tip that is to be reported. *)
Definition wake_up (s : NotifierThread) : NotifierThread :=
  if shouldStop s then set_notifier Left s
  else match current_tip (nt_chain s) with
       | (Ok tip, t) => set_notifier (Calling tip) (set_state t (nt_rest s) s)
       | (_, t) => set_notifier Aborted (set_state t (nt_rest s) s)
       end.

Definition call_back (tip : string) (s : NotifierThread) : NotifierThread :=
  match TipChanged (nt_cb s) tip (nt_chain s, nt_rest s) with
  | (Ok _, (t, x)) => set_notifier Locking (set_state t x s)
  | (_, (t, x)) => set_notifier Aborted (set_state t x s)
  end.

Inductive event :=
  | EvStart
  | EvGenesis (blk : BlockData)
  | EvTip (blk : BlockData)
  | EvLock
  | EvSpurious
  | EvWoken
  | EvCall
  | EvDestroy
  | EvJoined.

Definition step (e : event) (s : NotifierThread) : option NotifierThread :=
  match e, notifier s with
  | _, Aborted => None
  | EvStart, _ => if joining s then None else Some (start_thread s)
  | EvGenesis blk, _ => if joining s then None else Some (set_tip (SetGenesis blk) s)
  | EvTip blk, _ => if joining s then None else Some (set_tip (SetTip blk) s)
  | EvLock, Locking => Some (loop_check s)
  | EvSpurious, Waiting => Some (set_notifier Woken s)
  | EvWoken, Woken => Some (wake_up s)
  | EvCall, Calling tip => Some (call_back tip s)
  | EvDestroy, NoThread => None
  | EvDestroy, _ => if joining s then None else Some (destroy s)
  | EvJoined, Left => if joining s then Some (set_notifier Joined s) else None
  | _, _ => None
  end.

Notation run_events := (Events.run_events step).

(** ** The end of the thread *)

Definition by_notifier (e : event) : bool :=
  match e with EvLock | EvSpurious | EvWoken | EvCall => true | _ => false end.

Definition moves_left (s : NotifierThread) : nat :=
  match notifier s with Calling _ => 2 | Locking | Woken => 1 | _ => 0 end.

(** It has been asked to stop, and does not wait. *)
Definition stopping (s : NotifierThread) : Prop :=
  shouldStop s = true /\ joining s = true /\
  match notifier s with NoThread | Waiting => False | _ => True end.

Lemma call_back_result tip s : exists t x w, call_back tip s = set_notifier w (set_state t x s) /\
  (w = Locking \/ w = Aborted).
Proof. unfold call_back. repeat case_match; eauto 10. Qed.

Lemma notifier_step s e s' : stopping s -> step e s = Some s' ->
  stopping s' /\ (moves_left s' + (if by_notifier e then 1 else 0) <= moves_left s)%nat.
Proof.
  intros (Hs & Hj & Hw) E. unfold stopping, moves_left, step in *.
  destruct e, (notifier s) eqn:En; try done; rewrite ?Hj in E; simplify_eq;
    unfold loop_check, wake_up; rewrite ?Hs; cbn; try (split; [done|lia]).
  destruct (call_back_result tip s) as (t & x & w & -> & [->| ->]); cbn; (split; [done|lia]).
Qed.

Lemma notifier_ends k : forall s, stopping s -> (moves_left s <= k)%nat ->
  exists next s', (length next <= k + 1)%nat /\ run_events next s = Some s' /\
    (notifier s' = Joined \/ notifier s' = Aborted).
Proof.
  induction k as [|k IH]; intros s Hs Hk; pose proof Hs as (Hst & Hj & Hw);
    unfold moves_left in Hk; destruct (notifier s) eqn:En; try done; try lia;
    try (exists [], s; split_and!; [cbn; lia|done|by auto]);
    try (exists [EvJoined], (set_notifier Joined s); split_and!; [cbn; lia| |by left];
         cbn; by rewrite En, Hj).
  all: [> assert (E : step EvLock s = Some (loop_check s)) by (cbn; by rewrite En)
        | assert (E : step EvWoken s = Some (wake_up s)) by (cbn; by rewrite En)
        | assert (E : step EvCall s = Some (call_back tip s)) by (cbn; by rewrite En) ];
    destruct (notifier_step s _ _ Hs E) as [Hs1 Hm];
    (destruct (IH _ Hs1) as (next & s' & Hlen & Hrun & Hend);
      [unfold moves_left in Hm at 2; rewrite En in Hm; cbn in Hm; lia|]);
    eexists (_ :: next), s'; (split_and!; [cbn; lia| |exact Hend]); cbn [Events.run_events];
    by rewrite E.
Qed.

(** The destructor ends: once it has asked the thread to stop, the thread makes at most two
    more moves, of which those that are left are always possible; then it is joined, unless
    the callback aborts the process. *)
Theorem notifier_stops (s s1 s2 : NotifierThread) (tr : list event)
    (Hnew : joining s = false) (Hat : notifier s <> Joined)
    (Hstop : step EvDestroy s = Some s1) (Hrun : run_events tr s1 = Some s2) :
  (count by_notifier tr <= 2)%nat /\
  exists next s3, (length next <= 3)%nat /\ run_events next s2 = Some s3 /\
    (notifier s3 = Joined \/ notifier s3 = Aborted).
Proof.
  assert (Hs1 : stopping s1 /\ (moves_left s1 <= 2)%nat).
  { unfold step, stopping, moves_left, destroy, notify_all in *.
    destruct (notifier s) eqn:En; try done; rewrite Hnew in Hstop; simplify_eq; cbn;
      rewrite ?En; cbn; (split; [by split_and!|lia]). }
  destruct Hs1 as [Hs1 Hm1].
  assert (Hall : forallb (fun _ => true) tr = true) by (clear; by induction tr).
  destruct (run_events_measure step stopping moves_left (fun _ => true) by_notifier
    (fun x e x' Hx _ E => notifier_step x e x' Hx E) tr s1 s2 Hs1 Hall Hrun) as [Hs2 Hm].
  split; [lia|]. apply (notifier_ends 2 s2 Hs2). unfold moves_left in *. destruct (notifier s2); lia.
Qed.

(** ** Notifications *)

(** A new tip while the thread waits is reported: the thread goes on to the callback with the
    tip that the chain has by then. *)
Theorem waiting_is_notified (s : NotifierThread) (blk : BlockData) (t : TestBaseChain) (tip : string)
    (Hw : notifier s = Waiting) (Hs : shouldStop s = false) (Hj : joining s = false)
    (Hset : SetTip blk (nt_chain s) = (Ok blk, t)) (Htip : current_tip t = (Ok tip, t)) :
  exists s2, run_events [EvTip blk; EvWoken] s = Some s2 /\ notifier s2 = Calling tip.
Proof.
  cbn. rewrite Hw, Hj. cbn. unfold set_tip. rewrite Hset. unfold notify_all. cbn. rewrite Hw. cbn.
  unfold wake_up. cbn. rewrite Hs, Htip. by eexists.
Qed.
End Notifier.
#[global] Arguments NotifierThread {_} X.
#[global] Arguments event {_}.

(** ** Examples *)
Module NotifierSample.
Import Model BitsProto TestSample.

(** The callbacks record the tips. *)
Definition record_tips : option (Callbacks (TestBaseChain * list string)) := Some {|
  cb_TipChanged tip := modify (fun s => (s.1, s.2 ++ [tip]));
  cb_PendingMoves _ := ret tt
|}.

Definition block (hash parent : string) (height : Z) : BlockData := make_block hash parent height.

Definition fresh : NotifierThread (list string) := {|
  nt_chain := new_chain; nt_rest := []; nt_cb := record_tips; notifier := NoThread;
  shouldStop := false; joining := false
|}.

(** Two tips while the thread is in the callback for the genesis block: both are the tip in
    turn, and none is reported, since the thread does not wait and the condition variable
    keeps no notification. *)
Definition missed : list event :=
  [EvStart; EvLock; EvGenesis (block "g" "" 0); EvWoken; EvTip (block "a" "g" 1);
   EvTip (block "b" "a" 2); EvCall; EvLock].

Example tips_missed :
  (fun s => (nt_rest s, notifier s, (current_tip (nt_chain s)).1)) <$>
    Events.run_events step missed fresh = Some (["g"], Waiting, Ok "b")%string.
Proof. vm_compute. reflexivity. Qed.

(** A spurious wake-up before there is a genesis block aborts the process. *)
Example spurious_wakeup_aborts :
  notifier <$> Events.run_events step [EvStart; EvLock; EvSpurious; EvWoken] fresh = Some Aborted.
Proof. vm_compute. reflexivity. Qed.

Definition waiting : NotifierThread (list string) := set_notifier Waiting fresh.

Lemma notifier_stops_witness : exists s1 s2, step EvDestroy waiting = Some s1 /\
  Events.run_events step [EvWoken] s1 = Some s2 /\
  exists next s3, (length next <= 3)%nat /\ Events.run_events step next s2 = Some s3 /\
    (notifier s3 = Joined \/ notifier s3 = Aborted).
Proof.
  exists (destroy waiting), (set_notifier Left (destroy waiting)).
  split; [reflexivity|]. split; [reflexivity|].
  exact (proj2 (notifier_stops waiting (destroy waiting) (set_notifier Left (destroy waiting))
    [EvWoken] eq_refl ltac:(discriminate) eq_refl eq_refl)).
Defined.

Lemma waiting_is_notified_witness : exists s t,
  SetGenesis (block "g" "" 0) (nt_chain waiting) = (Ok (block "g" "" 0), t) /\
  Events.run_events step [EvTip (block "a" "g" 1); EvWoken]
    (set_state t [] waiting) = Some s /\ notifier s = Calling "a".
Proof.
  destruct (SetGenesis (block "g" "" 0) (nt_chain waiting)) as [r t] eqn:E.
  assert (Hr : r = Ok (block "g" "" 0)).
  { transitivity (SetGenesis (block "g" "" 0) (nt_chain waiting)).1; [by rewrite E|].
    vm_compute. reflexivity. }
  destruct (waiting_is_notified (set_state t [] waiting) (block "a" "g" 1) (SetTip (block "a" "g" 1) t).2 "a")
    as (s & Hrun & Hn); try reflexivity.
  - assert (t = (SetGenesis (block "g" "" 0) (nt_chain waiting)).2) as -> by by rewrite E.
    clear. vm_compute. reflexivity.
  - assert (t = (SetGenesis (block "g" "" 0) (nt_chain waiting)).2) as -> by by rewrite E.
    clear. vm_compute. reflexivity.
  - exists s, t. rewrite Hr. split; [reflexivity|]. split; [exact Hrun|exact Hn].
Defined.
End NotifierSample.
