(* ===== verification/Locks.v ===== *)
(** * Threads and mutexes

    What the threads of the program do with its mutexes: a small language of
    statements that lock mutexes by scope, wait on condition variables, start other threads
    and join them, with the branches that depend on data left open; and the
    interleavings of threads.

    [check] decides that a program takes mutexes in the order of a ranking and
    keeps to the scopes.  Programs that pass it can only be blocked for good at a
    [join]. *)

From S2P Require Import Prelude.

Section Locks.
Context {mutex : Type} {mutex_dec : EqDecision mutex}.

(** [Guard] is a [lock_guard] or [unique_lock] with its scope; [Leave] and [Enter] are
    [unlock] and [lock] (and what remains of a scope that has been entered);
    [CondWait] waits on a condition variable with the lock on the mutex, and
    [Asleep] is a thread that does.  A thread is a number. *)
Inductive stmt :=
  | Skip
  | Seq (a b : stmt)
  | Guard (m : mutex) (a : stmt)
  | Leave (m : mutex)
  | Enter (m : mutex)
  | Either (a b : stmt)
  | Loop (a : stmt)
  | CondWait (m : mutex)
  | Asleep (m : mutex)
  | Spawn (t : nat) (a : stmt)
  | Join (ts : list nat).

Fixpoint seq (l : list stmt) : stmt :=
  match l with [] => Skip | [a] => a | a :: l' => Seq a (seq l') end.

(** What each thread still has to do, and who has which mutex. *)
Record config := {
  pool : gmap nat (list stmt);
  owner : mutex -> option nat
}.

Definition own (m : mutex) (o : option nat) (f : mutex -> option nat) : mutex -> option nat :=
  fun m' => if decide (m' = m) then o else f m'.

Definition put (i : nat) (code : list stmt) (c : config) : config :=
  {| pool := <[i := code]> (pool c); owner := owner c |}.

Definition put_own (i : nat) (code : list stmt) (m : mutex) (o : option nat) (c : config) : config :=
  {| pool := <[i := code]> (pool c); owner := own m o (owner c) |}.

Definition finished (c : config) (t : nat) : bool :=
  match pool c !! t with Some (_ :: _) => false | _ => true end.

(** One step of thread [i]; [choice] decides an open branch.  A condition variable can
    wake up at any time (by a notification, the timeout or spuriously). *)
Definition step_thread (i : nat) (choice : bool) (c : config) : option config :=
  code ← pool c !! i;
  match code with
  | [] => None
  | Skip :: k => Some (put i k c)
  | Seq a b :: k => Some (put i (a :: b :: k) c)
  | Guard m a :: k =>
      match owner c m with
      | None => Some (put_own i (a :: Leave m :: k) m (Some i) c)
      | Some _ => None
      end
  | Enter m :: k =>
      match owner c m with None => Some (put_own i k m (Some i) c) | Some _ => None end
  | Leave m :: k =>
      if decide (owner c m = Some i) then Some (put_own i k m None c) else None
  | Either a b :: k => Some (put i ((if choice then a else b) :: k) c)
  | Loop a :: k => Some (put i (if choice then a :: Loop a :: k else k) c)
  | CondWait m :: k =>
      if decide (owner c m = Some i) then Some (put_own i (Asleep m :: k) m None c) else None
  | Asleep m :: k => Some (put i (Enter m :: k) c)
  | Spawn t a :: k =>
      Some (put i k (if pool c !! t is Some _ then c else put t [a] c))
  | Join ts :: k => if forallb (finished c) ts then Some (put i k c) else None
  end.

Definition schedule := list (nat * bool).

Fixpoint run_threads (sch : schedule) (c : config) : option config :=
  match sch with
  | [] => Some c
  | (i, choice) :: sch' => c' ← step_thread i choice c; run_threads sch' c'
  end.

(** ** The discipline

    The mutexes have ranks.  A thread takes a mutex only when it [may_lock] it and all
    those that it has already are of lower rank.  Only the thread [main] joins others, with
    mutexes for which that is allowed by [join_ok]. *)

Context (rank : mutex -> nat) (main : nat).
Context (may_lock : nat -> mutex -> bool) (join_ok : list mutex -> list nat -> bool).

Definition above (h : list mutex) (m : mutex) : bool :=
  forallb (fun m' => (rank m' <? rank m)%nat) h.

(** [check i h s]: thread [i] with the mutexes [h] (the last one first) can execute
    [s], and the result is what it has then. *)
Fixpoint check (i : nat) (h : list mutex) (s : stmt) : option (list mutex) :=
  match s with
  | Skip => Some h
  | Seq a b => h' ← check i h a; check i h' b
  | Guard m a =>
      if above h m && may_lock i m then
        h' ← check i (m :: h) a; if decide (h' = m :: h) then Some h else None
      else None
  | Leave m =>
      match h with m' :: h' => if decide (m = m') then Some h' else None | [] => None end
  | Enter m | Asleep m => if above h m && may_lock i m then Some (m :: h) else None
  | Either a b =>
      h1 ← check i h a; h2 ← check i h b;
      if decide (h1 = h2) then Some h1 else None
  | Loop a => h' ← check i h a; if decide (h' = h) then Some h else None
  | CondWait m => if bool_decide (h = [m]) && may_lock i m then Some h else None
  | Spawn t a =>
      h' ← check t [] a; if decide (h' = [] /\ t <> main) then Some h else None
  | Join ts => if bool_decide (i = main /\ main ∉ ts) && join_ok h ts then Some h else None
  end.

Fixpoint check_code (i : nat) (h : list mutex) (code : list stmt) : option (list mutex) :=
  match code with
  | [] => Some h
  | s :: k => h' ← check i h s; check_code i h' k
  end.

(** [main] is the only thread at first. *)
Definition start (a : stmt) : config :=
  {| pool := {[ main := [a] ]}; owner := fun _ => None |}.

Definition waits (c : config) (i : nat) (m : mutex) : Prop :=
  exists k, pool c !! i = Some (Enter m :: k) \/ exists a, pool c !! i = Some (Guard m a :: k).

Definition stuck (c : config) : Prop := forall i choice, step_thread i choice c = None.

Definition blocked (c : config) (i : nat) : bool :=
  match step_thread i true c, step_thread i false c with None, None => true | _, _ => false end.

Definition stuck_now (c : config) : bool := forallb (blocked c) (map fst (map_to_list (pool c))).

Lemma stuck_now_stuck c : stuck_now c = true -> stuck c.
Proof.
  unfold stuck_now. rewrite forallb_forall. intros H i choice.
  destruct (pool c !! i) as [code|] eqn:E.
  - assert (blocked c i = true) as Hb.
    { apply H, in_map_iff. exists (i, code). split; [done|].
      by apply list_elem_of_In, elem_of_map_to_list. }
    unfold blocked in Hb. destruct (step_thread i true c) eqn:E1; [done|].
    destruct (step_thread i false c) eqn:E2; [done|]. by destruct choice.
  - unfold step_thread. by rewrite E.
Qed.

(** [held] tells what each thread has. *)
Record disciplined (c : config) (held : nat -> list mutex) : Prop := {
  d_code : forall i code, pool c !! i = Some code ->
    check_code i (held i) code = Some [];
  d_owner : forall i m, owner c m = Some i <-> m ∈ held i;
  d_NoDup : forall i, NoDup (held i);
  d_there : forall i, held i <> [] -> is_Some (pool c !! i)
}.

Lemma above_all h m m' : above h m = true -> m' ∈ h -> (rank m' < rank m)%nat.
Proof.
  intros Ha Hin. unfold above in Ha. rewrite forallb_forall in Ha.
  apply Nat.ltb_lt, Ha. by apply list_elem_of_In.
Qed.

Lemma above_notin h m : above h m = true -> m ∉ h.
Proof. intros Ha Hin. pose proof (above_all _ _ _ Ha Hin). lia. Qed.

(** The mutexes of thread [i] are now [h]. *)
Definition held_now (i : nat) (h : list mutex) (held : nat -> list mutex) : nat -> list mutex :=
  fun j => if decide (j = i) then h else held j.

Lemma held_now_eq i h held : held_now i h held i = h.
Proof. unfold held_now. by destruct (decide (i = i)). Qed.

Lemma held_now_ne i h held j : j <> i -> held_now i h held j = held j.
Proof. intros. unfold held_now. by destruct (decide (j = i)). Qed.

Lemma own_eq m o f : own m o f m = o.
Proof. unfold own. by destruct (decide (m = m)). Qed.

Lemma own_ne m o f m' : m' <> m -> own m o f m' = f m'.
Proof. intros. unfold own. by destruct (decide (m' = m)). Qed.

Lemma disciplined_put c held i code : disciplined c held ->
  check_code i (held i) code = Some [] ->
  disciplined (put i code c) held.
Proof.
  intros [Hc Ho Hn Ht] Hcode. split; cbn; [|done|done|].
  - intros j code'. destruct (decide (j = i)) as [->|Hne].
    + rewrite lookup_insert_eq. by intros [= <-].
    + rewrite lookup_insert_ne by done. apply Hc.
  - intros j Hj. destruct (decide (j = i)) as [->|Hne].
    + by rewrite lookup_insert_eq.
    + rewrite lookup_insert_ne by done. by apply Ht.
Qed.

Lemma disciplined_own c held i h m o : disciplined c held ->
  is_Some (pool c !! i) -> NoDup h -> (forall m', m' <> m -> m' ∈ h <-> m' ∈ held i) ->
  (o = Some i /\ m ∈ h /\ owner c m = None) \/ (o = None /\ m ∉ h /\ owner c m = Some i) ->
  (forall code, check_code i h code = Some [] ->
     disciplined (put_own i code m o c) (held_now i h held)).
Proof.
  intros [Hc Ho Hn Ht] Hi Hh Hsame Hm code Hcode. split; cbn.
  - intros j code'. destruct (decide (j = i)) as [->|Hne].
    + rewrite lookup_insert_eq, held_now_eq. by intros [= <-].
    + rewrite lookup_insert_ne, held_now_ne by done. apply Hc.
  - intros j m'. destruct (decide (m' = m)) as [->|Hmm].
    + rewrite own_eq. destruct (decide (j = i)) as [->|Hne].
      * rewrite held_now_eq. destruct Hm as [(-> & ? & _)|(-> & ? & _)]; naive_solver.
      * rewrite held_now_ne, <- Ho by done.
        destruct Hm as [(-> & _ & E)|(-> & _ & E)]; rewrite E; naive_solver.
    + rewrite own_ne by done. destruct (decide (j = i)) as [->|Hne].
      * rewrite held_now_eq, Hsame by done. apply Ho.
      * rewrite held_now_ne by done. apply Ho.
  - intros j. destruct (decide (j = i)) as [->|Hne];
      [by rewrite held_now_eq|by rewrite held_now_ne].
  - intros j Hj. destruct (decide (j = i)) as [->|Hne].
    + by rewrite lookup_insert_eq.
    + rewrite lookup_insert_ne by done. apply Ht. by rewrite held_now_ne in Hj.
Qed.

Lemma disciplined_lock c held i code m : disciplined c held ->
  is_Some (pool c !! i) -> owner c m = None -> above (held i) m = true ->
  check_code i (m :: held i) code = Some [] ->
  disciplined (put_own i code m (Some i) c) (held_now i (m :: held i) held).
Proof.
  intros Hd Hi Hm Hab. apply disciplined_own; [done|done| | |].
  - constructor; [by eapply above_notin|apply Hd].
  - intros m' Hne. rewrite elem_of_cons. naive_solver.
  - left. split_and!; [done|by left|done].
Qed.

Lemma disciplined_unlock c held i code m h : disciplined c held ->
  is_Some (pool c !! i) -> held i = m :: h ->
  check_code i h code = Some [] ->
  disciplined (put_own i code m None c) (held_now i h held).
Proof.
  intros Hd Hi Hm. pose proof (d_NoDup _ _ Hd i) as Hn. rewrite Hm in Hn.
  apply NoDup_cons in Hn as [Hnin Hn]. apply disciplined_own; [done|done|done| |].
  - intros m' Hne. rewrite Hm, elem_of_cons. naive_solver.
  - right. split_and!; [done|done|]. apply (d_owner _ _ Hd). rewrite Hm. by left.
Qed.

Lemma disciplined_spawn c held t a : disciplined c held -> check t [] a = Some [] ->
  disciplined (if pool c !! t is Some _ then c else put t [a] c) held.
Proof.
  intros Hd Ha. destruct (pool c !! t) as [x|] eqn:Et; [done|].
  apply disciplined_put; [done|]. destruct (held t) eqn:Eh; [cbn; by rewrite Ha|].
  destruct (d_there _ _ Hd t) as [x Hx]; [by rewrite Eh|]. congruence.
Qed.

(** What is left of the code after the first step of a statement passes the check, too. *)
Lemma check_guard i h m a k : check_code i h (Guard m a :: k) = Some [] ->
  above h m = true /\ check_code i (m :: h) (a :: Leave m :: k) = Some [].
Proof.
  cbn. destruct (above h m) eqn:Hab; [|done]. destruct (may_lock i m); [|done]. cbn [andb].
  destruct (check i (m :: h) a) as [h'|]; [|done]. cbn.
  destruct (decide (h' = m :: h)) as [->|]; [|done]. by destruct (decide (m = m)).
Qed.

Lemma check_either i h a b (choice : bool) k : check_code i h (Either a b :: k) = Some [] ->
  check_code i h ((if choice then a else b) :: k) = Some [].
Proof.
  cbn. destruct (check i h a) as [h1|] eqn:Ea; [|done]. cbn.
  destruct (check i h b) as [h2|] eqn:Eb; [|done]. cbn.
  destruct (decide (h1 = h2)) as [->|]; [|done]. destruct choice; [by rewrite Ea|by rewrite Eb].
Qed.

Lemma check_loop i h a (choice : bool) k : check_code i h (Loop a :: k) = Some [] ->
  check_code i h (if choice then a :: Loop a :: k else k) = Some [].
Proof.
  cbn. destruct (check i h a) as [h1|] eqn:Ea; [|done]. cbn.
  destruct (decide (h1 = h)) as [->|]; [|done]. destruct choice; [|done]. cbn.
  rewrite Ea. cbn. rewrite Ea. cbn. by destruct (decide (h = h)).
Qed.

(** Every step keeps to the discipline. *)
Lemma disciplined_step c held i choice c' : disciplined c held ->
  step_thread i choice c = Some c' -> exists held', disciplined c' held'.
Proof.
  intros Hd E. unfold step_thread in E.
  destruct (pool c !! i) as [[|s k]|] eqn:Ei; [done| |done]. cbn [mbind option_bind] in E.
  assert (Hi : is_Some (pool c !! i)) by by eexists.
  pose proof (d_code _ _ Hd _ _ Ei) as Hc.
  destruct s as [|a b|m a|m|m|a b|a|m|m|t a|ts].
  - injection E as <-. exists held. by apply disciplined_put.
  - injection E as <-. exists held. apply disciplined_put; [done|]. cbn in Hc |- *.
    by destruct (check _ (held i) a).
  - destruct (owner c m) eqn:Eo; [done|]. injection E as <-. apply check_guard in Hc as [Hab Hc].
    eexists. by apply disciplined_lock.
  - destruct (decide (owner c m = Some i)); [|done]. injection E as <-. cbn in Hc.
    destruct (held i) as [|m' h] eqn:Eh; [done|]. destruct (decide (m = m')) as [<-|]; [|done].
    eexists. by eapply disciplined_unlock.
  - destruct (owner c m) eqn:Eo; [done|]. injection E as <-. cbn in Hc.
    destruct (above (held i) m && may_lock i m) eqn:Hab; [|done].
    apply andb_prop in Hab as [Hab _]. eexists. by apply disciplined_lock.
  - injection E as <-. exists held. apply disciplined_put; [done|]. by apply check_either.
  - injection E as <-. exists held. apply disciplined_put; [done|]. by apply check_loop.
  - destruct (decide (owner c m = Some i)); [|done]. injection E as <-. cbn in Hc.
    destruct (bool_decide_reflect (held i = [m])) as [Eh|]; [|done].
    destruct (may_lock i m) eqn:Em; [|done]. rewrite Eh in Hc.
    eexists. eapply disciplined_unlock; [done..|]. cbn. rewrite Em. exact Hc.
  - injection E as <-. exists held. by apply disciplined_put.
  - injection E as <-. cbn in Hc. destruct (check t [] a) as [h|] eqn:Ea; [|done]. cbn in Hc.
    destruct (decide (h = [] /\ t <> main)) as [[-> Hne]|]; [|done]. exists held.
    apply disciplined_put; [by apply disciplined_spawn|done].
  - destruct (forallb (finished c) ts); [|done]. injection E as <-. exists held. cbn in Hc.
    apply disciplined_put; [done|].
    destruct (bool_decide _ && join_ok _ _); [exact Hc|done].
Qed.

Lemma disciplined_run sch : forall c held c', disciplined c held ->
  run_threads sch c = Some c' -> exists held', disciplined c' held'.
Proof.
  induction sch as [|[i choice] sch IH]; intros c held c' Hd E; cbn in E.
  - injection E as <-. by exists held.
  - destruct (step_thread i choice c) as [c1|] eqn:E1; [|done].
    destruct (disciplined_step _ _ _ _ _ Hd E1) as [held1 Hd1]. by eapply IH.
Qed.

Lemma disciplined_start a : check main [] a = Some [] ->
  disciplined (start a) (fun _ => []).
Proof.
  intros Ha. split; cbn.
  - intros i code [<- <-]%lookup_singleton_Some. cbn. by rewrite Ha.
  - intros i m. split; [done|by intros ?%not_elem_of_nil].
  - intros _. constructor.
  - by intros i [].
Qed.

(** ** Where threads can be blocked for good *)

Lemma unfinished_code c i : finished c i = false -> exists s k, pool c !! i = Some (s :: k).
Proof. unfold finished. destruct (pool c !! i) as [[|s k]|] eqn:E; try done. by eauto. Qed.

Lemma owner_unfinished c held i m : disciplined c held -> owner c m = Some i ->
  finished c i = false.
Proof.
  intros Hd Ho. apply (d_owner _ _ Hd) in Ho. unfold finished.
  destruct (pool c !! i) as [[|s k]|] eqn:E; [|done|].
  - pose proof (d_code _ _ Hd _ _ E) as Hc. cbn in Hc. injection Hc as Hc. rewrite Hc in Ho.
    by apply not_elem_of_nil in Ho.
  - destruct (d_there _ _ Hd i) as [x Hx]; [|congruence].
    intros Eh. rewrite Eh in Ho. by apply not_elem_of_nil in Ho.
Qed.

Lemma waits_checked c held i m : disciplined c held -> waits c i m ->
  above (held i) m = true /\ may_lock i m = true.
Proof.
  intros Hd [k Hw]. apply andb_prop.
  destruct Hw as [Hw|[a Hw]]; pose proof (d_code _ _ Hd _ _ Hw) as Hc; cbn in Hc;
    by destruct (above (held i) m && may_lock i m).
Qed.

Lemma waits_above c held i m m' : disciplined c held -> waits c i m ->
  owner c m' = Some i -> (rank m' < rank m)%nat.
Proof.
  intros Hd Hw Ho. apply (d_owner _ _ Hd) in Ho.
  eapply above_all; [by eapply waits_checked|done].
Qed.

Lemma waits_owned c i m : stuck c -> waits c i m -> exists j, owner c m = Some j.
Proof.
  intros Hs [k Hw]. destruct (owner c m) as [j|] eqn:Eo; [by exists j|].
  pose proof (Hs i true) as H. unfold step_thread in H.
  destruct Hw as [Hw|[a Hw]]; rewrite Hw in H; cbn in H; by rewrite Eo in H.
Qed.

(** A thread that cannot go on is blocked on a mutex; or it is [main], and joins. *)
Lemma stuck_thread c held i : disciplined c held -> stuck c -> finished c i = false ->
  (exists m, waits c i m) \/
  (i = main /\ exists ts k t, pool c !! main = Some (Join ts :: k) /\ t ∈ ts /\
     join_ok (held main) ts = true /\ t <> main /\ finished c t = false).
Proof.
  intros Hd Hs (s & k & Ei)%unfinished_code. pose proof (Hs i true) as H.
  pose proof (d_code _ _ Hd _ _ Ei) as Hc. unfold step_thread in H. rewrite Ei in H.
  cbn [mbind option_bind] in H. cbn [check_code] in Hc.
  destruct s as [|a b|m a|m|m|a b|a|m|m|t a|ts]; try done; cbn [check] in Hc.
  - left. exists m, k. right. by exists a.
  - exfalso. destruct (held i) as [|m' h] eqn:Eh; [done|]. destruct (decide (m = m')) as [<-|]; [|done].
    assert (owner c m = Some i) as Ho by (apply (d_owner _ _ Hd); rewrite Eh; by left).
    by destruct (decide _).
  - left. exists m, k. by left.
  - exfalso. destruct (bool_decide_reflect (held i = [m])) as [Eh|]; [|done].
    assert (owner c m = Some i) as Ho by (apply (d_owner _ _ Hd); rewrite Eh; by left).
    by destruct (decide _).
  - right. destruct (bool_decide (i = main /\ main ∉ ts)) eqn:Em; [|done].
    apply bool_decide_eq_true in Em as [-> Hnin]. split; [done|].
    destruct (forallb (finished c) ts) eqn:Ef; [done|].
    assert (~ Forall (fun t => finished c t = true) ts) as Hnf.
    { intros Hall. apply not_true_iff_false in Ef. apply Ef, forallb_forall.
      intros x Hx. apply list_elem_of_In in Hx. by eapply (proj1 (Forall_forall _ _)) in Hall. }
    apply not_Forall_Exists, Exists_exists in Hnf as (t & Ht & Hft); [|intros ?; apply _].
    apply not_true_is_false in Hft. exists ts, k, t. split_and!; try done.
    + cbn in Hc. by destruct (join_ok (held main) ts).
    + congruence.
Qed.

(** [main] waits for a thread that is blocked on a mutex, although it has a mutex
    which is not below that. *)
Definition joins_blocked (c : config) : Prop :=
  exists ts k t m h m', pool c !! main = Some (Join ts :: k) /\ t ∈ ts /\ waits c t m /\
    may_lock t m = true /\ join_ok h ts = true /\ m' ∈ h /\ owner c m' = Some main /\
    (rank m <= rank m')%nat.

Context (bound : nat) (rank_bound : forall m, (rank m < bound)%nat).

Lemma stuck_waits c held : disciplined c held -> stuck c ->
  forall n i m, waits c i m -> (bound - rank m <= n)%nat -> joins_blocked c.
Proof.
  intros Hd Hs n. induction n as [|n IH]; intros i m Hw Hn.
  { pose proof (rank_bound m). lia. }
  destruct (waits_owned _ _ _ Hs Hw) as [j Hj].
  destruct (stuck_thread c held j Hd Hs) as [[m' Hw']|(-> & ts & k & t & Hjoin & Ht & Hok & Hne & Hf)].
  - by eapply owner_unfinished.
  - apply (IH j m' Hw'). pose proof (waits_above _ _ _ _ _ Hd Hw' Hj).
    pose proof (rank_bound m'). lia.
  - destruct (stuck_thread c held t Hd Hs Hf) as [[m' Hw']|[-> _]]; [|done].
    destruct (decide (rank m' <= rank m)%nat).
    + exists ts, k, t, m', (held main), m. split_and!; try done; [by eapply waits_checked|].
      by apply (d_owner _ _ Hd).
    + apply (IH t m' Hw'). pose proof (rank_bound m'). lia.
Qed.

Lemma stuck_joins c held : disciplined c held -> stuck c ->
  (exists i, finished c i = false) ->
  joins_blocked c.
Proof.
  intros Hd Hs [i Hi].
  destruct (stuck_thread c held i Hd Hs Hi) as [[m Hw]|(-> & ts & k & t & Hjoin & Ht & Hok & Hne & Hf)].
  - by eapply stuck_waits.
  - destruct (stuck_thread c held t Hd Hs Hf) as [[m' Hw']|[-> _]]; [|done].
    by eapply stuck_waits.
Qed.

(** ** Deadlocks

    [main] has the mutex [m] and joins thread [t], which waits for [m]. *)
Definition deadlock (t : nat) (m : mutex) (c : config) : Prop :=
  (exists ts k, pool c !! main = Some (Join ts :: k) /\ t ∈ ts) /\
  owner c m = Some main /\ waits c t m.

Lemma deadlock_unfinished t m c : deadlock t m c ->
  finished c main = false /\ finished c t = false.
Proof.
  intros ((ts & k & Hj & _) & _ & k' & Hw). unfold finished. rewrite Hj. split; [done|].
  by destruct Hw as [->|[a ->]].
Qed.

(** The rest of the program may go on, but not these two. *)
Lemma deadlock_step t m c i choice c' : deadlock t m c -> step_thread i choice c = Some c' ->
  deadlock t m c'.
Proof.
  intros Hd E. destruct (deadlock_unfinished _ _ _ Hd) as [_ Hf].
  destruct Hd as ((ts & k & Hj & Ht) & Ho & k' & Hw).
  unfold step_thread in E. destruct (pool c !! i) as [[|s code]|] eqn:Ei; [done| |done].
  cbn [mbind option_bind] in E.
  assert (i <> main) as Hi.
  { intros ->. rewrite Hj in Ei. injection Ei as <- <-.
    destruct (forallb (finished c) ts) eqn:Ef; [|done].
    rewrite forallb_forall in Ef. rewrite Ef in Hf; [done|by apply list_elem_of_In]. }
  assert (i <> t) as Hit.
  { intros ->. destruct Hw as [Hw|[a Hw]]; rewrite Hw in Ei; injection Ei as <- <-;
      by rewrite Ho in E. }
  enough (pool c' !! main = pool c !! main /\ pool c' !! t = pool c !! t /\ owner c' m = owner c m)
    as (Hm & Hpt & Hom).
  { split_and!; [exists ts, k; by rewrite Hm|by rewrite Hom|exists k'; by rewrite Hpt]. }
  assert (pool c !! t <> None) as Hpt by (destruct Hw as [->|[? ->]]; done).
  assert (own_other : forall m' o, m' <> m -> own m' o (owner c) m = owner c m)
    by (intros; by apply own_ne, not_eq_sym).
  destruct s as [|a b|m' a|m'|m'|a b|a|m'|m'|t' a|ts']; repeat (case_match; try done);
    injection E as <-; cbn; rewrite ?lookup_insert_ne by done; (split_and!; [|try done..]);
    try done; try (apply own_other; congruence).
  all: rewrite !lookup_insert_ne by congruence; done.
Qed.

Lemma deadlock_run t m sch : forall c c', deadlock t m c -> run_threads sch c = Some c' ->
  deadlock t m c'.
Proof.
  induction sch as [|[i choice] sch IH]; intros c c' Hd E; cbn in E.
  - by injection E as <-.
  - destruct (step_thread i choice c) as [c1|] eqn:E1; [|done].
    eapply IH; [by eapply deadlock_step|done].
Qed.
End Locks.
