(* ===== verification/Threads.v ===== *)
(** * The threads of the program

    Which mutexes the threads lock, function by function, in the language of Locks.v; what
    the functions do with the data is in the other files.  A branch that depends on data is
    open ([Either], [Loop]), which includes leaving a function early by an exception.

    The threads are: the main thread with [Controller::Run]; the thread of the sync
    worker; the thread or the two threads on which the connector gets the notifications of its
    node; and the threads of the HTTP server, which call the RPC methods.  [StopListening] returns
    when these are done (the documented behaviour of [MHD_stop_daemon], which
    libjson-rpc-cpp calls). *)

From S2P Require Import Prelude Locks.

(** The members [mut] of [Controller], [BaseChain], [Sync], [PendingManager], [ZmqPub],
    [RpcServer], [CoreChain::ZmqListener] and [PendingMempool], and [RunData::mutChain]. *)
Inductive mutex :=
  | ParentMut | BaseMut | SyncMut | ChainMut | PendingsMut | ZmqMut
  | RpcMut | ListenerMut | MempoolMut.

#[global] Instance mutex_eq_dec : EqDecision mutex.
Proof. solve_decision. Defined.

(** The numbers of the threads, of which the server has [n].  A Xaya Core connector has a
    receiver for each address of its node's notifications: one if blocks and transactions have
    the same address, and otherwise two. *)
Definition main_thread : nat := 0.
Definition worker_thread : nat := 1.
Definition base_thread : nat := 2.
Definition other_base_thread : nat := 3.
Definition server_threads (n : nat) : list nat := List.seq 4 n.

Notation code := (stmt (mutex := mutex)).

Definition maybe (a : code) : code := Either a Skip.
Fixpoint any_of (l : list code) : code :=
  match l with [] => Skip | a :: l' => Either a (any_of l') end.

(** ** The publisher and the pending moves *)

Definition TrackGame : code := Guard ZmqMut Skip.
Definition UntrackGame : code := Guard ZmqMut Skip.
Definition SendBlock : code := Guard ZmqMut Skip.
Definition SendPendingMoves : code := Guard ZmqMut Skip.

Definition pendings_TipChanged : code := Guard PendingsMut Skip.
Definition pendings_PendingMoves : code := Guard PendingsMut (maybe SendPendingMoves).
Definition pendings_ChainstateTipChanged : code := Guard PendingsMut (Loop SendPendingMoves).

Definition PushZmqBlocks : code := Loop SendBlock.

Definition TipUpdatedFrom : code := seq [PushZmqBlocks; pendings_ChainstateTipChanged].

(** ** The sync worker *)

Definition ImportNewTip : code := maybe TipUpdatedFrom.

Definition UpdateStep : code :=
  Guard ChainMut (Either ImportNewTip (seq [maybe TipUpdatedFrom; maybe ImportNewTip])).

Definition worker : code :=
  Guard SyncMut (Loop (seq [UpdateStep;
    Either (seq [Leave SyncMut; Enter SyncMut]) (CondWait SyncMut)])).

Definition Sync_Start : code :=
  Guard SyncMut (seq [Guard ChainMut Skip; Spawn worker_thread worker]).

Definition NewBaseChainTip : code := Guard SyncMut Skip.
Definition Sync_SetCallbacks : code := Guard SyncMut Skip.

Definition Sync_destructor : code :=
  seq [Enter SyncMut;
       maybe (seq [Leave SyncMut; Join [worker_thread]; Enter SyncMut]);
       Leave SyncMut].

(** ** Notifications of the base chain *)

Definition RunData_TipChanged : code := seq [pendings_TipChanged; maybe NewBaseChainTip].
Definition RunData_PendingMoves : code := pendings_PendingMoves.

Definition base_SetCallbacks : code := Guard BaseMut Skip.
Definition base_TipChanged : code := Guard BaseMut (maybe RunData_TipChanged).
Definition base_PendingMoves : code := Guard BaseMut (maybe RunData_PendingMoves).

(** The receiver of a Xaya Core connector.  Before its processing of a message it
    unlocks the socket. *)
Definition ReceiveLoop : code :=
  Loop (seq [Guard ListenerMut Skip;
    any_of [base_TipChanged; maybe base_PendingMoves; Skip]]).

(** The callbacks from the WebSocket of an EVM connector. *)
Definition eth_NewTip : code := base_TipChanged.
Definition eth_NewPendingTx : code := maybe (seq [Guard MempoolMut Skip; base_PendingMoves]).
Definition eth_GetMempool : code := seq [Guard MempoolMut Skip; maybe (Guard MempoolMut Skip)].

Definition receiver : code := Either ReceiveLoop (Loop (any_of [eth_NewTip; eth_NewPendingTx])).

(** ** The RPC methods *)

Definition getzmqnotifications : code := Guard ParentMut Skip.
Definition trackedgames : code := any_of [TrackGame; UntrackGame].
Definition getnetworkinfo : code := Guard RpcMut Skip.
Definition getblockchaininfo : code := seq [Guard RpcMut Skip; maybe (Guard ChainMut Skip)].
Definition getblockhash : code := Guard ChainMut Skip.
Definition getblockheader : code := Guard ChainMut Skip.
Definition game_sendupdates : code := seq [Guard RpcMut Skip; Guard ChainMut PushZmqBlocks].
Definition getrawmempool : code := maybe eth_GetMempool.

Definition Controller_Stop : code := Guard ParentMut Skip.
Definition rpc_stop : code := Controller_Stop.

(** A thread of the server calls any methods, in any order. *)
Definition server : code :=
  Loop (any_of [getzmqnotifications; trackedgames; getnetworkinfo; getblockchaininfo;
                getblockhash; getblockheader; game_sendupdates; getrawmempool; rpc_stop]).

(** ** The main thread *)

Definition StartListening (n : nat) : code := seq (map (fun t => Spawn t server) (server_threads n)).
Definition StopListening (n : nat) : code := Join (server_threads n).

Definition RunData_constructor (n : nat) : code :=
  seq [Loop TrackGame; StartListening n; base_SetCallbacks; Sync_SetCallbacks; Sync_Start].

(** The destructor, with that of the member [sync]. *)
Definition RunData_destructor (n : nat) : code :=
  seq [StopListening n; base_SetCallbacks; maybe Sync_SetCallbacks; maybe Sync_destructor].

Definition Controller_Run (n : nat) : code :=
  Guard ParentMut (seq [RunData_constructor n; Loop (CondWait ParentMut); RunData_destructor n]).

(** The connector is started before and destroyed after the run, with its receivers
    ([~ZmqListener] joins; a thread that was not started counts as finished). *)
Definition program (n : nat) : code :=
  seq [Spawn base_thread receiver; maybe (Spawn other_base_thread receiver);
       Controller_Run n; Join [base_thread; other_base_thread]].

(** ** The order of the mutexes *)

Definition rank (m : mutex) : nat :=
  match m with
  | ParentMut => 0 | BaseMut => 1 | SyncMut => 2 | ChainMut => 3 | PendingsMut => 4
  | ZmqMut => 5 | RpcMut | ListenerMut | MempoolMut => 6
  end.

(** Which threads lock which mutexes: only the main thread and those of the server lock
    that of the controller. *)
Definition may_lock (t : nat) (m : mutex) : bool :=
  match m with ParentMut => bool_decide (t <> worker_thread /\ t <> base_thread /\ t <> other_base_thread) | _ => true end.

Definition join_ok (n : nat) (h : list mutex) (ts : list nat) : bool :=
  bool_decide ((h = [] \/ h = [ParentMut]) /\
    (ts = [worker_thread] \/ ts = [base_thread; other_base_thread] \/ ts = server_threads n)).

Section Program.
Context (n : nat).
Notation checks := (check rank main_thread may_lock (join_ok n)).

Lemma check_seq i h (l : list code) : Forall (fun a => checks i h a = Some h) l ->
  checks i h (seq l) = Some h.
Proof.
  induction 1 as [|a [|b l] Ha Hl IH]; [done|done|].
  change (seq (a :: b :: l)) with (Seq a (seq (b :: l))). cbn [check]. by rewrite Ha.
Qed.

Lemma server_checks t : t <> worker_thread -> t <> base_thread -> t <> other_base_thread ->
  checks t [] server = Some [].
Proof.
  intros H1 H2 H3. unfold server. cbn.
  unfold may_lock. rewrite bool_decide_eq_true_2 by done. reflexivity.
Qed.

Lemma StartListening_checks h : checks main_thread h (StartListening n) = Some h.
Proof.
  apply check_seq, Forall_map, Forall_forall. intros t Ht. apply list_elem_of_In, in_seq in Ht.
  cbn [compose check]. rewrite server_checks by (unfold worker_thread, base_thread, other_base_thread; lia). cbn.
  rewrite decide_True; [done|]. unfold main_thread. split; [done|lia].
Qed.

Lemma join_checks ts : ts = [worker_thread] \/ ts = [base_thread; other_base_thread] \/ ts = server_threads n ->
  forall h, h = [] \/ h = [ParentMut] -> checks main_thread h (Join ts) = Some h.
Proof.
  intros Hts h Hh. cbn [check]. rewrite (bool_decide_eq_true_2 (_ /\ _)).
  - unfold join_ok. by rewrite bool_decide_eq_true_2.
  - split; [done|]. destruct Hts as [->|[-> | ->]].
    + by apply (bool_decide_unpack _).
    + by apply (bool_decide_unpack _).
    + intros Hin%list_elem_of_In%in_seq. unfold main_thread in Hin. lia.
Qed.

Lemma destructor_checks : checks main_thread [ParentMut] (RunData_destructor n) = Some [ParentMut].
Proof.
  apply check_seq. repeat constructor.
  apply join_checks; [by right; right|by right].
Qed.

Lemma program_checks : checks main_thread [] (program n) = Some [].
Proof.
  apply check_seq. repeat constructor.
  - unfold Controller_Run. cbn [check].
    change (above rank [] ParentMut && may_lock main_thread ParentMut) with true. cbn iota.
    rewrite check_seq; [done|]. repeat constructor.
    + apply check_seq. repeat constructor. apply StartListening_checks.
    + apply destructor_checks.
Qed.

Lemma rank_bound m : (rank m < 7)%nat.
Proof. destruct m; cbn; lia. Qed.

Lemma all_or_one (c : config (mutex := mutex)) :
  (forall i, finished c i = true) \/ exists i, finished c i = false.
Proof.
  destruct (decide (map_Forall (fun _ (k : list code) => k = []) (pool c))) as [H|H].
  - left. intros i. unfold finished. destruct (pool c !! i) as [k|] eqn:E; [|done].
    by rewrite (H i k E).
  - right. apply map_not_Forall in H as (i & k & E & Hk); [|apply _].
    exists i. unfold finished. rewrite E. by destruct k.
Qed.

(** C9.  The mutexes are always taken in the same order, so that the threads of the program
    can only block each other for good in one way, whatever the interleaving and
    the data: in [~RunData] the main thread, which has the mutex of the controller,
    waits in [StopListening] for a thread of the server that waits for that
    mutex. *)
Theorem deadlocks_at_shutdown (sch : schedule) (c : config)
    (Hrun : run_threads sch (start main_thread (program n)) = Some c) (Hstuck : stuck c) :
  (forall i, finished c i = true) \/
  exists k t, pool c !! main_thread = Some (StopListening n :: k) /\ t ∈ server_threads n /\
    waits c t ParentMut /\ owner c ParentMut = Some main_thread.
Proof.
  destruct (all_or_one c) as [Hall|Hone]; [by left|right].
  destruct (disciplined_run rank main_thread may_lock (join_ok n) sch _ _ _
    (disciplined_start _ _ _ _ _ program_checks) Hrun) as [held Hd].
  destruct (stuck_joins _ _ _ _ 7 rank_bound c held Hd Hstuck Hone)
    as (ts & k & t & m & h & m' & Hj & Ht & Hw & Hmay & Hok & Hin & Ho & Hle).
  apply bool_decide_eq_true in Hok as [Hh Hts].
  assert (m' = ParentMut) as ->.
  { destruct Hh as [-> | ->]; [by apply not_elem_of_nil in Hin|by apply list_elem_of_singleton in Hin]. }
  assert (m = ParentMut) as -> by (destruct m; cbn in Hle; try lia; done).
  apply bool_decide_eq_true in Hmay as (Hnw & Hnb & Hno).
  exists k, t. destruct Hts as [->|[-> | ->]].
  - by apply list_elem_of_singleton in Ht.
  - by apply elem_of_cons in Ht as [?|Ht%list_elem_of_singleton].
  - by unfold StopListening.
Qed.
End Program.

(** ** The shutdown

    With two receivers and one thread in the server: the program starts up, and the main thread waits; the
    RPC method [stop] is called and returns; the main thread wakes up, has its mutex
    again, and is in [StopListening]; meanwhile the server has got another call,
    of [getzmqnotifications]. *)
Definition first_server : nat := 4.
Definition starts_up : schedule :=
  (main_thread, false) :: repeat (main_thread, true) 4 ++ repeat (main_thread, false) 23 ++ repeat (main_thread, true) 2.
Definition stop_called : schedule := (first_server, true) :: repeat (first_server, false) 8 ++ repeat (first_server, true) 4.
Definition shuts_down : schedule := repeat (main_thread, false) 4.
Definition called_again : schedule := repeat (first_server, true) 2.

Definition stop_and_call : schedule := starts_up ++ stop_called ++ shuts_down ++ called_again.

(** C10.  The deadlock at the shutdown can happen: a call of [getzmqnotifications] after
    the one of [stop] waits for the mutex that [Run] keeps, while [Run] waits for the
    call to be done.  Neither of the two threads ever finishes, whatever else happens. *)
Theorem shutdown_deadlock :
  exists c, run_threads stop_and_call (start main_thread (program 1)) = Some c /\
    deadlock main_thread first_server ParentMut c /\
    forall sch c', run_threads sch c = Some c' ->
      finished c' main_thread = false /\ finished c' first_server = false.
Proof.
  destruct (run_threads stop_and_call (start main_thread (program 1))) as [c|] eqn:E;
    [|vm_compute in E; discriminate E].
  assert (Hd : deadlock main_thread first_server ParentMut c).
  { vm_compute in E. injection E as <-. split_and!; [|reflexivity|].
    - eexists _, _. split; [reflexivity|by left].
    - eexists. right. eexists. reflexivity. }
  exists c. split_and!; [done..|]. intros sch c' Hrun.
  by eapply deadlock_unfinished, deadlock_run.
Qed.

(** The other threads can have ended by then. *)
Definition others_end : schedule := repeat (base_thread, false) 2 ++ repeat (other_base_thread, false) 2 ++ repeat (worker_thread, false) 3.

Lemma deadlocks_at_shutdown_witness :
  exists c k t, run_threads (stop_and_call ++ others_end) (start main_thread (program 1)) = Some c /\
    pool c !! main_thread = Some (StopListening 1 :: k) /\ waits c t ParentMut.
Proof.
  destruct (run_threads (stop_and_call ++ others_end) (start main_thread (program 1)))
    as [c|] eqn:E; [|vm_compute in E; discriminate E].
  exists c. assert (Hf : finished c main_thread = false).
  { vm_compute in E. injection E as <-. reflexivity. }
  destruct (deadlocks_at_shutdown 1 _ c E) as [Hall|(k & t & Hp & _ & Hw & _)].
  - apply stuck_now_stuck. vm_compute in E. injection E as <-. reflexivity.
  - by rewrite Hall in Hf.
  - by exists k, t.
Defined.
