(* ===== verification/RpcUtils.v ===== *)
(** * RPC clients (src/rpcutils.hpp, src/rpcutils.cpp)

    [ParseRpcHeaders], which reads the extra HTTP headers from the command line, and the
    wrapper [RpcClient] of an HTTP client with the two connectors' kinds of client.
    The [size_t] positions of the code are natural numbers, with [None] for
    [std::string::npos]. *)

From S2P Require Import Prelude.

Definition bytes := list ascii.

(** [str.find (c, pos)]. *)
Fixpoint find_from (c : ascii) (s : bytes) (pos : nat) : option nat :=
  match s, pos with
  | [], _ => None
  | a :: s', O => if Ascii.eqb a c then Some O else S <$> find_from c s' 0
  | _ :: s', S p => S <$> find_from c s' p
  end.

(** [str.substr (pos, len)], with [len] up to the end of the string for [None]. *)
Definition substr (s : bytes) (pos : nat) (len : option nat) : bytes :=
  match len with
  | Some n => take n (drop pos s)
  | None => drop pos s
  end.

(** [a < b] for positions, where npos is the largest value. *)
Definition pos_lt (a b : option nat) : bool :=
  match a, b with
  | Some x, Some y => (x <? y)%nat
  | Some _, None => true
  | None, _ => false
  end.

Notation RpcHeaders := (gmap string string).

(** [res.emplace (key, value)] keeps an entry that is there. *)
Definition emplace (k v : bytes) (res : RpcHeaders) : RpcHeaders :=
  let key := string_of_list_ascii k in
  match res !! key with
  | Some _ => res
  | None => <[key := string_of_list_ascii v]> res
  end.

(** The loop, from position [pos] on. *)
Fixpoint headers_loop (fuel : nat) (str : bytes) (pos : nat) (res : RpcHeaders)
  : result RpcHeaders :=
  match fuel with
  | O => Diverge
  | S fuel' =>
      match find_from "="%char str pos with
      | None => Ok res
      | Some keyEnd =>
          let valueEnd := find_from ";"%char str pos in
          if pos_lt valueEnd (Some keyEnd) then Ok res else
          _ ← rcheck (pos_lt (Some keyEnd) valueEnd);
          let key := substr str pos (Some (keyEnd - pos)%nat) in
          let value := substr str (keyEnd + 1)
                         ((fun e => e - keyEnd - 1)%nat <$> valueEnd) in
          let res' := emplace key value res in
          match valueEnd with
          | None => Ok res'
          | Some e => headers_loop fuel' str (e + 1) res'
          end
      end
  end.

Definition ParseRpcHeaders (str : string) : result RpcHeaders :=
  let s := list_ascii_of_string str in
  match s with
  | [] => Ok ∅
  | _ => headers_loop (S (length s)) s 0 ∅
  end.

(** ** Lemmas on positions *)

Lemma find_from_drop c s pos :
  find_from c s pos = (fun n => n + pos)%nat <$> find_from c (drop pos s) 0.
Proof.
  revert pos. induction s as [|a s IH]; intros pos; [by destruct pos|].
  destruct pos as [|pos].
  - rewrite drop_0. destruct (find_from c (a :: s) 0); cbn; [by rewrite Nat.add_0_r|done].
  - cbn [find_from drop]. rewrite IH. destruct (find_from c (drop pos s) 0); cbn; [|done].
    f_equal. lia.
Qed.

Lemma find_from_app_not_in c s1 s2 : c ∉ s1 ->
  find_from c (s1 ++ s2) 0 = (fun n => length s1 + n)%nat <$> find_from c s2 0.
Proof.
  induction s1 as [|a s1 IH]; intros Hc; [cbn [app]; by destruct (find_from c s2 0)|].
  cbn [app find_from]. destruct (Ascii.eqb_spec a c) as [->|]; [set_solver|].
  rewrite IH by set_solver. by destruct (find_from c s2 0).
Qed.

Lemma find_from_not_in c s : c ∉ s -> find_from c s 0 = None.
Proof.
  intros Hc. pose proof (find_from_app_not_in c s [] Hc) as H. by rewrite app_nil_r in H.
Qed.

Lemma find_from_hit c s1 s2 : c ∉ s1 -> find_from c (s1 ++ c :: s2) 0 = Some (length s1).
Proof.
  intros Hc. rewrite find_from_app_not_in by done. cbn. rewrite Ascii.eqb_refl.
  cbn. by rewrite Nat.add_0_r.
Qed.

Lemma find_from_ge c s pos n : find_from c s pos = Some n ->
  (pos <= n < length s)%nat /\ s !! n = Some c.
Proof.
  revert pos n. induction s as [|a s IH]; intros pos n; [by destruct pos|].
  destruct pos as [|pos]; cbn.
  - destruct (Ascii.eqb_spec a c) as [->|].
    + intros [= <-]. split; [lia|done].
    + intros (k & Hk & ->)%fmap_Some. apply IH in Hk as [? ?]. split; [lia|done].
  - intros (k & Hk & ->)%fmap_Some. apply IH in Hk as [? ?]. split; [lia|done].
Qed.

(** ** The loop terminates, and its check never fails *)

Lemma headers_loop_total fuel str pos res :
  (pos <= length str)%nat -> (length str < pos + fuel)%nat ->
  exists h, headers_loop fuel str pos res = Ok h.
Proof.
  revert pos res. induction fuel as [|fuel IH]; intros pos res Hp Hf; cbn [headers_loop].
  - lia.
  - destruct (find_from "="%char str pos) as [ke|] eqn:Ek; [|by eexists].
    destruct (find_from ";"%char str pos) as [ve|] eqn:Ev;
      cbn [pos_lt fmap option_fmap option_map]; [|cbn; by eexists].
    destruct (Nat.ltb_spec ve ke); [by eexists|].
    apply find_from_ge in Ek as [? Hke], Ev as [? Hve].
    destruct (Nat.ltb_spec ke ve); cbn [rcheck mbind result_bind].
    + apply IH; lia.
    + assert (ve = ke) as -> by lia. congruence.
Qed.

(** ** Printing headers *)

Definition print_header (h : string * string) : bytes :=
  list_ascii_of_string h.1 ++ "="%char :: list_ascii_of_string h.2.

Fixpoint print_headers (l : list (string * string)) : bytes :=
  match l with
  | [] => []
  | [h] => print_header h
  | h :: l' => print_header h ++ ";"%char :: print_headers l'
  end.

(** A header that the format can express. *)
Definition header_ok (h : string * string) : Prop :=
  "="%char ∉ list_ascii_of_string h.1 /\ ";"%char ∉ list_ascii_of_string h.1 /\
  ";"%char ∉ list_ascii_of_string h.2.

Lemma drop_pre {A} (pre l : list A) : drop (length pre) (pre ++ l) = l.
Proof. by rewrite drop_app_length. Qed.

Lemma print_header_semi h : header_ok h -> ";"%char ∉ print_header h.
Proof.
  intros (_ & H1 & H2) [H|[H|H]%elem_of_cons]%elem_of_app; done.
Qed.

(** One header at the end, and one before others. *)
Lemma headers_loop_last fuel pre h res : header_ok h ->
  headers_loop (S fuel) (pre ++ print_header h) (length pre) res =
  Ok (emplace (list_ascii_of_string h.1) (list_ascii_of_string h.2) res).
Proof.
  intros Hh. pose proof Hh as (Hk & _ & _). cbn [headers_loop].
  rewrite !(find_from_drop _ _ (length pre)), !drop_pre.
  rewrite (find_from_not_in ";"%char) by by apply print_header_semi.
  unfold print_header. rewrite find_from_hit by done. cbn. f_equal. f_equal.
  - rewrite drop_pre, Nat.add_sub, take_app_length. done.
  - rewrite drop_app_ge by lia.
    replace (_ + length pre + 1 - length pre)%nat with (length (list_ascii_of_string h.1) + 1)%nat by lia.
    rewrite drop_app_ge by lia. by replace (_ + 1 - _)%nat with 1%nat by lia.
Qed.

Lemma headers_loop_more fuel pre h rest res : header_ok h ->
  headers_loop (S fuel) (pre ++ print_header h ++ ";"%char :: rest) (length pre) res =
  headers_loop fuel (pre ++ print_header h ++ ";"%char :: rest)
    (length (pre ++ print_header h ++ [";"%char]))
    (emplace (list_ascii_of_string h.1) (list_ascii_of_string h.2) res).
Proof.
  intros Hh. pose proof Hh as (Hk & _ & _). cbn [headers_loop].
  rewrite !(find_from_drop _ _ (length pre)), !drop_pre.
  rewrite (find_from_hit ";"%char) by by apply print_header_semi.
  unfold print_header at 1. rewrite <- app_assoc. cbn [app].
  rewrite (find_from_hit "="%char) by done.
  cbn [fmap option_fmap option_map pos_lt substr].
  set (k := list_ascii_of_string h.1). set (v := list_ascii_of_string h.2).
  assert (Hlen : length (print_header h) = (length k + 1 + length v)%nat).
  { unfold print_header. rewrite length_app. cbn. fold k v. lia. }
  rewrite Hlen.
  destruct (Nat.ltb_spec (length k + 1 + length v + length pre) (length k + length pre)); [lia|].
  destruct (Nat.ltb_spec (length k + length pre) (length k + 1 + length v + length pre)); [|lia].
  cbn [rcheck mbind result_bind]. rewrite drop_pre, Nat.add_sub.
  replace (length (pre ++ print_header h ++ [";"%char]))
    with (length k + 1 + length v + length pre + 1)%nat
    by (rewrite !length_app, Hlen; cbn; lia).
  f_equal. f_equal.
  - unfold print_header. fold k. by rewrite <- app_assoc, take_app_length.
  - rewrite drop_app_ge by lia. unfold print_header. fold k v. rewrite <- app_assoc. cbn [app].
    rewrite drop_app_ge by lia.
    replace (length k + length pre + 1 - length pre - length k)%nat with 1%nat by lia.
    cbn [drop]. replace (_ - _ - 1)%nat with (length v) by lia.
    by rewrite drop_0, take_app_length.
Qed.

Lemma headers_loop_list l : forall fuel pre res, Forall header_ok l -> l <> [] ->
  (length l <= fuel)%nat ->
  headers_loop fuel (pre ++ print_headers l) (length pre) res =
  Ok (foldl (fun acc h => emplace (list_ascii_of_string h.1)
                            (list_ascii_of_string h.2) acc) res l).
Proof.
  induction l as [|h l IH]; [done|]. intros fuel pre res Hok _ Hf.
  apply Forall_cons in Hok as [Hh Hl].
  destruct fuel as [|fuel]; [cbn in Hf; lia|]. destruct l as [|h' l].
  - cbn [print_headers foldl]. by apply headers_loop_last.
  - change (print_headers (h :: h' :: l))
      with (print_header h ++ ";"%char :: print_headers (h' :: l)).
    rewrite headers_loop_more by done.
    replace (pre ++ print_header h ++ ";"%char :: print_headers (h' :: l))
      with ((pre ++ print_header h ++ [";"%char]) ++ print_headers (h' :: l))
      by (by rewrite <- !app_assoc).
    rewrite IH; [done|done|done|cbn in *; lia].
Qed.

Lemma foldl_emplace (l : list (string * string)) (res : RpcHeaders) :
  foldl (fun acc h => emplace (list_ascii_of_string h.1)
                        (list_ascii_of_string h.2) acc) res l = res ∪ list_to_map l.
Proof.
  revert res. induction l as [|[k v] l IH]; intros res; cbn.
  { by rewrite (right_id_L ∅ (∪)). }
  rewrite IH. unfold emplace. rewrite !string_of_list_ascii_of_string.
  apply map_eq. intros x. rewrite !lookup_union.
  destruct (res !! k) as [v0|] eqn:E.
  - destruct (decide (k = x)) as [->|]; [|by rewrite lookup_insert_ne].
    rewrite E. by destruct (list_to_map l !! x), (<[x:=v]> (list_to_map l) !! x).
  - destruct (decide (k = x)) as [->|]; [|by rewrite !lookup_insert_ne].
    rewrite !lookup_insert_eq, E. by destruct (list_to_map l !! x).
Qed.

(** [ParseRpcHeaders] returns for every string: the loop ends, and its
    [CHECK_GT] never fails. *)
Theorem ParseRpcHeaders_total (str : string) : exists h, ParseRpcHeaders str = Ok h.
Proof.
  unfold ParseRpcHeaders. destruct (list_ascii_of_string str) as [|c s]; [by eexists|].
  apply headers_loop_total; cbn; lia.
Qed.

(** A printed list of headers is parsed to these headers; of several values
    for one header the first counts. *)
Lemma ParseRpcHeaders_print (l : list (string * string)) (Hl : Forall header_ok l) :
  ParseRpcHeaders (string_of_list_ascii (print_headers l)) = Ok (list_to_map l).
Proof.
  unfold ParseRpcHeaders. rewrite list_ascii_of_string_of_list_ascii.
  destruct l as [|h l]; [done|].
  destruct (print_headers (h :: l)) as [|c s] eqn:E.
  { exfalso. cbn in E. unfold print_header in E. by destruct l, (list_ascii_of_string h.1). }
  rewrite <- E. pose proof (headers_loop_list (h :: l) (S (length (print_headers (h :: l)))) [] ∅ Hl) as H.
  cbn [app length] in H. rewrite H; [|done|].
  - f_equal. rewrite foldl_emplace. apply (left_id_L ∅ (∪)).
  - clear. enough (length (h :: l) <= S (length (print_headers (h :: l))))%nat by (cbn in *; lia).
    revert h. induction l as [|h' l IH]; intros h; [cbn; lia|].
    change (print_headers (h :: h' :: l))
      with (print_header h ++ ";"%char :: print_headers (h' :: l)).
    rewrite length_app. specialize (IH h'). cbn in *. lia.
Qed.

(** ** The client

    The HTTP client of libjson-rpc-cpp: a connection to an endpoint, with a timeout in
    milliseconds and headers. *)
Class HttpClient := {
  Http : Type;
  http_connect : string -> Http;
  http_SetTimeout : Z -> Http -> Http;
  http_AddHeader : string -> string -> Http -> Http
}.

(** What it sends; a header that is not there yet is added. *)
Class HttpClientLaws (H : HttpClient) := {
  http_timeout : Http -> Z;
  http_header : Http -> string -> option string;
  connect_header : forall ep k, http_header (http_connect ep) k = None;
  SetTimeout_timeout : forall t h, http_timeout (http_SetTimeout t h) = t;
  SetTimeout_header : forall t h k, http_header (http_SetTimeout t h) k = http_header h k;
  AddHeader_timeout : forall k v h, http_timeout (http_AddHeader k v h) = http_timeout h;
  AddHeader_header : forall k v h k', http_header h k = None ->
    http_header (http_AddHeader k v h) k' = if bool_decide (k = k') then Some v else http_header h k'
}.

Section Client.
Context {H : HttpClient}.

(** The stub [rpc], which the build generates, has no state but the HTTP client. *)
Record RpcClient := { rc_http : Http }.

Definition new_RpcClient (ep : string) : RpcClient := {| rc_http := http_connect ep |}.

(** [std::chrono::duration_cast] of a duration of [count] times [num/den] seconds. *)
Definition to_milliseconds (count num den : Z) : Z := Z.quot (count * num * 1000) den.

Definition SetTimeout (count num den : Z) (c : RpcClient) : RpcClient :=
  {| rc_http := http_SetTimeout (to_milliseconds count num den) (rc_http c) |}.

Definition AddHeaders (headers : RpcHeaders) (c : RpcClient) : RpcClient :=
  {| rc_http := foldl (fun h entry => http_AddHeader entry.1 entry.2 h) (rc_http c)
                      (ordered_iter headers) |}.

(** [std::chrono::milliseconds]. *)
Definition CoreRpc (core_rpc_timeout_ms : Z) (ep : string) : RpcClient :=
  SetTimeout core_rpc_timeout_ms 1 1000 (new_RpcClient ep).

Definition EthRpc (eth_rpc_timeout_ms : Z) (ep : string) (headers : RpcHeaders) : RpcClient :=
  AddHeaders headers (SetTimeout eth_rpc_timeout_ms 1 1000 (new_RpcClient ep)).

Context {HL : HttpClientLaws H}.

Lemma AddHeaders_fold l : forall h, NoDup l.*1 -> (forall k, k ∈ l.*1 -> http_header h k = None) ->
  let h' := foldl (fun h (entry : string * string) => http_AddHeader entry.1 entry.2 h) h l in
  http_timeout h' = http_timeout h /\
  forall k, http_header h' k = match list_to_map (M:=gmap string string) l !! k with
                              | Some v => Some v | None => http_header h k end.
Proof.
  induction l as [|[k0 v0] l IH]; intros h Hnd Hnew; [done|]. cbn [foldl fst snd].
  apply NoDup_cons in Hnd as [Hk0 Hnd].
  pose proof (Hnew k0 ltac:(set_solver)) as H0.
  destruct (IH (http_AddHeader k0 v0 h) Hnd) as [Ht Hh].
  { intros k Hk. rewrite AddHeader_header by done.
    rewrite bool_decide_eq_false_2 by (intros ->; done). apply Hnew. set_solver. }
  split; [by rewrite Ht, AddHeader_timeout|]. intros k. rewrite Hh, AddHeader_header by done. cbn.
  case_bool_decide as E.
  - subst k. rewrite lookup_insert_eq. by rewrite (not_elem_of_list_to_map_1 l k0 Hk0).
  - by rewrite lookup_insert_ne.
Qed.

Lemma to_milliseconds_ms t : to_milliseconds t 1 1000 = t.
Proof. unfold to_milliseconds. rewrite Z.mul_1_r. by apply Z.quot_mul. Qed.

Lemma EthRpc_sends t ep hdrs :
  http_timeout (rc_http (EthRpc t ep hdrs)) = t /\
  forall k, http_header (rc_http (EthRpc t ep hdrs)) k = hdrs !! k.
Proof.
  unfold EthRpc, AddHeaders, SetTimeout, new_RpcClient. cbn [rc_http].
  assert (Hnone : forall k, http_header (http_SetTimeout (to_milliseconds t 1 1000) (http_connect ep)) k = None)
    by (intros k; by rewrite SetTimeout_header, connect_header).
  destruct (AddHeaders_fold (ordered_iter hdrs) _ (ordered_iter_NoDup hdrs) (fun k _ => Hnone k))
    as [Ht Hh].
  split; [by rewrite Ht, SetTimeout_timeout, to_milliseconds_ms|]. intros k.
  rewrite Hh, Hnone. unfold ordered_iter. rewrite (list_to_map_proper _ (map_to_list hdrs)).
  - rewrite list_to_map_to_list. by destruct (hdrs !! k).
  - apply ordered_iter_NoDup.
  - apply merge_sort_Permutation.
Qed.

(** The headers on the command line are the headers of the requests to an EVM
    node: printed headers are parsed to these headers, of several values for one header
    the first counts, and a client that is made with them sends exactly them, with
    the timeout of the command line. *)
Theorem EthRpc_headers (l : list (string * string)) (ep : string) (t : Z)
    (Hl : Forall header_ok l) :
  exists hdrs, ParseRpcHeaders (string_of_list_ascii (print_headers l)) = Ok hdrs /\
    http_timeout (rc_http (EthRpc t ep hdrs)) = t /\
    forall k, http_header (rc_http (EthRpc t ep hdrs)) k = list_to_map (M:=RpcHeaders) l !! k.
Proof.
  exists (list_to_map l). split; [by apply ParseRpcHeaders_print|]. apply EthRpc_sends.
Qed.
End Client.

Module RpcSample.
(** The endpoint, the timeout and the headers. *)
#[local] Instance http_model : HttpClient := {|
  Http := string * Z * RpcHeaders;
  http_connect ep := (ep, 0, ∅);
  http_SetTimeout t h := (h.1.1, t, h.2);
  http_AddHeader k v h := (h.1, match h.2 !! k with Some _ => h.2 | None => <[k := v]> h.2 end)
|}.

#[local] Program Instance http_model_laws : HttpClientLaws http_model := {|
  http_timeout h := h.1.2;
  http_header h k := h.2 !! k
|}.
Next Obligation. intros ep k. apply (lookup_empty (M:=gmap string)). Qed.
Next Obligation. done. Qed.
Next Obligation. done. Qed.
Next Obligation. done. Qed.
Next Obligation.
  intros k v [h m] k' Hk. cbn in *. rewrite Hk. case_bool_decide as E.
  - subst. by rewrite lookup_insert_eq.
  - by rewrite lookup_insert_ne.
Qed.

Lemma EthRpc_headers_witness : exists hdrs,
  ParseRpcHeaders "Auth=a=b;Host=x;Auth=c" = Ok hdrs /\
  http_header (rc_http (EthRpc 10000 "http://node" hdrs)) "Auth" = Some "a=b"%string.
Proof.
  destruct (EthRpc_headers [("Auth", "a=b"); ("Host", "x"); ("Auth", "c")]%string "http://node" 10000)
    as (hdrs & Hp & _ & Hh).
  - repeat constructor; apply (bool_decide_unpack _); vm_compute; exact I.
  - exists hdrs. split; [exact Hp|]. rewrite (Hh "Auth"%string). reflexivity.
Defined.

(** A tail that is no header is ignored. *)
Example tail_ignored : ParseRpcHeaders "abc=xyz;foo;1=2" = Ok {["abc" := "xyz"]}%string.
Proof. vm_compute. reflexivity. Qed.
End RpcSample.
