(* ===== verification/ZmqPub.v ===== *)
(** * The ZMQ publisher (src/zmqpub.cpp, src/private/zmqpub.hpp)

    [ZmqPub] turns blocks and pending moves into the messages that are sent to
    the game state processors.  Parameters are the libraries: UniValue, the ZMQ
    socket, and the order in which a [std::unordered_map] iterates, which is
    unspecified. *)

From S2P Require Import Prelude Json BlockData.

(** ** The libraries *)

(** UniValue, the first parser of move data. *)
Class UniValueLib := {
  UniValue : Type;
  uv_read : string -> option UniValue;
  uv_isObject : UniValue -> bool;
  uv_write : UniValue -> string
}.

(** What UniValue writes for an object is an object for jsoncpp, too. *)
Class UniValueLaws {J : JsonCpp} (UV : UniValueLib) :=
  uv_object : forall u v, uv_isObject u = true -> parseMove (uv_write u) = Some v ->
    isObject v = true.

(** The ZMQ socket: [sock_send data more] sends one part of a message, where [more]
    stands for [send_flags::sndmore].  It returns false for EAGAIN, and throws for
    other errors.  [sock_open addr] makes a new socket with its options and binds it, or
    throws. *)
Class ZmqSocket := {
  Sock : Type;
  sock_open : string -> M Sock unit;
  sock_send : string -> bool -> M Sock bool
}.

Notation message := (string * string * string)%type.

(** [idle]: between messages.  Once the first part was accepted, the further parts
    are as well, and the message is delivered as a whole.  [refuses]: the socket may
    refuse the first part, as when its high-water mark is reached. *)
Class ZmqLaws (Z : ZmqSocket) := {
  idle : Sock -> Prop;
  delivered : Sock -> list message;
  refuses : Prop;
  send_first : forall k cmd, idle k ->
    (exists k1, sock_send cmd true k = (Ok true, k1) /\
       forall data seq, exists k2 k3, sock_send data true k1 = (Ok true, k2) /\
         sock_send seq false k2 = (Ok true, k3) /\ idle k3 /\
         delivered k3 = delivered k ++ [(cmd, data, seq)]) \/
    (refuses /\ exists r k1, sock_send cmd true k = (r, k1) /\
       (r = Ok false \/ exists e, r = Throw e) /\ idle k1 /\ delivered k1 = delivered k)
}.

(** The order of an [std::unordered_map]. *)
Class UnorderedMap := unordered_iter : gmap string Z -> list (string * Z).
Class UnorderedMapLaws (UM : UnorderedMap) :=
  unordered_iter_perm : forall m, unordered_iter m ≡ₚ map_to_list m.

Section Parse.
Context {J : JsonCpp} {UV : UniValueLib}.

(** ** Analysing moves *)

Definition ParseMoveJson (str : string) : option Value :=
  match uv_read str with
  | Some value => if uv_isObject value then parseMove (uv_write value) else None
  | None => None
  end.

Definition InitFromMetadata (metadata : Value) : result Value :=
  if isNull metadata then Ok objectValue else
  if isObject metadata then Ok metadata else Fatal.

Definition AddBurnData (mv : MoveData) (gameId : string) (val : Value) : Value :=
  match mv_burns mv !! gameId with
  | None => set_member val "burnt" (of_int 0)
  | Some b => set_member val "burnt" b
  end.

Record PerTxData := {
  moves : gmap string Value;
  adminCommand : option (string * Value)
}.

Definition no_data : PerTxData := {| moves := ∅; adminCommand := None |}.

(** One game of a move. *)
Definition game_move (mv : MoveData) (txTemplate : Value) (gameId : string) (x : Value)
  : Value :=
  AddBurnData mv gameId (set_member txTemplate "move" x).

(** The loop over the games of a move. *)
Fixpoint add_games (mv : MoveData) (txTemplate : Value) (l : list (string * Value))
    (acc : gmap string Value) : result (gmap string Value) :=
  match l with
  | [] => Ok acc
  | (gameId, x) :: l' =>
      match acc !! gameId with
      | Some _ => Fatal
      | None => add_games mv txTemplate l'
                  (<[gameId := game_move mv txTemplate gameId x]> acc)
      end
  end.

Definition AnalyseMove (mv : MoveData) : result PerTxData :=
  match ParseMoveJson (mv_mv mv) with
  | None => Ok no_data
  | Some value =>
      _ ← rcheck (isObject value);
      base ← InitFromMetadata (mv_metadata mv);
      let txTemplate := set_member base "txid" (of_string (mv_txid mv)) in
      if bool_decide (mv_ns mv = "g"%string) then
        if isMember value "cmd" then
          Ok {| moves := ∅;
                adminCommand := Some (mv_name mv,
                  AddBurnData mv (mv_name mv)
                    (set_member txTemplate "cmd" (member value "cmd"))) |}
        else Ok no_data
      else if negb (bool_decide (mv_ns mv = "p"%string)) then Ok no_data
      else
        let g := member value "g" in
        if negb (isObject g) then Ok no_data else
        let txTemplate' := set_member txTemplate "name" (of_string (mv_name mv)) in
        ms ← add_games mv txTemplate' (members_of g) ∅;
        Ok {| moves := ms; adminCommand := None |}
  end.

(** ** Collecting the moves per game *)

(** The data of a game, if it is tracked, goes to the end of the array of the
    game. *)
Definition append_to (games : gmap string Z) (entry : string * Value)
    (arrays : gmap string Value) : result (gmap string Value) :=
  match arrays !! entry.1 with
  | None => Ok arrays
  | Some arr =>
      _ ← rcheck (bool_decide (is_Some (games !! entry.1)));
      _ ← rcheck (isArray arr);
      Ok (<[entry.1 := append arr entry.2]> arrays)
  end.

Fixpoint append_all (games : gmap string Z) (l : list (string * Value))
    (arrays : gmap string Value) : result (gmap string Value) :=
  match l with
  | [] => Ok arrays
  | e :: l' => arrays' ← append_to games e arrays; append_all games l' arrays'
  end.

(** The loop of [SendBlock] over the moves. *)
Fixpoint collect_block (games : gmap string Z) (mvs : list MoveData)
    (perGameMoves perGameAdmin : gmap string Value)
  : result (gmap string Value * gmap string Value) :=
  match mvs with
  | [] => Ok (perGameMoves, perGameAdmin)
  | mv :: mvs' =>
      data ← AnalyseMove mv;
      perGameMoves' ← append_all games (ordered_iter (moves data)) perGameMoves;
      perGameAdmin' ← match adminCommand data with
                      | None => Ok perGameAdmin
                      | Some e => append_to games e perGameAdmin
                      end;
      collect_block games mvs' perGameMoves' perGameAdmin'
  end.

(** The loop of [SendPendingMoves]. *)
Fixpoint collect_pending (games : gmap string Z) (lastTxid : string)
    (mvs : list MoveData) (movesPerGame : gmap string Value)
  : result (gmap string Value) :=
  match mvs with
  | [] => Ok movesPerGame
  | mv :: mvs' =>
      _ ← rcheck (bool_decide (lastTxid = EmptyString) ||
                  bool_decide (lastTxid = mv_txid mv));
      data ← AnalyseMove mv;
      movesPerGame' ← append_all games (ordered_iter (moves data)) movesPerGame;
      collect_pending games (mv_txid mv) mvs' movesPerGame'
  end.

(** An empty array for every tracked game. *)
Definition empty_arrays (games : gmap string Z) : result (gmap string Value) :=
  if bool_decide (map_Forall (fun _ depth => 0 < depth) games)
  then Ok ((fun _ => arrayValue) <$> games) else Fatal.

End Parse.

(** ** The publisher *)

Section Publisher.
Context {J : JsonCpp} {UV : UniValueLib} {ZS : ZmqSocket} {UM : UnorderedMap}.

Record ZmqPub := {
  zp_sock : Sock;
  nextSeq : gmap string Z;
  games : gmap string Z
}.

Definition set_games (g : gmap string Z) (s : ZmqPub) : ZmqPub :=
  {| zp_sock := zp_sock s; nextSeq := nextSeq s; games := g |}.

Definition set_nextSeq (n : gmap string Z) (s : ZmqPub) : ZmqPub :=
  {| zp_sock := zp_sock s; nextSeq := n; games := games s |}.

Definition on_sock {A} (m : M Sock A) : M ZmqPub A :=
  zoom zp_sock (fun k s => {| zp_sock := k; nextSeq := nextSeq s; games := games s |}) m.

(** The constructor: a new socket, and no games and sequence numbers. *)
Definition open_ZmqPub (addr : string) : M ZmqPub unit :=
  on_sock (sock_open addr);;
  modify (fun s => {| zp_sock := zp_sock s; nextSeq := ∅; games := ∅ |}).

Definition TrackGame (g : string) : M ZmqPub unit :=
  s <- get;;
  modify (set_games (match games s !! g with
                     | None => <[g := 1]> (games s)
                     | Some d => <[g := u64 (d + 1)]> (games s)
                     end)).

Definition UntrackGame (g : string) : M ZmqPub unit :=
  s <- get;;
  match games s !! g with
  | None => ret tt
  | Some d =>
      check (0 <? d);;
      modify (set_games (if d - 1 =? 0 then delete g (games s)
                         else <[g := d - 1]> (games s)))
  end.

(** The bytes of the sequence number, from the lowest on; and what is left of the
    number after [n] bytes. *)
Fixpoint seq_bytes (n : nat) (seq : Z) : string * Z :=
  match n with
  | O => (EmptyString, seq)
  | S n' =>
      let '(s, rest) := seq_bytes n' (Z.shiftr seq 8) in
      (String (ascii_of_N (Z.to_N (Z.land seq 255))) s, rest)
  end.

Definition SendMessage (cmd : string) (data : Value) : M ZmqPub unit :=
  modify (fun s => match nextSeq s !! cmd with
                   | None => set_nextSeq (<[cmd := 0]> (nextSeq s)) s
                   | Some _ => s
                   end);;
  s <- get;;
  let seq := default 0 (nextSeq s !! cmd) in
  let '(seqBytes, rest) := seq_bytes 4 seq in
  check (rest =? 0);;
  ok <- on_sock (sock_send cmd true);;
  if negb ok then throw ZmqError else
  ok2 <- on_sock (sock_send (writeString data) true);;
  check ok2;;
  ok3 <- on_sock (sock_send seqBytes false);;
  check ok3;;
  modify (fun s => set_nextSeq (<[cmd := u32 (seq + 1)]> (nextSeq s)) s).

(** The object that describes the block. *)
Definition block_template (blk : BlockData) (reqtoken : string) : result Value :=
  base ← InitFromMetadata (blk_metadata blk);
  let v1 := set_member base "hash" (of_string (blk_hash blk)) in
  let v2 := set_member v1 "parent" (of_string (blk_parent blk)) in
  let v3 := set_member v2 "height" (of_int (i64 (blk_height blk))) in
  let blkJson := set_member v3 "rngseed" (of_string (blk_rngseed blk)) in
  let blkTemplate := set_member objectValue "block" blkJson in
  Ok (if bool_decide (reqtoken = EmptyString) then blkTemplate
      else set_member blkTemplate "reqtoken" (of_string reqtoken)).

(** The message for one game. *)
Definition block_message (blkTemplate moves admin : Value) : Value :=
  set_member (set_member blkTemplate "moves" moves) "admin" admin.

Definition SendBlock (cmdPrefix : string) (blk : BlockData) (reqtoken : string)
  : M ZmqPub unit :=
  blkTemplate <- lift (block_template blk reqtoken);;
  s <- get;;
  arrays <- lift (empty_arrays (games s));;
  let* '(perGameMoves, perGameAdmin) :=
    lift (collect_block (games s) (blk_moves blk) arrays arrays) in
  forM (unordered_iter (games s)) (fun entry =>
    check (0 <? entry.2);;
    match perGameMoves !! entry.1, perGameAdmin !! entry.1 with
    | Some mv, Some cmd =>
        check (isArray mv);;
        check (isArray cmd);;
        SendMessage (cmdPrefix ++ " json " ++ entry.1) (block_message blkTemplate mv cmd)
    | _, _ => fatal
    end).

Definition SendBlockAttach (blk : BlockData) (reqtoken : string) : M ZmqPub unit :=
  SendBlock "game-block-attach" blk reqtoken.

Definition SendBlockDetach (blk : BlockData) (reqtoken : string) : M ZmqPub unit :=
  SendBlock "game-block-detach" blk reqtoken.

Definition SendPendingMoves (mvs : list MoveData) : M ZmqPub unit :=
  check (negb (empty_b mvs));;
  s <- get;;
  arrays <- lift (empty_arrays (games s));;
  movesPerGame <- lift (collect_pending (games s) EmptyString mvs arrays);;
  forM (ordered_iter movesPerGame) (fun entry =>
    if empty_b (elements_of entry.2) then ret tt
    else SendMessage ("game-pending-move" ++ " json " ++ entry.1) entry.2).
End Publisher.
