(* ===== verification/ZmqProofs.v ===== *)
(** * Correctness of the ZMQ publisher

    Which messages [ZmqPub] sends: the moves of a game, in order and with their
    data; one message per tracked game; and sequence numbers without gaps. *)

From S2P Require Import Prelude Json BlockData ZmqPub.

(** ** Analysing moves *)

Section Analyse.
Context {J : JsonCpp} {JL : JsonCppLaws J} {UV : UniValueLib} {UL : UniValueLaws UV}.
Implicit Types (mv : MoveData) (g : string).

Definition metadata_base (v : Value) : Value := if isNull v then objectValue else v.

Lemma InitFromMetadata_ok v : metadata_ok v -> InitFromMetadata v = Ok (metadata_base v).
Proof.
  unfold InitFromMetadata, metadata_base. destruct (isNull v) eqn:E; [done|].
  intros [?|H]; [congruence|by rewrite H].
Qed.

Lemma metadata_base_object v : metadata_ok v -> isObject (metadata_base v) = true.
Proof.
  unfold metadata_base. destruct (isNull v) eqn:E; intros [?|H]; try congruence;
    apply isObject_objectValue.
Qed.

(** The data that a move is to have in the message of game [g], if any. *)
Definition player_template mv : Value :=
  set_member (set_member (metadata_base (mv_metadata mv)) "txid" (of_string (mv_txid mv)))
    "name" (of_string (mv_name mv)).

Definition move_for mv g : option Value :=
  value ← ParseMoveJson (mv_mv mv);
  if bool_decide (mv_ns mv = "p"%string) && isObject (member value "g")
     && isMember (member value "g") g
  then Some (game_move mv (player_template mv) g (member (member value "g") g))
  else None.

(** The admin command of a move, if it is one for game [g]. *)
Definition admin_for mv g : option Value :=
  value ← ParseMoveJson (mv_mv mv);
  if bool_decide (mv_ns mv = "g"%string) && isMember value "cmd" && bool_decide (mv_name mv = g)
  then Some (AddBurnData mv g
               (set_member (set_member (metadata_base (mv_metadata mv)) "txid"
                              (of_string (mv_txid mv))) "cmd" (member value "cmd")))
  else None.

Lemma add_games_ok mv t l acc : NoDup l.*1 -> (forall g, g ∈ l.*1 -> acc !! g = None) ->
  exists res, add_games mv t l acc = Ok res /\
    forall g, res !! g = match list_to_map (M:=gmap string Value) l !! g with
                         | Some x => Some (game_move mv t g x)
                         | None => acc !! g
                         end.
Proof.
  revert acc. induction l as [|[g0 x] l IH]; intros acc Hnd Hacc; cbn [add_games].
  { exists acc. split; [done|]. intros g. cbn. by rewrite lookup_empty. }
  cbn [fmap list_fmap fst] in *. apply NoDup_cons in Hnd as [Hni Hnd].
  rewrite Hacc by set_solver.
  destruct (IH (<[g0 := game_move mv t g0 x]> acc) Hnd) as (res & Hrun & Hres).
  { intros g Hg. rewrite lookup_insert_ne by set_solver. apply Hacc. set_solver. }
  exists res. split; [done|]. intros g. rewrite Hres. cbn.
  destruct (decide (g0 = g)) as [->|].
  - rewrite lookup_insert_eq, (not_elem_of_list_to_map_1 l g) by done.
    by rewrite lookup_insert_eq.
  - by rewrite !lookup_insert_ne by done.
Qed.

Lemma members_map v g : isObject v = true ->
  list_to_map (M:=gmap string Value) (members_of v) !! g =
  if isMember v g then Some (member v g) else None.
Proof.
  intros Hv. destruct (list_to_map _ !! g) as [x|] eqn:E.
  - apply elem_of_list_to_map_2, members_lookup in E as [-> ->]; done.
  - destruct (isMember v g) eqn:Em; [|done]. exfalso.
    apply not_elem_of_list_to_map in E. apply E, list_elem_of_fmap.
    exists (g, member v g). split; [done|]. by apply members_lookup.
Qed.

(** [AnalyseMove] never aborts, and extracts just the data for each game. *)
Lemma AnalyseMove_ok mv : metadata_ok (mv_metadata mv) ->
  exists data, AnalyseMove mv = Ok data /\ (forall g, moves data !! g = move_for mv g) /\
    (forall g, (match adminCommand data with
                | Some (g', c) => if decide (g' = g) then Some c else None
                | None => None end) = admin_for mv g).
Proof.
  intros Hm. unfold AnalyseMove, move_for, admin_for.
  destruct (ParseMoveJson (mv_mv mv)) as [value|] eqn:Ep; cbn [mbind option_bind].
  2: { exists no_data. split_and!; [done| |done]. intros g. apply lookup_empty. }
  assert (Hobj : isObject value = true).
  { unfold ParseMoveJson in Ep. destruct (uv_read (mv_mv mv)) as [u|]; [|done].
    destruct (uv_isObject u) eqn:Eu; [|done]. by eapply uv_object. }
  rewrite Hobj. cbn [rcheck mbind result_bind]. rewrite (InitFromMetadata_ok _ Hm).
  cbn [mbind result_bind].
  destruct (decide (mv_ns mv = "g"%string)) as [En|En].
  { rewrite bool_decide_eq_true_2 by done.
    rewrite (bool_decide_eq_false_2 (mv_ns mv = "p"%string)) by (rewrite En; discriminate).
    cbn [andb]. destruct (isMember value "cmd"); cbn [andb].
    - eexists. split_and!; [done|intros g; apply lookup_empty|]. intros g. cbn.
      destruct (decide (mv_name mv = g)) as [->|].
      + by rewrite bool_decide_eq_true_2.
      + by rewrite bool_decide_eq_false_2.
    - exists no_data. split_and!; [done|intros g; apply lookup_empty|done]. }
  rewrite (bool_decide_eq_false_2 (mv_ns mv = "g"%string)) by done. cbn [andb].
  destruct (decide (mv_ns mv = "p"%string)) as [Ep'|Ep'].
  2: { rewrite (bool_decide_eq_false_2 (mv_ns mv = "p"%string)) by done. cbn.
       exists no_data. split_and!; [done|intros g; apply lookup_empty|done]. }
  rewrite (bool_decide_eq_true_2 (mv_ns mv = "p"%string)) by done. cbn [negb andb].
  destruct (isObject (member value "g")) eqn:Eg; cbn [negb andb].
  2: { exists no_data. split_and!; [done|intros g; apply lookup_empty|done]. }
  destruct (add_games_ok mv (player_template mv) (members_of (member value "g")) ∅)
    as (res & Hrun & Hres); [by apply members_NoDup|intros; apply lookup_empty|].
  unfold player_template in Hrun. rewrite Hrun. cbn [mbind result_bind].
  eexists. split_and!; [done| |done]. intros g. cbn [moves]. rewrite Hres, members_map by done.
  destruct (isMember _ g); [done|]. apply lookup_empty.
Qed.

(** ** Arrays per game *)

(** The arrays are those of the tracked games. *)
Definition arrays_ok (games : gmap string Z) (arrays : gmap string Value) : Prop :=
  forall g, match arrays !! g with
            | Some a => isArray a = true /\ is_Some (games !! g)
            | None => games !! g = None
            end.

Definition items (arrays : gmap string Value) (g : string) : list Value :=
  match arrays !! g with Some a => elements_of a | None => [] end.

Lemma append_to_ok games e arrays : arrays_ok games arrays ->
  exists arrays', append_to games e arrays = Ok arrays' /\ arrays_ok games arrays' /\
    forall g, is_Some (games !! g) ->
      items arrays' g = items arrays g ++ if decide (e.1 = g) then [e.2] else [].
Proof.
  intros Hok. unfold append_to. destruct (arrays !! e.1) as [a|] eqn:E.
  - pose proof (Hok e.1) as H. rewrite E in H. destruct H as [Ha Hg].
    rewrite bool_decide_eq_true_2 by done. rewrite Ha. cbn.
    eexists. split_and!; [done| |].
    + intros g. destruct (decide (e.1 = g)) as [<-|].
      * rewrite lookup_insert_eq. split; [by apply isArray_append|done].
      * rewrite lookup_insert_ne by done. apply Hok.
    + intros g _. unfold items. destruct (decide (e.1 = g)) as [<-|].
      * rewrite lookup_insert_eq, E. by apply elements_append.
      * rewrite lookup_insert_ne by done. by rewrite app_nil_r.
  - exists arrays. split_and!; [done|done|]. intros g Hg.
    destruct (decide (e.1 = g)) as [<-|]; [|by rewrite app_nil_r].
    pose proof (Hok e.1) as H. rewrite E in H. destruct Hg as [? ?]. congruence.
Qed.

Lemma append_all_ok games l : forall arrays, arrays_ok games arrays ->
  exists arrays', append_all games l arrays = Ok arrays' /\ arrays_ok games arrays' /\
    forall g, is_Some (games !! g) ->
      items arrays' g = items arrays g ++ (base.filter (fun e => e.1 = g) l).*2.
Proof.
  induction l as [|e l IH]; intros arrays Hok; cbn [append_all].
  { exists arrays. split_and!; [done|done|]. intros g _. cbn. by rewrite app_nil_r. }
  destruct (append_to_ok games e arrays Hok) as (a1 & -> & Hok1 & H1). cbn [mbind result_bind].
  destruct (IH a1 Hok1) as (a2 & -> & Hok2 & H2).
  exists a2. split_and!; [done|done|]. intros g Hg. rewrite H2, H1 by done.
  rewrite <- app_assoc. f_equal. rewrite filter_cons. by destruct (decide (e.1 = g)).
Qed.

(** Of the games of a move, one game appears once. *)
Lemma ordered_iter_filter (m : gmap string Value) g :
  (base.filter (fun e => e.1 = g) (ordered_iter m)).*2 =
  match m !! g with Some v => [v] | None => [] end.
Proof.
  assert (Hnd : NoDup (ordered_iter m).*1).
  { apply ordered_iter_NoDup. }
  assert (Hin : forall v, (g, v) ∈ ordered_iter m <-> m !! g = Some v).
  { intros v. apply elem_of_ordered_iter. }
  set (l := ordered_iter m) in *. clearbody l.
  assert (Hl : forall l', NoDup l'.*1 -> forall v, (g, v) ∈ l' ->
            (base.filter (fun e : string * Value => e.1 = g) l').*2 = [v]).
  { induction l' as [|[g' v'] l' IH]; intros Hn v Hv; [by apply not_elem_of_nil in Hv|].
    cbn in Hn. apply NoDup_cons in Hn as [Hni Hn]. rewrite filter_cons. cbn [fst].
    apply elem_of_cons in Hv as [[= <- <-]|Hv].
    - rewrite decide_True by done. cbn. f_equal.
      rewrite filter_none; [done|]. intros [g2 v2] H2 [= ->]. apply Hni, list_elem_of_fmap. by exists (g, v2).
    - destruct (decide (g' = g)) as [->|]; [|by apply IH].
      exfalso. apply Hni, list_elem_of_fmap. by exists (g, v). }
  destruct (m !! g) as [v|] eqn:E; [by apply Hl, Hin|].
  rewrite filter_none; [done|]. intros [g2 v2] H2 [= ->]. apply Hin in H2. congruence.
Qed.
End Analyse.

(** ** The moves of a block *)

Section Collect.
Context {J : JsonCpp} {JL : JsonCppLaws J} {UV : UniValueLib} {UL : UniValueLaws UV}.

Definition moves_of (mvs : list MoveData) (g : string) : list Value :=
  omap (fun mv => move_for mv g) mvs.

Definition admin_of (mvs : list MoveData) (g : string) : list Value :=
  omap (fun mv => admin_for mv g) mvs.

Lemma collect_block_ok games mvs : moves_ok mvs -> forall pm pa,
  arrays_ok games pm -> arrays_ok games pa ->
  exists pm' pa', collect_block games mvs pm pa = Ok (pm', pa') /\
    arrays_ok games pm' /\ arrays_ok games pa' /\
    forall g, is_Some (games !! g) ->
      items pm' g = items pm g ++ moves_of mvs g /\
      items pa' g = items pa g ++ admin_of mvs g.
Proof.
  induction 1 as [|mv mvs Hm _ IH]; intros pm pa Hpm Hpa; cbn [collect_block].
  { exists pm, pa. split_and!; [done..|]. intros g _. by rewrite !app_nil_r. }
  destruct (AnalyseMove_ok mv Hm) as (data & -> & Hmv & Had). cbn [mbind result_bind].
  destruct (append_all_ok games (ordered_iter (moves data)) pm Hpm) as (pm1 & -> & Hpm1 & Hi1).
  cbn [mbind result_bind].
  assert (Hadm : exists pa1, match adminCommand data with
                   | None => Ok pa | Some e => append_to games e pa end = Ok pa1 /\
            arrays_ok games pa1 /\ forall g, is_Some (games !! g) ->
              items pa1 g = items pa g ++ match admin_for mv g with Some c => [c] | None => [] end).
  { destruct (adminCommand data) as [[g' c]|] eqn:Ea.
    - destruct (append_to_ok games (g', c) pa Hpa) as (pa1 & -> & Hpa1 & Hi2).
      exists pa1. split_and!; [done|done|]. intros g Hg. rewrite Hi2 by done.
      rewrite <- Had. cbn. by destruct (decide (g' = g)).
    - exists pa. split_and!; [done|done|]. intros g Hg. rewrite <- Had. by rewrite app_nil_r. }
  destruct Hadm as (pa1 & -> & Hpa1 & Hi2). cbn [mbind result_bind].
  destruct (IH pm1 pa1 Hpm1 Hpa1) as (pm2 & pa2 & -> & Hpm2 & Hpa2 & Hi3).
  exists pm2, pa2. split_and!; [done..|]. intros g Hg.
  destruct (Hi3 g Hg) as [-> ->]. rewrite Hi1, Hi2, ordered_iter_filter, Hmv by done.
  unfold moves_of, admin_of. cbn. rewrite <- !app_assoc.
  split; [by destruct (move_for mv g)|by destruct (admin_for mv g)].
Qed.

Lemma collect_pending_ok games txid mvs : moves_ok mvs -> forall last pm,
  last = EmptyString \/ last = txid -> Forall (fun mv => mv_txid mv = txid) mvs ->
  arrays_ok games pm ->
  exists pm', collect_pending games last mvs pm = Ok pm' /\ arrays_ok games pm' /\
    forall g, is_Some (games !! g) -> items pm' g = items pm g ++ moves_of mvs g.
Proof.
  induction 1 as [|mv mvs Hm _ IH]; intros last pm Hlast Htx Hpm; cbn [collect_pending].
  { exists pm. split_and!; [done..|]. intros g _. by rewrite !app_nil_r. }
  apply Forall_cons in Htx as [Hmtx Htx].
  assert (Hchk : bool_decide (last = EmptyString) || bool_decide (last = mv_txid mv) = true).
  { rewrite Hmtx. destruct Hlast as [->| ->].
    - by rewrite bool_decide_eq_true_2.
    - rewrite (bool_decide_eq_true_2 (txid = txid)) by done. by rewrite orb_true_r. }
  rewrite Hchk. cbn [rcheck mbind result_bind].
  destruct (AnalyseMove_ok mv Hm) as (data & -> & Hmv & _). cbn [mbind result_bind].
  destruct (append_all_ok games (ordered_iter (moves data)) pm Hpm) as (pm1 & -> & Hpm1 & Hi1).
  cbn [mbind result_bind].
  destruct (IH (mv_txid mv) pm1) as (pm2 & -> & Hpm2 & Hi2); [by right|done|done|].
  exists pm2. split_and!; [done..|]. intros g Hg.
  rewrite Hi2, Hi1, ordered_iter_filter, Hmv by done.
  unfold moves_of. cbn. rewrite <- !app_assoc. by destruct (move_for mv g).
Qed.

Lemma empty_arrays_ok games : map_Forall (fun _ d => 0 < d) games ->
  exists a, empty_arrays games = Ok a /\ arrays_ok games a /\ forall g, items a g = [].
Proof.
  intros Hd. unfold empty_arrays. rewrite bool_decide_eq_true_2 by done.
  eexists. split_and!; [done| |].
  - intros g. rewrite lookup_fmap. destruct (games !! g) eqn:E; cbn; [|done].
    split; [apply isArray_arrayValue|done].
  - intros g. unfold items. rewrite lookup_fmap. destruct (games !! g); cbn; [|done].
    apply elements_arrayValue.
Qed.
End Collect.

(** ** Sequence numbers *)

(** The number that four bytes stand for. *)
Fixpoint seq_value (s : string) : Z :=
  match s with
  | EmptyString => 0
  | String c s' => Z.of_N (N_of_ascii c) + 256 * seq_value s'
  end.

Lemma byte_value z : Z.of_N (N_of_ascii (ascii_of_N (Z.to_N (Z.land z 255)))) = z mod 256.
Proof.
  change 255 with (Z.ones 8). rewrite Z.land_ones by lia. change (2 ^ 8) with 256.
  pose proof (Z.mod_pos_bound z 256 ltac:(lia)).
  rewrite N_ascii_embedding by lia. lia.
Qed.

Lemma seq_bytes_value n : forall z, 0 <= z ->
  seq_value (seq_bytes n z).1 = z mod 256 ^ Z.of_nat n /\
  (seq_bytes n z).2 = z / 256 ^ Z.of_nat n.
Proof.
  induction n as [|n IH]; intros z Hz; cbn [seq_bytes].
  - cbn. by rewrite Z.mod_1_r, Z.div_1_r.
  - destruct (seq_bytes n (Z.shiftr z 8)) as [s r] eqn:E. cbn [fst snd seq_value].
    assert (Hsh : Z.shiftr z 8 = z / 256) by (rewrite Z.shiftr_div_pow2 by lia; done).
    destruct (IH (Z.shiftr z 8)) as [H1 H2]; [rewrite Hsh; apply Z.div_pos; lia|].
    rewrite E in H1, H2. cbn in H1, H2. rewrite byte_value, H1, H2, Hsh.
    rewrite Nat2Z.inj_succ, Z.pow_succ_r by lia.
    set (k := 256 ^ Z.of_nat n). assert (0 < k) by (apply Z.pow_pos_nonneg; lia).
    split; [|by rewrite Z.div_div by lia].
    rewrite Z.rem_mul_r by lia. lia.
Qed.

Section Messages.
Context {J : JsonCpp} {JL : JsonCppLaws J} {UV : UniValueLib} {UL : UniValueLaws UV}
  {ZS : ZmqSocket} {ZL : ZmqLaws ZS} {UM : UnorderedMap} {UML : UnorderedMapLaws UM}.
Implicit Types (s : ZmqPub).

Definition sent (cmd : string) (s : ZmqPub) : list message :=
  base.filter (fun m => m.1.1 = cmd) (delivered (zp_sock s)).

(** The data is JSON, and the sequence number has four bytes. *)
Definition well_formed (m : message) : Prop :=
  (exists v, m.1.2 = writeString v) /\ String.length m.2 = 4%nat.

(** Between operations: the socket is idle, and per topic the messages were sent
    with sequence numbers from zero on. *)
Record pub_ok (s : ZmqPub) : Prop := {
  po_idle : idle (zp_sock s);
  po_next : forall cmd, default 0 (nextSeq s !! cmd) = u32 (Z.of_nat (length (sent cmd s)));
  po_seq : forall cmd i m, sent cmd s !! i = Some m -> seq_value m.2 = u32 (Z.of_nat i);
  po_depth : map_Forall (fun _ d => 0 < d) (games s);
  po_form : Forall well_formed (delivered (zp_sock s))
}.

Lemma on_sock_run {A} (m : M Sock A) s r k : m (zp_sock s) = (r, k) ->
  on_sock m s = (r, {| zp_sock := k; nextSeq := nextSeq s; games := games s |}).
Proof. unfold on_sock, zoom. by intros ->. Qed.

Lemma u32_range z : 0 <= u32 z < u32_modulus.
Proof. apply Z.mod_pos_bound. done. Qed.

Lemma seq_bytes_length n : forall z, String.length (seq_bytes n z).1 = n.
Proof.
  induction n as [|n IH]; intros z; [done|]. cbn [seq_bytes].
  specialize (IH (Z.shiftr z 8)). destruct (seq_bytes n (Z.shiftr z 8)). cbn in *. by rewrite IH.
Qed.

(** A message more has been delivered, and counted. *)
Lemma pub_ok_delivered s s' cmd v bytes : pub_ok s -> idle (zp_sock s') ->
  delivered (zp_sock s') = delivered (zp_sock s) ++ [(cmd, writeString v, bytes)] ->
  seq_value bytes = default 0 (nextSeq s !! cmd) -> String.length bytes = 4%nat ->
  games s' = games s ->
  (forall c, default 0 (nextSeq s' !! c) =
     if decide (cmd = c) then u32 (default 0 (nextSeq s !! cmd) + 1)
     else default 0 (nextSeq s !! c)) ->
  pub_ok s'.
Proof.
  intros [Hidle Hnext Hseq Hdep Hform] Hi Hd Hv Hlen Hg Hn.
  assert (Hsent : forall c, sent c s' =
            sent c s ++ if decide (cmd = c) then [(cmd, writeString v, bytes)] else []).
  { intros c. unfold sent. rewrite Hd, filter_app. done. }
  split; [done| | |by rewrite Hg|].
  - intros c. rewrite Hn, (Hsent c), length_app. destruct (decide (cmd = c)) as [<-|].
    + rewrite Hnext. cbn. unfold u32. rewrite Zplus_mod_idemp_l. f_equal. lia.
    + rewrite Hnext. cbn. do 2 f_equal. lia.
  - intros c i m. rewrite (Hsent c). destruct (decide (cmd = c)) as [<-|];
      [|rewrite app_nil_r; apply Hseq].
    rewrite lookup_app. destruct (sent cmd s !! i) as [m0|] eqn:E; [intros [= <-]; exact (Hseq _ _ _ E)|].
    intros Hi'. apply lookup_ge_None in E.
    destruct (i - length (sent cmd s))%nat eqn:Ei; cbn in Hi'; [|done].
    injection Hi' as <-. cbn. rewrite Hv, Hnext. do 2 f_equal. lia.
  - rewrite Hd. apply Forall_app. split; [done|]. constructor; [|done]. by split; [eexists|].
Qed.

(** Nothing has been delivered. *)
Lemma pub_ok_same s s' : pub_ok s -> idle (zp_sock s') ->
  delivered (zp_sock s') = delivered (zp_sock s) -> games s' = games s ->
  (forall c, default 0 (nextSeq s' !! c) = default 0 (nextSeq s !! c)) -> pub_ok s'.
Proof.
  intros [Hidle Hnext Hseq Hdep Hform] Hi Hd Hg Hn.
  assert (Hsent : forall c, sent c s' = sent c s) by (intros c; unfold sent; by rewrite Hd).
  split; [done| | |by rewrite Hg|by rewrite Hd].
  - intros c. by rewrite Hn, Hsent.
  - intros c i m. rewrite Hsent. apply Hseq.
Qed.

(** The counter of a topic is there before the first message. *)
Definition with_counter (cmd : string) s : ZmqPub :=
  match nextSeq s !! cmd with None => set_nextSeq (<[cmd := 0]> (nextSeq s)) s | Some _ => s end.

Lemma with_counter_ok cmd s : zp_sock (with_counter cmd s) = zp_sock s /\
  games (with_counter cmd s) = games s /\
  forall c, default 0 (nextSeq (with_counter cmd s) !! c) = default 0 (nextSeq s !! c).
Proof.
  unfold with_counter. destruct (nextSeq s !! cmd) eqn:E; [done|]. split_and!; [done..|].
  intros c. cbn. destruct (decide (cmd = c)) as [->|]; [by rewrite lookup_insert_eq, E|].
  by rewrite lookup_insert_ne.
Qed.

(** One message: it is delivered, or the socket refuses it and nothing happened. *)
Lemma SendMessage_ok cmd data s : pub_ok s ->
  exists r s', SendMessage cmd data s = (r, s') /\ pub_ok s' /\ games s' = games s /\
    ((r = Ok tt /\ exists seq, delivered (zp_sock s') =
        delivered (zp_sock s) ++ [(cmd, writeString data, seq)]) \/
     (refuses /\ (exists e, r = Throw e) /\ delivered (zp_sock s') = delivered (zp_sock s))).
Proof.
  intros Hok. destruct (with_counter_ok cmd s) as (Hk1 & Hg1 & Hn1).
  assert (Hok1 : pub_ok (with_counter cmd s)).
  { apply (pub_ok_same s); [done|rewrite Hk1; apply Hok|by rewrite Hk1|done|done]. }
  rewrite <- Hk1, <- Hg1. unfold SendMessage. rewrite modify_bind, get_bind. fold (with_counter cmd s).
  set (s1 := with_counter cmd s) in *. clearbody s1. clear Hok Hk1 Hg1 Hn1 s. cbn zeta.
  set (seq := default 0 (nextSeq s1 !! cmd)).
  assert (Hr : 0 <= seq < u32_modulus) by (unfold seq; rewrite (po_next _ Hok1); apply u32_range).
  destruct (seq_bytes_value 4 seq) as [Hv Hrest]; [lia|].
  pose proof (seq_bytes_length 4 seq) as Hlen.
  destruct (seq_bytes 4 seq) as [bytes rest]. cbn [fst snd] in Hv, Hrest, Hlen.
  change (256 ^ Z.of_nat 4) with u32_modulus in *.
  rewrite Z.div_small in Hrest by done. rewrite Z.mod_small in Hv by done. subst rest.
  rewrite check_true by done.
  destruct (send_first (zp_sock s1) cmd (po_idle _ Hok1))
    as [(k1 & E1 & Hmore)|(Href & r & k1 & E1 & Hr1 & Hi & Hd)].
  - destruct (Hmore (writeString data) bytes) as (k2 & k3 & E2 & E3 & Hi & Hd).
    rewrite (bind_Ok _ _ _ _ _ (on_sock_run _ _ _ _ E1)). cbn [negb].
    erewrite bind_Ok; [|apply on_sock_run; exact E2]. rewrite check_true by done.
    erewrite bind_Ok; [|apply on_sock_run; exact E3]. rewrite check_true by done.
    eexists _, _. split; [done|]. split_and!; [|done|left; split; [done|by exists bytes]].
    eapply (pub_ok_delivered s1); [done|done|exact Hd|done|done|done|]. intros c. cbn.
    destruct (decide (cmd = c)) as [<-|]; [by rewrite lookup_insert_eq|by rewrite lookup_insert_ne].
  - unfold bind at 1. rewrite (on_sock_run _ _ _ _ E1).
    destruct Hr1 as [->|[e ->]]; cbn [negb]; eexists _, _; (split; [done|]);
      (split; [by apply (pub_ok_same s1)|]); cbn; rewrite Hd; (split; [done|right]); eauto.
Qed.

(** ** Operations that send several messages *)

(** The operation succeeds and delivers messages with [P], or it throws after some
    of them; it never aborts. *)
Definition sends (G : gmap string Z) (f : M ZmqPub unit) (P : list message -> Prop) : Prop :=
  forall s, pub_ok s -> games s = G ->
  exists r s' ms, f s = (r, s') /\ pub_ok s' /\ games s' = G /\
    delivered (zp_sock s') = delivered (zp_sock s) ++ ms /\
    ((r = Ok tt /\ P ms) \/ (refuses /\ exists e, r = Throw e)).

Lemma sends_message G cmd data :
  sends G (SendMessage cmd data) (fun ms => exists seq, ms = [(cmd, writeString data, seq)]).
Proof.
  intros s Hok Hg. destruct (SendMessage_ok cmd data s Hok)
    as (r & s' & Hrun & Hok' & Hg' & [[-> (seq & Hd)]|(Href & [e ->] & Hd)]).
  - eexists _, s', _. split_and!; [done|done|congruence|exact Hd|]. left. split; [done|by exists seq].
  - exists (Throw e), s', []. rewrite app_nil_r. split_and!; [done|done|congruence|done|]. right. split; [done|]. by exists e.
Qed.

Lemma sends_ret G : sends G (ret tt) (fun ms => ms = []).
Proof.
  intros s Hok Hg. exists (Ok tt), s, []. rewrite app_nil_r.
  split_and!; [done..|by left].
Qed.

Lemma sends_weaken G f (P Q : list message -> Prop) :
  (forall ms, P ms -> Q ms) -> sends G f P -> sends G f Q.
Proof.
  intros HPQ Hf s Hok Hg. destruct (Hf s Hok Hg) as (r & s' & ms & ? & ? & ? & ? & Hr).
  exists r, s', ms. split_and!; [done..|]. destruct Hr as [[? ?]|?]; [left|by right].
  split; [done|by apply HPQ].
Qed.

Lemma sends_check G b f P : b = true -> sends G f P -> sends G (check b;; f) P.
Proof. intros -> Hf s Hok Hg. rewrite check_true by done. by apply Hf. Qed.

Lemma sends_forM {A} G (l : list A) f (P : A -> list message -> Prop) :
  (forall x, x ∈ l -> sends G (f x) (P x)) ->
  sends G (forM l f) (fun ms => exists mss, ms = concat mss /\ Forall2 P l mss).
Proof.
  induction l as [|x l IH]; intros Hf s Hok Hg.
  - destruct (sends_ret G s Hok Hg) as (r & s' & ms & ? & ? & ? & ? & Hr).
    exists r, s', ms. split_and!; [done..|]. destruct Hr as [[? ->]|?]; [left|by right].
    split; [done|]. exists []. split; [done|constructor].
  - cbn [forM]. destruct (Hf x ltac:(set_solver) s Hok Hg)
      as (r & s1 & ms & Hrun & Hok1 & Hg1 & Hd1 & [[-> HP]|[Href [e ->]]]).
    + rewrite (bind_Ok _ _ _ _ _ Hrun).
      destruct (IH ltac:(intros; apply Hf; set_solver) s1 Hok1 Hg1)
        as (r2 & s2 & ms2 & Hrun2 & Hok2 & Hg2 & Hd2 & Hr2).
      exists r2, s2, (ms ++ ms2). split_and!; [done|done|done|by rewrite Hd2, Hd1, app_assoc|].
      destruct Hr2 as [[-> (mss & -> & HF)]|?]; [left|by right].
      split; [done|]. exists (ms :: mss). split; [done|by constructor].
    + unfold bind. rewrite Hrun. exists (Throw e), s1, ms. split_and!; [done..|]. right. split; [done|]. by exists e.
Qed.

(** ** Blocks *)

(** The message for game [g] about a block. *)
Definition block_message_for (prefix : string) (blk : BlockData) (reqtoken g : string)
    (m : message) : Prop :=
  exists tmpl mv cmd seq, block_template blk reqtoken = Ok tmpl /\
    elements_of mv = moves_of (blk_moves blk) g /\
    elements_of cmd = admin_of (blk_moves blk) g /\
    m = ((prefix ++ " json " ++ g)%string, writeString (block_message tmpl mv cmd), seq).

(** All messages about a block: one per game. *)
Definition block_messages (G : gmap string Z) (prefix : string) (blk : BlockData)
    (reqtoken : string) (ms : list message) : Prop :=
  exists l, l ≡ₚ (map_to_list G).*1 /\ Forall2 (block_message_for prefix blk reqtoken) l ms.

Lemma SendBlock_sends G prefix blk reqtoken : block_typed blk ->
  sends G (SendBlock prefix blk reqtoken) (block_messages G prefix blk reqtoken).
Proof.
  intros [Hm Hmv] s Hok Hg. unfold SendBlock, block_template.
  rewrite (InitFromMetadata_ok _ Hm). cbn [mbind result_bind].
  match goal with |- context [lift (Ok ?t)] => set (tmpl := t) end.
  rewrite (lift_Ok_bind _ _ _ _ eq_refl), get_bind, Hg.
  destruct (empty_arrays_ok G) as (a & Ha & Haok & Hai); [rewrite <- Hg; apply Hok|].
  rewrite (lift_Ok_bind _ _ _ _ Ha).
  destruct (collect_block_ok G (blk_moves blk) Hmv a a Haok Haok)
    as (pm & pa & Hcol & Hpm & Hpa & Hitems).
  rewrite (lift_Ok_bind _ _ _ _ Hcol). cbn beta iota.
  assert (Hloop : sends G (forM (unordered_iter G) (fun entry =>
      check (0 <? entry.2);;
      match pm !! entry.1, pa !! entry.1 with
      | Some mv, Some cmd =>
          check (isArray mv);; check (isArray cmd);;
          SendMessage (prefix ++ " json " ++ entry.1) (block_message tmpl mv cmd)
      | _, _ => fatal
      end)) (fun ms => exists mss, ms = concat mss /\ Forall2 (fun entry ms' =>
        exists m, ms' = [m] /\ block_message_for prefix blk reqtoken entry.1 m)
        (unordered_iter G) mss)).
  { apply sends_forM. intros [g d] Hin. cbn [fst snd].
    rewrite unordered_iter_perm in Hin. apply elem_of_map_to_list in Hin.
    apply sends_check.
    { apply Z.ltb_lt. apply (po_depth s Hok g). by rewrite Hg. }
    pose proof (Hpm g) as H1. pose proof (Hpa g) as H2.
    destruct (Hitems g ltac:(by exists d)) as [H3 H4].
    unfold items in H3, H4. destruct (pm !! g) as [mv|]; [|congruence].
    destruct (pa !! g) as [cmd|]; [|congruence].
    destruct H1 as [H1 _], H2 as [H2 _]. apply sends_check; [done|]. apply sends_check; [done|].
    eapply sends_weaken; [|apply sends_message]. intros ms (seq & ->).
    eexists. split; [done|]. exists tmpl, mv, cmd, seq.
    pose proof (Hai g) as Hg0. unfold items in Hg0. rewrite Hg0 in H3, H4.
    unfold block_template. rewrite (InitFromMetadata_ok _ Hm). done. }
  destruct (Hloop s Hok Hg) as (r & s' & ms & Hrun & ? & ? & ? & Hr).
  exists r, s', ms. split_and!; [done..|].
  destruct Hr as [[-> (mss & -> & HF)]|?]; [left|by right]. split; [done|].
  exists (unordered_iter G).*1. split; [by rewrite unordered_iter_perm|].
  clear -HF. induction HF as [|[g d] ms' l mss (m & -> & Hm') _ IH]; [constructor|].
  cbn. by constructor.
Qed.

(** ** Pending moves *)

(** The message with the pending moves of game [g]. *)
Definition pending_message_for (mvs : list MoveData) (g : string) (m : message) : Prop :=
  exists arr seq, elements_of arr = moves_of mvs g /\
    m = (("game-pending-move" ++ " json " ++ g)%string, writeString arr, seq).

(** One message for each game with moves in the transaction. *)
Definition pending_messages (G : gmap string Z) (mvs : list MoveData) (ms : list message)
  : Prop :=
  exists l, l ≡ₚ base.filter (fun g => moves_of mvs g <> []) (map_to_list G).*1 /\
    Forall2 (pending_message_for mvs) l ms.

Definition pending_ok (mvs : list MoveData) : Prop :=
  mvs <> [] /\ moves_ok mvs /\ exists txid, Forall (fun mv => mv_txid mv = txid) mvs.

Lemma forall2_concat_filter mvs (l : list (string * Value)) mss
    (f : string * Value -> list message -> Prop) :
  Forall2 (fun entry ms => if decide (moves_of mvs entry.1 = []) then ms = []
             else exists m, ms = [m] /\ pending_message_for mvs entry.1 m) l mss ->
  Forall2 (pending_message_for mvs)
    (base.filter (fun g => moves_of mvs g <> []) l.*1) (concat mss).
Proof.
  induction 1 as [|[g v] ms l mss H _ IH]; [constructor|]. cbn [fmap list_fmap fst concat] in *.
  destruct (decide (moves_of mvs g = [])) as [E|E].
  - subst ms. rewrite filter_cons_False by (intros ?; done). done.
  - destruct H as (m & -> & Hm). rewrite filter_cons_True by done. by constructor.
Qed.

Lemma SendPendingMoves_sends G mvs : pending_ok mvs ->
  sends G (SendPendingMoves mvs) (pending_messages G mvs).
Proof.
  intros (Hne & Hmv & txid & Htx) s Hok Hg. unfold SendPendingMoves.
  rewrite check_true by by destruct mvs. rewrite get_bind, Hg.
  destruct (empty_arrays_ok G) as (a & Ha & Haok & Hai); [rewrite <- Hg; apply Hok|].
  rewrite (lift_Ok_bind _ _ _ _ Ha).
  destruct (collect_pending_ok G txid mvs Hmv EmptyString a (or_introl eq_refl) Htx Haok)
    as (pm & Hcol & Hpm & Hitems).
  rewrite (lift_Ok_bind _ _ _ _ Hcol).
  assert (Hloop : sends G (forM (ordered_iter pm) (fun entry =>
      if empty_b (elements_of entry.2) then ret tt
      else SendMessage ("game-pending-move" ++ " json " ++ entry.1) entry.2))
      (fun ms => exists mss, ms = concat mss /\ Forall2 (fun entry ms' =>
        if decide (moves_of mvs entry.1 = []) then ms' = []
        else exists m, ms' = [m] /\ pending_message_for mvs entry.1 m) (ordered_iter pm) mss)).
  { apply sends_forM. intros [g v] Hin. cbn [fst snd].
    unfold ordered_iter in Hin. rewrite merge_sort_Permutation in Hin.
    apply elem_of_map_to_list in Hin. pose proof (Hpm g) as H1. rewrite Hin in H1.
    destruct H1 as [_ Hgg]. specialize (Hitems g Hgg). rewrite Hai in Hitems.
    unfold items in Hitems. rewrite Hin in Hitems. cbn [app] in Hitems. rewrite <- Hitems.
    destruct (elements_of v) as [|x l] eqn:Ev; cbn [empty_b].
    - apply sends_ret.
    - eapply sends_weaken; [|apply sends_message]. intros ms (seq & ->).
      eexists. split; [done|]. exists v, seq. by rewrite Ev. }
  destruct (Hloop s Hok Hg) as (r & s' & ms & Hrun & ? & ? & ? & Hr).
  exists r, s', ms. split_and!; [done..|].
  destruct Hr as [[-> (mss & -> & HF)]|?]; [left|by right]. split; [done|].
  eexists. split; [|by eapply (forall2_concat_filter mvs _ mss (fun _ _ => True))].
  apply filter_Permutation. unfold ordered_iter. rewrite merge_sort_Permutation.
  apply NoDup_Permutation; [apply NoDup_fst_map_to_list..|].
  intros g. rewrite !list_elem_of_fmap. split.
  - intros ([g' v] & -> & Hin%elem_of_map_to_list). pose proof (Hpm g') as Hg'.
    rewrite Hin in Hg'. destruct Hg' as [_ [d Hd]]. exists (g', d). split; [done|].
    by apply elem_of_map_to_list.
  - intros ([g' d] & -> & Hin%elem_of_map_to_list). pose proof (Hpm g') as Hg'. cbn in *.
    destruct (pm !! g') as [v|] eqn:E; [|congruence]. exists (g', v). split; [done|].
    by apply elem_of_map_to_list.
Qed.
End Messages.
