(* ===== verification/ZmqProps.v ===== *)
(** * Properties of the ZMQ publisher

    What the receivers of the notifications can rely on. *)

From S2P Require Import Prelude Json BlockData ZmqPub ZmqProofs.

(** ** Reference counts *)

(** How often a game was tracked and not untracked since. *)
Definition count (games : gmap string Z) (g : string) : Z := default 0 (games !! g).

(** The abstract counter of one game: untracking stops at zero. *)
Fixpoint track_count (g : string) (ops : list (bool * string)) (d : Z) : Z :=
  match ops with
  | [] => d
  | (up, g') :: ops' =>
      track_count g ops'
        (if decide (g' = g) then if up : bool then d + 1 else Z.max 0 (d - 1) else d)
  end.

Section Operations.
Context {J : JsonCpp} {JL : JsonCppLaws J} {UV : UniValueLib} {UL : UniValueLaws UV}
  {ZS : ZmqSocket} {ZL : ZmqLaws ZS} {UM : UnorderedMap} {UML : UnorderedMapLaws UM}.
Implicit Types (s : ZmqPub) (g : string).

Lemma set_games_ok s G : pub_ok s -> map_Forall (fun _ d => 0 < d) G -> pub_ok (set_games G s).
Proof. intros [H1 H2 H3 _ H5] HG. by split. Qed.

Lemma count_range s g N : pub_ok s -> map_Forall (fun _ d => d <= N) (games s) -> 0 <= N ->
  0 <= count (games s) g <= N.
Proof.
  intros Hok HN ?. unfold count. destruct (games s !! g) as [d|] eqn:E; cbn; [|lia].
  pose proof (po_depth s Hok g d E). specialize (HN g d E). cbn in *. lia.
Qed.

Lemma TrackGame_ok s g N : pub_ok s -> map_Forall (fun _ d => d <= N) (games s) ->
  0 <= N < u64_modulus - 1 ->
  exists G, TrackGame g s = (Ok tt, set_games G s) /\ pub_ok (set_games G s) /\
    map_Forall (fun _ d => d <= N + 1) G /\
    forall g', count G g' = if decide (g = g') then count (games s) g' + 1
                            else count (games s) g'.
Proof.
  intros Hok HN Hb. unfold TrackGame. rewrite get_bind.
  set (G := match games s !! g with None => _ | Some d => _ end). exists G.
  assert (HG : G = <[g := count (games s) g + 1]> (games s)).
  { unfold G, count. destruct (games s !! g) as [d|] eqn:E; cbn; [|done].
    pose proof (po_depth s Hok g d E). specialize (HN g d E). cbn in *.
    rewrite u64_small by lia. done. }
  pose proof (count_range s g N Hok HN ltac:(lia)) as Hr. clearbody G. subst G.
  split_and!; [done| | |].
  - apply set_games_ok; [done|]. apply map_Forall_insert_2; [lia|apply Hok].
  - apply map_Forall_insert_2; [lia|]. eapply map_Forall_impl; [exact HN|]. cbn. lia.
  - intros g'. unfold count. destruct (decide (g = g')) as [<-|].
    + by rewrite lookup_insert_eq.
    + by rewrite lookup_insert_ne.
Qed.

Lemma UntrackGame_ok s g N : pub_ok s -> map_Forall (fun _ d => d <= N) (games s) ->
  exists G, UntrackGame g s = (Ok tt, set_games G s) /\ pub_ok (set_games G s) /\
    map_Forall (fun _ d => d <= N) G /\
    forall g', count G g' = if decide (g = g') then Z.max 0 (count (games s) g' - 1)
                            else count (games s) g'.
Proof.
  intros Hok HN. unfold UntrackGame. rewrite get_bind.
  destruct (games s !! g) as [d|] eqn:E.
  - pose proof (po_depth s Hok g d E) as Hd. pose proof (HN g d E) as Hd'. cbn in Hd, Hd'.
    rewrite check_true by (apply Z.ltb_lt; lia).
    eexists. split; [reflexivity|]. destruct (Z.eqb_spec (d - 1) 0) as [E0|E0]; split_and!.
    + apply set_games_ok; [done|]. apply map_Forall_delete, Hok.
    + by apply map_Forall_delete.
    + intros g'. unfold count. destruct (decide (g = g')) as [<-|].
      * rewrite lookup_delete_eq, E. cbn. lia.
      * by rewrite lookup_delete_ne.
    + apply set_games_ok; [done|]. apply map_Forall_insert_2; [lia|apply Hok].
    + apply map_Forall_insert_2; [lia|done].
    + intros g'. unfold count. destruct (decide (g = g')) as [<-|].
      * rewrite lookup_insert_eq, E. cbn. lia.
      * by rewrite lookup_insert_ne.
  - exists (games s). destruct s as [k n G]. split_and!; [done|done|done|].
    intros g'. unfold count. destruct (decide (g = g')) as [<-|]; [|done].
    cbn in E. cbn. by rewrite E.
Qed.

(** ** Sequences of operations *)

Inductive pub_op :=
  | OpTrack (g : string)
  | OpUntrack (g : string)
  | OpAttach (blk : BlockData) (reqtoken : string)
  | OpDetach (blk : BlockData) (reqtoken : string)
  | OpPending (mvs : list MoveData).

Definition pub_run (op : pub_op) : M ZmqPub unit :=
  match op with
  | OpTrack g => TrackGame g
  | OpUntrack g => UntrackGame g
  | OpAttach blk tok => SendBlockAttach blk tok
  | OpDetach blk tok => SendBlockDetach blk tok
  | OpPending mvs => SendPendingMoves mvs
  end.

(** The arguments as base chains produce them. *)
Definition pub_op_ok (op : pub_op) : Prop :=
  match op with
  | OpAttach blk _ | OpDetach blk _ => block_typed blk
  | OpPending mvs => pending_ok mvs
  | _ => True
  end.

(** All operations in turn; the callers go on after an exception. *)
Definition attempts (ops : list pub_op) : M ZmqPub unit :=
  forM ops (fun op => try_catch (pub_run op) (fun _ => ret tt)).

Definition tracking (op : pub_op) : option (bool * string) :=
  match op with
  | OpTrack g => Some (true, g)
  | OpUntrack g => Some (false, g)
  | _ => None
  end.

(** The publisher after construction. *)
Definition pub_start (k : Sock) : ZmqPub := {| zp_sock := k; nextSeq := ∅; games := ∅ |}.

Lemma pub_start_ok k : idle k -> delivered k = [] -> pub_ok (pub_start k).
Proof.
  intros Hi Hd. split; cbn; [done| | |by intros ?|by rewrite Hd].
  - intros cmd. unfold sent. cbn. by rewrite Hd, lookup_empty.
  - intros cmd i m. unfold sent. cbn. by rewrite Hd.
Qed.

(** One operation, with exceptions caught. *)
Lemma attempt_ok op s N : pub_op_ok op -> pub_ok s ->
  map_Forall (fun _ d => d <= N) (games s) -> 0 <= N < u64_modulus - 1 ->
  exists s', try_catch (pub_run op) (fun _ => ret tt) s = (Ok tt, s') /\ pub_ok s' /\
    map_Forall (fun _ d => d <= N + 1) (games s') /\
    forall g, count (games s') g = track_count g (option_list (tracking op)) (count (games s) g).
Proof.
  intros Hop Hok HN Hb.
  assert (Hweak : forall G : gmap string Z, map_Forall (fun _ d => d <= N) G -> map_Forall (fun _ d => d <= N + 1) G).
  { intros G HG. eapply map_Forall_impl; [exact HG|]. cbn. lia. }
  assert (Hsend : forall f P, pub_run op = f -> sends (games s) f P -> tracking op = None ->
    exists s', try_catch f (fun _ => ret tt) s = (Ok tt, s') /\ pub_ok s' /\
      map_Forall (fun _ d => d <= N + 1) (games s') /\
      forall g, count (games s') g = track_count g (option_list (tracking op)) (count (games s) g)).
  { intros f P _ Hf ->. destruct (Hf s Hok eq_refl) as (r & s' & ms & Hrun & Hok' & Hg & _ & Hr).
    exists s'. unfold try_catch. rewrite Hrun, Hg.
    destruct Hr as [[-> _]|[_ [e ->]]]; (split_and!; [done|done|by apply Hweak|done]). }
  destruct op as [g|g|blk tok|blk tok|mvs]; cbn [pub_run tracking option_list track_count].
  - destruct (TrackGame_ok s g N Hok HN Hb) as (G & Hrun & Hok' & HN' & Hc).
    exists (set_games G s). unfold try_catch. rewrite Hrun. done.
  - destruct (UntrackGame_ok s g N Hok HN) as (G & Hrun & Hok' & HN' & Hc).
    exists (set_games G s). unfold try_catch. rewrite Hrun. split_and!; [done|done|by apply Hweak|done].
  - eapply Hsend; [done|by apply SendBlock_sends|done].
  - eapply Hsend; [done|by apply SendBlock_sends|done].
  - eapply Hsend; [done|by apply SendPendingMoves_sends|done].
Qed.

Lemma attempts_ok ops : forall s N, Forall pub_op_ok ops -> pub_ok s ->
  map_Forall (fun _ d => d <= N) (games s) -> 0 <= N ->
  N + Z.of_nat (length ops) < u64_modulus ->
  exists s', attempts ops s = (Ok tt, s') /\ pub_ok s' /\
    forall g, count (games s') g = track_count g (omap tracking ops) (count (games s) g).
Proof.
  induction ops as [|op ops IH]; intros s N Hops Hok HN Hpos Hb.
  - by exists s.
  - apply Forall_cons in Hops as [Hop Hops]. cbn [length] in Hb.
    destruct (attempt_ok op s N Hop Hok HN ltac:(lia)) as (s1 & Hrun & Hok1 & HN1 & Hc1).
    destruct (IH s1 (N + 1) Hops Hok1 HN1) as (s2 & Hrun2 & Hok2 & Hc2); [lia|lia|].
    exists s2. unfold attempts in *. cbn [forM]. rewrite (bind_Ok _ _ _ _ _ Hrun).
    split_and!; [done|done|]. intros g. rewrite Hc2, Hc1. cbn [omap list_omap].
    destruct (tracking op) as [[up g']|]; reflexivity.
Qed.

(** C13.  Whatever sequence of operations a new publisher goes through, with failing
    sends in between: it never aborts, and the messages of every topic carry the
    sequence numbers 0, 1, 2, ... (modulo 2^32) without gaps, so that a gap that a
    receiver sees is a lost message. *)
Theorem sequence_numbers (k : Sock) (ops : list pub_op)
    (Hidle : idle k) (Hnew : delivered k = []) (Hops : Forall pub_op_ok ops)
    (Hlen : Z.of_nat (length ops) < u64_modulus) :
  exists s', attempts ops (pub_start k) = (Ok tt, s') /\
    forall cmd, (fun m : message => seq_value m.2) <$> sent cmd s' =
                (fun i => u32 (Z.of_nat i)) <$> seq 0 (length (sent cmd s')).
Proof.
  destruct (attempts_ok ops (pub_start k) 0) as (s' & Hrun & Hok & _);
    [done|by apply pub_start_ok|by intros ?|done|lia|].
  exists s'. split; [done|]. intros cmd. apply list_eq. intros i. rewrite !list_lookup_fmap.
  destruct (sent cmd s' !! i) as [m|] eqn:E; cbn.
  - pose proof (lookup_lt_Some _ _ _ E) as Hlt. rewrite lookup_seq_lt by done. cbn.
    by rewrite (po_seq s' Hok cmd i m E).
  - apply lookup_ge_None in E. by rewrite lookup_seq_ge.
Qed.

(** A game is tracked (and gets notifications) just when it was tracked more often
    than untracked, where untracking a game that is not tracked does nothing; the
    map of the publisher has the reference counts. *)
Theorem tracked_games_counted (k : Sock) (ops : list pub_op)
    (Hidle : idle k) (Hnew : delivered k = []) (Hops : Forall pub_op_ok ops)
    (Hlen : Z.of_nat (length ops) < u64_modulus) :
  exists s', attempts ops (pub_start k) = (Ok tt, s') /\
    (forall g, count (games s') g = track_count g (omap tracking ops) 0) /\
    (forall g, is_Some (games s' !! g) <-> 0 < track_count g (omap tracking ops) 0).
Proof.
  destruct (attempts_ok ops (pub_start k) 0) as (s' & Hrun & Hok & Hc);
    [done|by apply pub_start_ok|by intros ?|done|lia|].
  assert (Hc0 : forall g, count (games s') g = track_count g (omap tracking ops) 0).
  { intros g. rewrite Hc. unfold count. cbn. by rewrite lookup_empty. }
  exists s'. split_and!; [done|done|]. intros g. rewrite <- Hc0. unfold count.
  destruct (games s' !! g) as [d|] eqn:E; cbn.
  - pose proof (po_depth s' Hok g d E). cbn in *. split; [done|by eexists].
  - split; [intros [? ?]; discriminate|lia].
Qed.

(** ** Messages *)

(** A message is delivered as a whole with the next sequence number of its topic,
    or the socket refuses it and everything is as before: what was delivered, the
    tracked games, and the next sequence number of every topic.  In no case the
    process aborts. *)
Theorem SendMessage_all_or_nothing cmd data s (Hok : pub_ok s) :
  exists r s', SendMessage cmd data s = (r, s') /\ pub_ok s' /\ games s' = games s /\
    ((r = Ok tt /\ exists seqBytes, delivered (zp_sock s') =
        delivered (zp_sock s) ++ [(cmd, writeString data, seqBytes)] /\
        seq_value seqBytes = default 0 (nextSeq s !! cmd) /\
        default 0 (nextSeq s' !! cmd) = u32 (default 0 (nextSeq s !! cmd) + 1)) \/
     (refuses /\ (exists e, r = Throw e) /\ delivered (zp_sock s') = delivered (zp_sock s) /\
        forall c, default 0 (nextSeq s' !! c) = default 0 (nextSeq s !! c))).
Proof.
  destruct (SendMessage_ok cmd data s Hok)
    as (r & s' & Hrun & Hok' & Hg & [[-> (seq & Hd)]|(Href & He & Hd)]); exists r || exists (Ok tt); exists s';
    (split_and!; [done|done|done|]).
  - left. split; [done|]. exists seq. split; [done|].
    assert (Hsent : sent cmd s' = sent cmd s ++ [(cmd, writeString data, seq)]).
    { unfold sent. rewrite Hd, filter_app. f_equal. by rewrite filter_cons_True. }
    rewrite !po_next, Hsent, length_app by done. cbn. split.
    + rewrite <- (po_seq s' Hok' cmd (length (sent cmd s)) (cmd, writeString data, seq)); [done|].
      by rewrite Hsent, list_lookup_middle.
    + unfold u32. rewrite Zplus_mod_idemp_l. f_equal. lia.
  - right. split_and!; [done..|]. intros c. rewrite !po_next by done.
    unfold sent. by rewrite Hd.
Qed.

(** C14.  Attaching a block sends to each tracked game exactly one message, in the topic
    of the game: it has the template of the block, under [moves] just the moves of
    the game in the order of the block, and under [admin] its admin commands.
    Unless the socket fails; in that case the messages that went out are still
    numbered right. *)
Theorem SendBlockAttach_messages blk reqtoken s (Hok : pub_ok s)
    (Hblk : block_typed blk) :
  exists r s' ms, SendBlockAttach blk reqtoken s = (r, s') /\ pub_ok s' /\ games s' = games s /\
    delivered (zp_sock s') = delivered (zp_sock s) ++ ms /\
    ((refuses /\ exists e, r = Throw e) \/
     (r = Ok tt /\ exists gs tmpl, gs ≡ₚ (map_to_list (games s)).*1 /\
        block_template blk reqtoken = Ok tmpl /\
        Forall2 (fun g m => exists mv cmd seq,
          elements_of mv = moves_of (blk_moves blk) g /\
          elements_of cmd = admin_of (blk_moves blk) g /\
          m = (("game-block-attach json " ++ g)%string,
               writeString (set_member (set_member tmpl "moves" mv) "admin" cmd), seq)) gs ms)).
Proof.
  destruct (SendBlock_sends (games s) "game-block-attach" blk reqtoken Hblk s Hok eq_refl)
    as (r & s' & ms & Hrun & Hok' & Hg & Hd & Hr).
  exists r, s', ms. split_and!; [done..|]. destruct Hr as [[-> (gs & Hgs & HF)]|?]; [right|by left].
  split; [done|]. destruct Hblk as [Hm _].
  unfold block_message_for in HF. unfold block_template in *. rewrite (InitFromMetadata_ok _ Hm) in *.
  cbn [mbind result_bind] in *. eexists gs, _. split_and!; [done|reflexivity|].
  eapply Forall2_impl; [exact HF|]. cbn. intros g m (tmpl & mv & cmd & seq & [= <-] & ? & ? & ->).
  by exists mv, cmd, seq.
Qed.

(** Pending moves of a transaction go out as one message to each tracked game that
    has moves in it, with just these moves, and to no other game. *)
Theorem SendPendingMoves_messages mvs s (Hok : pub_ok s) (Hmvs : pending_ok mvs) :
  exists r s' ms, SendPendingMoves mvs s = (r, s') /\ pub_ok s' /\ games s' = games s /\
    delivered (zp_sock s') = delivered (zp_sock s) ++ ms /\
    ((refuses /\ exists e, r = Throw e) \/
     (r = Ok tt /\ exists gs, NoDup gs /\
        (forall g, g ∈ gs <-> is_Some (games s !! g) /\ moves_of mvs g <> []) /\
        Forall2 (fun g m => exists arr seq, elements_of arr = moves_of mvs g /\
          m = (("game-pending-move json " ++ g)%string, writeString arr, seq)) gs ms)).
Proof.
  destruct (SendPendingMoves_sends (games s) mvs Hmvs s Hok eq_refl)
    as (r & s' & ms & Hrun & Hok' & Hg & Hd & Hr).
  exists r, s', ms. split_and!; [done..|]. destruct Hr as [[-> (gs & Hgs & HF)]|?]; [right|by left].
  split; [done|]. exists gs. split_and!; [| |exact HF].
  - rewrite Hgs. apply NoDup_filter, NoDup_fst_map_to_list.
  - intros g. rewrite Hgs, list_elem_of_filter, list_elem_of_fmap. split.
    + intros [? ([g' d] & -> & Hin%elem_of_map_to_list)]. split; [by exists d|done].
    + intros [[d Hin] ?]. split; [done|]. exists (g, d). split; [done|]. by apply elem_of_map_to_list.
Qed.

(** The data of a player move for one game: the object in the metadata of the
    move, extended by the transaction id, the name of the player, the value of the
    game in the move, and the coins burnt for the game (0 if there are none). *)
Theorem player_move_data mv g v (Hm : metadata_ok (mv_metadata mv))
    (Hparse : ParseMoveJson (mv_mv mv) = Some v) (Hns : mv_ns mv = "p"%string)
    (Hg : isObject (member v "g") = true) (Hin : isMember (member v "g") g = true) :
  exists data x, AnalyseMove mv = Ok data /\ adminCommand data = None /\
    moves data !! g = Some x /\
    member x "txid" = of_string (mv_txid mv) /\ member x "name" = of_string (mv_name mv) /\
    member x "move" = member (member v "g") g /\
    member x "burnt" = default (of_int 0) (mv_burns mv !! g) /\
    forall k, k ∉ ["txid"; "name"; "move"; "burnt"]%string ->
      member x k = if isNull (mv_metadata mv) then member objectValue k
                   else member (mv_metadata mv) k.
Proof.
  destruct (AnalyseMove_ok mv Hm) as (data & Hrun & Hmv & Had).
  exists data. specialize (Hmv g). unfold move_for in Hmv.
  rewrite Hparse in Hmv. cbn [mbind option_bind] in Hmv.
  rewrite bool_decide_eq_true_2, Hg, Hin in Hmv by done. cbn [andb] in Hmv.
  exists (game_move mv (player_template mv) g (member (member v "g") g)).
  assert (Hno : adminCommand data = None).
  { destruct (adminCommand data) as [[g' c]|]; [|done]. specialize (Had g').
    rewrite decide_True in Had by done. unfold admin_for in Had. rewrite Hparse in Had.
    cbn [mbind option_bind] in Had. rewrite bool_decide_eq_false_2 in Had; [done|].
    rewrite Hns. discriminate. }
  pose proof (metadata_base_object _ Hm) as Hobj.
  assert (Hburn : forall y, AddBurnData mv g y =
            set_member y "burnt" (default (of_int 0) (mv_burns mv !! g))).
  { intros y. unfold AddBurnData. by destruct (mv_burns mv !! g). }
  unfold game_move. rewrite Hburn. unfold player_template.
  assert (Ho1 := isObject_set_member _ "txid" (of_string (mv_txid mv)) Hobj).
  assert (Ho2 := isObject_set_member _ "name" (of_string (mv_name mv)) Ho1).
  assert (Ho3 := isObject_set_member _ "move" (member (member v "g") g) Ho2).
  split_and!; [done|done| | | | | |].
  - rewrite Hmv. unfold game_move. by rewrite Hburn.
  - by rewrite !member_set_member_ne, member_set_member_eq by done.
  - by rewrite !member_set_member_ne, member_set_member_eq by done.
  - by rewrite member_set_member_ne, member_set_member_eq by done.
  - by rewrite member_set_member_eq by done.
  - intros k Hk. rewrite !member_set_member_ne by first [assumption | set_solver].
    unfold metadata_base. by destruct (isNull (mv_metadata mv)).
Qed.
End Operations.

(** ** A concrete publisher

    For the examples: a socket that logs the messages, and refuses a message when
    its schedule says so. *)
Module ZmqSample.
Import Model.

#[export] Instance uv_model : UniValueLib := {|
  UniValue := json;
  uv_read := Bits.decode;
  uv_isObject v := match v with JObj _ => true | _ => false end;
  uv_write := Bits.encode
|}.

#[export] Instance uv_model_laws : UniValueLaws uv_model.
Proof.
  intros u v Hu H. change (Bits.decode (Bits.encode (u : json)) = Some (v : json)) in H.
  rewrite Bits.decode_encode in H. injection H as <-. exact Hu.
Qed.

Record Socket := { parts : list string; log : list message; schedule : list bool }.

Definition log_send (data : string) (more : bool) : M Socket bool := fun k =>
  match parts k, schedule k with
  | [], false :: sch => (Ok false, {| parts := []; log := log k; schedule := sch |})
  | ps, sch =>
      let sch' := match ps with [] => tail sch | _ => sch end in
      if more then (Ok true, {| parts := ps ++ [data]; log := log k; schedule := sch' |})
      else (Ok true, {| parts := [];
                        log := log k ++ match ps with [a; b] => [(a, b, data)] | _ => [] end;
                        schedule := sch' |})
  end.

#[export] Instance log_socket : ZmqSocket := {|
  Sock := Socket;
  sock_open _ := modify (fun k => {| parts := []; log := []; schedule := schedule k |});
  sock_send := log_send
|}.

#[export] Program Instance log_socket_laws : ZmqLaws log_socket := {|
  idle k := parts k = [];
  delivered k := log k;
  refuses := True
|}.
Next Obligation.
  intros [ps lg sch] cmd Hk. cbn in Hk. subst ps.
  destruct sch as [|[] sch]; [left|left|right]; unfold sock_send; cbn.
  - eexists. split; [reflexivity|]. intros data seq. by eexists _, _.
  - eexists. split; [reflexivity|]. intros data seq. by eexists _, _.
  - split; [done|]. eexists _, _. split; [reflexivity|]. split; [by left|done].
Qed.

(** A socket whose schedule is empty takes every message. *)
Program Definition patient_socket_laws : ZmqLaws log_socket := {|
  idle k := parts k = [] /\ schedule k = [];
  delivered k := log k;
  refuses := False
|}.
Next Obligation.
  intros [ps lg sch] cmd [Hp Hs]. cbn in *. subst ps sch. left. unfold sock_send. cbn.
  eexists. split; [reflexivity|]. intros data seq. by eexists _, _.
Qed.

#[export] Instance map_order : UnorderedMap := map_to_list.
#[export] Instance map_order_laws : UnorderedMapLaws map_order.
Proof. intros m. reflexivity. Qed.

Definition move (name : string) (gs : list (string * json)) : MoveData := {|
  mv_txid := "txid"; mv_ns := "p"; mv_name := name;
  mv_mv := Bits.encode (JObj [("g", JObj gs)]);
  mv_burns := {[ "tn" := JInt 10 ]};
  mv_metadata := JObj [("out", JInt 7)]
|}.

Definition admin_move : MoveData := {|
  mv_txid := "txid2"; mv_ns := "g"; mv_name := "smc";
  mv_mv := Bits.encode (JObj [("cmd", JStr "pause")]);
  mv_burns := ∅; mv_metadata := JNull
|}.

Definition block : BlockData := {|
  blk_hash := "hash"; blk_parent := "parent"; blk_height := 5; blk_rngseed := "seed";
  blk_metadata := JNull;
  blk_moves := [move "andy" [("tn", JInt 1); ("xx", JInt 2)]; admin_move;
                move "domob" [("tn", JInt 3)]]
|}.

Definition refusing : Sock (ZmqSocket:=log_socket) := {| parts := []; log := []; schedule := [true; false] |}.

Definition operations : list pub_op :=
  [OpUntrack "tn"; OpTrack "tn"; OpTrack "smc"; OpTrack "tn"; OpAttach block "";
   OpAttach block ""; OpUntrack "smc"; OpDetach block "token";
   OpPending [move "domob" [("tn", JInt 3)]]].

Lemma operations_ok : Forall pub_op_ok operations.
Proof.
  assert (block_typed block).
  { split; [by left|]. repeat constructor; cbn; first [by right|by left]. }
  repeat (constructor; [first [done|exact I]|]). constructor; [|constructor]. cbn.
  split; [discriminate|]. split; [repeat constructor; by right|].
  exists "txid"%string. by repeat constructor.
Qed.

Lemma sequence_numbers_witness :
  exists s', attempts operations (pub_start refusing) = (Ok tt, s').
Proof.
  destruct (sequence_numbers refusing operations) as (s' & Hrun & _).
  - reflexivity.
  - reflexivity.
  - exact operations_ok.
  - reflexivity.
  - exact (ex_intro _ s' Hrun).
Defined.

Lemma tracked_games_counted_witness :
  exists s', attempts operations (pub_start refusing) = (Ok tt, s') /\
    (is_Some (games s' !! "tn"%string) <->
     0 < track_count "tn" (omap tracking operations) 0).
Proof.
  destruct (tracked_games_counted refusing operations) as (s' & Hrun & _ & Hg).
  - reflexivity.
  - reflexivity.
  - exact operations_ok.
  - reflexivity.
  - exact (ex_intro _ s' (conj Hrun (Hg "tn"%string))).
Defined.

(** What was sent: the first message to [tn] got lost. *)
Lemma operations_messages :
  (fun m : message => (m.1.1, seq_value m.2)) <$>
    log (zp_sock (attempts operations (pub_start refusing)).2)
  = [("game-block-attach json smc", 0);
     ("game-block-attach json smc", 1); ("game-block-attach json tn", 0);
     ("game-block-detach json tn", 0); ("game-pending-move json tn", 0)]%string.
Proof. vm_compute. reflexivity. Qed.

(** A publisher that tracks two games. *)
Definition tracking_two : ZmqPub := {|
  zp_sock := {| parts := []; log := []; schedule := [] |};
  nextSeq := ∅; games := {[ "tn"%string := 1; "smc"%string := 2 ]}
|}.

Lemma tracking_two_ok : pub_ok tracking_two.
Proof.
  split; cbn; [done| | | |constructor].
  - intros cmd. by rewrite lookup_empty.
  - done.
  - apply (bool_decide_unpack _). vm_compute. exact I.
Qed.

Lemma SendMessage_all_or_nothing_witness :
  exists r s', SendMessage "topic" nullValue tracking_two = (r, s').
Proof.
  destruct (SendMessage_all_or_nothing "topic" nullValue tracking_two) as (r & s' & Hrun & _).
  - exact tracking_two_ok.
  - exact (ex_intro _ r (ex_intro _ s' Hrun)).
Defined.

Lemma SendBlockAttach_messages_witness :
  exists r s', SendBlockAttach block "" tracking_two = (r, s').
Proof.
  destruct (SendBlockAttach_messages block "" tracking_two) as (r & s' & ms & Hrun & _).
  - exact tracking_two_ok.
  - split; [by left|]. repeat constructor; cbn; first [by right|by left].
  - exact (ex_intro _ r (ex_intro _ s' Hrun)).
Defined.

Lemma SendPendingMoves_messages_witness :
  exists r s', SendPendingMoves [move "domob" [("tn", JInt 3)]] tracking_two = (r, s').
Proof.
  destruct (SendPendingMoves_messages [move "domob" [("tn", JInt 3)]] tracking_two)
    as (r & s' & ms & Hrun & _).
  - exact tracking_two_ok.
  - split; [discriminate|]. split; [repeat constructor; by right|].
    exists "txid"%string. by repeat constructor.
  - exact (ex_intro _ r (ex_intro _ s' Hrun)).
Defined.

Definition parsed : Value (JsonCpp:=model) := JObj [("g", JObj [("tn", JInt 3)])].

Lemma player_move_data_witness :
  exists data, AnalyseMove (move "domob" [("tn", JInt 3)]) = Ok data /\
    is_Some (moves data !! "tn"%string).
Proof.
  destruct (player_move_data (move "domob" [("tn", JInt 3)]) "tn" parsed)
    as (data & x & Hrun & _ & Hx & _).
  - by right.
  - vm_compute. reflexivity.
  - reflexivity.
  - reflexivity.
  - reflexivity.
  - exact (ex_intro _ data (conj Hrun (ex_intro _ x Hx))).
Defined.
End ZmqSample.
