(* ===== verification/TestSubscriber.v ===== *)
(** * The subscriber of the unit tests (src/testutils.hpp, src/testutils.cpp)

    [TestZmqSubscriber] receives the messages of a publisher, checks their sequence
    numbers and hands out their data.  The theorem puts it together with the publisher:
    what goes in there comes out here.  Socket and receiver thread are represented by the
    list of messages that arrive, of which [receive] handles one. *)

From S2P Require Import Prelude Json BlockData ZmqPub ZmqProofs ZmqProps.

(** Reading a [Json::Value] from a stream, as [in >> res] does. *)
Class JsonStream {J : JsonCpp} := stream_read : string -> result Value.

Class JsonStreamLaws {J : JsonCpp} (JS : JsonStream) :=
  stream_read_writeString : forall v, stream_read (writeString v) = Ok v.

Section Subscriber.
Context {J : JsonCpp} {JS : JsonStream}.

Definition ParseJson (str : string) : result Value := stream_read str.

Record TestZmqSubscriber := {
  sub_nextSeq : gmap string Z;
  messages : gmap string (list Value)
}.

Definition new_subscriber : TestZmqSubscriber := {| sub_nextSeq := ∅; messages := ∅ |}.

(** [messages[cmd]], which makes an empty queue when there is none. *)
Definition queue (cmd : string) (s : TestZmqSubscriber) : list Value := default [] (messages s !! cmd).

Definition set_queue (cmd : string) (q : list Value) (s : TestZmqSubscriber) : TestZmqSubscriber :=
  {| sub_nextSeq := sub_nextSeq s; messages := <[cmd := q]> (messages s) |}.

Definition set_next (topic : string) (n : Z) (s : TestZmqSubscriber) : TestZmqSubscriber :=
  {| sub_nextSeq := <[topic := n]> (sub_nextSeq s); messages := messages s |}.

(** The loop that puts the sequence number together, from byte [i] on. *)
Fixpoint or_bytes (i : Z) (bytes : string) (seq : Z) : Z :=
  match bytes with
  | EmptyString => seq
  | String c bytes' =>
      or_bytes (i + 1) bytes' (u32 (Z.lor seq (Z.shiftl (Z.of_N (N_of_ascii c)) (8 * i))))
  end.

(** One round of [ReceiveLoop], for a message.  An assertion that fails leaves the
    loop ([false]); an exception would end the program, since nothing in the thread
    catches it. *)
Definition receive (msg : message) : M TestZmqSubscriber bool :=
  let '(topic, data, bytes) := msg in
  if negb (Nat.eqb (String.length bytes) 4) then ret false else
  let seq := or_bytes 0 bytes 0 in
  s <- get;;
  let next := default 0 (sub_nextSeq s !! topic) in
  modify (set_next topic next);;
  if negb (seq =? next) then ret false else
  modify (set_next topic (u32 (next + 1)));;
  v <- try_catch (lift (ParseJson data)) (fun _ => fatal);;
  modify (fun s => set_queue topic (queue topic s ++ [v]) s);;
  ret true.

(** [ReceiveLoop], until the messages run out. *)
Fixpoint ReceiveLoop (arriving : list message) : M TestZmqSubscriber bool :=
  match arriving with
  | [] => ret true
  | m :: l => ok <- receive m;; if (ok : bool) then ReceiveLoop l else ret false
  end.

(** [while (messages[cmd].empty ()) cv.wait (lock)]: while the caller waits, [arriving]
    comes in.  The result is what has not come in yet, or [None] when the caller is
    left waiting. *)
Fixpoint wait_for (cmd : string) (arriving : list message)
  : M TestZmqSubscriber (option (list message)) :=
  s <- get;;
  modify (set_queue cmd (queue cmd s));;
  match queue cmd s with
  | _ :: _ => ret (Some arriving)
  | [] =>
      match arriving with
      | [] => ret None
      | m :: l => ok <- receive m;; if (ok : bool) then wait_for cmd l else ret None
      end
  end.

Fixpoint AwaitMessages (cmd : string) (num : nat) (arriving : list message)
  : M TestZmqSubscriber (option (list Value * list message)) :=
  match num with
  | O => ret (Some ([], arriving))
  | S num' =>
      o <- wait_for cmd arriving;;
      match o with
      | None => ret None
      | Some rest =>
          s <- get;;
          match queue cmd s with
          | [] => undefined
          | v :: q =>
              modify (set_queue cmd q);;
              more <- AwaitMessages cmd num' rest;;
              ret ('(vs, rest') ← more; Some (v :: vs, rest'))
          end
      end
  end.

Definition ForgetAll : M TestZmqSubscriber unit :=
  modify (fun s => {| sub_nextSeq := sub_nextSeq s; messages := ∅ |}).

(** What the destructor expects. *)
Definition all_expected (s : TestZmqSubscriber) : bool :=
  forallb (fun m => empty_b m.2) (ordered_iter (messages s)).
End Subscriber.

(** ** Sequence numbers *)

(** The bits of the two numbers do not overlap. *)
Lemma lor_shiftl_add a b n : 0 <= n -> 0 <= a < 2 ^ n -> Z.lor a (Z.shiftl b n) = a + b * 2 ^ n.
Proof.
  intros Hn Ha. rewrite <- Z.shiftl_mul_pow2 by done. rewrite <- Z.lxor_lor, Z.add_nocarry_lxor; [done|..];
    (apply Z.bits_inj'; intros k Hk; rewrite Z.land_spec, Z.bits_0;
     destruct (Z.lt_ge_cases k n);
       [rewrite Z.shiftl_spec_low by done; apply andb_false_r
       |rewrite <- (Z.mod_small a (2 ^ n)) by done; by rewrite Z.mod_pow2_bits_high]).
Qed.

Lemma or_bytes_value bytes : forall i seq, 0 <= i -> 0 <= seq < 2 ^ (8 * i) ->
  i + Z.of_nat (String.length bytes) <= 4 ->
  or_bytes i bytes seq = seq + 2 ^ (8 * i) * seq_value bytes.
Proof.
  induction bytes as [|c bytes IH]; intros i seq Hi Hseq Hlen; cbn [or_bytes seq_value String.length] in *.
  { lia. }
  set (x := Z.of_N (N_of_ascii c)). assert (Hx : 0 <= x < 256) by (pose proof (N_ascii_bounded c); lia).
  pose proof (Z.pow_le_mono_r 2 (8 * (i + 1)) 32 ltac:(lia) ltac:(lia)) as Hle.
  assert (Hp : 2 ^ (8 * (i + 1)) = 2 ^ (8 * i) * 256).
  { replace (8 * (i + 1)) with (8 * i + 8) by lia. by rewrite Z.pow_add_r by lia. }
  rewrite lor_shiftl_add by lia. change u32_modulus with (2 ^ 32) in *.
  rewrite u32_small by (change u32_modulus with (2 ^ 32); nia).
  rewrite IH by nia. rewrite Hp. nia.
Qed.

Section Receiving.
Context {J : JsonCpp} {JS : JsonStream} {JSL : JsonStreamLaws JS}.
Implicit Types (s : TestZmqSubscriber) (ms : list message).

Definition on_topic (cmd : string) ms : list message := base.filter (fun m => m.1.1 = cmd) ms.

(** Messages as a publisher sends them. *)
Definition stream_ok ms : Prop :=
  Forall well_formed ms /\
  forall cmd i m, on_topic cmd ms !! i = Some m -> seq_value m.2 = u32 (Z.of_nat i).

(** The JSON data of the messages on a topic. *)
Definition data_of (cmd : string) ms : list string := map (fun m : message => m.1.2) (on_topic cmd ms).

(** The subscriber has received [ms], and [n] of those on [cmd] were taken out. *)
Definition has_seen ms s : Prop :=
  forall c, default 0 (sub_nextSeq s !! c) = u32 (Z.of_nat (length (on_topic c ms))).

Definition has_queued ms cmd n s : Prop := map writeString (queue cmd s) = drop n (data_of cmd ms).

Lemma on_topic_snoc cmd ms m : on_topic cmd (ms ++ [m]) =
  on_topic cmd ms ++ if decide (m.1.1 = cmd) then [m] else [].
Proof. unfold on_topic. by rewrite filter_app. Qed.

Lemma stream_next ms m l : stream_ok (ms ++ m :: l) ->
  well_formed m /\ seq_value m.2 = u32 (Z.of_nat (length (on_topic m.1.1 ms))).
Proof.
  intros [Hw Hs]. split; [by apply (Forall_elt _ ms l)|].
  apply (Hs m.1.1). unfold on_topic. rewrite filter_app, lookup_app_r by done.
  by rewrite Nat.sub_diag, filter_cons_True.
Qed.

Lemma queue_set_queue cmd c q s : queue cmd (set_queue c q s) = if decide (c = cmd) then q else queue cmd s.
Proof.
  unfold queue. cbn. destruct (decide (c = cmd)) as [->|].
  - by rewrite lookup_insert_eq.
  - by rewrite lookup_insert_ne.
Qed.

Lemma queue_set_same ms cmd n q s : has_queued ms cmd n s -> queue cmd s = q ->
  has_queued ms cmd n (set_queue cmd q s).
Proof. unfold has_queued. rewrite queue_set_queue, decide_True by done. by intros ? <-. Qed.

(** One message is received. *)
Lemma receive_ok ms m l s : stream_ok (ms ++ m :: l) -> has_seen ms s ->
  exists s', receive m s = (Ok true, s') /\ has_seen (ms ++ [m]) s' /\
    forall cmd n, (n <= length (data_of cmd ms))%nat -> has_queued ms cmd n s ->
      has_queued (ms ++ [m]) cmd n s'.
Proof.
  intros Hst Hseen. destruct (stream_next _ _ _ Hst) as [[[v Hv] Hlen] Hseq].
  destruct m as [[topic data] bytes]. cbn [fst snd] in *. subst data.
  pose proof (or_bytes_value bytes 0 0 ltac:(lia) ltac:(lia) ltac:(lia)) as Hor.
  unfold receive. rewrite Hlen. cbn [Nat.eqb negb]. rewrite get_bind, modify_bind.
  rewrite Hor, Hseen. change (2 ^ (8 * 0)) with 1. rewrite Z.add_0_l, Z.mul_1_l, Hseq, Z.eqb_refl.
  cbn [negb]. rewrite modify_bind.
  assert (Hp : forall s0 : TestZmqSubscriber, try_catch (lift (ParseJson (writeString v))) (fun _ => fatal) s0 = (Ok v, s0)).
  { intros s0. unfold try_catch, lift, ParseJson. by rewrite stream_read_writeString. }
  rewrite (bind_Ok _ _ _ _ _ (Hp _)), modify_bind. eexists. split; [reflexivity|]. split.
  - intros c. rewrite on_topic_snoc, length_app. cbn. destruct (decide (topic = c)) as [<-|].
    + rewrite lookup_insert_eq. cbn. unfold u32. rewrite Zplus_mod_idemp_l. f_equal. lia.
    + rewrite !lookup_insert_ne, Hseen by done. cbn. do 2 f_equal. lia.
  - intros cmd n Hn Hq. unfold has_queued in *. rewrite queue_set_queue. unfold data_of in *.
    rewrite on_topic_snoc. cbn [fst]. destruct (decide (topic = cmd)) as [->|].
    + change (queue cmd _) with (queue cmd s). rewrite !map_app, drop_app_le by done.
      by rewrite Hq.
    + rewrite app_nil_r. exact Hq.
Qed.

Lemma ReceiveLoop_ok l : forall ms l' s, stream_ok (ms ++ l ++ l') -> has_seen ms s ->
  exists s', ReceiveLoop l s = (Ok true, s') /\ has_seen (ms ++ l) s' /\
    forall cmd, has_queued ms cmd 0 s -> has_queued (ms ++ l) cmd 0 s'.
Proof.
  induction l as [|m l IH]; intros ms l' s Hst Hseen.
  { exists s. rewrite app_nil_r. done. }
  destruct (receive_ok ms m (l ++ l') s Hst Hseen) as (s1 & Hrun & Hseen1 & Hq1).
  assert (E : (ms ++ m :: l) = ((ms ++ [m]) ++ l)) by by rewrite <- app_assoc.
  destruct (IH (ms ++ [m]) l' s1) as (s2 & Hrun2 & Hseen2 & Hq2).
  { rewrite app_assoc, <- E. by rewrite <- app_assoc. }
  { done. }
  exists s2. cbn [ReceiveLoop]. rewrite (bind_Ok _ _ _ _ _ Hrun), E. split_and!; [done|done|].
  intros cmd Hq. apply Hq2, Hq1; [lia|done].
Qed.

(** The wait ends when a message is there or comes in. *)
Lemma wait_for_ok cmd l : forall ms n s, stream_ok (ms ++ l) -> has_seen ms s ->
  (n <= length (data_of cmd ms))%nat -> has_queued ms cmd n s ->
  (n < length (data_of cmd (ms ++ l)))%nat ->
  exists got rest s', l = got ++ rest /\ wait_for cmd l s = (Ok (Some rest), s') /\
    has_seen (ms ++ got) s' /\ has_queued (ms ++ got) cmd n s' /\ queue cmd s' <> [].
Proof.
  induction l as [|m l IH]; intros ms n s Hst Hseen Hn Hq Hlt;
    cbn [wait_for]; rewrite get_bind, modify_bind; destruct (queue cmd s) as [|v q] eqn:E.
  - exfalso. unfold has_queued in Hq. rewrite E in Hq. cbn in Hq. symmetry in Hq.
    apply (f_equal length) in Hq. rewrite length_drop in Hq. rewrite app_nil_r in Hlt. cbn in Hq. lia.
  - exists [], [], (set_queue cmd (v :: q) s). rewrite (app_nil_r ms).
    split_and!; [done|done|exact Hseen|by apply queue_set_same|by rewrite queue_set_queue, decide_True].
  - set (s0 := set_queue cmd [] s).
    destruct (receive_ok ms m l s0 Hst Hseen) as (s1 & Hrun & Hseen1 & Hq1).
    destruct (IH (ms ++ [m]) n s1) as (got & rest & s' & -> & Hrun' & Hs' & Hq' & Hne).
    + by rewrite <- app_assoc.
    + done.
    + unfold data_of in *. rewrite on_topic_snoc, map_app, length_app. lia.
    + apply Hq1; [done|]. by apply queue_set_same.
    + by rewrite <- app_assoc.
    + exists (m :: got), rest, s'. rewrite <- !app_assoc in *. split_and!; [done| |done..].
      by rewrite (bind_Ok _ _ _ _ _ Hrun).
  - exists [], (m :: l), (set_queue cmd (v :: q) s). rewrite (app_nil_r ms).
    split_and!; [done|done|exact Hseen|by apply queue_set_same|by rewrite queue_set_queue, decide_True].
Qed.

Lemma AwaitMessages_ok cmd num : forall l ms n s, stream_ok (ms ++ l) -> has_seen ms s ->
  (n <= length (data_of cmd ms))%nat -> has_queued ms cmd n s ->
  (n + num <= length (data_of cmd (ms ++ l)))%nat ->
  exists vs got rest s', l = got ++ rest /\
    AwaitMessages cmd num l s = (Ok (Some (vs, rest)), s') /\
    map writeString vs = take num (drop n (data_of cmd (ms ++ l))) /\
    has_queued (ms ++ got) cmd (n + num) s'.
Proof.
  induction num as [|num IH]; intros l ms n s Hst Hseen Hn Hq Hlt.
  { exists [], [], l, s. rewrite app_nil_r, Nat.add_0_r, take_0. done. }
  destruct (wait_for_ok cmd l ms n s) as (got & rest & s1 & -> & Hrun & Hseen1 & Hq1 & Hne);
    [done..|lia|].
  destruct (queue cmd s1) as [|v q] eqn:E; [done|].
  unfold has_queued in Hq1. rewrite E in Hq1. cbn [map] in Hq1.
  rewrite app_assoc in *. set (ms1 := ms ++ got) in *.
  assert (Hlt1 : (n < length (data_of cmd ms1))%nat).
  { apply (f_equal length) in Hq1. rewrite length_drop in Hq1. cbn in Hq1. lia. }
  destruct (IH rest ms1 (S n) (set_queue cmd q s1)) as (vs & got' & rest' & s' & -> & Hrun' & Hvs & Hq').
  - done.
  - done.
  - lia.
  - unfold has_queued. rewrite queue_set_queue, decide_True by done.
    rewrite <- (Nat.add_1_r n), <- drop_drop, <- Hq1. done.
  - lia.
  - exists (v :: vs), (got ++ got'), rest', s'. rewrite <- app_assoc. split_and!; [done| | |].
    + cbn [AwaitMessages]. rewrite (bind_Ok _ _ _ _ _ Hrun), get_bind, E, modify_bind.
      by rewrite (bind_Ok _ _ _ _ _ Hrun').
    + cbn [map]. rewrite Hvs. unfold data_of in *.
      assert (Hd : drop n (map (fun m : message => m.1.2) (on_topic cmd (ms1 ++ got' ++ rest'))) =
                   writeString v :: drop (S n) (map (fun m : message => m.1.2) (on_topic cmd (ms1 ++ got' ++ rest')))).
      { unfold on_topic in *. rewrite filter_app, map_app, !drop_app_le by lia.
        rewrite <- Hq1. cbn. f_equal. f_equal. rewrite <- (Nat.add_1_r n), <- drop_drop, <- Hq1. done. }
      by rewrite Hd.
    + rewrite app_assoc. by replace (n + S num)%nat with (S n + num)%nat by lia.
Qed.
End Receiving.

Section EndToEnd.
Context {J : JsonCpp} {JL : JsonCppLaws J} {UV : UniValueLib} {UL : UniValueLaws UV}
  {ZS : ZmqSocket} {ZL : ZmqLaws ZS} {UM : UnorderedMap} {UML : UnorderedMapLaws UM}
  {JS : JsonStream} {JSL : JsonStreamLaws JS}.

Lemma publisher_stream (k : Sock) (ops : list pub_op) : idle k -> delivered k = [] ->
  Forall pub_op_ok ops -> Z.of_nat (length ops) < u64_modulus ->
  exists p, attempts ops (pub_start k) = (Ok tt, p) /\ stream_ok (delivered (zp_sock p)).
Proof.
  intros Hidle Hnew Hops Hlen.
  destruct (attempts_ok ops (pub_start k) 0) as (p & Hrun & Hok & _);
    [done|by apply pub_start_ok|by intros ?|done|lia|].
  exists p. split; [done|]. split; [apply Hok|]. intros c i m. apply (po_seq _ Hok).
Qed.

(** C32.  What a publisher sends is what a subscriber gets: after any operations of a new
    publisher, with failing sends in between, a new subscriber takes all messages that
    were delivered (no sequence number surprises it, all data can be read), and the
    first [num] messages that it is asked for on a topic are the JSON values of the
    first [num] that were sent on this topic, in order, no matter how many of the
    messages ([early]) were there before it was asked and how many ([late]) come while
    it waits. *)
Theorem subscriber_gets_messages (k : Sock) (ops : list pub_op)
    (Hidle : idle k) (Hnew : delivered k = []) (Hops : Forall pub_op_ok ops)
    (Hlen : Z.of_nat (length ops) < u64_modulus) :
  exists p, attempts ops (pub_start k) = (Ok tt, p) /\
    forall early late cmd num, delivered (zp_sock p) = early ++ late ->
      (num <= length (sent cmd p))%nat ->
      exists vs got rest s s', late = got ++ rest /\
        ReceiveLoop early new_subscriber = (Ok true, s) /\
        AwaitMessages cmd num late s = (Ok (Some (vs, rest)), s') /\
        map writeString vs = take num (map (fun m : message => m.1.2) (sent cmd p)) /\
        map writeString (queue cmd s') = drop num (data_of cmd (early ++ got)).
Proof.
  destruct (publisher_stream k ops Hidle Hnew Hops Hlen) as (p & Hrun & Hst).
  exists p. split; [done|]. intros early late cmd num Hd Hnum. rewrite Hd in Hst.
  destruct (ReceiveLoop_ok early [] late new_subscriber Hst) as (s & Hr & Hs & Hq).
  { intros c. cbn. by rewrite lookup_empty. }
  destruct (AwaitMessages_ok cmd num late early 0 s) as (vs & got & rest & s' & E & Ha & Hvs & Hq');
    [done|done|lia|by apply Hq| |].
  { unfold data_of, on_topic. rewrite <- Hd, length_map. exact Hnum. }
  exists vs, got, rest, s, s'. split_and!; [done|done|done| |exact Hq'].
  rewrite Hvs, drop_0. unfold data_of, on_topic. by rewrite <- Hd.
Qed.
End EndToEnd.

Module SubscriberSample.
Import Model ZmqSample.

#[export] Instance stream_model : JsonStream := fun s =>
  match Bits.decode s with Some v => Ok v | None => Throw (StdException "parse error") end.
#[export] Instance stream_model_laws : JsonStreamLaws stream_model.
Proof.
  intros v. unfold stream_read, stream_model. cbn.
  change (match Bits.decode (Bits.encode (v : json)) with Some v => Ok v | None => Throw (StdException "parse error") end = Ok v).
  by rewrite Bits.decode_encode.
Qed.

Lemma subscriber_gets_messages_witness :
  exists p vs rest s', attempts operations (pub_start refusing) = (Ok tt, p) /\
    AwaitMessages "game-block-attach json smc" 2 (delivered (zp_sock p)) new_subscriber
      = (Ok (Some (vs, rest)), s') /\ length vs = 2%nat.
Proof.
  destruct (subscriber_gets_messages refusing operations) as (p & Hrun & Hall).
  - reflexivity.
  - reflexivity.
  - exact operations_ok.
  - reflexivity.
  - assert (E : p = (attempts operations (pub_start refusing)).2) by (rewrite Hrun; reflexivity).
    destruct (Hall [] (delivered (zp_sock p)) "game-block-attach json smc"%string 2%nat eq_refl)
      as (vs & got & rest & s & s' & _ & Hr & Ha & Hvs & _).
    + rewrite E. apply Nat.leb_le. vm_compute. reflexivity.
    + cbn in Hr. injection Hr as <-. exists p, vs, rest, s'. split; [exact Hrun|]. split; [exact Ha|].
      apply (f_equal length) in Hvs. rewrite length_map, length_take, length_map in Hvs.
      rewrite Hvs, E. vm_compute. reflexivity.
Defined.

(** A message that got lost is noticed. *)
Example gap_noticed :
  (ReceiveLoop (tail (delivered (zp_sock (attempts operations (pub_start refusing)).2)))
    new_subscriber).1 = Ok false.
Proof. vm_compute. reflexivity. Qed.
End SubscriberSample.
