(* ===== verification/SubThread.v ===== *)
(** * The receiver thread of the test subscriber (src/testutils.cpp)

    [TestZmqSubscriber::ReceiveLoop] runs on a thread of its own.  It has the mutex [mut] except
    while it pauses, keeps it from one message to the next, and notifies a condition
    variable of each; [AwaitMessages] waits on it.  The system is given by [step], as in
    SyncThread.v, with the operations of TestSubscriber.v. *)

From S2P Require Import Prelude Events Json ZmqPub ZmqProps TestSubscriber.

Section SubThread.
Context {J : JsonCpp} {JS : JsonStream}.

(** Where the thread is: in the loop, with the mutex; in the pause; it has left the loop,
    by [shouldStop] or by an assertion that failed; it is joined; or the process has
    been aborted. *)
Inductive receiver_at := AtTop | Sleeping | Left | Joined | Aborted.

(** What the caller of [AwaitMessages] does: nothing; it waits for [num] more messages on [cmd];
    or it has been notified.  [got] is what it has so far. *)
Inductive client_at :=
  | Idle
  | Waiting (cmd : string) (num : nat) (got : list Value)
  | Notified (cmd : string) (num : nat) (got : list Value)
  | Served (got : list Value).

(** [inbox] are the messages that the socket has for the receiver. *)
Record SubThread := {
  st_sub : TestZmqSubscriber;
  inbox : list message;
  receiver : receiver_at;
  client : client_at;
  shouldStop : bool;
  joining : bool
}.

Definition set_receiver (r : receiver_at) (s : SubThread) : SubThread :=
  {| st_sub := st_sub s; inbox := inbox s; receiver := r; client := client s;
     shouldStop := shouldStop s; joining := joining s |}.

Definition set_client (c : client_at) (x : TestZmqSubscriber) (s : SubThread) : SubThread :=
  {| st_sub := x; inbox := inbox s; receiver := receiver s; client := c;
     shouldStop := shouldStop s; joining := joining s |}.

Definition set_inbox (l : list message) (x : TestZmqSubscriber) (s : SubThread) : SubThread :=
  {| st_sub := x; inbox := l; receiver := receiver s; client := client s;
     shouldStop := shouldStop s; joining := joining s |}.

Definition mutex_free (s : SubThread) : bool :=
  match receiver s with AtTop | Aborted => false | _ => true end.

(** The constructor. *)
Definition new_thread : SubThread :=
  {| st_sub := new_subscriber; inbox := []; receiver := AtTop; client := Idle;
     shouldStop := false; joining := false |}.

Definition notify_all (s : SubThread) : SubThread :=
  match client s with
  | Waiting cmd num got => set_client (Notified cmd num got) (st_sub s) s
  | _ => s
  end.

(** One turn of the loop, with its condition. *)
Definition turn (s : SubThread) : SubThread :=
  if shouldStop s then set_receiver Left s
  else
    match inbox s with
    | [] => set_receiver Sleeping s
    | m :: l =>
        match receive m (st_sub s) with
        | (Ok true, x) => notify_all (set_inbox l x s)
        | (Ok false, x) => set_receiver Left (set_inbox l x s)
        | (_, x) => set_receiver Aborted (set_inbox l x s)
        end
    end.

(** [AwaitMessages] from its loop on, until it waits or returns. *)
Fixpoint await (cmd : string) (num : nat) (got : list Value) (x : TestZmqSubscriber)
  : client_at * TestZmqSubscriber :=
  match num with
  | O => (Served got, x)
  | S num' =>
      match queue cmd x with
      | [] => (Waiting cmd num got, set_queue cmd [] x)
      | v :: q => await cmd num' (got ++ [v]) (set_queue cmd q x)
      end
  end.

Definition client_turn (cmd : string) (num : nat) (got : list Value) (s : SubThread) : SubThread :=
  let '(c, x) := await cmd num got (st_sub s) in set_client c x s.

Inductive event :=
  | EvArrive (m : message)
  | EvTurn
  | EvWake
  | EvAwait (cmd : string) (num : nat)
  | EvClient
  | EvSpurious
  | EvForgetAll
  | EvDestroy
  | EvJoined.

Definition step (e : event) (s : SubThread) : option SubThread :=
  match e, receiver s, client s with
  | _, Aborted, _ => None
  | EvArrive m, _, _ => Some (set_inbox (inbox s ++ [m]) (st_sub s) s)
  | EvTurn, AtTop, _ => Some (turn s)
  | EvWake, Sleeping, _ => Some (set_receiver AtTop s)
  | EvAwait cmd num, _, Idle =>
      if mutex_free s && negb (joining s) then Some (client_turn cmd num [] s) else None
  | EvClient, _, Notified cmd num got =>
      if mutex_free s then Some (client_turn cmd num got s) else None
  | EvClient, _, Served got => Some (set_client Idle (st_sub s) s)
  | EvSpurious, _, Waiting cmd num got => Some (set_client (Notified cmd num got) (st_sub s) s)
  | EvForgetAll, _, Idle =>
      if mutex_free s && negb (joining s) then
        match ForgetAll (st_sub s) with (_, x) => Some (set_client Idle x s) end
      else None
  | EvDestroy, _, Idle =>
      if mutex_free s && negb (joining s) then
        Some {| st_sub := st_sub s; inbox := inbox s; receiver := receiver s; client := Idle;
                shouldStop := true; joining := true |}
      else None
  | EvJoined, Left, _ => if joining s then Some (set_receiver Joined s) else None
  | _, _, _ => None
  end.

Notation run_events := (Events.run_events step).

(** ** What a trace brings in and hands out *)

Definition got_of (c : client_at) : list Value :=
  match c with Idle => [] | Waiting _ _ got | Notified _ _ got | Served got => got end.

Definition arriving (e : event) : list message := match e with EvArrive m => [m] | _ => [] end.

Definition arrivals (tr : list event) : list message := flat_map arriving tr.

(** The values of [cmd] that an event takes out of the queue, from [s] to [s']. *)
Definition handed (cmd : string) (e : event) (s s' : SubThread) : list Value :=
  match e, client s with
  | EvAwait c _, _ => if decide (c = cmd) then got_of (client s') else []
  | EvClient, Notified c _ got =>
      if decide (c = cmd) then drop (length got) (got_of (client s')) else []
  | _, _ => []
  end.

Fixpoint handed_out (cmd : string) (tr : list event) (s : SubThread) : list Value :=
  match tr with
  | [] => []
  | e :: tr' =>
      match step e s with
      | Some s' => handed cmd e s s' ++ handed_out cmd tr' s'
      | None => []
      end
  end.

Definition keeps_messages (e : event) : bool := match e with EvForgetAll => false | _ => true end.

Context {JSL : JsonStreamLaws JS}.

(** The messages [ms] have been received, and the values [g cmd] of them handed out; a caller
    does not wait while there is a message for it. *)
Record thread_ok (all : list message) (g : string -> list Value) (s : SubThread) : Prop := {
  to_received : exists ms, all = ms ++ inbox s /\ has_seen ms (st_sub s) /\
    forall cmd, data_of cmd ms = map writeString (g cmd ++ queue cmd (st_sub s));
  to_waiting : forall cmd num got, client s = Waiting cmd num got -> queue cmd (st_sub s) = [];
  to_left : receiver s = Left \/ receiver s = Joined -> shouldStop s = true;
  to_alive : receiver s <> Aborted
}.

Lemma thread_ok_same all g s s' : thread_ok all g s -> inbox s' = inbox s ->
  st_sub s' = st_sub s -> (client s' = client s \/ forall c n l, client s' <> Waiting c n l) ->
  (receiver s' = Left \/ receiver s' = Joined -> shouldStop s' = true) ->
  receiver s' <> Aborted -> thread_ok all g s'.
Proof.
  intros [Hr Hw Hl Ha] Hi Hs Hc Hl' Ha'. split; [by rewrite Hi, Hs| |done|done].
  intros cmd num got E. destruct Hc as [Hc|Hc]; [|by destruct (Hc cmd num got)].
  rewrite Hs. apply (Hw cmd num got). congruence.
Qed.

Lemma await_ok cmd num : forall got x c x', await cmd num got x = (c, x') ->
  sub_nextSeq x' = sub_nextSeq x /\
  (forall cmd', cmd' <> cmd -> queue cmd' x' = queue cmd' x) /\
  (exists vs, got_of c = got ++ vs /\ queue cmd x = vs ++ queue cmd x') /\
  (forall c' n l, c = Waiting c' n l -> queue c' x' = []).
Proof.
  induction num as [|num IH]; intros got x c x'; cbn [await].
  { intros [= <- <-]. split_and!; [done|done| |done]. exists []. by rewrite app_nil_r. }
  destruct (queue cmd x) as [|v q] eqn:E.
  - intros [= <- <-]. split_and!; [done| | |].
    + intros cmd' Hne. rewrite queue_set_queue. by destruct (decide (cmd = cmd')).
    + exists []. rewrite app_nil_r, queue_set_queue. by destruct (decide (cmd = cmd)).
    + intros c' n l [= <- _ _]. rewrite queue_set_queue. by destruct (decide (cmd = cmd)).
  - intros H. apply IH in H as (Hn & Ho & (vs & Hg & Hq) & Hw). split_and!; [by rewrite Hn| | |done].
    + intros cmd' Hne. rewrite Ho, queue_set_queue by done. by destruct (decide (cmd = cmd')).
    + exists (v :: vs). rewrite Hg, <- app_assoc. split; [done|].
      rewrite queue_set_queue in Hq. destruct (decide (cmd = cmd)); [|done]. by rewrite Hq.
Qed.

(** The caller takes messages out. *)
Lemma client_turn_ok all g cmd num got s : thread_ok all g s ->
  let s' := client_turn cmd num got s in
  exists vs, got_of (client s') = got ++ vs /\
    thread_ok all (fun c => g c ++ if decide (cmd = c) then vs else []) s'.
Proof.
  intros [(ms & Hall & Hseen & Hdata) _ Hl Ha]. unfold client_turn.
  destruct (await cmd num got (st_sub s)) as [c x] eqn:E.
  destruct (await_ok _ _ _ _ _ _ E) as (Hn & Ho & (vs & Hg & Hq) & Hw).
  exists vs. split; [done|]. split; cbn; [|done|done|done].
  exists ms. split_and!; [done|intros d; rewrite Hn; apply Hseen|]. intros d. rewrite Hdata.
  destruct (decide (cmd = d)) as [<-|Hne]; [by rewrite Hq, app_assoc|].
  by rewrite app_nil_r, Ho by done.
Qed.

(** The receiver takes a message in. *)
Lemma receive_turn_ok all g s m l : thread_ok all g s -> stream_ok all ->
  inbox s = m :: l -> exists x, receive m (st_sub s) = (Ok true, x) /\
    thread_ok all g (notify_all (set_inbox l x s)).
Proof.
  intros [(ms & Hall & Hseen & Hdata) Hw Hl Ha] Hst Hin. rewrite Hin in Hall. subst all.
  destruct (receive_ok ms m l (st_sub s) Hst Hseen) as (x & Hrun & Hseen' & Hq).
  exists x. split; [done|]. unfold notify_all.
  enough (Hrec : exists ms0, ms ++ m :: l = ms0 ++ l /\ has_seen ms0 x /\
    forall cmd, data_of cmd ms0 = map writeString (g cmd ++ queue cmd x)).
  { cbn [client set_inbox]. destruct (client s) eqn:Ec; (split; cbn; [exact Hrec|by rewrite ?Ec|done|done]). }
  exists (ms ++ [m]). rewrite <- app_assoc. split_and!; [done|done|]. intros cmd.
  assert (Hlen : (length (g cmd) <= length (data_of cmd ms))%nat)
    by (rewrite Hdata, length_map, length_app; lia).
  assert (Hq' : has_queued (ms ++ [m]) cmd (length (g cmd)) x).
  { apply Hq; [done|]. unfold has_queued. rewrite Hdata, map_app.
    rewrite <- (length_map writeString (g cmd)) at 1. by rewrite drop_app_length. }
  unfold has_queued in Hq'. rewrite map_app, Hq'.
  assert (Htake : map writeString (g cmd) = take (length (g cmd)) (data_of cmd (ms ++ [m]))).
  { unfold data_of in *. rewrite on_topic_snoc, map_app, take_app_le by done.
    rewrite Hdata, map_app. rewrite <- (length_map writeString (g cmd)).
    by rewrite take_app_length. }
  by rewrite Htake, take_drop.
Qed.

Lemma thread_ok_ext all all' g g' s : all' = all -> (forall c, g' c = g c) ->
  thread_ok all g s -> thread_ok all' g' s.
Proof.
  intros -> Hg [(ms & Hall & Hseen & Hd) Hw Hl Ha]. split; [|done..].
  exists ms. split_and!; [done..|]. intros cmd. by rewrite Hg.
Qed.

Lemma stream_prefix (ms l : list message) : stream_ok (ms ++ l) -> stream_ok ms.
Proof.
  intros [Hw Hs]. split; [by apply Forall_app in Hw as [? _]|]. intros cmd i m Hi.
  apply (Hs cmd). unfold on_topic in *. rewrite filter_app. by apply lookup_app_l_Some.
Qed.

Lemma turn_ok all g s : thread_ok all g s -> stream_ok all -> receiver s = AtTop ->
  thread_ok all g (turn s).
Proof.
  intros Hs Hst Hr. unfold turn. destruct (shouldStop s) eqn:Es.
  { apply (thread_ok_same all g s); try done; auto. }
  destruct (inbox s) as [|m l] eqn:Ei.
  { apply (thread_ok_same all g s); try done; auto; by intros [?|?]. }
  destruct (receive_turn_ok all g s m l Hs Hst Ei) as (x & -> & Hx). exact Hx.
Qed.

(** Events that hand out nothing, and those by which the caller goes on. *)
Lemma step_same all g s e s' : arriving e = [] -> (forall c, handed c e s s' = []) ->
  thread_ok all g s' -> thread_ok (all ++ arriving e) (fun c => g c ++ handed c e s s') s'.
Proof.
  intros -> Hh. apply thread_ok_ext; [by rewrite app_nil_r|]. intros c. by rewrite Hh, app_nil_r.
Qed.

Lemma step_client all g s e cmd num got : thread_ok all g s -> arriving e = [] ->
  let s' := client_turn cmd num got s in
  (forall c, handed c e s s' =
     if decide (cmd = c) then drop (length got) (got_of (client s')) else []) ->
  thread_ok (all ++ arriving e) (fun c => g c ++ handed c e s s') s'.
Proof.
  intros Hs He s' Hh. destruct (client_turn_ok all g cmd num got s Hs) as (vs & Hg & Ht).
  revert Ht. apply thread_ok_ext; [by rewrite He, app_nil_r|]. intros c. rewrite Hh. unfold s'.
  by rewrite Hg, drop_app_length.
Qed.

Lemma thread_step all g s e s' : thread_ok all g s -> stream_ok (all ++ arriving e) ->
  keeps_messages e = true -> step e s = Some s' ->
  thread_ok (all ++ arriving e) (fun c => g c ++ handed c e s s') s'.
Proof.
  intros Hs Hst He E. pose proof Hs as [_ _ Hl Ha]. unfold step in E. destruct e; try done.
  - assert (s' = set_inbox (inbox s ++ [m]) (st_sub s) s) as -> by (destruct (receiver s); congruence).
    destruct Hs as [(ms & Hall & Hseen & Hd) Hw _ _]. split; [|done..].
    exists ms. cbn. rewrite Hall, <- app_assoc. split_and!; [done..|]. intros c. by rewrite app_nil_r.
  - destruct (receiver s) eqn:Er; try done. injection E as <-.
    apply step_same; [done|done|]. cbn in Hst. rewrite app_nil_r in Hst. by apply turn_ok.
  - destruct (receiver s) eqn:Er; try done. injection E as <-. apply step_same; [done|done|].
    apply (thread_ok_same all g s); try done; auto; by intros [?|?].
  - assert (s' = client_turn cmd num [] s) as ->.
    { unfold mutex_free in E. destruct (receiver s), (client s); try done;
        destruct (joining s); cbn in E; try done; congruence. }
    by apply step_client.
  - destruct (client s) as [|?|cmd num got|got] eqn:Ec;
      [by destruct (receiver s)|by destruct (receiver s)| |].
    + assert (s' = client_turn cmd num got s) as ->
        by (unfold mutex_free in E; destruct (receiver s); congruence).
      apply step_client; [done|done|]. intros c. cbn [handed]. by rewrite Ec.
    + assert (s' = set_client Idle (st_sub s) s) as -> by (destruct (receiver s); congruence).
      apply step_same; [done|intros c; cbn [handed]; by rewrite Ec|].
      apply (thread_ok_same all g s); try done; auto.
  - destruct (client s) as [|cmd num got| |] eqn:Ec; try (by destruct (receiver s)).
    assert (s' = set_client (Notified cmd num got) (st_sub s) s) as ->
      by (destruct (receiver s); congruence).
    apply step_same; [done|done|]. apply (thread_ok_same all g s); try done; by auto.
  - apply step_same; [done|done|]. unfold mutex_free in E.
    destruct (receiver s) eqn:Er, (client s) eqn:Ec, (joining s); cbn in E; try done;
      injection E as <-; apply (thread_ok_same all g s); cbn; rewrite ?Er; try done; auto.
  - apply step_same; [done|done|]. destruct (receiver s) eqn:Er; try done.
    destruct (joining s); [|done]. injection E as <-.
    apply (thread_ok_same all g s); cbn; try done; auto.
Qed.

Lemma thread_run tr : forall all g s s', thread_ok all g s -> stream_ok (all ++ arrivals tr) ->
  forallb keeps_messages tr = true -> run_events tr s = Some s' ->
  thread_ok (all ++ arrivals tr) (fun c => g c ++ handed_out c tr s) s'.
Proof.
  induction tr as [|e tr IH]; intros all g s s' Hs Hst Hk Hrun; cbn in Hst, Hk, Hrun.
  - injection Hrun as <-. revert Hs. apply thread_ok_ext; [apply app_nil_r|]. intros c. apply app_nil_r.
  - apply andb_prop in Hk as [He Hk]. destruct (step e s) as [s1|] eqn:E; [|done].
    cbn [handed_out arrivals flat_map]. rewrite app_assoc in Hst |- *. rewrite E.
    assert (Hst1 : stream_ok (all ++ arriving e)) by by apply stream_prefix in Hst.
    pose proof (IH _ _ s1 s' (thread_step all g s e s1 Hs Hst1 He E) Hst Hk Hrun) as H.
    revert H. apply thread_ok_ext; [done|]. intros c. by rewrite app_assoc.
Qed.

(** ** The theorems *)

(** In every interleaving of the receiver with a caller and with the messages of a publisher
    that come in, no assertion fails, and on each topic the data that have come in are,
    in order, those of the values that were handed out, of the values in the queue, and of the
    messages that the socket still has; and nobody waits for a message that is in the
    queue. *)
Theorem thread_delivers (tr : list event) (s : SubThread) (Hst : stream_ok (arrivals tr))
    (Hk : forallb keeps_messages tr = true) (Hrun : run_events tr new_thread = Some s) :
  receiver s <> Aborted /\ (receiver s = Left -> shouldStop s = true) /\
  (forall cmd, data_of cmd (arrivals tr) =
    map writeString (handed_out cmd tr new_thread ++ queue cmd (st_sub s)) ++
    data_of cmd (inbox s)) /\
  (forall cmd num got, client s = Waiting cmd num got -> queue cmd (st_sub s) = []).
Proof.
  assert (Hnew : thread_ok [] (fun _ => []) new_thread).
  { split; [|done|by intros [?|?]|done]. exists []. split_and!; [done| |done].
    intros c. cbn. by rewrite lookup_empty. }
  destruct (thread_run tr [] (fun _ => []) new_thread s Hnew Hst Hk Hrun)
    as [(ms & Hall & _ & Hd) Hw Hl Ha]. cbn in Hall.
  split_and!; [done|by auto| |done]. intros cmd. cbn [app] in Hd. rewrite Hall, <- Hd.
  unfold data_of, on_topic. by rewrite filter_app, map_app.
Qed.

Definition by_receiver (e : event) : bool := match e with EvTurn | EvWake => true | _ => false end.

Definition moves_left (s : SubThread) : nat :=
  match receiver s with Sleeping => 2 | AtTop => 1 | _ => 0 end.

Definition stopping (s : SubThread) : Prop :=
  shouldStop s = true /\ joining s = true /\ client s = Idle /\ receiver s <> Aborted.

Lemma subscriber_step s e s' : stopping s -> step e s = Some s' ->
  stopping s' /\ (moves_left s' + (if by_receiver e then 1 else 0) <= moves_left s)%nat.
Proof.
  intros (Hs & Hj & Hc & Ha) E. unfold stopping, moves_left, step, mutex_free in *.
  destruct e, (receiver s) eqn:Er; try done; rewrite ?Hc, ?Hj in E; cbn in E; try done;
    injection E as <-; unfold turn; rewrite ?Hs; cbn; rewrite ?Er; (split; [done|lia]).
Qed.

(** The destructor ends: once it has asked the thread to stop, the thread takes no other
    message and makes at most two moves, those that are left are possible, and then it
    is joined. *)
Theorem subscriber_stops (s s1 s2 : SubThread) (tr : list event)
    (Hj : receiver s <> Joined) (Hstop : step EvDestroy s = Some s1)
    (Hrun : run_events tr s1 = Some s2) :
  (Events.count by_receiver tr <= 2)%nat /\
  exists next s3, (length next <= 3)%nat /\ run_events next s2 = Some s3 /\
    receiver s3 = Joined /\ st_sub s3 = st_sub s2.
Proof.
  assert (Hs1 : stopping s1 /\ (moves_left s1 <= 2)%nat).
  { unfold step, stopping, moves_left, mutex_free in *.
    destruct (receiver s) eqn:Er, (client s), (joining s); cbn in Hstop; try done;
      injection Hstop as <-; cbn; rewrite ?Er; (split; [by split_and!|lia]). }
  destruct Hs1 as [Hs1 Hm1].
  destruct (run_events_measure step stopping moves_left (fun _ => true) by_receiver
    (fun x e x' Hx _ E => subscriber_step x e x' Hx E) tr s1 s2 Hs1 ltac:(by clear; induction tr) Hrun)
    as [(Hs & Hjn & Hc & Ha) Hm].
  split; [lia|]. destruct (receiver s2) eqn:Er; try done.
  - exists [EvTurn; EvJoined]. eexists. split_and!; [cbn; lia| |..].
    + cbn. rewrite Er. unfold turn. rewrite Hs. cbn. by rewrite Hjn.
    + done.
    + done.
  - exists [EvWake; EvTurn; EvJoined]. eexists. split_and!; [cbn; lia| |..].
    + cbn. rewrite Er. cbn. unfold turn. cbn. rewrite Hs. cbn. by rewrite Hjn.
    + done.
    + done.
  - exists [EvJoined]. eexists. split_and!; [cbn; lia|cbn; by rewrite Er, Hjn|done|done].
  - exists [], s2. split_and!; [cbn; lia|done..].
Qed.
End SubThread.

(** ** Examples *)
Module SubThreadSample.
Import Model ZmqSample SubscriberSample.

(** The first three messages of the publisher of ZmqProps.v. *)
Definition sent_messages : list message :=
  take 3 (delivered (zp_sock (attempts operations (pub_start refusing)).2)).

(** The receiver pauses; a caller waits for two messages on a topic; three come in, are received
    while the receiver keeps the mutex, and the caller gets its two in the next pause. *)
Definition awaiting : list event :=
  [EvTurn; EvAwait "game-block-attach json smc" 2] ++ map EvArrive sent_messages ++
  [EvWake; EvTurn; EvTurn; EvTurn; EvTurn; EvClient].

Lemma awaiting_run : exists s, Events.run_events step awaiting new_thread = Some s.
Proof.
  destruct (Events.run_events step awaiting new_thread) as [s|] eqn:E; [by exists s|].
  assert (H : (match Events.run_events step awaiting new_thread with Some _ => true | None => false end) = true)
    by (vm_compute; reflexivity).
  by rewrite E in H.
Qed.

Lemma sent_stream : stream_ok sent_messages.
Proof.
  destruct (publisher_stream refusing operations) as (p & Hrun & Hst);
    [reflexivity|reflexivity|exact operations_ok|reflexivity|].
  unfold sent_messages. rewrite Hrun. apply (stream_prefix _ (drop 3 (delivered (zp_sock p)))).
  by rewrite take_drop.
Qed.

Lemma thread_delivers_witness : exists s,
  Events.run_events step awaiting new_thread = Some s /\ receiver s <> Aborted /\
  forall cmd, data_of cmd (arrivals awaiting) =
    map writeString (handed_out cmd awaiting new_thread ++ queue cmd (st_sub s)) ++
    data_of cmd (inbox s).
Proof.
  destruct awaiting_run as [s Hrun]. exists s.
  assert (Hst : stream_ok (arrivals awaiting)).
  { assert (arrivals awaiting = sent_messages) as -> by (vm_compute; reflexivity).
    exact sent_stream. }
  destruct (thread_delivers awaiting s Hst eq_refl Hrun) as (Ha & _ & Hd & _).
  split; [exact Hrun|]. split; [exact Ha|exact Hd].
Defined.

Lemma subscriber_stops_witness : exists s1, step EvDestroy (set_receiver Sleeping new_thread) = Some s1 /\
  exists next s3, Events.run_events step next s1 = Some s3 /\ receiver s3 = Joined.
Proof.
  eexists. split; [reflexivity|].
  destruct (subscriber_stops (set_receiver Sleeping new_thread) _ _ [] ltac:(discriminate)
    eq_refl eq_refl) as (_ & next & s3 & _ & Hrun & Hj & _).
  exists next, s3. split; [exact Hrun|exact Hj].
Defined.

Example caller_served :
  (fun s => (receiver s, length (inbox s), length (got_of (client s)))) <$>
    Events.run_events step awaiting new_thread = Some (Sleeping, 0%nat, 2%nat).
Proof. vm_compute. reflexivity. Qed.

(** The caller has to wait for the mutex while the receiver has it. *)
Example caller_needs_mutex :
  Events.run_events step [EvAwait "game-block-attach json smc" 2] new_thread = None.
Proof. vm_compute. reflexivity. Qed.
End SubThreadSample.
