(* ===== verification/Publisher.v ===== *)
(** * What the rest of the program needs of the ZMQ publisher

    The interface between [ZmqPub] and its clients, the manager of pending moves
    and the controller: the operations, and as laws that they never abort when the
    blocks and moves are as base chains return them.  [ZmqPub] implements it. *)

From S2P Require Import Prelude Json BlockData ZmqPub ZmqProofs ZmqProps.

Section Interface.
Context {J : JsonCpp}.

Class Publisher (P : Type) := {
  pub_open : string -> M P unit;
  pub_track : string -> M P unit;
  pub_untrack : string -> M P unit;
  pub_attach : BlockData -> string -> M P unit;
  pub_detach : BlockData -> string -> M P unit;
  pub_pending : list MoveData -> M P unit
}.

Class PublisherLaws {P} (PB : Publisher P) := {
  pub_inv : P -> Prop;
  pub_moves_ok : list MoveData -> Prop;
  pub_attach_ends : forall blk tok p r p', pub_inv p -> block_typed blk ->
    pub_attach blk tok p = (r, p') -> ends r /\ pub_inv p';
  pub_detach_ends : forall blk tok p r p', pub_inv p -> block_typed blk ->
    pub_detach blk tok p = (r, p') -> ends r /\ pub_inv p';
  pub_pending_ends : forall mvs p r p', pub_inv p -> pub_moves_ok mvs ->
    pub_pending mvs p = (r, p') -> ends r /\ pub_inv p'
}.

(** Pending moves can always be published. *)
Definition pending_reliable {P} {PB : Publisher P} {PL : PublisherLaws PB} : Prop :=
  forall mvs p, pub_inv p -> pub_moves_ok mvs -> exists p', pub_pending mvs p = (Ok tt, p').

(** ** Notifications

    The two kinds of notification about blocks, what sends them, and how a
    receiver applies them to the block that it has arrived at. *)
Inductive note :=
  | Detach (blk : BlockData)
  | Attach (blk : BlockData).

Definition note_block (n : note) : BlockData :=
  match n with Detach blk | Attach blk => blk end.

Definition send_note {P} {PB : Publisher P} (reqtoken : string) (n : note) : M P unit :=
  match n with
  | Detach blk => pub_detach blk reqtoken
  | Attach blk => pub_attach blk reqtoken
  end.

Definition apply_note (cur : string) (n : note) : option string :=
  match n with
  | Detach blk => if bool_decide (blk_hash blk = cur) then Some (blk_parent blk) else None
  | Attach blk => if bool_decide (blk_parent blk = cur) then Some (blk_hash blk) else None
  end.

Fixpoint replay (cur : string) (l : list note) : option string :=
  match l with
  | [] => Some cur
  | n :: l' => cur' ← apply_note cur n; replay cur' l'
  end.

Lemma replay_app cur l1 l2 : replay cur (l1 ++ l2) = cur' ← replay cur l1; replay cur' l2.
Proof.
  revert cur. induction l1 as [|n l1 IH]; intros cur; [done|]. cbn.
  destruct (apply_note cur n); cbn; [apply IH|done].
Qed.

Lemma send_notes_ends {P} {PB : Publisher P} {PL : PublisherLaws PB} tok l : forall p r p',
  pub_inv p -> Forall (fun n => block_typed (note_block n)) l ->
  forM l (send_note tok) p = (r, p') -> ends r /\ pub_inv p'.
Proof.
  induction l as [|n l IH]; intros p r p' Hp Hl Hrun.
  - by injection Hrun as <- <-.
  - apply Forall_cons in Hl as [Hn Hl]. cbn [forM] in Hrun.
    destruct (send_note tok n p) as [r1 p1] eqn:E.
    assert (ends r1 /\ pub_inv p1) as [He Hp1].
    { destruct n; [by eapply pub_detach_ends|by eapply pub_attach_ends]. }
    destruct r1; try done.
    + rewrite (bind_Ok _ _ _ _ _ E) in Hrun. by eapply IH.
    + unfold bind in Hrun. rewrite E in Hrun. by injection Hrun as <- <-.
Qed.
End Interface.

(** ** The implementation *)

Section Implementation.
Context {J : JsonCpp} {UV : UniValueLib} {ZS : ZmqSocket} {UM : UnorderedMap}.

#[export] Instance zmq_publisher : Publisher ZmqPub := {|
  pub_open := open_ZmqPub;
  pub_track := TrackGame;
  pub_untrack := UntrackGame;
  pub_attach := SendBlockAttach;
  pub_detach := SendBlockDetach;
  pub_pending := SendPendingMoves
|}.

Context {JL : JsonCppLaws J} {UL : UniValueLaws UV} {ZL : ZmqLaws ZS} {UML : UnorderedMapLaws UM}.

Lemma sends_ends G f P s r s' : sends G f P -> games s = G -> pub_ok s -> f s = (r, s') ->
  ends r /\ pub_ok s'.
Proof.
  intros Hf Hg Hok Hrun. destruct (Hf s Hok Hg) as (r' & s1 & ms & Hrun' & ? & _ & _ & Hr).
  rewrite Hrun in Hrun'. injection Hrun' as <- <-. split; [|done].
  by destruct Hr as [[-> _]|[_ [e ->]]].
Qed.

#[export] Program Instance zmq_publisher_laws : PublisherLaws zmq_publisher := {|
  pub_inv := pub_ok;
  pub_moves_ok := pending_ok
|}.
Next Obligation.
  intros blk tok p r p' Hp Hb Hrun.
  exact (sends_ends _ _ _ p r p' (SendBlock_sends (games p) _ blk tok Hb) eq_refl Hp Hrun).
Qed.
Next Obligation.
  intros blk tok p r p' Hp Hb Hrun.
  exact (sends_ends _ _ _ p r p' (SendBlock_sends (games p) _ blk tok Hb) eq_refl Hp Hrun).
Qed.
Next Obligation.
  intros mvs p r p' Hp Hb Hrun.
  exact (sends_ends _ _ _ p r p' (SendPendingMoves_sends (games p) mvs Hb) eq_refl Hp Hrun).
Qed.

(** With a socket that does not refuse messages. *)
Lemma zmq_pending_reliable : ~ refuses -> pending_reliable (PB:=zmq_publisher).
Proof.
  intros Hno mvs p Hp Hm.
  destruct (SendPendingMoves_sends (games p) mvs Hm p Hp eq_refl)
    as (r & p' & ms & Hrun & _ & _ & _ & [[-> _]|[? _]]); [by exists p'|done].
Qed.
End Implementation.
