(* ===== verification/Pending.v ===== *)
(** * Pending moves (src/pending.cpp, src/private/pending.hpp)

    [PendingManager] holds back pending moves until the chainstate has caught up
    with the tip after which they were announced.  The publisher, to which the
    program's class has a reference, is part of the state here. *)

From S2P Require Import Prelude Json BlockData ZmqPub ZmqProofs ZmqProps Publisher.

Section Manager.
Context {J : JsonCpp} {P : Type} {PB : Publisher P}.

Record PendingManager := {
  zmq : P;
  chainstateTip : string;
  notificationTip : string;
  pendingsQueue : list (list MoveData)
}.

Definition pm_start (p : P) : PendingManager :=
  {| zmq := p; chainstateTip := ""; notificationTip := ""; pendingsQueue := [] |}.

Definition on_zmq {A} (m : M P A) : M PendingManager A :=
  zoom zmq (fun p s => {| zmq := p; chainstateTip := chainstateTip s;
                          notificationTip := notificationTip s;
                          pendingsQueue := pendingsQueue s |}) m.

Definition set_queue (q : list (list MoveData)) (s : PendingManager) : PendingManager :=
  {| zmq := zmq s; chainstateTip := chainstateTip s;
     notificationTip := notificationTip s; pendingsQueue := q |}.

Definition set_notificationTip (t : string) (s : PendingManager) : PendingManager :=
  {| zmq := zmq s; chainstateTip := chainstateTip s;
     notificationTip := t; pendingsQueue := pendingsQueue s |}.

Definition set_chainstateTip (t : string) (s : PendingManager) : PendingManager :=
  {| zmq := zmq s; chainstateTip := t;
     notificationTip := notificationTip s; pendingsQueue := pendingsQueue s |}.

Definition nonempty (s : string) : bool := negb (bool_decide (s = EmptyString)).

Definition TipChanged (tip : string) : M PendingManager unit :=
  modify (set_queue []);;
  modify (set_notificationTip tip);;
  s <- get;;
  check (nonempty (notificationTip s)).

Definition PendingMoves (mvs : list MoveData) : M PendingManager unit :=
  s <- get;;
  if negb (nonempty (chainstateTip s)) then ret tt
  else if bool_decide (chainstateTip s = notificationTip s) then
    check (empty_b (pendingsQueue s));;
    on_zmq (pub_pending mvs)
  else modify (set_queue (pendingsQueue s ++ [mvs])).

Definition ChainstateTipChanged (newTip : string) : M PendingManager unit :=
  modify (set_chainstateTip newTip);;
  s <- get;;
  check (nonempty (chainstateTip s));;
  if bool_decide (chainstateTip s = notificationTip s) then
    forM (pendingsQueue s) (fun mv => on_zmq (pub_pending mv));;
    modify (set_queue [])
  else ret tt.

(** ** Histories *)

Inductive pm_event :=
  | EvTip (tip : string)
  | EvMoves (mvs : list MoveData)
  | EvChainstate (tip : string).

Definition pm_run (e : pm_event) : M PendingManager unit :=
  match e with
  | EvTip t => TipChanged t
  | EvMoves mvs => PendingMoves mvs
  | EvChainstate t => ChainstateTipChanged t
  end.

(** The specification, without a queue: whether moves announced now, when the tips
    are [ctip] and [ntip], are to be published in the course of [evs]. *)
Fixpoint delivered_in (ctip ntip : string) (evs : list pm_event) : bool :=
  bool_decide (ctip = ntip) ||
  match evs with
  | [] => false
  | EvTip _ :: _ => false
  | EvMoves _ :: evs' => delivered_in ctip ntip evs'
  | EvChainstate t :: evs' => delivered_in t ntip evs'
  end.

(** The moves to be published in the course of [evs]. *)
Fixpoint published (ctip ntip : string) (evs : list pm_event) : list (list MoveData) :=
  match evs with
  | [] => []
  | EvTip t :: evs' => published ctip t evs'
  | EvChainstate t :: evs' => published t ntip evs'
  | EvMoves mvs :: evs' =>
      (if nonempty ctip && delivered_in ctip ntip evs' then [mvs] else [])
      ++ published ctip ntip evs'
  end.

Lemma on_zmq_run {A} (m : M P A) s r p : m (zmq s) = (r, p) ->
  on_zmq m s = (r, {| zmq := p; chainstateTip := chainstateTip s;
                      notificationTip := notificationTip s;
                      pendingsQueue := pendingsQueue s |}).
Proof. unfold on_zmq, zoom. by intros ->. Qed.

Lemma forM_on_zmq {A} (f : A -> M P unit) l : forall s,
  forM l (fun x => on_zmq (f x)) s = on_zmq (forM l f) s.
Proof.
  induction l as [|x l IH]; intros s; [by destruct s|]. cbn [forM]. unfold bind.
  destruct (f x (zmq s)) as [r p] eqn:E. rewrite (on_zmq_run _ _ _ _ E).
  destruct r; [rewrite IH| | | |]; unfold on_zmq, zoom; cbn; rewrite E; try done.
Qed.

Lemma nonempty_true t : t <> EmptyString -> nonempty t = true.
Proof. intros. unfold nonempty. by rewrite bool_decide_eq_false_2. Qed.

Lemma delivered_in_eq t evs : delivered_in t t evs = true.
Proof. destruct evs; cbn; by rewrite bool_decide_eq_true_2. Qed.

(** ** With a publisher that may fail *)

Section Laws.
Context {PL : PublisherLaws PB}.

Definition pm_inv (s : PendingManager) : Prop :=
  pub_inv (zmq s) /\ Forall pub_moves_ok (pendingsQueue s).

Lemma publish_all_ends l : forall p r p', pub_inv p -> Forall pub_moves_ok l ->
  forM l pub_pending p = (r, p') -> ends r /\ pub_inv p'.
Proof.
  induction l as [|x l IH]; intros p r p' Hp Hl Hrun.
  - by injection Hrun as <- <-.
  - apply Forall_cons in Hl as [Hx Hl]. cbn [forM] in Hrun.
    destruct (pub_pending x p) as [r1 p1] eqn:E.
    destruct (pub_pending_ends _ _ _ _ Hp Hx E) as [He Hp1]. destruct r1; try done.
    + rewrite (bind_Ok _ _ _ _ _ E) in Hrun. by eapply IH.
    + unfold bind in Hrun. rewrite E in Hrun. by injection Hrun as <- <-.
Qed.

Lemma ChainstateTipChanged_ends s t r s' : pm_inv s -> t <> EmptyString ->
  ChainstateTipChanged t s = (r, s') -> ends r /\ pm_inv s'.
Proof.
  intros [Hp Hq] Ht. destruct s as [p c n q]. unfold ChainstateTipChanged.
  rewrite modify_bind, get_bind. cbn [chainstateTip set_chainstateTip notificationTip pendingsQueue zmq] in *.
  rewrite check_true by by apply nonempty_true.
  case_bool_decide; [|by intros [= <- <-]].
  destruct (forM q pub_pending p) as [r1 p1] eqn:E.
  destruct (publish_all_ends _ _ _ _ Hp Hq E) as [He Hp1].
  unfold bind. rewrite forM_on_zmq.
  rewrite (on_zmq_run (forM q pub_pending) _ r1 p1) by exact E.
  destruct r1; try done; intros [= <- <-]; (split; [done|]); split; cbn; done.
Qed.
Definition pm_event_ok (e : pm_event) : Prop :=
  match e with
  | EvTip t | EvChainstate t => t <> EmptyString
  | EvMoves mvs => pub_moves_ok mvs
  end.

(** A queue holds moves only while the tips differ. *)
Definition pm_ok (s : PendingManager) : Prop :=
  (chainstateTip s = notificationTip s -> pendingsQueue s = []) /\
  (chainstateTip s = EmptyString -> pendingsQueue s = []) /\ pm_inv s.

Section Reliable.
(** Publishing succeeds. *)
Context (Hpub : pending_reliable).

Lemma publish_one mvs p : pub_inv p -> pub_moves_ok mvs ->
  exists p', pub_pending mvs p = (Ok tt, p') /\ pub_inv p'.
Proof.
  intros Hp Hm. destruct (Hpub mvs p Hp Hm) as [p' E]. exists p'. split; [done|].
  by destruct (pub_pending_ends _ _ _ _ Hp Hm E).
Qed.

Lemma publish_all l p : pub_inv p -> Forall pub_moves_ok l ->
  exists p', forM l pub_pending p = (Ok tt, p') /\ pub_inv p'.
Proof.
  intros Hp Hl. revert p Hp. induction Hl as [|x l Hx _ IH]; intros p Hp; [by exists p|]. cbn [forM].
  destruct (publish_one x p Hp Hx) as (p1 & E & Hp1). rewrite (bind_Ok _ _ _ _ _ E). by apply IH.
Qed.

Lemma ChainstateTipChanged_reliable s t : pm_inv s -> t <> EmptyString ->
  exists s', ChainstateTipChanged t s = (Ok tt, s').
Proof.
  intros [Hp Hq] Ht. destruct s as [p c n q]. unfold ChainstateTipChanged.
  rewrite modify_bind, get_bind. cbn [chainstateTip set_chainstateTip notificationTip pendingsQueue zmq] in *.
  rewrite check_true by by apply nonempty_true. case_bool_decide; [|by eexists].
  destruct (publish_all q p Hp Hq) as (p1 & E & _).
  erewrite bind_Ok; [|rewrite forM_on_zmq; apply on_zmq_run; exact E]. by eexists.
Qed.

(** What is still to be published: the queue holds what the specification expects
    later of the moves before. *)
Definition expected (evs : list pm_event) (s : PendingManager) : list (list MoveData) :=
  (if delivered_in (chainstateTip s) (notificationTip s) evs then pendingsQueue s else [])
  ++ published (chainstateTip s) (notificationTip s) evs.

(** The effect of an event: [out] is published. *)
Record pm_step (e : pm_event) evs (s : PendingManager) (out : list (list MoveData)) s' : Prop := {
  pms_run : pm_run e s = (Ok tt, s');
  pms_ok : pm_ok s';
  pms_out : forM out pub_pending (zmq s) = (Ok tt, zmq s');
  pms_expected : expected (e :: evs) s = out ++ expected evs s'
}.

Lemma pm_step_tip t evs s : t <> EmptyString -> pm_ok s ->
  exists s', pm_step (EvTip t) evs s [] s'.
Proof.
  intros Ht (Hq1 & _ & Hp & _). destruct s as [p c n q]; cbn in Hq1, Hp.
  exists {| zmq := p; chainstateTip := c; notificationTip := t; pendingsQueue := [] |}.
  split; [|by split_and!|done|].
  - cbn [pm_run]. unfold TipChanged. run. by rewrite nonempty_true.
  - unfold expected. cbn. rewrite orb_false_r.
    case_bool_decide as E; [rewrite (Hq1 E)|]; by destruct (delivered_in c t evs).
Qed.

Lemma pm_step_moves mvs evs s : pm_event_ok (EvMoves mvs) -> pm_ok s ->
  exists out s', pm_step (EvMoves mvs) evs s out s'.
Proof.
  intros He (Hq1 & Hq2 & Hp & Hl). destruct s as [p c n q]; cbn in Hq1, Hq2, He, Hp, Hl.
  destruct (decide (c = EmptyString)) as [->|Hc].
  { rewrite (Hq2 eq_refl). exists []. eexists. split; [reflexivity|by split_and!|done|].
    unfold expected. cbn. by destruct (bool_decide _), (delivered_in EmptyString n evs). }
  destruct (decide (c = n)) as [<-|Hn].
  - rewrite (Hq1 eq_refl). destruct (publish_one mvs p Hp He) as (p1 & E & Hp1).
    exists [mvs], {| zmq := p1; chainstateTip := c; notificationTip := c; pendingsQueue := [] |}.
    split; [|by split_and!|cbn; by rewrite (bind_Ok _ _ _ _ _ E)|].
    + cbn [pm_run]. unfold PendingMoves. rewrite get_bind. cbn [chainstateTip notificationTip pendingsQueue].
      rewrite nonempty_true, bool_decide_eq_true_2 by done. cbn [negb andb empty_b orb].
      rewrite check_true by done. by apply on_zmq_run.
    + unfold expected. cbn. rewrite nonempty_true, bool_decide_eq_true_2, delivered_in_eq by done. done.
  - exists [], {| zmq := p; chainstateTip := c; notificationTip := n; pendingsQueue := q ++ [mvs] |}.
    split; [|split_and!; try done; split; [done|apply Forall_app; split; [done|by constructor]]|done|].
    + cbn [pm_run]. unfold PendingMoves. rewrite get_bind. cbn [chainstateTip notificationTip pendingsQueue].
      by rewrite nonempty_true, bool_decide_eq_false_2 by done.
    + unfold expected. cbn. rewrite nonempty_true, bool_decide_eq_false_2 by done. cbn.
      by destruct (delivered_in c n evs); rewrite <- ?app_assoc.
Qed.

Lemma pm_step_chainstate t evs s : t <> EmptyString -> pm_ok s ->
  exists out s', pm_step (EvChainstate t) evs s out s'.
Proof.
  intros Ht (Hq1 & Hq2 & Hp & Hl). destruct s as [p c n q]; cbn in Hq1, Hq2, Hp, Hl.
  destruct (decide (t = n)) as [->|Hn].
  - destruct (publish_all q p Hp Hl) as (p1 & E & Hp1).
    exists q, {| zmq := p1; chainstateTip := n; notificationTip := n; pendingsQueue := [] |}.
    split; [|by split_and!|done|].
    + cbn [pm_run]. unfold ChainstateTipChanged. rewrite modify_bind, get_bind.
      cbn [chainstateTip set_chainstateTip notificationTip pendingsQueue zmq].
      rewrite check_true, bool_decide_eq_true_2 by (done || by apply nonempty_true).
      erewrite bind_Ok; [|rewrite forM_on_zmq; apply on_zmq_run; exact E]. done.
    + unfold expected. cbn. rewrite delivered_in_eq, orb_true_r. done.
  - exists [], {| zmq := p; chainstateTip := t; notificationTip := n; pendingsQueue := q |}.
    split; [|split_and!; cbn; [congruence|congruence|by split]|done|].
    + cbn [pm_run]. unfold ChainstateTipChanged. rewrite modify_bind, get_bind.
      cbn [chainstateTip set_chainstateTip notificationTip pendingsQueue zmq].
      by rewrite check_true, bool_decide_eq_false_2 by (done || by apply nonempty_true).
    + unfold expected. cbn. case_bool_decide as Ecn; [|done]. rewrite (Hq1 Ecn).
      by destruct (delivered_in t n evs).
Qed.

Lemma pm_run_all evs : forall s, Forall pm_event_ok evs -> pm_ok s ->
  exists s', forM evs pm_run s = (Ok tt, s') /\ forM (expected evs s) pub_pending (zmq s) = (Ok tt, zmq s').
Proof.
  induction evs as [|e evs IH]; intros s Hevs Hs.
  { exists s. split; [done|]. unfold expected. cbn. rewrite orb_false_r, app_nil_r.
    case_bool_decide as E; [|done]. by rewrite (proj1 Hs E). }
  apply Forall_cons in Hevs as [He Hevs].
  assert (exists out s1, pm_step e evs s out s1) as (out & s1 & [Hrun Hok Hout Hexp]).
  { destruct e as [t|mvs|t]; [|by apply pm_step_moves|by apply pm_step_chainstate].
    exists []. by apply pm_step_tip. }
  destruct (IH s1 Hevs Hok) as (s' & Hs' & Hp). exists s'. cbn [forM].
  rewrite (bind_Ok _ _ _ _ _ Hrun), Hexp, forM_app, (bind_Ok _ _ _ _ _ Hout). done.
Qed.
End Reliable.
End Laws.

(** C31.  With a publisher that does not fail, the manager publishes just the moves
    that the specification asks for, in the order in which they were announced,
    and never aborts: moves announced while the chainstate is at the announced tip
    are published at once, others when the chainstate gets there; and those before
    the first chainstate tip, or overtaken by another announced tip, are dropped. *)
Theorem pending_published {PL : PublisherLaws PB} (p : P) (evs : list pm_event)
    (Hpub : pending_reliable) (Hp : pub_inv p)
    (Hevs : Forall pm_event_ok evs) :
  exists s', forM evs pm_run (pm_start p) = (Ok tt, s') /\
    forM (published EmptyString EmptyString evs) pub_pending p = (Ok tt, zmq s').
Proof.
  destruct (pm_run_all Hpub evs (pm_start p) Hevs) as (s' & Hrun & Hout); [by split_and!|].
  exists s'. split; [done|]. unfold expected in Hout. cbn [chainstateTip notificationTip pendingsQueue pm_start zmq] in Hout.
  by destruct (delivered_in EmptyString EmptyString evs).
Qed.

(** When publishing the queue fails as the chainstate catches up, the exception
    leaves the queue as it is; then the next pending moves find it not empty and the
    process aborts. *)
Theorem failed_publish_aborts (s : PendingManager) (t : string) (mvs mvs' : list MoveData)
    (q : list (list MoveData)) (e : exn) (p : P)
    (Ht : t <> EmptyString) (Hn : notificationTip s = t)
    (Hq : pendingsQueue s = mvs :: q) (Hfail : pub_pending mvs (zmq s) = (Throw e, p)) :
  exists s', ChainstateTipChanged t s = (Throw e, s') /\
    PendingMoves mvs' s' = (Fatal, s').
Proof.
  destruct s as [p0 c n q0]. cbn in *. subst n q0.
  unfold ChainstateTipChanged. rewrite modify_bind, get_bind.
  cbn [chainstateTip set_chainstateTip notificationTip pendingsQueue].
  rewrite check_true by by apply nonempty_true. rewrite bool_decide_eq_true_2 by done.
  cbn [forM]. rewrite bind_assoc. unfold bind at 1. rewrite (on_zmq_run (pub_pending mvs) _ (Throw e) p) by exact Hfail.
  eexists. split; [reflexivity|]. unfold PendingMoves. rewrite get_bind.
  cbn [chainstateTip notificationTip pendingsQueue]. rewrite nonempty_true by done.
  cbn [negb]. by rewrite bool_decide_eq_true_2.
Qed.

End Manager.
#[global] Arguments PendingManager {J} P.

(** ** Examples *)
Module PendingSample.
Import Model ZmqSample.

Definition mv (txid : string) : list MoveData := [{|
  mv_txid := txid; mv_ns := "p"; mv_name := "domob";
  mv_mv := Bits.encode (JObj [("g", JObj [("tn", JInt 1)])]);
  mv_burns := ∅; mv_metadata := JNull |}].

(** A publisher that records the moves. *)
#[local] Instance recorder : Publisher (list (list MoveData)) := {|
  pub_open _ := put [];
  pub_track _ := ret tt;
  pub_untrack _ := ret tt;
  pub_attach _ _ := ret tt;
  pub_detach _ _ := ret tt;
  pub_pending mvs := modify (fun l => l ++ [mvs])
|}.

Definition history : list pm_event :=
  [EvMoves (mv "a"); EvTip "t1"; EvChainstate "t0"; EvMoves (mv "b"); EvTip "t2";
   EvMoves (mv "c"); EvMoves (mv "d"); EvChainstate "t1"; EvMoves (mv "e");
   EvChainstate "t2"; EvMoves (mv "f"); EvChainstate "t3"; EvMoves (mv "g");
   EvChainstate "t2"; EvTip "t4"]%string.

Lemma history_published :
  zmq (forM history pm_run (pm_start [])).2 = mv <$> ["c"; "d"; "e"; "f"; "g"]%string.
Proof. vm_compute. reflexivity. Qed.

(** The publisher of the program, with a socket that takes every message. *)
#[local] Existing Instance patient_socket_laws.

Definition publisher : ZmqPub := {|
  zp_sock := {| parts := []; log := []; schedule := [] |};
  nextSeq := ∅; games := {[ "tn"%string := 1 ]}
|}.

Lemma publisher_ok : pub_ok publisher.
Proof.
  split; cbn; [done| | | |constructor].
  - intros cmd. by rewrite lookup_empty.
  - done.
  - apply (bool_decide_unpack _). vm_compute. exact I.
Qed.

Lemma mv_ok txid : pending_ok (mv txid).
Proof.
  split; [discriminate|]. split; [repeat constructor; by left|].
  exists txid. by repeat constructor.
Qed.

Lemma pending_published_witness :
  exists s', forM history pm_run (pm_start publisher) = (Ok tt, s').
Proof.
  destruct (pending_published publisher history) as (s' & Hrun & _).
  - apply zmq_pending_reliable. intros [].
  - exact publisher_ok.
  - repeat constructor; first [discriminate|apply mv_ok].
  - exact (ex_intro _ s' Hrun).
Defined.

(** The socket refuses the message. *)
Definition refusing_manager : PendingManager ZmqPub := {|
  zmq := {| zp_sock := {| parts := []; log := []; schedule := [false] |};
            nextSeq := ∅; games := {[ "tn"%string := 1 ]} |};
  chainstateTip := "t0"; notificationTip := "t1"; pendingsQueue := [mv "a"]
|}.

Lemma failed_publish_aborts_witness :
  exists s', ChainstateTipChanged "t1" refusing_manager = (Throw ZmqError, s') /\
    PendingMoves (mv "b") s' = (Fatal, s').
Proof.
  destruct (failed_publish_aborts refusing_manager "t1" (mv "a") (mv "b") [] ZmqError
    (SendPendingMoves (mv "a") (zmq refusing_manager)).2) as (s' & Hrun & Hf).
  - discriminate.
  - reflexivity.
  - reflexivity.
  - vm_compute. reflexivity.
  - exact (ex_intro _ s' (conj Hrun Hf)).
Defined.
End PendingSample.
