(* ===== verification/RunData.v ===== *)
(** * The running controller (Controller::RunData in src/controller.cpp)

    [RunData] ties the components together: it is called back by the base chain and
    by the sync worker, updates the receivers of ZMQ notifications, and prunes the
    chainstate.  Its state [Run] is the base chain, the chainstate, and the manager of
    pending moves with the ZMQ publisher. *)

From S2P Require Import Prelude Json BlockData Chainstate BaseChain ZmqPub Publisher Pending.

Section RunData.
Context {J : JsonCpp} {C : BlockCodec} {B P : Type} {BC : BaseChain B} {PB : Publisher P}.

Notation Run := (B * Chainstate * PendingManager P)%type.

Definition run_base {A} (m : M B A) : M Run A :=
  zoom (fun s => s.1.1) (fun b s => (b, s.1.2, s.2)) m.

Definition run_chain {A} (m : M Chainstate A) : M Run A :=
  zoom (fun s => s.1.2) (fun c s => (s.1.1, c, s.2)) m.

Definition run_pendings {A} (m : M (PendingManager P) A) : M Run A :=
  zoom snd (fun p s => (s.1, p)) m.

Definition run_zmq {A} (m : M P A) : M Run A := run_pendings (on_zmq m).

(** ** PushZmqBlocks

    The result is the returned flag, and the out-parameters [detach] and
    [queriedAttach].  Heights are [int64_t] or [uint64_t] as in the source, with the
    conversions between them written out; [num] is an [unsigned]. *)

(** Where the notifications start, when [from] is not in the chainstate: the height of
    a pruned block on the main chain, -1 for a known block, or [None] for failure. *)
Definition locate_from (pruningDepth : Z) (from : string) (known : bool) : M Run (option Z) :=
  if known then ret (Some (-1))
  else
    mainchainHeight <- run_base (bc_GetMainchainHeight from);;
    if mainchainHeight =? -1 then ret None
    else if pruningDepth <=? mainchainHeight then ret None
    else ret (Some mainchainHeight).

(** [forkHeight] and [forkPoint]. *)
Definition fork_point (from : string) (detach : list BlockData) (mainchainHeight : Z)
  : M Run (Z * string) :=
  if negb (mainchainHeight =? -1) then ret (u64 mainchainHeight, from)
  else
    match last detach with
    | None =>
        o <- run_chain (GetHeightForHash from);;
        match o with
        | Some forkHeight => ret (forkHeight, from)
        | None => fatal
        end
    | Some d => ret (u64 (blk_height d - 1), blk_parent d)
    end.

(** The target [to] is below the fork point: more detaches.  [back ()] of an empty
    vector is undefined. *)
Definition detach_towards (num : Z) (reqtoken : string) (detach : list BlockData)
    (forkHeight : Z) (forkPoint : string) (toHeight : Z)
  : M Run (bool * list BlockData * list BlockData) :=
  let num := Z.min (u32 num) (u32 (u64 (forkHeight - toHeight))) in
  toDetach <- run_base (bc_GetBlockRange (u64 (u64 (forkHeight - num) + 1)) num);;
  match last toDetach with
  | None => undefined
  | Some d =>
      if negb (bool_decide (blk_hash d = forkPoint)) then ret (false, detach, [])
      else
        run_zmq (forM (reverse toDetach) (fun blk => pub_detach blk reqtoken));;
        ret (true, detach ++ reverse toDetach, [])
  end.

(** The loop over given [attaches]. *)
Fixpoint attach_loop (reqtoken : string) (forkHeight : Z) (forkPoint : string)
    (attaches : list BlockData) (foundForkPoint : bool) : M Run bool :=
  match attaches with
  | [] => ret foundForkPoint
  | blk :: attaches' =>
      found <- (if blk_height blk =? u64 (forkHeight + 1)
                then check (bool_decide (blk_parent blk = forkPoint));; ret true
                else ret foundForkPoint);;
      (if forkHeight <? blk_height blk then run_zmq (pub_attach blk reqtoken) else ret tt);;
      attach_loop reqtoken forkHeight forkPoint attaches' found
  end.

(** The attach blocks are given. *)
Definition push_given (attaches : list BlockData) (reqtoken : string)
    (detach : list BlockData) (forkHeight : Z) (forkPoint : string) (toHeight : Z)
  : M Run (bool * list BlockData * list BlockData) :=
  check (toHeight =? -1);;
  if match last attaches, last detach with
     | Some a, Some d => bool_decide (blk_hash a = blk_parent d)
     | _, _ => false
     end
  then ret (true, detach, [])
  else
    foundForkPoint <- attach_loop reqtoken forkHeight forkPoint attaches false;;
    check foundForkPoint;;
    ret (true, detach, []).

(** The attach blocks are queried. *)
Definition push_queried (num : Z) (reqtoken : string) (pruningDepth : Z)
    (detach : list BlockData) (forkHeight : Z) (forkPoint : string) (toHeight : Z)
  : M Run (bool * list BlockData * list BlockData) :=
  targetHeight <- (if toHeight =? -1
                   then t <- run_chain GetTipHeight;; ret (u64 t)
                   else ret (u64 toHeight));;
  check (forkHeight <=? targetHeight);;
  let num := Z.min (u32 num) (u32 (u64 (targetHeight - forkHeight))) in
  queriedAttach <- run_base (bc_GetBlockRange (u64 (forkHeight + 1)) num);;
  match queriedAttach with
  | [] => ret (true, detach, [])
  | front :: rest =>
      if negb (bool_decide (blk_parent front = forkPoint)) then ret (false, detach, [])
      else
        let back := default front (last queriedAttach) in
        known <- (if u64 pruningDepth <=? blk_height back then
                    o <- run_chain (GetHeightForHash (blk_hash back));;
                    match o with
                    | None => ret false
                    | Some height => check (height =? blk_height back);; ret true
                    end
                  else ret true);;
        if negb known then ret (false, detach, [])
        else
          run_zmq (forM queriedAttach (fun blk => pub_attach blk reqtoken));;
          ret (true, detach, queriedAttach)
  end.

(** The blocks after the fork point: given, or queried. *)
Definition push_attaches (attaches : list BlockData) (num : Z) (reqtoken : string)
    (pruningDepth : Z) (detach : list BlockData) (forkHeight : Z) (forkPoint : string)
    (toHeight : Z) : M Run (bool * list BlockData * list BlockData) :=
  if empty_b attaches
  then push_queried num reqtoken pruningDepth detach forkHeight forkPoint toHeight
  else push_given attaches reqtoken detach forkHeight forkPoint toHeight.

Definition PushZmqBlocks (from to : string) (attaches : list BlockData) (num : Z)
    (reqtoken : string) : M Run (bool * list BlockData * list BlockData) :=
  check (negb (nonempty to) || empty_b attaches);;
  if negb (nonempty from) then
    run_zmq (forM attaches (fun blk => pub_attach blk reqtoken));;
    ret (true, [], [])
  else
    pruningDepth <- run_chain GetLowestUnprunedHeight;;
    check (0 <=? pruningDepth);;
    let* '(known, detach) := run_chain (GetForkBranch from) in
    located <- locate_from pruningDepth from known;;
    match located with
    | None => ret (false, detach, [])
    | Some mainchainHeight =>
        run_zmq (forM detach (fun blk => pub_detach blk reqtoken));;
        let* '(forkHeight, forkPoint) := fork_point from detach mainchainHeight in
        if negb (nonempty to) then
          push_attaches attaches num reqtoken pruningDepth detach forkHeight forkPoint (-1)
        else
          toHeight <- run_base (bc_GetMainchainHeight to);;
          if toHeight =? -1 then ret (false, detach, [])
          else if toHeight =? i64 forkHeight then ret (false, detach, [])
          else if toHeight <? i64 forkHeight then
            detach_towards num reqtoken detach forkHeight forkPoint toHeight
          else
            check (forkHeight <? u64 toHeight);;
            push_attaches attaches num reqtoken pruningDepth detach forkHeight forkPoint
              toHeight
    end.

(** ** Callbacks

    [NewBaseChainTip] only wakes up the sync worker. *)
Definition Run_TipChanged (tip : string) : M Run unit := run_pendings (Pending.TipChanged tip).

Definition Run_PendingMoves (moves : list MoveData) : M Run unit :=
  run_pendings (Pending.PendingMoves moves).

(** The settings [sanityChecks] and [maxReorgDepth] do not change during a run.  The sum with
    [maxReorgDepth] is one of [int] values. *)
Definition TipUpdatedFrom (sanityChecks : bool) (maxReorgDepth : Z)
    (oldTip : string) (attaches : list BlockData) : M Run unit :=
  check (negb (empty_b attaches));;
  try_catch (PushZmqBlocks oldTip "" attaches 0 "";; ret tt) (fun _ => ret tt);;
  match last attaches with
  | None => undefined
  | Some back =>
      run_pendings (ChainstateTipChanged (blk_hash back));;
      (if sanityChecks then run_chain SanityCheck else ret tt);;
      check (0 <=? maxReorgDepth);;
      tipHeight <- run_chain GetTipHeight;;
      depth <- int_add maxReorgDepth 1;;
      if depth <? tipHeight
      then run_chain (Prune (u64 (tipHeight - maxReorgDepth - 1)))
      else ret tt
  end.
End RunData.
