(* ===== verification/RunProofs.v ===== *)
(** * Notifications of block updates

    [PushZmqBlocks] sends the notifications that lead a receiver from its block to the
    new tip, and the callback [TipUpdatedFrom] fulfils its part of the contract with
    the sync worker. *)

From S2P Require Import Prelude Json BlockData Chainstate ChainTree ChainQueries ChainstateProofs ChainSanity BaseChain TipUpdate Sync SyncProofs ZmqPub Publisher Pending RunData.

(** ** Lists of blocks *)

Section Lists.
Context {J : JsonCpp} {C : BlockCodec} {U : Universe}.
Implicit Types (m : gmap string row) (l att bs : list BlockData).

Lemma replay_detaches m h bs : map_Forall row_ok m -> fork_path m h bs ->
  replay h (map Detach bs) = Some (fork_end h bs).
Proof.
  intros Hok. revert h. induction bs as [|b bs IH]; intros h Hp; [done|].
  destruct (fork_path_head _ _ _ _ Hok Hp) as [Hb Hp']. cbn.
  rewrite bool_decide_eq_true_2 by done. cbn. rewrite (IH _ Hp'). f_equal.
  unfold fork_end. destruct bs as [|b' bs]; [done|]. rewrite last_cons_cons.
  destruct (last (b' :: bs)) eqn:E; [done|]. by apply last_None in E.
Qed.

Lemma replay_attaches cur b l : linked (b :: l) -> blk_parent b = cur ->
  replay cur (map Attach (b :: l)) = Some (blk_hash (default b (last (b :: l)))).
Proof.
  revert cur b. induction l as [|b' l IH]; intros cur b Hl Hp; cbn [map replay apply_note].
  - by rewrite bool_decide_eq_true_2.
  - rewrite bool_decide_eq_true_2 by done. cbn [mbind option_bind].
    destruct Hl as [Hb Hl]. specialize (IH (blk_hash b) b' Hl Hb). cbn [map replay apply_note] in IH.
    rewrite IH, last_cons_cons. destruct (last (b' :: l)) eqn:E; [done|]. by apply last_None in E.
Qed.

(** Linked in the other direction: detaches of main-chain blocks. *)
Lemma replay_reverse cur l d b : linked l -> last l = Some d -> head l = Some b ->
  blk_hash d = cur -> replay cur (map Detach (reverse l)) = Some (blk_parent b).
Proof.
  revert b. induction l as [|b0 l IH]; intros b Hl Hd Hb Hc; [done|].
  injection Hb as ->. rewrite reverse_cons, map_app, replay_app. cbn [map].
  destruct l as [|b1 l].
  - injection Hd as <-. cbn. by rewrite bool_decide_eq_true_2.
  - destruct Hl as [Hl01 Hl]. rewrite last_cons_cons in Hd.
    rewrite (IH b1 Hl Hd eq_refl Hc). cbn. by rewrite bool_decide_eq_true_2.
Qed.

Lemma linked_above b l : linked (b :: l) -> Forall genuine (b :: l) ->
  Forall (fun b' => blk_height b < blk_height b') l.
Proof.
  revert b. induction l as [|b1 l IH]; intros b Hl Hg; [constructor|].
  pose proof Hg as [Hgb Hg1]%Forall_cons. pose proof Hg1 as [Hgb1 _]%Forall_cons.
  pose proof (linked_height _ _ _ Hl Hgb Hgb1). constructor; [lia|].
  eapply Forall_impl; [apply (IH b1); [apply Hl|done]|]. cbn. lia.
Qed.

Lemma linked_suffix l1 l2 : linked (l1 ++ l2) -> linked l2.
Proof.
  induction l1 as [|b l1 IH]; [done|]. cbn [app]. intros [_ H]%linked_cons. by apply IH.
Qed.

(** The given blocks up to height [H], and those above. *)
Lemma split_attaches H att b0 d : linked att -> Forall genuine att ->
  head att = Some b0 -> blk_height b0 <= H + 1 -> last att = Some d -> H < blk_height d ->
  exists l1 b1 l2, att = l1 ++ b1 :: l2 /\ Forall (fun b => blk_height b <= H) l1 /\
    blk_height b1 = H + 1 /\ Forall (fun b => H + 1 < blk_height b) l2.
Proof.
  revert b0. induction att as [|b att IH]; intros b0 Hl Hg Hb0 Hle Hd Hlt; [done|].
  injection Hb0 as ->. destruct (decide (blk_height b0 = H + 1)) as [E|E].
  - exists [], b0, att. split_and!; [done|constructor|done|].
    rewrite <- E. by apply linked_above.
  - destruct att as [|b1 att]; [injection Hd as <-; lia|].
    pose proof Hg as [Hgb Hg1]%Forall_cons. pose proof Hg1 as [Hgb1 _]%Forall_cons.
    pose proof (linked_height _ _ _ Hl Hgb Hgb1).
    destruct (IH b1) as (l1 & bx & l2 & Hatt & H1 & Hx & H2);
      [apply Hl|done|done|lia|by rewrite last_cons_cons in Hd|done|].
    exists (b0 :: l1), bx, l2. rewrite Hatt. split_and!; [done|constructor; [lia|done]|done|done].
Qed.
End Lists.

(** ** Programs on parts of the state *)

Section Parts.
Context {J : JsonCpp} {C : BlockCodec} {B P : Type} {BC : BaseChain B} {PB : Publisher P}.
Notation Run := (B * Chainstate * PendingManager P)%type.
Implicit Types (s : Run).

Lemma run_chain_read {A} (m : M Chainstate A) s r : m s.1.2 = (r, s.1.2) ->
  run_chain m s = (r, s).
Proof. intros H. unfold run_chain, zoom. rewrite H. by destruct s as [[b c] p]. Qed.

Lemma run_base_run {A} (m : M B A) s r b : m s.1.1 = (r, b) ->
  run_base m s = (r, (b, s.1.2, s.2)).
Proof. intros H. unfold run_base, zoom. by rewrite H. Qed.

(** What a program on the publisher does to the whole state. *)
Definition set_zmq (p : P) s : Run :=
  (s.1, {| zmq := p; chainstateTip := chainstateTip s.2;
           notificationTip := notificationTip s.2; pendingsQueue := pendingsQueue s.2 |}).

Lemma run_zmq_run {A} (m : M P A) s r p : m (zmq s.2) = (r, p) ->
  run_zmq m s = (r, set_zmq p s).
Proof. intros H. unfold run_zmq, run_pendings, on_zmq, zoom. by rewrite H. Qed.

Lemma run_zmq_ret s : run_zmq (ret tt) s = (Ok tt, s).
Proof. by destruct s as [[b c] []]. Qed.

Lemma run_zmq_bind {A D} (m : M P A) (k : A -> M P D) s :
  run_zmq (bind m k) s = bind (run_zmq m) (fun a => run_zmq (k a)) s.
Proof.
  unfold run_zmq, run_pendings, on_zmq, zoom, bind.
  destruct (m (zmq s.2)) as [[] p]; cbn; try done.
Qed.

(** Detaches and then attaches. *)
Lemma send_all tok bs l s :
  run_zmq (forM (map Detach bs ++ map Attach l) (send_note tok)) s =
  (run_zmq (forM bs (fun blk => pub_detach blk tok));;
   run_zmq (forM l (fun blk => pub_attach blk tok))) s.
Proof.
  transitivity (run_zmq (forM bs (fun blk => pub_detach blk tok);;
                         forM l (fun blk => pub_attach blk tok)) s); [|apply run_zmq_bind].
  unfold run_zmq, run_pendings, on_zmq, zoom. rewrite forM_app.
  rewrite (bind_ext _ (forM bs (fun blk => pub_detach blk tok)) _
             (fun _ => forM l (fun blk => pub_attach blk tok)));
    [done|apply (forM_map Detach)|intros _ s'; apply (forM_map Attach)].
Qed.

(** ** The loop over given attaches *)

Lemma attach_loop_low tok H F l1 l2 found s : Forall (fun b => blk_height b <= H) l1 ->
  0 <= H -> H + 1 < u64_modulus ->
  attach_loop tok H F (l1 ++ l2) found s = attach_loop tok H F l2 found s.
Proof.
  intros Hl HH Hm. induction Hl as [|b l1 Hb _ IH]; [done|]. cbn [app attach_loop].
  rewrite u64_small by lia. destruct (Z.eqb_spec (blk_height b) (H + 1)); [lia|].
  rewrite ret_bind. destruct (Z.ltb_spec H (blk_height b)); [lia|]. by rewrite ret_bind.
Qed.

Lemma attach_loop_high tok H F l found : forall s, Forall (fun b => H + 1 < blk_height b) l ->
  0 <= H -> H + 1 < u64_modulus ->
  attach_loop tok H F l found s =
  (run_zmq (forM l (fun blk => pub_attach blk tok));; ret found) s.
Proof.
  induction l as [|b l IH]; intros s Hl HH Hm.
  { by rewrite (bind_Ok _ _ _ _ _ (run_zmq_ret s)). }
  apply Forall_cons in Hl as [Hb Hl]. cbn [attach_loop forM].
  rewrite u64_small by lia. destruct (Z.eqb_spec (blk_height b) (H + 1)); [lia|].
  rewrite ret_bind. destruct (Z.ltb_spec H (blk_height b)); [|lia].
  transitivity (((run_zmq (pub_attach b tok);;
                  run_zmq (forM l (fun blk => pub_attach blk tok)));; ret found) s).
  - rewrite bind_assoc. apply bind_ext; [done|]. intros _ s'. by apply IH.
  - apply bind_ext; [|done]. symmetry. apply run_zmq_bind.
Qed.

Lemma attach_loop_found tok H F l1 b1 l2 s : Forall (fun b => blk_height b <= H) l1 ->
  blk_height b1 = H + 1 -> blk_parent b1 = F -> Forall (fun b => H + 1 < blk_height b) l2 ->
  0 <= H -> H + 1 < u64_modulus ->
  attach_loop tok H F (l1 ++ b1 :: l2) false s =
  (run_zmq (forM (b1 :: l2) (fun blk => pub_attach blk tok));; ret true) s.
Proof.
  intros Hl1 Hb1 HF Hl2 HH Hm. rewrite attach_loop_low by done. cbn [attach_loop forM].
  rewrite u64_small, Hb1, Z.eqb_refl by lia. rewrite bind_assoc.
  rewrite check_true by by apply bool_decide_eq_true_2. rewrite ret_bind.
  destruct (Z.ltb_spec H (H + 1)); [|lia].
  transitivity (((run_zmq (pub_attach b1 tok);;
                  run_zmq (forM l2 (fun blk => pub_attach blk tok)));; ret true) s).
  - rewrite bind_assoc. apply bind_ext; [done|]. intros _ s'. by apply attach_loop_high.
  - apply bind_ext; [|done]. symmetry. apply run_zmq_bind.
Qed.
End Parts.

(** ** Updates of the tip *)

Section Update.
Context {J : JsonCpp} {C : BlockCodec} {CL : BlockCodecLaws C} {U : Universe}
  {B P : Type} {BC : BaseChain B} {PB : Publisher P}.
Notation Run := (B * Chainstate * PendingManager P)%type.
Implicit Types (s : Run) (att bs : list BlockData).

Lemma nonempty_false t : nonempty t = false <-> t = EmptyString.
Proof. unfold nonempty. case_bool_decide; cbn; split; congruence. Qed.

(** What the first part of [PushZmqBlocks] finds out about a known block. *)
Lemma push_start s from to att num tok bs h rl : Inv (blocks s.1.2) -> from <> EmptyString ->
  to = EmptyString \/ att = [] -> is_Some (blocks s.1.2 !! from) ->
  is_low (blocks s.1.2) h rl -> fork_path (blocks s.1.2) from bs ->
  PushZmqBlocks from to att num tok s =
  (run_zmq (forM bs (fun blk => pub_detach blk tok));;
   let* '(forkHeight, forkPoint) := fork_point from bs (-1) in
   if negb (nonempty to) then
     push_attaches att num tok (row_height rl) bs forkHeight forkPoint (-1)
   else
     toHeight <- run_base (bc_GetMainchainHeight to);;
     if toHeight =? -1 then ret (false, bs, [])
     else if toHeight =? i64 forkHeight then ret (false, bs, [])
     else if toHeight <? i64 forkHeight then
       detach_towards num tok bs forkHeight forkPoint toHeight
     else
       check (forkHeight <? u64 toHeight);;
       push_attaches att num tok (row_height rl) bs forkHeight forkPoint toHeight) s.
Proof.
  intros HI Hf Hto Hin Hl Hp. unfold PushZmqBlocks.
  rewrite check_true.
  2: { destruct Hto as [->| ->]; [done|]. by rewrite orb_true_r. }
  rewrite nonempty_true by done. cbn [negb].
  erewrite bind_Ok; [|apply run_chain_read; by eapply GetLowestUnprunedHeight_ok].
  pose proof Hl as (Hrl & _). destruct (row_genuine _ _ _ HI Hrl) as (_ & _ & _ & ? & _).
  rewrite check_true by (apply Z.leb_le; lia).
  destruct (GetForkBranch_ok s.1.2 from HI) as (bs' & Hp' & Hrun).
  assert (bs' = bs) as -> by by eapply fork_path_det.
  rewrite bool_decide_eq_true_2 in Hrun by done.
  erewrite bind_Ok; [|apply run_chain_read; exact Hrun]. cbn beta iota.
  unfold locate_from. rewrite ret_bind. cbn beta iota. reflexivity.
Qed.

(** The fork point, when it is in the table. *)
Lemma fork_point_ok s from bs rF : Inv (blocks s.1.2) -> fork_path (blocks s.1.2) from bs ->
  blocks s.1.2 !! fork_end from bs = Some rF ->
  fork_point from bs (-1) s = (Ok (row_height rF, fork_end from bs), s).
Proof.
  intros HI Hp HF. unfold fork_point, fork_end in *.
  change (negb (-1 =? -1)) with false. cbn iota.
  destruct (row_genuine _ _ _ HI HF) as (_ & _ & _ & ? & _).
  destruct (last bs) as [d|] eqn:Ed.
  - assert (Hd : d ∈ bs) by by apply last_Some_elem_of.
    destruct (fork_path_elem _ _ _ _ (inv_rows _ HI) Hp Hd) as (r & Hr & _ & Hpar & Hh & _).
    pose proof (rows_parent _ _ _ _ _ (inv_rows _ HI) Hr Hpar HF) as Hpr.
    rewrite u64_small; [unfold ret; do 3 f_equal; lia|]. unfold i64_max, u64_modulus in *. lia.
  - assert (Hg : GetHeightForHash from s.1.2 = (Ok (Some (row_height rF)), s.1.2)).
    { unfold GetHeightForHash, row_for. run. rewrite HF. by rewrite get_u64_ok by lia. }
    erewrite bind_Ok; [|apply run_chain_read; exact Hg]. done.
Qed.

(** The publisher does not touch the chainstate. *)
Lemma run_zmq_rest {A} (m : M P A) s r s' : run_zmq m s = (r, s') -> s'.1 = s.1.
Proof.
  unfold run_zmq, run_pendings, on_zmq, zoom. destruct (m _). by intros [= _ <-].
Qed.

(** After a program on the publisher, the rest may rely on the same chainstate. *)
Lemma after_zmq {A D} (m : M P A) (k k' : A -> M Run D) s :
  (forall a s', s'.1 = s.1 -> k a s' = k' a s') -> bind (run_zmq m) k s = bind (run_zmq m) k' s.
Proof.
  intros H. unfold bind. destruct (run_zmq m s) as [r s'] eqn:E.
  apply run_zmq_rest in E. destruct r; [by apply H|done..].
Qed.

(** The notifications of a tip update: those for the old branch, and then what
    [push_given] makes of the new blocks. *)
Lemma push_update_start s old att num tok bs rF l : Inv (blocks s.1.2) -> old <> EmptyString ->
  att <> [] -> fork_path (blocks s.1.2) old bs -> blocks s.1.2 !! fork_end old bs = Some rF ->
  (forall s', s'.1 = s.1 ->
    push_given att tok bs (row_height rF) (fork_end old bs) (-1) s' =
    (run_zmq (forM l (fun blk => pub_attach blk tok));; ret (true, bs, [])) s') ->
  PushZmqBlocks old "" att num tok s =
    (run_zmq (forM (map Detach bs ++ map Attach l) (send_note tok));; ret (true, bs, [])) s.
Proof.
  intros HI Hn Hne Hp HF Hl.
  assert (Hin : is_Some (blocks s.1.2 !! old)).
  { destruct bs as [|b0 bs]; [by exists rF|]. inversion Hp; subst. by eexists. }
  destruct (is_low_exists (blocks s.1.2) HI) as (hl & rl & Hlow).
  { intros E. rewrite E in HF. by rewrite lookup_empty in HF. }
  rewrite (push_start s old "" att num tok bs hl rl) by (done || by left).
  transitivity ((run_zmq (forM bs (fun blk => pub_detach blk tok));;
    (run_zmq (forM l (fun blk => pub_attach blk tok));;
     ret (true, bs, @nil BlockData))) s).
  - apply after_zmq. intros [] s' Hs'.
    assert (HI' : Inv (blocks s'.1.2)) by by rewrite Hs'.
    erewrite bind_Ok; [|apply (fork_point_ok s' old bs rF HI'); by rewrite Hs'].
    cbn beta iota. change (negb (nonempty EmptyString)) with true. cbn iota.
    unfold push_attaches. destruct att as [|a att']; [done|]. cbn [empty_b]. by apply Hl.
  - rewrite <- bind_assoc. apply bind_ext; [|done]. symmetry. apply send_all.
Qed.

(** Whether the new tip is the fork point, as [push_given] finds it out. *)
Lemma tip_is_fork att bs old b : last att = Some b -> blk_hash b <> old ->
  match last att, last bs with
  | Some a, Some d => bool_decide (blk_hash a = blk_parent d) | _, _ => false end
  = bool_decide (blk_hash b = fork_end old bs).
Proof.
  intros -> Hb. unfold fork_end. destruct (last bs); [done|]. by rewrite bool_decide_eq_false_2.
Qed.

Lemma push_given_none att tok bs old H b s : last att = Some b -> blk_hash b <> old ->
  blk_hash b = fork_end old bs ->
  push_given att tok bs H (fork_end old bs) (-1) s =
  (run_zmq (forM [] (fun blk => pub_attach blk tok));; ret (true, bs, [])) s.
Proof.
  intros Hl Hb E. unfold push_given. rewrite check_true, (tip_is_fork att bs old b) by done.
  rewrite bool_decide_eq_true_2 by done. cbn [forM]. by rewrite (bind_Ok _ _ _ _ _ (run_zmq_ret s)).
Qed.

Lemma push_given_some att tok bs old H b l1 b1 l2 s : last att = Some b -> blk_hash b <> old ->
  blk_hash b <> fork_end old bs -> att = l1 ++ b1 :: l2 ->
  Forall (fun b => blk_height b <= H) l1 -> blk_height b1 = H + 1 ->
  blk_parent b1 = fork_end old bs -> Forall (fun b => H + 1 < blk_height b) l2 ->
  0 <= H -> H + 1 < u64_modulus ->
  push_given att tok bs H (fork_end old bs) (-1) s =
  (run_zmq (forM (b1 :: l2) (fun blk => pub_attach blk tok));; ret (true, bs, [])) s.
Proof.
  intros Hl Hb N -> ? ? ? ? ? ?. unfold push_given.
  rewrite check_true, (tip_is_fork _ bs old b), bool_decide_eq_false_2 by done.
  unfold bind at 1. rewrite attach_loop_found by done.
  unfold bind. by destruct (run_zmq _ s) as [[] ?].
Qed.

(** The blocks above the fork point among the new ones. *)
Lemma above_fork m att F rF b r : Inv m -> linked att -> Forall genuine att ->
  last att = Some b -> is_top m (blk_hash b) r -> m !! F = Some rF -> row_branch rF = 0 ->
  (forall b0, head att = Some b0 -> blk_height b0 <= row_height rF + 1) -> blk_hash b <> F ->
  row_height r = blk_height b ->
  exists l1 b1 l2, att = l1 ++ b1 :: l2 /\ linked (b1 :: l2) /\ last (b1 :: l2) = Some b /\
    Forall (fun b => blk_height b <= row_height rF) l1 /\ blk_height b1 = row_height rF + 1 /\
    blk_parent b1 = F /\ Forall (fun b => row_height rF + 1 < blk_height b) l2.
Proof.
  intros HI Hlink Hgen Hlast Htop HF HbF Hfirst NF Hbr.
  pose proof Htop as (Hrb & Hbb & Hmax). pose proof (Hmax _ _ HF HbF) as HleF.
  assert (Hlt : row_height rF < row_height r).
  { destruct (decide (row_height rF = row_height r)) as [E|]; [|lia].
    destruct NF. apply (inv_uniq _ HI _ _ r rF); [done|done|congruence|done]. }
  destruct att as [|b0 att']; [done|]. specialize (Hfirst b0 eq_refl).
  destruct (split_attaches (row_height rF) (b0 :: att') b0 b) as (l1 & b1 & l2 & Hatt & H1 & Hb1 & H2);
    [done|done|done|lia|done|lia|].
  rewrite Hatt in Hlast, Hlink, Hgen. rewrite last_app_cons in Hlast.
  apply linked_suffix in Hlink. apply Forall_app in Hgen as [_ Hgen].
  exists l1, b1, l2. split_and!; [done..| |done].
  eapply (attached_first m (b1 :: l2)); [done|exact HF|done|done|done|done| |done]. by exists b, r.
Qed.

(** The notifications of a tip update. *)
Lemma push_update s old att num tok : Inv (blocks s.1.2) -> tip_update (blocks s.1.2) old att ->
  exists bs l,
    PushZmqBlocks old "" att num tok s =
      (run_zmq (forM (map Detach bs ++ map Attach l) (send_note tok));; ret (true, bs, [])) s /\
    (old = EmptyString -> bs = [] /\ l = att) /\
    (old <> EmptyString -> fork_path (blocks s.1.2) old bs /\ (exists pre, att = pre ++ l) /\
       replay old (map Detach bs ++ map Attach l) = blk_hash <$> last att).
Proof.
  intros HI [Hlink Hgen (b & r & Hlast & Htop & Hbr) Hmoved Hold].
  pose proof (Hmoved _ Hlast) as [_ Hmv].
  destruct (decide (old = EmptyString)) as [->|Hn].
  { exists [], att. split; [|by split]. unfold PushZmqBlocks.
    rewrite check_true by done. change (nonempty EmptyString) with false. cbn [negb map app].
    apply bind_ext; [|done]. unfold run_zmq, run_pendings, on_zmq, zoom. by rewrite forM_map. }
  destruct Hold as [?|(bs & rF & Hp & HF & HbF & Hfirst)]; [done|].
  destruct (row_genuine _ _ _ HI HF) as (_ & _ & _ & HrF & _).
  assert (Hne : att <> []) by by intros ->.
  pose proof (replay_detaches _ _ _ (inv_rows _ HI) Hp) as Hrep.
  destruct (decide (blk_hash b = fork_end old bs)) as [EF|NF].
  - exists bs, []. split; [|split; [done|]].
    + apply (push_update_start s old att num tok bs rF); [done..|].
      intros s' _. by apply (push_given_none att tok bs old _ b).
    + intros _. rewrite app_nil_r, Hrep, Hlast. split_and!; [done|by exists att; rewrite app_nil_r|].
      cbn. by rewrite EF.
  - destruct (above_fork (blocks s.1.2) att (fork_end old bs) rF b r)
      as (l1 & b1 & l2 & Hatt & Hlink' & Hlast' & H1 & Hb1 & Hpar & H2); [done..|].
    exists bs, (b1 :: l2). split; [|split; [done|]].
    + apply (push_update_start s old att num tok bs rF); [done..|]. intros s' _.
      apply (push_given_some att tok bs old _ b l1 b1 l2);
        first [done|unfold i64_max, u64_modulus in *; lia].
    + intros _. split_and!; [done|by exists l1|]. rewrite replay_app, Hrep. cbn [mbind option_bind].
      rewrite replay_attaches, Hlast', Hlast by done. done.
Qed.

(** ** The callback of the sync worker *)

Lemma run_pendings_run {A} (m : M (PendingManager P) A) s r p : m s.2 = (r, p) ->
  run_pendings m s = (r, (s.1, p)).
Proof. intros H. unfold run_pendings, zoom. by rewrite H. Qed.

(** What is pruned after an update: nothing, if the sum overflows. *)
Definition pruned_to (depth : Z) (m : gmap string row) (tip : Z) : gmap string row :=
  if (depth <? i32_max) && (depth + 1 <? tip) then delete_where (prune_pred (tip - depth - 1)) m else m.

Lemma prune_shrunk m n h r : Inv m -> is_top m h r -> n < row_height r ->
  shrunk m (delete_where (prune_pred n) m).
Proof.
  intros HI (Hr & Hb & Hmax) Hlt. split; [by eapply Inv_prune|]. split.
  - by intros h' r' [? _]%prune_Some.
  - intros h' r' (Hr' & Hb' & Hmax'). split; [|split; [done|]].
    + apply prune_Some. split; [done|]. intros _. specialize (Hmax' _ _ Hr Hb). lia.
    + intros h2 r2 [Hr2 _]%prune_Some. by eapply Hmax'.
Qed.

Lemma pruned_shrunk depth m h r : Inv m -> is_top m h r -> 0 <= depth ->
  shrunk m (pruned_to depth m (row_height r)).
Proof.
  intros HI Ht Hd. unfold pruned_to. destruct (_ && _) eqn:E; [|by apply shrunk_refl].
  eapply prune_shrunk; [done|exact Ht|lia].
Qed.

(** The outcome of the comparison with [maxReorgDepth + 1]. *)
Definition sum_result (depth : Z) : result unit :=
  if depth <? i32_max then Ok tt else Undefined.

Lemma sum_result_ok depth : depth < i32_max -> sum_result depth = Ok tt.
Proof. intros H. unfold sum_result. by rewrite (proj2 (Z.ltb_lt _ _) H). Qed.

(** The last part of [TipUpdatedFrom]. *)
Lemma prune_part sc depth s h r : Inv (blocks s.1.2) -> is_top (blocks s.1.2) h r -> 0 <= depth ->
  ((if sc : bool then run_chain SanityCheck else ret tt);;
   check (0 <=? depth);;
   tipHeight <- run_chain GetTipHeight;;
   depth1 <- int_add depth 1;;
   if depth1 <? tipHeight
   then run_chain (Prune (u64 (tipHeight - depth - 1))) else ret tt) s =
  (sum_result depth, (s.1.1, set_blocks (pruned_to depth (blocks s.1.2) (row_height r)) s.1.2, s.2)).
Proof.
  intros HI Ht Hd. pose proof Ht as (Hr & _). destruct (row_genuine _ _ _ HI Hr) as (_ & _ & _ & ? & _).
  erewrite bind_Ok.
  2: { destruct sc; [apply run_chain_read; by apply SanityCheck_Inv|reflexivity]. }
  rewrite check_true by (apply Z.leb_le; lia).
  erewrite bind_Ok; [|apply run_chain_read; by eapply GetTipHeight_ok].
  unfold pruned_to, sum_result. destruct (Z.ltb_spec depth i32_max) as [Hm|Hm]; cbn [andb].
  2: { unfold int_add. rewrite (proj2 (Z.leb_gt (depth + 1) i32_max)), andb_false_r by lia.
       by destruct s as [[b []] p]. }
  rewrite int_add_ok, ret_bind by lia. destruct (Z.ltb_spec (depth + 1) (row_height r)).
  - rewrite u64_small by (unfold i64_max, u64_modulus in *; lia).
    unfold run_chain, zoom. rewrite Prune_run; [done|lia|done|by apply prune_uniq, HI].
  - by destruct s as [[b []] p].
Qed.

Lemma update_notes_typed att bs l : Forall genuine att -> Forall genuine bs ->
  (exists pre, att = pre ++ l) ->
  Forall (fun n => block_typed (note_block n)) (map Detach bs ++ map Attach l).
Proof.
  intros Ha Hb [pre ->]. apply Forall_app in Ha as [_ Hl].
  apply Forall_app. split; apply Forall_map; (eapply Forall_impl; [eassumption|]);
    by intros x [[_ ?] _].
Qed.

Section Callback.
Context {PL : PublisherLaws PB}.

Lemma TipUpdatedFrom_run sc depth old att s b r : Inv (blocks s.1.2) ->
  tip_update (blocks s.1.2) old att -> pm_inv s.2 -> 0 <= depth ->
  last att = Some b -> is_top (blocks s.1.2) (blk_hash b) r ->
  exists res c p, TipUpdatedFrom sc depth old att s = (res, (s.1.1, c, p)) /\
    (depth < i32_max -> ends res) /\ pm_inv p /\ shrunk (blocks s.1.2) (blocks c) /\
    (forall e, res = Throw e -> c = s.1.2) /\
    (pending_reliable ->
       res = sum_result depth /\ c = set_blocks (pruned_to depth (blocks s.1.2) (row_height r)) s.1.2).
Proof.
  intros HI Hu Hpm Hd Hb Ht. unfold TipUpdatedFrom.
  rewrite check_true by by destruct att.
  destruct (push_update s old att 0 "" HI Hu) as (bs & l & Hpush & Hn & Hpath).
  assert (Hnotes : Forall (fun n => block_typed (note_block n)) (map Detach bs ++ map Attach l)).
  { destruct (decide (old = EmptyString)) as [E|E].
    - destruct (Hn E) as [-> ->]. apply (update_notes_typed att); [apply Hu|constructor|by exists []].
    - destruct (Hpath E) as (Hp & Hpre & _). apply (update_notes_typed att); [apply Hu| |done].
      exact (fork_path_genuine _ _ _ (inv_rows _ HI) Hp). }
  destruct Hpm as [Hp Hq].
  destruct (forM (map Detach bs ++ map Attach l) (send_note "") (zmq s.2)) as [r1 p1] eqn:E1.
  destruct (send_notes_ends _ _ _ _ _ Hp Hnotes E1) as [He1 Hp1].
  assert (Htry : try_catch (PushZmqBlocks old "" att 0 "";; ret tt) (fun _ => ret tt) s
                 = (Ok tt, set_zmq p1 s)).
  { unfold try_catch. unfold bind. rewrite Hpush. unfold bind.
    rewrite (run_zmq_run _ _ _ _ E1). by destruct r1. }
  rewrite (bind_Ok _ _ _ _ _ Htry). rewrite Hb.
  pose proof (proj1 (tu_moved _ _ _ Hu b Hb)) as Hne.
  destruct (ChainstateTipChanged (blk_hash b) (set_zmq p1 s).2) as [r2 p2] eqn:E2.
  assert (Hpm1 : pm_inv (set_zmq p1 s).2) by by split.
  destruct (ChainstateTipChanged_ends _ _ _ _ Hpm1 Hne E2) as [He2 Hp2].
  pose proof (run_pendings_run _ (set_zmq p1 s) _ _ E2) as Hrun2.
  destruct r2 as [[]|e| | |]; try done.
  - rewrite (bind_Ok _ _ _ _ _ Hrun2).
    rewrite (prune_part sc depth _ (blk_hash b) r) by done.
    eexists _, _, _. split; [reflexivity|]. split_and!; [|done| | |done].
    + intros H. by rewrite sum_result_ok.
    + by eapply pruned_shrunk.
    + intros e. unfold sum_result. by destruct (_ <? _).
  - unfold bind at 1. rewrite Hrun2. destruct s as [[b0 c0] p0].
    exists (Throw e), c0, p2. split_and!; [done|done|done|by apply shrunk_refl|done|].
    intros Hpub. destruct (ChainstateTipChanged_reliable Hpub _ _ Hpm1 Hne) as [p3 E3].
    cbn in E2, E3. congruence.
Qed.

(** So it is a callback as the sync worker needs it: it may throw, but only if pending moves
    cannot be sent. *)
Lemma TipUpdatedFrom_callback_ends sc depth (R : B -> Prop) ch :
  0 <= depth < i32_max ->
  callback_ends (Some (TipUpdatedFrom sc depth)) R ch pm_inv pending_reliable.
Proof.
  intros Hd f [= <-] old att b c x HR Hx HI Hm Hu.
  pose proof (tu_top _ _ _ Hu) as (d & r & Hlast & Ht & _).
  destruct (TipUpdatedFrom_run sc depth old att (b, c, x) d r HI Hu Hx (proj1 Hd) Hlast Ht)
    as (res & c' & p' & Hrun & He & Hp & Hs & _ & Hrel).
  exists res, b, c', p'. split_and!; [done| |done..]. specialize (He (proj2 Hd)).
  destruct res as [[]|e| | |]; try done. intros Hpub. destruct (Hrel Hpub) as [H _].
  by rewrite sum_result_ok in H by lia.
Qed.
End Callback.
End Update.
