(* ===== verification/RunRequests.v ===== *)
(** * Requests for notifications

    [PushZmqBlocks] as the RPC method [game_sendupdates] calls it: what is sent when a
    receiver asks for the way from its block to the tip or to another block. *)

From S2P Require Import Prelude Json BlockData Chainstate ChainTree ChainQueries ChainstateProofs BaseChain TipUpdate SyncProofs ZmqPub Publisher Pending RunData RunProofs.

Section Requests.
Context {J : JsonCpp} {C : BlockCodec} {CL : BlockCodecLaws C} {U : Universe}
  {B P : Type} {BC : BaseChain B} {PB : Publisher P}.
Notation Run := (B * Chainstate * PendingManager P)%type.

(** The base chain stands still, and also answers the queries for heights. *)
Record Answers (R : B -> Prop) (T : Z) (ch : Z -> option BlockData) : Prop := {
  an_serves : Serves BC R T ch;
  an_height : forall b hash, R b -> exists k b', bc_GetMainchainHeight hash b = (Ok k, b') /\ R b' /\
    ((k = -1 /\ forall h, ~ hash_at ch h hash) \/ (0 <= k /\ hash_at ch k hash))
}.

Context (R : B -> Prop) (T : Z) (ch : Z -> option BlockData).
Context (HA : Answers R T ch) (GC : good_chain T ch).

(** The height of a block, for whatever state of the base chain the query is made in. *)
Lemma height_query hash b0 : R b0 -> exists k,
  ((k = -1 /\ forall h, ~ hash_at ch h hash) \/ (0 <= k /\ hash_at ch k hash)) /\
  forall b, R b -> exists b', bc_GetMainchainHeight hash b = (Ok k, b') /\ R b'.
Proof.
  intros HR0. destruct (an_height _ _ _ HA b0 hash HR0) as (k & _ & _ & _ & Hk).
  exists k. split; [done|]. intros b HR.
  destruct (an_height _ _ _ HA b hash HR) as (k' & b' & Hrun & HR' & Hk').
  exists b'. split; [|done]. rewrite Hrun. do 2 f_equal.
  destruct Hk as [[-> Hn]|[? Hh]], Hk' as [[-> Hn']|[? Hh']]; try done.
  - by destruct (Hn k').
  - by destruct (Hn' k).
  - destruct (hash_at_height T ch GC _ _ Hh), (hash_at_height T ch GC _ _ Hh'). lia.
Qed.

(** The program does on the publisher what sending [notes] does, gets the result [x]
    unless that fails, and changes nothing else. *)
Definition pushes {X} (tok : string) (s : Run) (m : M Run X) (notes : list note) (x : X) : Prop :=
  exists b', R b' /\
    m s = let '(r, p') := forM notes (send_note tok) (zmq s.2) in
          (_ ← r; Ok x, set_zmq p' (b', s.1.2, s.2)).

Lemma pushes_ret {X} tok (s : Run) (x : X) : R s.1.1 -> pushes tok s (ret x) [] x.
Proof. intros HR. exists s.1.1. split; [done|]. by destruct s as [[b c] []]. Qed.

Lemma pushes_step {A X} tok (s s1 : Run) (m : M Run A) (a : A) (k : A -> M Run X) notes x :
  m s = (Ok a, s1) -> s1.2 = s.2 -> s1.1.2 = s.1.2 -> pushes tok s1 (k a) notes x ->
  pushes tok s (bind m k) notes x.
Proof.
  intros Hm H2 Hc (b' & HR & Hk). exists b'. split; [done|].
  rewrite (bind_Ok _ _ _ _ _ Hm), Hk, H2, Hc. done.
Qed.

(** Sending detaches, and going on. *)
Lemma pushes_detach {X} tok (s : Run) l (k : M Run X) notes x : R s.1.1 ->
  (forall p, pushes tok (set_zmq p s) k notes x) ->
  pushes tok s (run_zmq (forM l (fun blk => pub_detach blk tok));; k) (map Detach l ++ notes) x.
Proof.
  intros HR Hk. destruct (forM l (fun blk => pub_detach blk tok) (zmq s.2)) as [r p] eqn:E.
  assert (Hf : forM (map Detach l ++ notes) (send_note tok) (zmq s.2) =
    match r with
    | Ok _ => forM notes (send_note tok) p
    | r' => (r', p)
    end).
  { rewrite forM_app. unfold bind. rewrite forM_map. cbn [send_note]. rewrite E. by destruct r as [[]| | | |]. }
  unfold pushes. rewrite Hf. unfold bind. rewrite (run_zmq_run _ _ _ _ E).
  destruct (Hk p) as (b' & HR' & Hkp).
  destruct r as [[]|e| | |]; [exists b'; split; [done|]; rewrite Hkp; cbn; by destruct (forM notes _ p)|..];
    exists s.1.1; (split; [done|]); by destruct s as [[b c] pm].
Qed.

Lemma pushes_attach {X} tok (s : Run) l (x : X) : R s.1.1 ->
  pushes tok s (run_zmq (forM l (fun blk => pub_attach blk tok));; ret x) (map Attach l) x.
Proof.
  intros HR. exists s.1.1. split; [done|]. rewrite forM_map. cbn [send_note].
  destruct (forM l (fun blk => pub_attach blk tok) (zmq s.2)) as [r p] eqn:E.
  unfold bind. rewrite (run_zmq_run _ _ _ _ E). destruct s as [[b c] pm].
  by destruct r as [[]| | | |].
Qed.

(** ** Queried blocks *)

Context (c : Chainstate) (HI : Inv (blocks c)).

Lemma Run_GetHeightForHash hash s : s.1.2 = c ->
  run_chain (GetHeightForHash hash) s = (Ok (row_height <$> blocks c !! hash), s : Run).
Proof.
  intros Hc. apply run_chain_read. rewrite Hc. unfold GetHeightForHash, row_for. run.
  destruct (blocks c !! hash) as [r|] eqn:E; [|done].
  destruct (row_genuine _ _ _ HI E) as (_ & _ & _ & ? & _). by rewrite get_u64_ok by lia.
Qed.

(** The check that the last block is stored, unless it is below the stored main chain. *)
Lemma pushes_known {X} tok b pm low back (k : bool -> M Run X) notes x : genuine back ->
  pushes tok (b, c, pm) (k (negb (u64 low <=? blk_height back) ||
    bool_decide (is_Some (blocks c !! blk_hash back)))) notes x ->
  pushes tok (b, c, pm) (known <- (if u64 low <=? blk_height back then
              o <- run_chain (GetHeightForHash (blk_hash back));;
              match o with
              | None => ret false
              | Some height => check (height =? blk_height back);; ret true
              end
            else ret true);; k known) notes x.
Proof.
  intros Hback Hk. eapply pushes_step; [|done|done|exact Hk].
  destruct (u64 low <=? blk_height back); cbn [negb orb]; [|done].
  rewrite (bind_Ok _ _ _ _ _ (Run_GetHeightForHash (blk_hash back) (b, c, pm) eq_refl)).
  destruct (blocks c !! blk_hash back) as [r|] eqn:E; cbn [fmap option_fmap option_map].
  - rewrite bool_decide_eq_true_2 by done.
    destruct (row_genuine _ _ _ HI E) as (_ & Hh & _). destruct Hback as (_ & _ & Hbh & _).
    by rewrite check_true by (apply Z.eqb_eq; congruence).
  - by rewrite bool_decide_eq_false_2 by (intros [? ?]; discriminate).
Qed.

(** Whether the queried blocks [l] are accepted: they continue the fork point, and the
    last one is known or below the stored blocks. *)
Definition accepts F low (l : list BlockData) : bool :=
  match l with
  | [] => true
  | front :: _ => bool_decide (blk_parent front = F) &&
      let back := default front (last l) in
      (negb (u64 low <=? blk_height back) || bool_decide (is_Some (blocks c !! blk_hash back)))
  end.

Lemma slice_self_linked k n : linked (slice ch k n).
Proof.
  apply (slice_linked T ch GC k). apply slice_eq. intros i x Hx. by eapply slice_lookup.
Qed.

Lemma accepts_known F low H n target : H + Z.of_nat n <= target -> hash_at ch H F ->
  (forall k h, H < k <= target -> hash_at ch k h -> is_Some (blocks c !! h)) ->
  accepts F low (slice ch (H + 1) n) = true.
Proof.
  intros Hn (f & Hf & Hff) Hknown. unfold accepts. destruct (slice ch (H + 1) n) as [|front l'] eqn:El; [done|].
  assert (Hfront : ch (H + 1) = Some front).
  { apply (f_equal head) in El. destruct n; [done|]. cbn in El.
    destruct (ch (H + 1)); cbn in El; congruence. }
  rewrite bool_decide_eq_true_2 by (rewrite <- Hff; by eapply gc_link). cbn zeta.
  rewrite bool_decide_eq_true_2; [by rewrite orb_true_r|].
  destruct (last (front :: l')) as [d|] eqn:Ed; [|by apply last_None in Ed]. cbn [default].
  apply last_Some_elem_of in Ed. rewrite <- El in Ed. apply slice_elem in Ed as (i & Hi & Hd).
  apply (Hknown (H + 1 + Z.of_nat i)); [lia|by exists d].
Qed.

Lemma slice_last_genuine k n front l : slice ch k n = front :: l ->
  genuine (default front (last (front :: l))).
Proof.
  intros El. assert (Hin : default front (last (front :: l)) ∈ front :: l).
  { destruct (last (front :: l)) as [d|] eqn:Ed; [by apply last_Some_elem_of|set_solver]. }
  rewrite <- El in Hin at 2. apply slice_elem in Hin as (i & _ & Hat). by apply (gc_genuine _ _ GC _ _ Hat).
Qed.

(** The height up to which blocks are queried. *)
Definition target_is toHeight target : Prop :=
  toHeight = target \/ (toHeight = -1 /\ exists h r, is_top (blocks c) h r /\ row_height r = target).

Lemma push_queried_run num tok low det H F toHeight target b pm :
  0 <= num < u32_modulus -> 0 <= H <= target -> target < 2 ^ 62 -> target - H < u32_modulus ->
  target_is toHeight target -> R b ->
  let l := slice ch (H + 1) (Z.to_nat (Z.min num (target - H))) in
  let att := if accepts F low l then l else [] in
  pushes tok (b, c, pm) (push_queried num tok low det H F toHeight)
    (map Attach att) (accepts F low l, det, att).
Proof.
  intros Hnum HH Ht62 Hsmall Htarget HR l. unfold push_queried.
  eapply (pushes_step _ _ (b, c, pm) _ target).
  { destruct Htarget as [->|[-> (h & r & Ht & Hr)]].
    - destruct (Z.eqb_spec target (-1)); [lia|]. unfold ret. rewrite u64_small by (unfold u64_modulus; lia). done.
    - rewrite Z.eqb_refl. erewrite bind_Ok; [|apply run_chain_read; by eapply (GetTipHeight_ok c)].
      unfold ret. rewrite u64_small by (unfold u64_modulus; lia). by rewrite Hr. }
  1, 2: done.
  eapply (pushes_step _ _ (b, c, pm) _ tt); [by rewrite (proj2 (Z.leb_le _ _)) by lia|done..|].
  cbn zeta. rewrite (u64_small (target - H)) by (unfold u32_modulus, u64_modulus in *; lia).
  rewrite !u32_small, u64_small by (unfold u64_modulus; lia).
  destruct (serves_range _ _ _ _ (an_serves _ _ _ HA) b (H + 1) (Z.min num (target - H)) HR)
    as (b1 & Hrun & HR1); [unfold i64_max, u32_modulus in *; lia..|]. fold l in Hrun.
  eapply (pushes_step _ _ (b1, c, pm)); [exact (run_base_run _ (b, c, pm) _ _ Hrun)|done..|].
  unfold accepts. destruct l as [|front l'] eqn:El; [by apply pushes_ret|].
  case_bool_decide as Hp; cbn [negb andb]; [|by apply pushes_ret].
  apply pushes_known; [by eapply slice_last_genuine|].
  destruct (_ || _); cbn [negb]; [by apply pushes_attach|by apply pushes_ret].
Qed.

Lemma push_queried_spec num tok low det H F toHeight target :
  0 <= num < u32_modulus -> 0 <= H <= target -> target < 2 ^ 62 -> target - H < u32_modulus ->
  (toHeight = target \/
   (toHeight = -1 /\ exists h r, is_top (blocks c) h r /\ row_height r = target)) ->
  exists ok att, (att = [] \/ (ok = true /\ exists b1 l, att = b1 :: l /\ linked att /\ blk_parent b1 = F /\
                    att = slice ch (H + 1) (Z.to_nat (Z.min num (target - H))))) /\
    (ok = true -> att = slice ch (H + 1) (Z.to_nat (Z.min num (target - H)))) /\
    (hash_at ch H F -> (forall k h, H < k <= target -> hash_at ch k h -> is_Some (blocks c !! h)) ->
       ok = true) /\
    forall b pm, R b ->
      pushes tok (b, c, pm) (push_queried num tok low det H F toHeight)
        (map Attach att) (ok, det, att).
Proof.
  intros Hnum HH Ht62 Hsmall Htarget.
  set (l := slice ch (H + 1) (Z.to_nat (Z.min num (target - H)))).
  exists (accepts F low l), (if accepts F low l then l else []). split_and!.
  - destruct (accepts F low l) eqn:Eok; [|by left].
    destruct l as [|b1 l'] eqn:El; [by left|right]. split; [done|]. exists b1, l'.
    apply andb_true_iff in Eok as [Hp%bool_decide_eq_true _].
    split_and!; [done|rewrite <- El; apply slice_self_linked|done|done].
  - by intros ->.
  - intros. apply (accepts_known F low H _ target); [lia|done|done].
  - intros b pm HR. by apply (push_queried_run num tok low det H F toHeight target).
Qed.

(** ** More detaches *)

Lemma detach_towards_spec num tok det H F t :
  1 <= num < u32_modulus -> 0 <= t < H -> H <= T -> H < 2 ^ 62 -> H - t < u32_modulus ->
  exists ok l, (l = [] \/ exists d b, ok = true /\ linked l /\ last l = Some d /\ blk_hash d = F /\
                    head l = Some b) /\
    (hash_at ch H F -> ok = true /\
       l = slice ch (H - Z.min num (H - t) + 1) (Z.to_nat (Z.min num (H - t)))) /\
    forall b pm, R b ->
      pushes tok (b, c, pm) (detach_towards num tok det H F t)
        (map Detach (reverse l)) (ok, det ++ reverse l, []).
Proof.
  intros Hnum Ht HT H62 Hsmall. set (n := Z.min num (H - t)).
  set (l := slice ch (H - n + 1) (Z.to_nat n)).
  assert (Hlen : Z.of_nat (length l) = n).
  { unfold l. rewrite (slice_chain_length T ch GC) by lia. lia. }
  assert (Hlink : linked l).
  { apply slice_self_linked. }
  destruct l as [|b0 l'] eqn:El; [cbn in Hlen; lia|].
  assert (Hlast : last (b0 :: l') = ch H).
  { rewrite last_lookup. replace (pred (length (b0 :: l'))) with (Z.to_nat (n - 1)) by (cbn in *; lia).
    destruct ((b0 :: l') !! Z.to_nat (n - 1)) as [d|] eqn:Ed.
    - rewrite <- El in Ed. pose proof (slice_lookup _ _ _ _ _ Ed) as Hd.
      rewrite <- Hd. f_equal. lia.
    - apply lookup_ge_None in Ed. cbn in *. lia. }
  destruct (gc_some _ _ GC H) as [d Hd]; [lia|]. rewrite Hd in Hlast.
  exists (bool_decide (blk_hash d = F)), (if bool_decide (blk_hash d = F) then b0 :: l' else []).
  split_and!.
  - case_bool_decide; [right|by left]. by exists d, b0.
  - intros (x & Hx & <-). assert (x = d) as -> by congruence. by rewrite bool_decide_eq_true_2.
  - intros b pm HR. unfold detach_towards.
    rewrite (u64_small (H - t)) by (unfold u32_modulus, u64_modulus in *; lia).
    rewrite !u32_small by lia. fold n.
    rewrite (u64_small (H - n)), u64_small by (unfold u64_modulus; lia).
    destruct (serves_range _ _ _ _ (an_serves _ _ _ HA) b (H - n + 1) n HR)
      as (b1 & Hrun & HR1); [unfold i64_max, u32_modulus in *; lia..|]. fold l in Hrun. rewrite El in Hrun.
    eapply pushes_step; [exact (run_base_run _ (b, c, pm) _ _ Hrun)|done..|].
    rewrite Hlast. case_bool_decide; cbn [negb].
    + rewrite <- (app_nil_r (map Detach _)). apply pushes_detach; [done|]. intros p. by apply pushes_ret.
    + rewrite app_nil_r. by apply pushes_ret.
Qed.
(** ** All of a request *)

(** The block where the receiver is said to end up. *)
Definition to_block (from : string) (det att : list BlockData) : string :=
  match last att with
  | Some a => blk_hash a
  | None => match last det with Some d => blk_parent d | None => from end
  end.

Lemma to_block_app from det extra att :
  to_block from (det ++ extra) att = to_block (fork_end from det) extra att.
Proof.
  unfold to_block, fork_end. destruct (last att); [done|]. rewrite last_app.
  by destruct (last extra).
Qed.

Context (Hmain : main_on ch (blocks c)) (tip : string) (rt : row).
Context (Htip : is_top (blocks c) tip rt) (HT : T < u32_modulus) (b0 : B) (HR0 : R b0).

(** After the fork point is known. *)
Definition after_fork (to : string) (num : Z) (tok : string) (low : Z) (det : list BlockData)
    (H : Z) (F : string) : M Run (bool * list BlockData * list BlockData) :=
  if negb (nonempty to) then push_attaches [] num tok low det H F (-1)
  else
    toHeight <- run_base (bc_GetMainchainHeight to);;
    if toHeight =? -1 then ret (false, det, [])
    else if toHeight =? i64 H then ret (false, det, [])
    else if toHeight <? i64 H then detach_towards num tok det H F toHeight
    else check (H <? u64 toHeight);; push_attaches [] num tok low det H F toHeight.

Lemma top_range : 0 <= row_height rt <= T.
Proof.
  pose proof Htip as (Hr & Hb & _). destruct (row_genuine _ _ _ HI Hr) as (_ & _ & _ & ? & _).
  destruct (hash_at_height T ch GC _ _ (Hmain _ _ Hr Hb)). lia.
Qed.

Lemma push_attaches_spec num tok low det H F toHeight target :
  1 <= num < u32_modulus -> 0 <= H <= target -> target <= T ->
  (toHeight = target \/ (toHeight = -1 /\ target = row_height rt)) ->
  exists ok att, replay F (map Attach att) = Some (to_block F [] att) /\
    (hash_at ch H F -> (forall k h, H < k <= target -> hash_at ch k h -> is_Some (blocks c !! h)) ->
       ok = true /\ att = slice ch (H + 1) (Z.to_nat (Z.min num (target - H)))) /\
    forall b pm, R b ->
      pushes tok (b, c, pm) (push_attaches [] num tok low det H F toHeight)
        (map Attach att) (ok, det, att).
Proof.
  intros Hnum HH Htg Hto. assert (H32 : u32_modulus < 2 ^ 62) by done.
  destruct (push_queried_spec num tok low det H F toHeight target) as (ok & att & Hatt & Hok & Hyes & Hp);
    [lia|lia|lia|lia| |].
  { destruct Hto as [->|[-> ->]]; [by left|right]. split; [done|]. by exists tip, rt. }
  exists ok, att. split_and!; [|intros ? ?; split; [by apply Hyes|by apply Hok, Hyes]|exact Hp].
  destruct Hatt as [->|(_ & b1 & l & -> & Hl & Hb1 & _)]; [done|].
  rewrite replay_attaches by done. unfold to_block.
  destruct (last (b1 :: l)) eqn:E; [done|]. by apply last_None in E.
Qed.

(** With a target, by its height. *)
Lemma after_fork_height to num tok low det H F k notes x : to <> EmptyString ->
  (forall b, R b -> exists b', bc_GetMainchainHeight to b = (Ok k, b') /\ R b') ->
  (forall b pm, R b -> pushes tok (b, c, pm)
     (if k =? -1 then ret (false, det, [])
      else if k =? i64 H then ret (false, det, [])
      else if k <? i64 H then detach_towards num tok det H F k
      else check (H <? u64 k);; push_attaches [] num tok low det H F k) notes x) ->
  forall b pm, R b -> pushes tok (b, c, pm) (after_fork to num tok low det H F) notes x.
Proof.
  intros Hne Hq Hp b pm HR. unfold after_fork. rewrite nonempty_true by done. cbn [negb].
  destruct (Hq b HR) as (b' & Hrun & HR').
  eapply pushes_step; [exact (run_base_run _ (b, c, pm) _ _ Hrun)|done..|]. by apply Hp.
Qed.

Lemma after_fork_spec to num tok low det H F : 1 <= num < u32_modulus -> 0 <= H <= row_height rt ->
  exists ok extra att,
    replay F (map Detach extra ++ map Attach att) = Some (to_block F extra att) /\
    (to = EmptyString -> hash_at ch H F ->
       (forall k h, H < k <= row_height rt -> hash_at ch k h -> is_Some (blocks c !! h)) ->
       ok = true /\ extra = [] /\ att = slice ch (H + 1) (Z.to_nat (Z.min num (row_height rt - H)))) /\
    (to <> EmptyString -> hash_at ch H to -> ok = false /\ extra = [] /\ att = []) /\
    forall b pm, R b ->
      pushes tok (b, c, pm) (after_fork to num tok low det H F)
        (map Detach extra ++ map Attach att) (ok, det ++ extra, att).
Proof.
  intros Hnum HH. pose proof top_range as Htr. assert (H32 : u32_modulus < 2 ^ 62) by done.
  assert (Hi64 : i64 H = H) by (apply i64_small; unfold i64_max; lia).
  destruct (decide (to = EmptyString)) as [->|Hne].
  { destruct (push_attaches_spec num tok low det H F (-1) (row_height rt)) as (ok & att & Hrep & Hyes & Hp);
      [lia|lia|lia|by right|].
    exists ok, [], att. split_and!; [done| |done|].
    - intros _ Hat Hk. destruct (Hyes Hat Hk). done.
    - intros b pm HR. rewrite (app_nil_r det). by apply Hp. }
  destruct (height_query to b0 HR0) as (k & Hk & Hq).
  assert (HkH : hash_at ch H to -> k = H).
  { intros Hat. destruct Hk as [[-> Hn]|[_ Hh]]; [by destruct (Hn H)|].
    destruct (hash_at_height T ch GC _ _ Hat), (hash_at_height T ch GC _ _ Hh). lia. }
  destruct (decide (k = -1 \/ k = H)) as [Hkk|Hkk].
  { exists false, [], []. split_and!; [done..|]. apply (after_fork_height to _ _ _ _ _ _ k _ _ Hne Hq).
    intros b pm HR. rewrite (app_nil_r det), Hi64.
    destruct (Z.eqb_spec k (-1)); [by apply pushes_ret|].
    destruct (Z.eqb_spec k H); [by apply pushes_ret|]. lia. }
  destruct Hk as [[-> _]|[Hk0 Hkat]]; [lia|]. destruct (hash_at_height T ch GC _ _ Hkat) as [_ HkT].
  destruct (decide (k < H)) as [Hlt|Hge].
  - destruct (detach_towards_spec num tok det H F k) as (ok & l & Hl & _ & Hp); [lia..|].
    exists ok, (reverse l), []. rewrite app_nil_r. split_and!; [|done|by intros _ ?%HkH; lia|].
    + destruct Hl as [->|(d & b & _ & Hl & Hd & HF & Hb)]; [done|].
      rewrite (replay_reverse F l d b) by done. unfold to_block. cbn [last]. rewrite last_reverse.
      destruct l; [done|]. by injection Hb as ->.
    + apply (after_fork_height to _ _ _ _ _ _ k _ _ Hne Hq). intros b pm HR. rewrite Hi64.
      destruct (Z.eqb_spec k (-1)); [lia|]. destruct (Z.eqb_spec k H); [lia|].
      destruct (Z.ltb_spec k H); [|lia]. by apply Hp.
  - destruct (push_attaches_spec num tok low det H F k k) as (ok & att & Hrep & _ & Hp); [lia|lia|lia|by left|].
    exists ok, [], att. split_and!; [done|done|by intros _ ?%HkH; lia|].
    apply (after_fork_height to _ _ _ _ _ _ k _ _ Hne Hq). intros b pm HR. rewrite Hi64, (app_nil_r det).
    destruct (Z.eqb_spec k (-1)); [lia|]. destruct (Z.eqb_spec k H); [lia|].
    destruct (Z.ltb_spec k H); [lia|].
    eapply (pushes_step _ _ (b, c, pm) _ tt); [|done|done|by apply Hp].
    rewrite u64_small by (unfold u32_modulus, u64_modulus in *; lia).
    by rewrite (proj2 (Z.ltb_lt _ _)) by lia.
Qed.

Lemma fork_end_main from bs rF : fork_path (blocks c) from bs ->
  blocks c !! fork_end from bs = Some rF -> row_branch rF = 0.
Proof.
  intros Hp HF. unfold fork_end in HF. destruct (last bs) as [d|] eqn:Ed.
  - by eapply (fork_path_end _ _ _ _ (inv_rows _ HI) Hp Ed).
  - apply last_None in Ed. subst bs. inversion Hp; simplify_eq. done.
Qed.

(** The stored main chain has the chain's blocks above a stored one. *)
Lemma chain_stored h r : blocks c !! h = Some r -> row_branch r = 0 ->
  forall k x, row_height r < k <= row_height rt -> hash_at ch k x -> is_Some (blocks c !! x).
Proof.
  intros Hr Hb k x Hk Hx. pose proof Htip as (Hrt & Hbt & _).
  destruct (main_down T ch GC (blocks c) tip rt (Z.to_nat (row_height rt - k)) HI Htip
    (Hmain _ _ Hrt Hbt) h r Hr Hb) as (hx & rx & Hx' & _ & Hhx & Hatx); [lia|].
  replace (row_height rx) with k in Hatx by lia.
  by rewrite (hash_at_fun ch k x hx Hx Hatx), Hx'.
Qed.

(** The fork point of a stored block. *)
Lemma known_fork_point from rf bs : blocks c !! from = Some rf -> fork_path (blocks c) from bs ->
  (forall h r, blocks c !! h = Some r -> row_branch r <> 0 -> 0 < row_height r) ->
  exists H, 0 <= H <= row_height rt /\
    (forall s, s.1.2 = c -> fork_point from bs (-1) s = (Ok (H, fork_end from bs), s : Run)) /\
    (forall rF, blocks c !! fork_end from bs = Some rF -> row_height rF = H).
Proof.
  intros Ef Hp Hpos. pose proof Htip as (Hrt & Hbt & Hmax).
  destruct (blocks c !! fork_end from bs) as [rF|] eqn:EF.
  - exists (row_height rF). destruct (row_genuine _ _ _ HI EF) as (_ & _ & _ & ? & _).
    split_and!; [lia|apply (Hmax _ _ EF), (fork_end_main _ _ _ Hp EF)| |by intros ? [= <-]].
    intros s Hs. apply fork_point_ok; by rewrite Hs.
  - destruct (last bs) as [d|] eqn:Ed.
    2: { unfold fork_end in EF. rewrite Ed in EF. congruence. }
    destruct (fork_path_elem _ _ _ d (inv_rows _ HI) Hp) as (r & Hr & Hb & Hpar & Hh & _);
      [by apply last_Some_elem_of|].
    assert (EF' : blocks c !! row_parent r = None).
    { rewrite Hpar. unfold fork_end in EF. by rewrite Ed in EF. }
    pose proof (inv_anchored _ HI _ _ Hr Hb EF' _ _ Hrt Hbt). specialize (Hpos _ _ Hr Hb).
    pose proof top_range.
    exists (blk_height d - 1). split_and!; [lia|lia| |done]. intros s Hs.
    unfold fork_point, fork_end. change (negb (-1 =? -1)) with false. cbn iota. rewrite Ed.
    rewrite u64_small by (unfold u32_modulus, u64_modulus in *; lia). done.
Qed.

(** What a request gets: the notifications lead to the block that is named; with a stored
    block and fork point, all of its branch is detached, and either as many of the next
    blocks attached, or the request is refused because it is for the fork point. *)
Definition requested (from to : string) (num : Z) (ok : bool) (det att : list BlockData) : Prop :=
  replay from (map Detach det ++ map Attach att) = Some (to_block from det att) /\
  forall bs rF, fork_path (blocks c) from bs -> blocks c !! fork_end from bs = Some rF ->
    (to = EmptyString -> ok = true /\ det = bs /\
       att = slice ch (row_height rF + 1) (Z.to_nat (Z.min num (row_height rt - row_height rF)))) /\
    (to <> EmptyString -> hash_at ch (row_height rF) to -> ok = false /\ det = bs /\ att = []).

Lemma push_known from rf to num tok hl rl : blocks c !! from = Some rf -> from <> EmptyString ->
  1 <= num < u32_modulus -> is_low (blocks c) hl rl ->
  (forall h r, blocks c !! h = Some r -> row_branch r <> 0 -> 0 < row_height r) ->
  exists ok det att, requested from to num ok det att /\
    forall b pm, R b ->
      pushes tok (b, c, pm) (PushZmqBlocks from to [] num tok)
        (map Detach det ++ map Attach att) (ok, det, att).
Proof.
  intros Ef Hfrom Hnum Hlow Hpos.
  destruct (GetForkBranch_ok c from HI) as (bs & Hp & _).
  destruct (known_fork_point from rf bs Ef Hp Hpos) as (H & HH & Hfp & HF).
  destruct (after_fork_spec to num tok (row_height rl) bs H (fork_end from bs) Hnum HH)
    as (ok & extra & att & Hrep & Htip' & Hto & Hpush).
  exists ok, (bs ++ extra), att. split; [split|].
  - rewrite map_app, <- app_assoc, replay_app, (replay_detaches _ _ _ (inv_rows _ HI) Hp).
    cbn [mbind option_bind]. by rewrite Hrep, to_block_app.
  - intros bs' rF Hp' HrF. assert (bs' = bs) as -> by by eapply fork_path_det.
    pose proof (HF _ HrF). subst H. pose proof (fork_end_main _ _ _ Hp HrF) as HbF. split.
    + intros E. destruct (Htip' E) as (-> & -> & ->); [by apply Hmain|by eapply chain_stored|].
      by rewrite app_nil_r.
    + intros E Hat. destruct (Hto E Hat) as (-> & -> & ->). by rewrite app_nil_r.
  - intros b pm HR. rewrite map_app, <- app_assoc.
    destruct (pushes_detach tok (b, c, pm) bs
      (let* '(forkHeight, forkPoint) := fork_point from bs (-1) in
       after_fork to num tok (row_height rl) bs forkHeight forkPoint)
      (map Detach extra ++ map Attach att) (ok, bs ++ extra, att) HR) as (b' & HR' & Hrun).
    { intros p. eapply pushes_step; [by apply Hfp|done|done|]. by apply Hpush. }
    exists b'. split; [done|]. rewrite <- Hrun.
    apply (push_start (b, c, pm) from to [] num tok bs hl rl HI Hfrom); [by right|by exists rf|done|done].
Qed.

(** A block that is not stored is looked for on the base chain. *)
Lemma push_unknown_start from to num tok hl rl notes x : blocks c !! from = None ->
  from <> EmptyString -> is_low (blocks c) hl rl ->
  (forall b pm, R b -> pushes tok (b, c, pm)
     (located <- locate_from (row_height rl) from false;;
      match located with
      | None => ret (false, [], [])
      | Some k => run_zmq (forM [] (fun blk => pub_detach blk tok));;
          let* '(forkHeight, forkPoint) := fork_point from [] k in
          after_fork to num tok (row_height rl) [] forkHeight forkPoint
      end) notes x) ->
  forall b pm, R b -> pushes tok (b, c, pm) (PushZmqBlocks from to [] num tok) notes x.
Proof.
  intros Ef Hfrom Hlow Hk b pm HR. destruct (Hk b pm HR) as (b' & HR' & Hrun).
  pose proof Hlow as (Hrl & _). destruct (row_genuine _ _ _ HI Hrl) as (_ & _ & _ & Hrange & _).
  exists b'. split; [done|].
  rewrite <- Hrun. unfold PushZmqBlocks. rewrite check_true by by rewrite orb_true_r.
  rewrite nonempty_true by done. cbn [negb].
  erewrite bind_Ok; [|apply run_chain_read; by eapply (GetLowestUnprunedHeight_ok c)].
  rewrite check_true by (apply Z.leb_le; lia).
  destruct (GetForkBranch_ok c from HI) as (bs & Hp & Hfork).
  assert (bs = []) as -> by (inversion Hp; simplify_eq; done).
  rewrite Ef, bool_decide_eq_false_2 in Hfork by (intros [? ?]; discriminate).
  erewrite bind_Ok; [|apply run_chain_read; exact Hfork]. reflexivity.
Qed.

Lemma push_unknown from to num tok hl rl : blocks c !! from = None -> from <> EmptyString ->
  1 <= num < u32_modulus -> is_low (blocks c) hl rl ->
  exists ok det att, requested from to num ok det att /\
    forall b pm, R b ->
      pushes tok (b, c, pm) (PushZmqBlocks from to [] num tok)
        (map Detach det ++ map Attach att) (ok, det, att).
Proof.
  intros Ef Hfrom Hnum Hlow. pose proof Hlow as (Hrl & Hbl & Hmin). pose proof Htip as (Hrt & Hbt & _).
  assert (Hunk : forall bs rF, fork_path (blocks c) from bs ->
            blocks c !! fork_end from bs = Some rF -> False).
  { intros bs rF Hp HF. inversion Hp; simplify_eq; cbn in HF; congruence. }
  destruct (height_query from b0 HR0) as (k & Hk & Hquery).
  destruct (decide (k = -1 \/ row_height rl <= k)) as [Hkk|Hkk].
  - exists false, [], []. split; [split; [done|by intros ? ? ? ?; exfalso; eapply Hunk]|].
    apply (push_unknown_start from to num tok hl rl); [done..|]. intros b pm HR.
    destruct (Hquery b HR) as (b' & Hrun & HR').
    eapply (pushes_step _ _ (b', c, pm) _ None); [|done|done|by apply pushes_ret].
    unfold locate_from. rewrite (bind_Ok _ _ _ _ _ (run_base_run _ (b, c, pm) _ _ Hrun)).
    destruct (Z.eqb_spec k (-1)); [done|].
    destruct (Z.leb_spec (row_height rl) k); [done|lia].
  - destruct Hk as [[-> _]|[Hk0 Hat]]; [lia|].
    destruct (after_fork_spec to num tok (row_height rl) [] k from Hnum)
      as (ok & extra & att & Hrep & _ & _ & Hpush).
    { pose proof (Hmin _ _ Hrt Hbt). lia. }
    exists ok, extra, att. split; [split; [done|by intros ? ? ? ?; exfalso; eapply Hunk]|].
    apply (push_unknown_start from to num tok hl rl); [done..|]. intros b pm HR.
    destruct (Hquery b HR) as (b' & Hrun & HR').
    eapply (pushes_step _ _ (b', c, pm) _ (Some k)); [|done|done|].
    { unfold locate_from. rewrite (bind_Ok _ _ _ _ _ (run_base_run _ (b, c, pm) _ _ Hrun)).
      destruct (Z.eqb_spec k (-1)); [lia|].
      destruct (Z.leb_spec (row_height rl) k); [lia|done]. }
    eapply (pushes_step _ _ (b', c, pm) _ tt); [apply run_zmq_ret|done|done|].
    eapply (pushes_step _ _ (b', c, pm) _ (k, from)); [|done|done|by apply (Hpush b' pm)].
    unfold fork_point. destruct (Z.eqb_spec k (-1)); [lia|]. cbn [negb].
    destruct (hash_at_height T ch GC _ _ Hat).
    rewrite u64_small by (unfold u32_modulus, u64_modulus in *; lia). done.
Qed.

Lemma push_request from to num tok : from <> EmptyString -> 1 <= num < u32_modulus ->
  (forall h r, blocks c !! h = Some r -> row_branch r <> 0 -> 0 < row_height r) ->
  exists ok det att, requested from to num ok det att /\
    forall b pm, R b ->
      pushes tok (b, c, pm) (PushZmqBlocks from to [] num tok)
        (map Detach det ++ map Attach att) (ok, det, att).
Proof.
  intros Hfrom Hnum Hpos. pose proof Htip as (Hrt & _).
  destruct (is_low_exists (blocks c) HI) as (hl & rl & Hlow); [by intros E; rewrite E in Hrt|].
  destruct (blocks c !! from) as [rf|] eqn:Ef; [by eapply push_known|by eapply push_unknown].
Qed.
End Requests.
