(* ===== verification/Controller.v ===== *)
(** * The controller and its RPC server (src/controller.cpp, src/controller.hpp)

    The settings of a [Controller], and the methods of the RPC server that runs while
    the controller does.  The state [Node] has the settings, the data of the RPC
    server, and the state of RunData.v.  The methods hold the locks of the data
    that they access, so each of them is one operation here.  Libraries are
    parameters: the text of exceptions, and the base64 decoder of libxayautil. *)

From stdpp Require Import pretty.
From S2P Require Import Prelude Json BlockData Chainstate BaseChain ZmqPub Publisher Pending RunData.

(** [std::exception::what] and [xaya::DecodeBase64]. *)
Class RpcLib := {
  what : exn -> string;
  DecodeBase64 : string -> option string
}.

(** Error codes of libjson-rpc-cpp. *)
Definition ERROR_RPC_INTERNAL_ERROR : Z := -32603.
Definition ERROR_RPC_INVALID_PARAMS : Z := -32602.

Record Controller := {
  zmqAddr : string;
  rpcPort : Z;
  rpcListenLocally : bool;
  pending : bool;
  sanityChecks : bool;
  maxReorgDepth : Z;
  trackedGames : gset string;
  running : bool;
  shouldStop : bool
}.

Record RpcServer := {
  requests : Z;
  cachedChain : string;
  cachedVersion : Z
}.

Definition rpc_start : RpcServer := {| requests := 0; cachedChain := ""; cachedVersion := -1 |}.

(** Conversion to [int], modular as on every supported compiler. *)
Definition i32 (z : Z) : Z :=
  let w := z mod 2 ^ 32 in if w <? 2 ^ 31 then w else w - 2 ^ 32.

(** The order of a [std::set] of strings. *)
Definition string_le (a b : string) : Prop := String.leb a b = true.

#[export] Instance string_le_dec a b : Decision (string_le a b).
Proof. unfold string_le. apply _. Defined.

Section Controller.
Context {J : JsonCpp} {C : BlockCodec} {L : RpcLib} {B P : Type} {BC : BaseChain B}
  {PB : Publisher P}.
Notation RunState := (B * Chainstate * PendingManager P)%type.

Record Node := {
  nd_ctl : Controller;
  nd_rpc : RpcServer;
  nd_run : RunState
}.

Definition on_run {A} (m : M RunState A) : M Node A :=
  zoom nd_run (fun r s => {| nd_ctl := nd_ctl s; nd_rpc := nd_rpc s; nd_run := r |}) m.

Definition on_rpc {A} (m : M RpcServer A) : M Node A :=
  zoom nd_rpc (fun r s => {| nd_ctl := nd_ctl s; nd_rpc := r; nd_run := nd_run s |}) m.

Definition on_ctl {A} (m : M Controller A) : M Node A :=
  zoom nd_ctl (fun c s => {| nd_ctl := c; nd_rpc := nd_rpc s; nd_run := nd_run s |}) m.

(** ** RPC methods *)

Definition PropagateBaseChainError {S A} (exc : exn) : M S A :=
  throw (JsonRpcException ERROR_RPC_INTERNAL_ERROR ("Error with base chain: " ++ what exc)).

Definition getzmqnotifications : M Node Value :=
  s <- get;;
  let cur := set_member (set_member objectValue "type" (of_string "pubgameblocks"))
                        "address" (of_string (zmqAddr (nd_ctl s))) in
  let res := append arrayValue cur in
  ret (if pending (nd_ctl s)
       then append res (set_member cur "type" (of_string "pubgamepending")) else res).

Definition trackedgames (cmd game : string) : M Node unit :=
  if bool_decide (cmd = "add"%string) then on_run (run_zmq (pub_track game))
  else if bool_decide (cmd = "remove"%string) then on_run (run_zmq (pub_untrack game))
  else ret tt.

Definition set_cachedVersion (v : Z) (r : RpcServer) : RpcServer :=
  {| requests := requests r; cachedChain := cachedChain r; cachedVersion := v |}.

Definition set_cachedChain (c : string) (r : RpcServer) : RpcServer :=
  {| requests := requests r; cachedChain := c; cachedVersion := cachedVersion r |}.

Definition getnetworkinfo : M Node Value :=
  s <- get;;
  (if cachedVersion (nd_rpc s) =? -1 then
     try_catch (v <- on_run (run_base bc_GetVersion);; on_rpc (modify (set_cachedVersion v)))
               PropagateBaseChainError
   else ret tt);;
  s <- get;;
  check (-1 <=? cachedVersion (nd_rpc s));;
  ret (set_member objectValue "version" (of_int (cachedVersion (nd_rpc s)))).

Definition getblockchaininfo : M Node Value :=
  s <- get;;
  (if bool_decide (cachedChain (nd_rpc s) = EmptyString) then
     try_catch (c <- on_run (run_base bc_GetChain);; on_rpc (modify (set_cachedChain c)))
               PropagateBaseChainError
   else ret tt);;
  s <- get;;
  check (nonempty (cachedChain (nd_rpc s)));;
  let res := set_member objectValue "chain" (of_string (cachedChain (nd_rpc s))) in
  tipHeight <- on_run (run_chain GetTipHeight);;
  if tipHeight =? -1 then
    ret (set_member (set_member res "blocks" (of_int (-1))) "bestblockhash" (of_string ""))
  else
    check (0 <=? tipHeight);;
    o <- on_run (run_chain (GetHashForHeight (u64 tipHeight)));;
    match o with
    | None => fatal
    | Some tipHash =>
        ret (set_member (set_member res "blocks" (of_int tipHeight))
                        "bestblockhash" (of_string tipHash))
    end.

(** The [int] argument is converted to [uint64_t]. *)
Definition getblockhash (height : Z) : M Node string :=
  o <- on_run (run_chain (GetHashForHeight (u64 height)));;
  match o with
  | Some hash => ret hash
  | None =>
      lowest <- on_run (run_chain GetLowestUnprunedHeight);;
      if lowest <=? height then throw (JsonRpcException (-8) "block height out of range")
      else
        blocks <- try_catch (on_run (run_base (bc_GetBlockRange (u64 height) 1)))
                            PropagateBaseChainError;;
        match blocks with
        | [] => throw (JsonRpcException (-8) "block height out of range")
        | blk :: more => check (empty_b more);; ret (blk_hash blk)
        end
  end.

Definition getblockheader (hash : string) : M Node Value :=
  let res := set_member objectValue "hash" (of_string hash) in
  o <- on_run (run_chain (GetHeightForHash hash));;
  match o with
  | Some height => ret (set_member res "height" (of_int (i64 height)))
  | None =>
      found <- try_catch
        (baseHeight <- on_run (run_base (bc_GetMainchainHeight hash));;
         if baseHeight =? -1 then ret None
         else check (0 <=? baseHeight);;
              ret (Some (set_member res "height" (of_int baseHeight))))
        PropagateBaseChainError;;
      match found with
      | Some v => ret v
      | None => throw (JsonRpcException (-5) "block not found")
      end
  end.

Definition game_sendupdates : M Node Value := fatal.

(** The counter is an [unsigned]. *)
Definition next_request : M RpcServer Z :=
  modify (fun r => {| requests := u32 (requests r + 1); cachedChain := cachedChain r;
                      cachedVersion := cachedVersion r |});;
  gets requests.

Definition reqtoken (n : Z) : string := ("request_" ++ pretty n)%string.

Definition updates_reply (token : string) (from : string) (ok : bool)
    (detaches attaches : list BlockData) : Value :=
  let toBlock := match last attaches with
                 | Some a => blk_hash a
                 | None => match last detaches with
                           | Some d => blk_parent d
                           | None => from
                           end
                 end in
  let steps := set_member (set_member objectValue
                 "detach" (of_int (Z.of_nat (length detaches))))
                 "attach" (of_int (Z.of_nat (length attaches))) in
  set_member (set_member (set_member (set_member objectValue
    "reqtoken" (of_string token)) "toblock" (of_string toBlock)) "steps" steps)
    "error" (of_bool (negb ok)).

(** [FLAGS_xayax_block_range] is an [int32_t], and converted to [unsigned]. *)
Definition game_sendupdates3 (xayax_block_range : Z) (from gameId to : string)
  : M Node Value :=
  n <- on_rpc next_request;;
  let token := reqtoken n in
  let* '(ok, detaches, attaches) :=
    try_catch (on_run (PushZmqBlocks from to [] (u32 xayax_block_range) token))
              PropagateBaseChainError in
  ret (updates_reply token from ok detaches attaches).

Definition game_sendupdates2 (xayax_block_range : Z) (from gameId : string) : M Node Value :=
  game_sendupdates3 xayax_block_range from gameId "".

Definition verifymessage (addr msg sgn : string) : M Node Value :=
  match DecodeBase64 sgn with
  | None => throw (JsonRpcException ERROR_RPC_INVALID_PARAMS "signature is not base64-encoded")
  | Some rawSgn =>
      let addrRecovery := negb (nonempty addr) in
      ok <- try_catch (on_run (run_base (bc_VerifyMessage msg rawSgn)))
                      PropagateBaseChainError;;
      match ok with
      | None =>
          ret (if addrRecovery then set_member objectValue "valid" (of_bool false)
               else of_bool false)
      | Some signerAddr =>
          ret (if addrRecovery
               then set_member (set_member objectValue "valid" (of_bool true))
                               "address" (of_string signerAddr)
               else of_bool (bool_decide (signerAddr = addr)))
      end
  end.

Definition getrawmempool : M Node Value :=
  mempool <- try_catch (on_run (run_base bc_GetMempool)) PropagateBaseChainError;;
  ret (fold_left (fun res txid => append res (of_string txid)) mempool arrayValue).

Definition stop : M Node unit :=
  on_ctl (modify (fun c => {| zmqAddr := zmqAddr c; rpcPort := rpcPort c;
    rpcListenLocally := rpcListenLocally c; pending := pending c;
    sanityChecks := sanityChecks c; maxReorgDepth := maxReorgDepth c;
    trackedGames := trackedGames c; running := running c; shouldStop := true |})).

(** The dispatch of a call.  libjson-rpc-cpp has no optional arguments, so that the method
    [game_sendupdates] is dispatched here.  Parameters are the validation of the arguments by
    the library, and of the generated stub the methods that unpack the arguments:
    [game_sendupdates3I], and [HandleMethodCall] for all other methods. *)
Definition HandleMethodCall (ValdiateParameters : Value -> bool)
    (game_sendupdates3I : Value -> M Node Value)
    (XayaRpcServerStub_HandleMethodCall : string -> Value -> M Node Value)
    (proc : string) (input : Value) : M Node Value :=
  if bool_decide (proc = "game_sendupdates"%string) then
    let fixedInput :=
      if isObject input && negb (isMember input "toblock")
      then set_member input "toblock" (of_string "") else input in
    if negb (ValdiateParameters fixedInput) then
      throw (JsonRpcException ERROR_RPC_INVALID_PARAMS "invalid parameters for game_sendupdates")
    else game_sendupdates3I fixedInput
  else XayaRpcServerStub_HandleMethodCall proc input.

(** ** Settings

    They can be changed until the controller runs. *)
Definition not_running : M Node unit := s <- get;; check (negb (running (nd_ctl s))).

Definition SetZmqEndpoint (addr : string) : M Node unit :=
  not_running;;
  on_ctl (modify (fun c => {| zmqAddr := addr; rpcPort := rpcPort c;
    rpcListenLocally := rpcListenLocally c; pending := pending c;
    sanityChecks := sanityChecks c; maxReorgDepth := maxReorgDepth c;
    trackedGames := trackedGames c; running := running c; shouldStop := shouldStop c |})).

Definition SetRpcBinding (p : Z) (local : bool) : M Node unit :=
  not_running;;
  on_ctl (modify (fun c => {| zmqAddr := zmqAddr c; rpcPort := p;
    rpcListenLocally := local; pending := pending c;
    sanityChecks := sanityChecks c; maxReorgDepth := maxReorgDepth c;
    trackedGames := trackedGames c; running := running c; shouldStop := shouldStop c |})).

Definition EnablePending : M Node unit :=
  not_running;;
  s <- get;;
  if pending (nd_ctl s) then ret tt
  else
    ok <- on_run (run_base bc_EnablePending);;
    if (ok : bool) then
      on_ctl (modify (fun c => {| zmqAddr := zmqAddr c; rpcPort := rpcPort c;
        rpcListenLocally := rpcListenLocally c; pending := true;
        sanityChecks := sanityChecks c; maxReorgDepth := maxReorgDepth c;
        trackedGames := trackedGames c; running := running c; shouldStop := shouldStop c |}))
    else ret tt.

Definition EnableSanityChecks : M Node unit :=
  not_running;;
  on_ctl (modify (fun c => {| zmqAddr := zmqAddr c; rpcPort := rpcPort c;
    rpcListenLocally := rpcListenLocally c; pending := pending c;
    sanityChecks := true; maxReorgDepth := maxReorgDepth c;
    trackedGames := trackedGames c; running := running c; shouldStop := shouldStop c |})).

Definition SetMaxReorgDepth (depth : Z) : M Node unit :=
  not_running;;
  on_ctl (modify (fun c => {| zmqAddr := zmqAddr c; rpcPort := rpcPort c;
    rpcListenLocally := rpcListenLocally c; pending := pending c;
    sanityChecks := sanityChecks c; maxReorgDepth := i32 depth;
    trackedGames := trackedGames c; running := running c; shouldStop := shouldStop c |})).

Definition TrackGame (gameId : string) : M Node unit :=
  not_running;;
  on_ctl (modify (fun c => {| zmqAddr := zmqAddr c; rpcPort := rpcPort c;
    rpcListenLocally := rpcListenLocally c; pending := pending c;
    sanityChecks := sanityChecks c; maxReorgDepth := maxReorgDepth c;
    trackedGames := {[ gameId ]} ∪ trackedGames c;
    running := running c; shouldStop := shouldStop c |})).

(** A new publisher at the configured address, and a new manager of pending moves. *)
Definition open_pendings (addr : string) : M (PendingManager P) unit :=
  on_zmq (pub_open addr);;
  modify (fun s => pm_start (zmq s)).

(** The start of [Run] and the constructor of [RunData]: the settings are checked, the
    publisher, the manager of pending moves and the RPC server start afresh, and the games are
    tracked.  The games of a [std::set] are iterated in order.  The sync worker starts with
    [Sync.Start]. *)
Definition Run : M Node unit :=
  not_running;;
  s <- get;;
  check (0 <=? maxReorgDepth (nd_ctl s));;
  check (nonempty (zmqAddr (nd_ctl s)));;
  check (-1 <? rpcPort (nd_ctl s));;
  on_run (run_base bc_GetChain);;
  on_run (run_pendings (open_pendings (zmqAddr (nd_ctl s))));;
  on_ctl (modify (fun c => {| zmqAddr := zmqAddr c; rpcPort := rpcPort c;
    rpcListenLocally := rpcListenLocally c; pending := pending c;
    sanityChecks := sanityChecks c; maxReorgDepth := maxReorgDepth c;
    trackedGames := trackedGames c; running := true; shouldStop := shouldStop c |}));;
  on_rpc (put rpc_start);;
  forM (merge_sort string_le (elements (trackedGames (nd_ctl s))))
    (fun g => on_run (run_zmq (pub_track g)));;
  on_ctl (modify (fun c => {| zmqAddr := zmqAddr c; rpcPort := rpcPort c;
    rpcListenLocally := rpcListenLocally c; pending := pending c;
    sanityChecks := sanityChecks c; maxReorgDepth := maxReorgDepth c;
    trackedGames := trackedGames c; running := running c; shouldStop := false |})).
End Controller.
#[global] Arguments Node {J} B P.
