(* ===== verification/Main.v ===== *)
(** * The main programs (xayacore/main.cpp, eth/main.cpp)

    The flags of the command line, which the [main] functions check before they set up the
    connector, the block cache and the controller, and run it.  [std::runtime_error] and the
    other exceptions are reported, and the process exits with a failure. *)

From S2P Require Import Prelude Json BlockData Chainstate BaseChain RpcUtils ZmqPub Publisher Pending RunData Controller.

(** The flags that both programs have.  [port] and [max_reorg_depth] are of type
    [int32_t]. *)
Record Flags := {
  datadir : string;
  port : Z;
  listen_locally : bool;
  zmq_address : string;
  max_reorg_depth : Z;
  sanity_checks : bool
}.

Record CoreFlags := {
  core_rpc_url : string;
  core_flags : Flags;
  pending_moves : bool
}.

Record EthFlags := {
  eth_rpc_url : string;
  eth_ws_url : string;
  accounts_contract : string;
  eth_flags : Flags;
  watch_for_pending_moves : string;
  blockcache_memory : bool;
  blockcache_mysql : string
}.

Definition EXIT_SUCCESS : Z := 0.
Definition EXIT_FAILURE : Z := 1.

(** [if (!b) throw std::runtime_error (msg)]. *)
Definition require (b : bool) (msg : string) : result unit :=
  if b then Ok tt else Throw (StdException msg).

(** The checks of the flags, the first of which that fails is reported. *)
Definition check_flags (f : Flags) : result unit :=
  _ ← require (negb (port f =? 0)) "--port must be set";
  _ ← require (nonempty (zmq_address f)) "--zmq_address must be set";
  _ ← require (nonempty (datadir f)) "--datadir must be set";
  require (0 <=? max_reorg_depth f) "--max_reorg_depth must not be negative".

Definition core_check_flags (f : CoreFlags) : result unit :=
  _ ← require (nonempty (core_rpc_url f)) "--core_rpc_url must be set";
  check_flags (core_flags f).

Definition eth_check_flags (f : EthFlags) : result unit :=
  _ ← require (nonempty (eth_rpc_url f)) "--eth_rpc_url must be set";
  _ ← require (nonempty (accounts_contract f)) "--accounts_contract must be set";
  check_flags (eth_flags f).

(** ** The block cache of the EVM connector *)

Inductive CacheStore := NoCache | InMemoryCache | MySqlCache.

(** [Connect] is the method of [MySqlBlockStorage]. *)
Definition choose_cache {S} (f : EthFlags) (Connect : string -> M S bool) : M S CacheStore :=
  let cacheStore := if blockcache_memory f then InMemoryCache else NoCache in
  if nonempty (blockcache_mysql f) then
    match cacheStore with
    | NoCache =>
        ok <- Connect (blockcache_mysql f);;
        if (ok : bool) then ret MySqlCache
        else throw (StdException "--blockcache_mysql is invalid")
    | _ => throw (StdException "only one block cache can be chosen")
    end
  else ret cacheStore.

(** ** The watched contracts *)

Section Watch.
Context {S : Type} (AddWatchedContract : string -> M S unit).

(** The loop, in which [lst] is what is left of the list. *)
Fixpoint watch_loop (fuel : nat) (lst : bytes) : M S unit :=
  match fuel with
  | O => diverge
  | Datatypes.S fuel' =>
      match find_from ","%char lst 0 with
      | None => AddWatchedContract (string_of_list_ascii lst)
      | Some pos =>
          AddWatchedContract (string_of_list_ascii (substr lst 0 (Some pos)));;
          watch_loop fuel' (substr lst (pos + 1) None)
      end
  end.

Definition AddWatchedContracts (lst : string) : M S unit :=
  check (nonempty lst);;
  watch_loop (Datatypes.S (length (list_ascii_of_string lst))) (list_ascii_of_string lst).

(** The parts of a list with commas between them. *)
Fixpoint split_commas (l : bytes) : list bytes :=
  match l with
  | [] => [[]]
  | c :: l' =>
      if Ascii.eqb c ","%char then [] :: split_commas l'
      else match split_commas l' with
           | [] => [[c]]
           | part :: parts => (c :: part) :: parts
           end
  end.

Lemma split_commas_first l part rest : split_commas l = part :: rest ->
  match find_from ","%char l 0 with
  | None => part = l /\ rest = []
  | Some pos => part = take pos l /\ rest = split_commas (drop (pos + 1) l)
  end.
Proof.
  revert part rest. induction l as [|c l IH]; intros part rest; cbn; [by intros [= <- <-]|].
  destruct (Ascii.eqb_spec c ","%char) as [->|Hc]; [by intros [= <- <-]|].
  destruct (split_commas l) as [|p ps] eqn:E; [by destruct l; cbn in E; repeat case_match|].
  intros [= <- <-]. specialize (IH p ps eq_refl).
  destruct (find_from _ l 0); cbn; naive_solver.
Qed.

Lemma split_commas_nonempty l : split_commas l <> [].
Proof. destruct l; cbn; repeat case_match; done. Qed.

Lemma watch_loop_split fuel : forall l s, (length l < fuel)%nat ->
  watch_loop fuel l s =
    forM (split_commas l) (fun part => AddWatchedContract (string_of_list_ascii part)) s.
Proof.
  induction fuel as [|fuel IH]; intros l s Hl; [lia|]. cbn [watch_loop].
  destruct (split_commas l) as [|part rest] eqn:E; [by destruct (split_commas_nonempty l)|].
  pose proof (split_commas_first _ _ _ E) as H. cbn [forM].
  destruct (find_from ","%char l 0) as [pos|] eqn:Ef.
  - destruct H as [-> ->]. unfold substr. rewrite drop_0. apply bind_ext; [done|]. intros [] s'.
    apply IH. apply find_from_ge in Ef as [Hp _]. rewrite length_drop. lia.
  - destruct H as [-> ->]. unfold bind.
    destruct (AddWatchedContract (string_of_list_ascii l) s) as [[[]| | | |] s']; reflexivity.
Qed.

(** The loop over the list of contracts ends for every list, and watches exactly the
    parts between the commas, in their order and up to the first one that is
    refused; the empty list is an aborted check. *)
Theorem AddWatchedContracts_split (lst : string) (s : S) :
  AddWatchedContracts lst s =
    (check (nonempty lst);;
     forM (split_commas (list_ascii_of_string lst))
       (fun part => AddWatchedContract (string_of_list_ascii part))) s.
Proof.
  unfold AddWatchedContracts. apply bind_ext; [done|]. intros [] s'. apply watch_loop_split. lia.
Qed.
End Watch.

(** ** The controller *)

Section Main.
Context {J : JsonCpp} {C : BlockCodec} {L : RpcLib} {B P : Type} {BC : BaseChain B}
  {PB : Publisher P}.
Implicit Types (nd : Node B P).

(** A new [Controller].  The member [rpcListenLocally] has no initial value; it is set
    together with the port. *)
Definition new_controller (listen : bool) : Controller := {|
  zmqAddr := ""; rpcPort := -1; rpcListenLocally := listen; pending := false;
  sanityChecks := false; maxReorgDepth := -1; trackedGames := ∅; running := false;
  shouldStop := false
|}.

(** The controller is set up and run; [enable] turns on pending moves. *)
Definition run_controller (f : Flags) (enable : M (Node B P) unit) : M (Node B P) unit :=
  SetMaxReorgDepth (u32 (max_reorg_depth f));;
  SetZmqEndpoint (zmq_address f);;
  SetRpcBinding (port f) (listen_locally f);;
  enable;;
  (if sanity_checks f then EnableSanityChecks else ret tt);;
  Run.

(** [main] of the Xaya Core program, from the checks of the flags on; the result is the
    exit code. *)
Definition core_main (f : CoreFlags) : M (Node B P) Z :=
  try_catch
    (lift (core_check_flags f);;
     on_run (run_base bc_Start);;
     run_controller (core_flags f) (if pending_moves f then EnablePending else ret tt);;
     ret EXIT_SUCCESS)
    (fun _ => ret EXIT_FAILURE).

(** [main] of the EVM program, from the start of the controller on; [watch] is
    [EthChain::AddWatchedContract], also when the controller's base chain is the
    cache. *)
Definition eth_run_controller (f : EthFlags) (watch : string -> M B unit) : M (Node B P) unit :=
  run_controller (eth_flags f)
    (if nonempty (watch_for_pending_moves f) then
       EnablePending;;
       on_run (run_base (AddWatchedContracts watch (watch_for_pending_moves f)))
     else ret tt).

(** [main] of the EVM program, from the checks of the flags on, with the connector among
    the state [S].  [run] is [eth_run_controller] for a controller on the connector or on the
    cache in front of it, whichever has been chosen. *)
Definition eth_main {S} (f : EthFlags) (start : M S unit) (Connect : string -> M S bool)
    (run : CacheStore -> M S unit) : M S Z :=
  try_catch
    (lift (eth_check_flags f);;
     start;;
     cacheStore <- choose_cache f Connect;;
     run cacheStore;;
     ret EXIT_SUCCESS)
    (fun _ => ret EXIT_FAILURE).

(** [e] says whether pending moves are tracked. *)
Definition configured (f : Flags) (e : bool) : Controller := {|
  zmqAddr := zmq_address f; rpcPort := port f; rpcListenLocally := listen_locally f;
  pending := e; sanityChecks := sanity_checks f; maxReorgDepth := max_reorg_depth f;
  trackedGames := ∅; running := true; shouldStop := false
|}.

Lemma require_inv b msg r : (_ ← require b msg; r) = Ok tt -> b = true /\ r = Ok tt.
Proof. by destruct b. Qed.

Lemma check_flags_inv f : check_flags f = Ok tt ->
  port f <> 0 /\ nonempty (zmq_address f) = true /\ nonempty (datadir f) = true /\
  0 <= max_reorg_depth f.
Proof.
  intros H. unfold check_flags in H.
  apply require_inv in H as [Hp H]. apply require_inv in H as [Hz H].
  apply require_inv in H as [Hd H]. unfold require in H.
  destruct (Z.leb_spec 0 (max_reorg_depth f)); [|done].
  destruct (Z.eqb_spec (port f) 0); done.
Qed.

(** The controller of the EVM program runs just when the flags pass the checks, the connector
    starts, and at most one cache is asked for, to which the connection succeeds. *)
Lemma eth_main_cache {S} (f : EthFlags) (start : M S unit) Connect run s s1 :
  eth_check_flags f = Ok tt -> start s = (Ok tt, s1) ->
  (forall url, exists ok s2, Connect url s1 = (Ok ok, s2)) ->
  eth_main f start Connect run s =
  match blockcache_memory f, nonempty (blockcache_mysql f) with
  | true, true => (Ok EXIT_FAILURE, s1)
  | true, false => try_catch (run InMemoryCache;; ret EXIT_SUCCESS) (fun _ => ret EXIT_FAILURE) s1
  | false, false => try_catch (run NoCache;; ret EXIT_SUCCESS) (fun _ => ret EXIT_FAILURE) s1
  | false, true =>
      match Connect (blockcache_mysql f) s1 with
      | (Ok true, s2) => try_catch (run MySqlCache;; ret EXIT_SUCCESS) (fun _ => ret EXIT_FAILURE) s2
      | (_, s2) => (Ok EXIT_FAILURE, s2)
      end
  end.
Proof.
  intros Hf Hs Hc. unfold eth_main, try_catch.
  assert (Hl : lift (eth_check_flags f) s = (Ok tt, s)) by (unfold lift; by rewrite Hf).
  rewrite (bind_Ok _ _ _ _ _ Hl), (bind_Ok _ _ _ _ _ Hs). unfold choose_cache.
  destruct (blockcache_memory f), (nonempty (blockcache_mysql f)); try done.
  destruct (Hc (blockcache_mysql f)) as ([] & s2 & E); unfold bind at 1; rewrite (bind_Ok _ _ _ _ _ E), E; done.
Qed.

(** ** What the settings do *)

Definition with_ctl (c : Controller) nd : Node B P :=
  {| nd_ctl := c; nd_rpc := nd_rpc nd; nd_run := nd_run nd |}.

Lemma setting_run (g : Controller -> Controller) nd : running (nd_ctl nd) = false ->
  (not_running;; on_ctl (modify g)) nd = (Ok tt, with_ctl (g (nd_ctl nd)) nd).
Proof. intros H. unfold not_running. rewrite bind_assoc, get_bind, H. by rewrite check_true. Qed.

Lemma i32_u32 z : 0 <= z < 2 ^ 31 -> i32 (u32 z) = z.
Proof.
  intros Hz. rewrite u32_small by (unfold u32_modulus; lia). unfold i32.
  rewrite Z.mod_small by lia. destruct (Z.ltb_spec z (2 ^ 31)); lia.
Qed.

Lemma EnablePending_run nd e b2 : running (nd_ctl nd) = false -> pending (nd_ctl nd) = false ->
  bc_EnablePending (nd_run nd).1.1 = (Ok e, b2) ->
  exists nd', EnablePending nd = (Ok tt, nd') /\
    nd_run nd' = (b2, (nd_run nd).1.2, (nd_run nd).2) /\
    nd_ctl nd' = {| zmqAddr := zmqAddr (nd_ctl nd); rpcPort := rpcPort (nd_ctl nd);
      rpcListenLocally := rpcListenLocally (nd_ctl nd); pending := e;
      sanityChecks := sanityChecks (nd_ctl nd); maxReorgDepth := maxReorgDepth (nd_ctl nd);
      trackedGames := trackedGames (nd_ctl nd); running := false;
      shouldStop := shouldStop (nd_ctl nd) |}.
Proof.
  intros Hr Hp He. unfold EnablePending, not_running.
  rewrite bind_assoc, get_bind, Hr, check_true, get_bind, Hp by done.
  assert (Hrun : on_run (run_base bc_EnablePending) nd =
    (Ok e, {| nd_ctl := nd_ctl nd; nd_rpc := nd_rpc nd;
              nd_run := (b2, (nd_run nd).1.2, (nd_run nd).2) |}))
    by (unfold on_run, run_base, zoom; by rewrite He).
  rewrite (bind_Ok _ _ _ _ _ Hrun). destruct e; eexists; (split; [reflexivity|]); cbn.
  - by rewrite Hr.
  - split; [done|]. destruct nd as [c ? ?]. cbn in *. destruct c; cbn in *. by subst.
Qed.

(** [Run] when the settings are as it requires, and there are no games to track. *)
Lemma Run_ok nd c b' : running (nd_ctl nd) = false -> 0 <= maxReorgDepth (nd_ctl nd) ->
  nonempty (zmqAddr (nd_ctl nd)) = true -> 0 <= rpcPort (nd_ctl nd) ->
  trackedGames (nd_ctl nd) = ∅ -> bc_GetChain (nd_run nd).1.1 = (Ok c, b') ->
  (forall p, exists p', pub_open (zmqAddr (nd_ctl nd)) p = (Ok tt, p')) ->
  exists nd', Run nd = (Ok tt, nd') /\ nd_rpc nd' = rpc_start /\
    (exists p, (nd_run nd').2 = pm_start p) /\
    nd_ctl nd' = {| zmqAddr := zmqAddr (nd_ctl nd); rpcPort := rpcPort (nd_ctl nd);
      rpcListenLocally := rpcListenLocally (nd_ctl nd); pending := pending (nd_ctl nd);
      sanityChecks := sanityChecks (nd_ctl nd); maxReorgDepth := maxReorgDepth (nd_ctl nd);
      trackedGames := ∅; running := true; shouldStop := false |}.
Proof.
  intros Hr Hm Hz Hp Ht Hc Ho. unfold Run, not_running.
  rewrite bind_assoc, get_bind, Hr, check_true, get_bind by done.
  rewrite check_true by (by apply Z.leb_le). rewrite check_true by done.
  rewrite check_true by (apply Z.ltb_lt; lia).
  assert (Hrun : on_run (run_base bc_GetChain) nd =
    (Ok c, {| nd_ctl := nd_ctl nd; nd_rpc := nd_rpc nd;
              nd_run := (b', (nd_run nd).1.2, (nd_run nd).2) |}))
    by (unfold on_run, run_base, zoom; by rewrite Hc).
  rewrite (bind_Ok _ _ _ _ _ Hrun), Ht. destruct (Ho (zmq (nd_run nd).2)) as [p' Hp'].
  match goal with |- context [bind _ _ ?x] => set (nd1 := x) end.
  assert (Hopen : on_run (run_pendings (open_pendings (zmqAddr (nd_ctl nd)))) nd1 =
    (Ok tt, {| nd_ctl := nd_ctl nd; nd_rpc := nd_rpc nd;
               nd_run := (b', (nd_run nd).1.2, pm_start p') |})).
  { unfold on_run, run_pendings, open_pendings, on_zmq, bind, zoom. cbn. by rewrite Hp'. }
  rewrite (bind_Ok _ _ _ _ _ Hopen). eexists.
  split_and!; [reflexivity|done|by exists p'|]. cbn. by rewrite Ht.
Qed.

(** The settings before [Run]; [e] and [sane] tell what has been turned on. *)
Definition set_up (f : Flags) (e sane stop : bool) : Controller := {|
  zmqAddr := zmq_address f; rpcPort := port f; rpcListenLocally := listen_locally f;
  pending := e; sanityChecks := sane; maxReorgDepth := max_reorg_depth f;
  trackedGames := ∅; running := false; shouldStop := stop
|}.

Lemma set_up_enable f nd e b2 (enable : bool) stop : nd_ctl nd = set_up f false false stop ->
  (if enable then bc_EnablePending else ret false) (nd_run nd).1.1 = (Ok e, b2) ->
  exists nd', (if enable then EnablePending else ret tt) nd = (Ok tt, nd') /\
    (nd_run nd').1.1 = b2 /\ nd_ctl nd' = set_up f e false stop.
Proof.
  intros Hctl He. destruct enable.
  - destruct (EnablePending_run nd e b2) as (nd' & Hrun & Hb & Hctl'); rewrite ?Hctl; [done..|].
    exists nd'. split_and!; [done|by rewrite Hb|]. by rewrite Hctl', Hctl.
  - injection He as <- <-. by exists nd.
Qed.

Lemma set_up_sanity f nd e stop : nd_ctl nd = set_up f e false stop ->
  exists nd', (if sanity_checks f then EnableSanityChecks else ret tt) nd = (Ok tt, nd') /\
    nd_run nd' = nd_run nd /\ nd_ctl nd' = set_up f e (sanity_checks f) stop.
Proof.
  intros Hctl. unfold set_up. destruct (sanity_checks f).
  - unfold EnableSanityChecks. rewrite setting_run by (by rewrite Hctl).
    eexists. split_and!; [reflexivity|done|]. cbn. by rewrite Hctl.
  - by exists nd.
Qed.

(** The first three settings of a new controller. *)
Lemma set_up_first f nd listen {A} (k : M (Node B P) A) : nd_ctl nd = new_controller listen ->
  0 <= max_reorg_depth f < 2 ^ 31 ->
  (SetMaxReorgDepth (u32 (max_reorg_depth f));;
   SetZmqEndpoint (zmq_address f);;
   SetRpcBinding (port f) (listen_locally f);; k) nd =
  k (with_ctl (set_up f false false false) nd).
Proof.
  intros Hctl Hmax. unfold SetMaxReorgDepth, SetZmqEndpoint, SetRpcBinding.
  assert (Hr : running (nd_ctl nd) = false) by by rewrite Hctl.
  rewrite (bind_Ok _ _ _ _ _ (setting_run _ nd Hr)). set (nd1 := with_ctl _ nd).
  assert (Hr1 : running (nd_ctl nd1) = false) by exact Hr.
  rewrite (bind_Ok _ _ _ _ _ (setting_run _ nd1 Hr1)). set (nd2 := with_ctl _ nd1).
  assert (Hr2 : running (nd_ctl nd2) = false) by exact Hr.
  rewrite (bind_Ok _ _ _ _ _ (setting_run _ nd2 Hr2)). f_equal.
  unfold with_ctl. cbn. rewrite Hctl. unfold set_up. cbn. by rewrite i32_u32.
Qed.

Lemma run_controller_ok f nd listen e b2 c b3 (enable : bool) :
  nd_ctl nd = new_controller listen -> check_flags f = Ok tt ->
  0 < port f -> max_reorg_depth f < 2 ^ 31 ->
  (if enable then bc_EnablePending else ret false) (nd_run nd).1.1 = (Ok e, b2) ->
  bc_GetChain b2 = (Ok c, b3) ->
  (forall p, exists p', pub_open (zmq_address f) p = (Ok tt, p')) ->
  exists nd', run_controller f (if enable then EnablePending else ret tt) nd = (Ok tt, nd') /\
    nd_ctl nd' = configured f e /\ nd_rpc nd' = rpc_start /\
    exists p, (nd_run nd').2 = pm_start p.
Proof.
  intros Hctl (_ & Hz & _ & Hm)%check_flags_inv Hport Hmax He Hc Ho.
  unfold run_controller. rewrite (set_up_first f nd listen) by done.
  destruct (set_up_enable f (with_ctl (set_up f false false false) nd) e b2 enable false)
    as (nd4 & Hrun4 & Hb4 & Hctl4); [done|exact He|]. rewrite (bind_Ok _ _ _ _ _ Hrun4).
  destruct (set_up_sanity f nd4 e false Hctl4) as (nd5 & Hrun5 & Hb5 & Hctl5).
  rewrite (bind_Ok _ _ _ _ _ Hrun5).
  destruct (Run_ok nd5 c b3) as (nd' & Hrun & Hrpc & Hpm & Hctl');
    rewrite ?Hctl5; cbn; try done; [lia|by rewrite Hb5, Hb4|].
  exists nd'. split_and!; [done| |done|done]. by rewrite Hctl', Hctl5.
Qed.

(** The start of [core_main]. *)
Lemma core_main_start (f : CoreFlags) nd b1 : core_check_flags f = Ok tt ->
  bc_Start (nd_run nd).1.1 = (Ok tt, b1) ->
  core_main f nd = try_catch
    (run_controller (core_flags f) (if pending_moves f then EnablePending else ret tt);;
     ret EXIT_SUCCESS) (fun _ => ret EXIT_FAILURE)
    {| nd_ctl := nd_ctl nd; nd_rpc := nd_rpc nd; nd_run := (b1, (nd_run nd).1.2, (nd_run nd).2) |}.
Proof.
  intros Hf Hs. unfold core_main, try_catch.
  assert (Hl : lift (core_check_flags f) nd = (Ok tt, nd)) by (unfold lift; by rewrite Hf).
  rewrite (bind_Ok _ _ _ _ _ Hl).
  assert (Hrun : on_run (run_base bc_Start) nd =
    (Ok tt, {| nd_ctl := nd_ctl nd; nd_rpc := nd_rpc nd;
               nd_run := (b1, (nd_run nd).1.2, (nd_run nd).2) |}))
    by (unfold on_run, run_base, zoom; by rewrite Hs).
  by rewrite (bind_Ok _ _ _ _ _ Hrun).
Qed.

(** With flags that pass the checks and a positive port, the program starts the
    connector and runs the controller with just the settings of the flags, a new RPC server and
    nothing queued; pending moves are tracked if they are asked for and the base chain has
    them. *)
Theorem core_main_runs (f : CoreFlags) nd (listen e : bool) b1 b2 (c : string) b3
    (Hnew : nd_ctl nd = new_controller listen) (Hf : core_check_flags f = Ok tt)
    (Hport : 0 < port (core_flags f)) (Hmax : max_reorg_depth (core_flags f) < 2 ^ 31)
    (Hstart : bc_Start (nd_run nd).1.1 = (Ok tt, b1))
    (He : (if pending_moves f then bc_EnablePending else ret false) b1 = (Ok e, b2))
    (Hc : bc_GetChain b2 = (Ok c, b3))
    (Hopen : forall p, exists p', pub_open (zmq_address (core_flags f)) p = (Ok tt, p')) :
  exists nd', core_main f nd = (Ok EXIT_SUCCESS, nd') /\
    nd_ctl nd' = configured (core_flags f) e /\ nd_rpc nd' = rpc_start /\
    exists p, (nd_run nd').2 = pm_start p.
Proof.
  pose proof Hf as [_ Hf']%require_inv. rewrite (core_main_start f nd b1) by done.
  match goal with |- context [try_catch _ _ ?x] => set (nd1 := x) end.
  destruct (run_controller_ok (core_flags f) nd1 listen e b2 c b3 (pending_moves f))
    as (nd' & Hctl & Hset & Hrpc & Hpm); [done..|].
  unfold try_catch. rewrite (bind_Ok _ _ _ _ _ Hctl). by exists nd'.
Qed.

Lemma Run_negative_port nd : rpcPort (nd_ctl nd) < 0 -> exists nd', Run nd = (Fatal, nd').
Proof.
  intros Hp. unfold Run, not_running, check. rewrite bind_assoc, get_bind.
  destruct (negb (running (nd_ctl nd))); [|by eexists]. rewrite ret_bind, get_bind.
  destruct (0 <=? maxReorgDepth (nd_ctl nd)); [|by eexists]. rewrite ret_bind.
  destruct (nonempty (zmqAddr (nd_ctl nd))); [|by eexists]. rewrite ret_bind.
  destruct (Z.ltb_spec (-1) (rpcPort (nd_ctl nd))); [lia|by eexists].
Qed.

(** A negative port passes the checks of the flags, so that the process is aborted
    by a [CHECK] of [Run] rather than by the report of an error. *)
Theorem core_main_negative_port (f : CoreFlags) nd (listen : bool) b1
    (Hnew : nd_ctl nd = new_controller listen) (Hpend : pending_moves f = false)
    (Hurl : core_rpc_url f <> EmptyString) (Hzmq : zmq_address (core_flags f) <> EmptyString)
    (Hdir : datadir (core_flags f) <> EmptyString)
    (Hport : port (core_flags f) < 0) (Hmax : 0 <= max_reorg_depth (core_flags f) < 2 ^ 31)
    (Hstart : bc_Start (nd_run nd).1.1 = (Ok tt, b1)) :
  core_check_flags f = Ok tt /\ exists nd', core_main f nd = (Fatal, nd').
Proof.
  assert (Hf : core_check_flags f = Ok tt).
  { unfold core_check_flags, check_flags, require. rewrite !nonempty_true by done.
    rewrite (proj2 (Z.leb_le _ _)) by lia. destruct (Z.eqb_spec (port (core_flags f)) 0); [lia|done]. }
  split; [done|]. rewrite (core_main_start f nd b1), Hpend by done.
  match goal with |- context [try_catch _ _ ?x] => set (nd1 := x) end.
  enough (exists nd', run_controller (core_flags f) (ret tt) nd1 = (Fatal, nd')) as [nd' Hrun].
  { exists nd'. unfold try_catch, bind. by rewrite Hrun. }
  unfold run_controller. rewrite (set_up_first _ nd1 listen) by done. rewrite ret_bind.
  destruct (set_up_sanity (core_flags f) (with_ctl (set_up (core_flags f) false false false) nd1)
    false false) as (nd5 & Hrun5 & _ & Hctl5); [done|]. rewrite (bind_Ok _ _ _ _ _ Hrun5).
  apply Run_negative_port. by rewrite Hctl5.
Qed.
End Main.
