(* ===== verification/ControllerProps.v ===== *)
(** * The promises of the controller

    What the receivers of notifications and the callers of RPC methods get. *)

From S2P Require Import Prelude Json BlockData Chainstate ChainTree ChainQueries ChainstateProofs ChainSanity BaseChain TipUpdate Sync SyncProofs ZmqPub Publisher Pending RunData RunProofs RunRequests Controller.

Section Updates.
Context {J : JsonCpp} {C : BlockCodec} {CL : BlockCodecLaws C} {U : Universe}
  {B P : Type} {BC : BaseChain B} {PB : Publisher P}.
Notation RunState := (B * Chainstate * PendingManager P)%type.

(** C3.  When the sync worker reports an update of the tip, the notifications that are
    sent lead a receiver from the old tip to the new one: the blocks of the old
    branch are detached from the tip down to the fork point, and the blocks of the
    new one are attached from there up, each on top of the one before.  Nothing else
    is sent, the state is not changed otherwise, and no check fails. *)
Theorem updates_replay (s : RunState) old att num tok (HI : Inv (blocks s.1.2))
    (Hu : tip_update (blocks s.1.2) old att) (Hold : old <> EmptyString) :
  exists bs l tip r, is_top (blocks s.1.2) tip r /\ fork_path (blocks s.1.2) old bs /\
    (exists pre, att = pre ++ l) /\
    replay old (map Detach bs ++ map Attach l) = Some tip /\
    PushZmqBlocks old "" att num tok s =
      (run_zmq (forM (map Detach bs ++ map Attach l) (send_note tok));; ret (true, bs, [])) s.
Proof.
  destruct (push_update s old att num tok HI Hu) as (bs & l & Hpush & _ & Hn).
  destruct (Hn Hold) as (Hp & Hl & Hrep).
  destruct (tu_top _ _ _ Hu) as (b & r & Hb & Ht & _). rewrite Hb in Hrep.
  exists bs, l, (blk_hash b), r. split_and!; done.
Qed.

(** The worker with the controller's callback, for the theorems about the controller and about
    whole nodes. *)
Lemma controller_converges {PL : PublisherLaws PB} (sanity : bool) (pruningDepth range : Z)
    (R : B -> Prop) (T : Z) (ch : Z -> option BlockData)
    (s : Sync B (PendingManager P)) (n d : Z) (fuel : nat) :
  Serves BC R T ch -> good_chain T ch -> 0 <= pruningDepth < i32_max -> 1 <= range < 2 ^ 31 ->
  good range R ch pm_inv s n -> distance T ch s d -> 0 < n -> d < Z.of_nat fuel ->
  n + Z.of_nat fuel * step_budget range < i64_max ->
  let cb := Some (TipUpdatedFrom sanity pruningDepth) in
  (exists s', run_turns pruningDepth range cb fuel s = (Ok tt, s') /\
     synced T ch s' /\ SanityCheck (sy_chain s') = (Ok tt, sy_chain s')) /\
  (pending_reliable -> exists s', run_loop pruningDepth range cb fuel s = (Ok tt, s') /\
     synced T ch s' /\ SanityCheck (sy_chain s') = (Ok tt, sy_chain s')).
Proof.
  intros HS GC Hdepth Hrange Hg Hd Hn Hfuel Hmax cb.
  pose proof (TipUpdatedFrom_callback_ends sanity pruningDepth R ch Hdepth) as Hcb.
  pose proof (proj1 Hdepth) as Hdepth0. split.
  - destruct (run_turns_ends pruningDepth range cb R T ch HS GC Hdepth0 Hrange pm_inv _ Hcb fuel s n d)
      as (s' & Hrun & [_ _ HI _ _ _ _] & Hup); [done..|].
    exists s'. split_and!; [done|apply Hup; lia|by apply SanityCheck_Inv].
  - intros Hpub.
    destruct (run_loop_ends pruningDepth range cb R T ch HS GC Hdepth0 Hrange pm_inv _ Hcb fuel
      Hpub s n d) as (s' & Hrun & [_ _ HI _ _ _ _] & Hs); [done..|].
    exists s'. split_and!; [done..|]. by apply SanityCheck_Inv.
Qed.

(** C24.  The callback for tip updates and the configured depth, below 2^31 - 1: it never
    aborts, also when ZMQ fails.  Failures to send blocks are ignored; a failure to send queued
    pending moves gets out, as an exception, and then nothing is pruned.  When no sending of
    pending moves fails, the callback returns, and the chainstate is pruned so that just the
    main-chain blocks from [maxReorgDepth] below the tip on are left, and the branches.  At
    2^31 - 1, which the settings accept too, [maxReorgDepth + 1] overflows, which is
    undefined. *)
Theorem TipUpdatedFrom_prunes {PL : PublisherLaws PB} (sanity : bool) (depth : Z)
    (s : RunState) old att
    (HI : Inv (blocks s.1.2))
    (Hu : tip_update (blocks s.1.2) old att) (Hpm : pm_inv s.2) (Hd : 0 <= depth <= i32_max) :
  exists res c p, TipUpdatedFrom sanity depth old att s = (res, (s.1.1, c, p)) /\
    (depth < i32_max -> ends res) /\ pm_inv p /\ Inv (blocks c) /\
    (forall e, res = Throw e -> c = s.1.2) /\
    (pending_reliable -> depth = i32_max -> res = Undefined) /\
    (pending_reliable -> depth < i32_max ->
       res = Ok tt /\ exists tip rt, is_top (blocks c) tip rt /\
         (exists b, last att = Some b /\ blk_hash b = tip) /\
         forall h r, blocks c !! h = Some r <->
           blocks s.1.2 !! h = Some r /\
           (row_branch r = 0 -> depth + 1 < row_height rt ->
              row_height rt - depth <= row_height r)).
Proof.
  pose proof (tu_top _ _ _ Hu) as (b & r & Hlast & Ht & _).
  destruct (TipUpdatedFrom_run sanity depth old att s b r HI Hu Hpm (proj1 Hd) Hlast Ht)
    as (res & c & p & Hrun & He & Hp & Hs & Hthrow & Hrel).
  exists res, c, p. split_and!; [done..|apply Hs|done| |].
  { intros Hpub ->. destruct (Hrel Hpub) as [-> _]. done. }
  intros Hpub Hlt. destruct (Hrel Hpub) as [-> ->]. split; [by apply sum_result_ok|].
  exists (blk_hash b), r. split_and!; [by apply Hs|by exists b|]. intros h r'. cbn [blocks set_blocks].
  unfold pruned_to. rewrite (proj2 (Z.ltb_lt _ _) Hlt). cbn [andb].
  destruct (Z.ltb_spec (depth + 1) (row_height r)).
  - rewrite prune_Some. split; intros [Hr' K]; (split; [done|]); [intros K1 _|intros K1];
      specialize (K K1); lia.
  - split; [intros Hr'; split; [done|lia]|by intros [? _]].
Qed.

(** C6.  The sync worker and the controller together, whatever notifications fail: with the
    controller's callback the worker gets to the tip of the base chain within the number of
    turns that is given in [distance], and stays there.  Every turn ends without an aborted
    check, although every update prunes the chainstate; when the callback fails because
    pending moves cannot be sent, the exception costs at most a wait for the next turn.  The
    database ends up sane.  If sending pending moves does not fail, then the worker does not
    even wait before it is at the tip.  (The configured depth is below 2^31 - 1.) *)
Theorem node_converges {PL : PublisherLaws PB} (sanity : bool) (pruningDepth range : Z)
    (R : B -> Prop) (T : Z) (ch : Z -> option BlockData)
    (s : Sync B (PendingManager P)) (n d : Z) (fuel : nat)
    (HS : Serves BC R T ch) (GC : good_chain T ch)
    (Hdepth : 0 <= pruningDepth < i32_max) (Hrange : 1 <= range < 2 ^ 31)
    (Hg : good range R ch pm_inv s n) (Hd : distance T ch s d)
    (Hn : 0 < n) (Hfuel : d < Z.of_nat fuel)
    (Hmax : n + Z.of_nat fuel * step_budget range < i64_max) :
  let cb := Some (TipUpdatedFrom sanity pruningDepth) in
  (exists s', run_turns pruningDepth range cb fuel s = (Ok tt, s') /\
     synced T ch s' /\ SanityCheck (sy_chain s') = (Ok tt, sy_chain s')) /\
  (pending_reliable -> exists s', run_loop pruningDepth range cb fuel s = (Ok tt, s') /\
     synced T ch s' /\ SanityCheck (sy_chain s') = (Ok tt, sy_chain s')).
Proof.
  apply (controller_converges sanity pruningDepth range R T ch s n d fuel); done.
Qed.
End Updates.

(** ** RPC methods *)

Section Rpc.
Context {J : JsonCpp} {JL : JsonCppLaws J} {C : BlockCodec} {CL : BlockCodecLaws C} {U : Universe}
  {L : RpcLib} {B P : Type} {BC : BaseChain B} {PB : Publisher P}.
Notation RunState := (B * Chainstate * PendingManager P)%type.
Implicit Types (nd : Node B P).

Lemma on_run_run {A} (m : M RunState A) nd r s : m (nd_run nd) = (r, s) ->
  on_run m nd = (r, {| nd_ctl := nd_ctl nd; nd_rpc := nd_rpc nd; nd_run := s |}).
Proof. unfold on_run, zoom. by intros ->. Qed.

Lemma on_run_read {A} (m : M RunState A) nd r : m (nd_run nd) = (r, nd_run nd) ->
  on_run m nd = (r, nd).
Proof. intros H. rewrite (on_run_run _ _ _ _ H). by destruct nd. Qed.

(** A request, in terms of what [PushZmqBlocks] does. *)
Lemma game_sendupdates_run (R : B -> Prop) range from gid to nd notes ok det att :
  let tok := reqtoken (u32 (requests (nd_rpc nd) + 1)) in
  pushes R tok (nd_run nd) (PushZmqBlocks from to [] (u32 range) tok) notes (ok, det, att) ->
  let '(r, p') := forM notes (send_note tok) (zmq (nd_run nd).2) in
  exists nd', zmq (nd_run nd').2 = p' /\ (nd_run nd').1.2 = (nd_run nd).1.2 /\
    match r with
    | Ok _ => game_sendupdates3 range from gid to nd = (Ok (updates_reply tok from ok det att), nd')
    | Throw e => game_sendupdates3 range from gid to nd =
        (Throw (JsonRpcException ERROR_RPC_INTERNAL_ERROR ("Error with base chain: " ++ what e)), nd')
    | _ => True
    end.
Proof.
  intros tok (b' & _ & Hrun). unfold game_sendupdates3.
  destruct (forM notes (send_note tok) (zmq (nd_run nd).2)) as [r p'] eqn:E.
  set (nd1 := {| nd_ctl := nd_ctl nd;
                 nd_rpc := {| requests := u32 (requests (nd_rpc nd) + 1);
                              cachedChain := cachedChain (nd_rpc nd);
                              cachedVersion := cachedVersion (nd_rpc nd) |};
                 nd_run := nd_run nd |}).
  assert (Hreq : on_rpc next_request nd = (Ok (u32 (requests (nd_rpc nd) + 1)), nd1)) by done.
  exists {| nd_ctl := nd_ctl nd; nd_rpc := nd_rpc nd1;
            nd_run := set_zmq p' (b', (nd_run nd).1.2, (nd_run nd).2) |}.
  split_and!; [done..|].
  assert (Hpush := on_run_run _ nd1 _ _ Hrun).
  destruct r as [[]|e| | |]; try done; rewrite (bind_Ok _ _ _ _ _ Hreq); fold tok;
    unfold try_catch, bind; rewrite Hpush; done.
Qed.

(** C12.  A request for updates, against a base chain on which the local main chain lies:
    the notifications that are sent lead a receiver from [from] to the block that the
    reply names in [toblock], and the reply counts them; with [to] left out and the
    fork point stored, they lead towards the tip, up to the configured number of
    blocks.  If sending fails, the caller gets an RPC error, and the notifications
    stop where it failed. *)
Theorem game_sendupdates_reply (R : B -> Prop) (T : Z) (ch : Z -> option BlockData)
    nd (tip : string) (rt : row) range from gid to
    (HA : Answers R T ch) (GC : good_chain T ch) (HR : R (nd_run nd).1.1)
    (HI : Inv (blocks (nd_run nd).1.2)) (Hmain : main_on ch (blocks (nd_run nd).1.2))
    (Htip : is_top (blocks (nd_run nd).1.2) tip rt) (HT : T < u32_modulus)
    (Hpos : forall h r, blocks (nd_run nd).1.2 !! h = Some r -> row_branch r <> 0 ->
              0 < row_height r)
    (Hfrom : from <> EmptyString) (Hrange : 1 <= range < 2 ^ 31) :
  let tok := reqtoken (u32 (requests (nd_rpc nd) + 1)) in
  exists ok det att toBlock,
    replay from (map Detach det ++ map Attach att) = Some toBlock /\
    (forall bs rF, fork_path (blocks (nd_run nd).1.2) from bs ->
       blocks (nd_run nd).1.2 !! fork_end from bs = Some rF -> to = EmptyString ->
       ok = true /\ det = bs /\
       att = slice ch (row_height rF + 1) (Z.to_nat (Z.min range (row_height rt - row_height rF)))) /\
    let '(r, p') := forM (map Detach det ++ map Attach att) (send_note tok) (zmq (nd_run nd).2) in
    exists nd', zmq (nd_run nd').2 = p' /\
      match r with
      | Ok _ => exists reply, game_sendupdates3 range from gid to nd = (Ok reply, nd') /\
          member reply "reqtoken" = of_string tok /\
          member reply "toblock" = of_string toBlock /\
          member reply "error" = of_bool (negb ok) /\
          member (member reply "steps") "detach" = of_int (Z.of_nat (length det)) /\
          member (member reply "steps") "attach" = of_int (Z.of_nat (length att))
      | Throw e => exists msg, game_sendupdates3 range from gid to nd =
          (Throw (JsonRpcException ERROR_RPC_INTERNAL_ERROR msg), nd')
      | _ => True
      end.
Proof.
  intros tok. assert (Hu : u32 range = range) by (apply u32_small; unfold u32_modulus; lia).
  destruct (nd_run nd) as [[b c] pm] eqn:End. cbn [fst snd] in *.
  destruct (push_request R T ch HA GC c HI Hmain tip rt Htip HT b HR from to (u32 range) tok Hfrom)
    as (ok & det & att & [Hrep Hspec] & Hpush); [rewrite Hu; unfold u32_modulus; lia|exact Hpos|].
  exists ok, det, att, (to_block from det att). split; [exact Hrep|]. split.
  { intros bs rF Hp HF Hto. rewrite <- Hu. by apply (Hspec bs rF Hp HF). }
  specialize (Hpush b pm HR). rewrite <- End in Hpush.
  pose proof (game_sendupdates_run R range from gid to nd _ ok det att Hpush) as Hreply.
  fold tok in Hreply. rewrite End in Hreply. cbn [snd] in Hreply.
  destruct (forM _ _ (zmq pm)) as [r p']. destruct Hreply as (nd' & Hz & _ & Hr).
  exists nd'. split; [done|]. destruct r; try done; [|by eexists].
  eexists. split; [exact Hr|]. unfold updates_reply.
  split_and!; json_member; done.
Qed.

(** A request for updates towards the fork point itself (a block that is on the
    main chain where the branch of [from] leaves it, or [from] itself on the main
    chain) sends the detaches that lead there, but is answered as an error. *)
Theorem request_to_fork_point (R : B -> Prop) (T : Z) (ch : Z -> option BlockData)
    nd (tip : string) (rt : row) range from gid to bs rF
    (HA : Answers R T ch) (GC : good_chain T ch) (HR : R (nd_run nd).1.1)
    (HI : Inv (blocks (nd_run nd).1.2)) (Hmain : main_on ch (blocks (nd_run nd).1.2))
    (Htip : is_top (blocks (nd_run nd).1.2) tip rt) (HT : T < u32_modulus)
    (Hpos : forall h r, blocks (nd_run nd).1.2 !! h = Some r -> row_branch r <> 0 ->
              0 < row_height r)
    (Hfrom : from <> EmptyString) (Hrange : 1 <= range < 2 ^ 31)
    (Hp : fork_path (blocks (nd_run nd).1.2) from bs)
    (HF : blocks (nd_run nd).1.2 !! fork_end from bs = Some rF)
    (Hto : to = fork_end from bs) (Hne : to <> EmptyString) :
  let tok := reqtoken (u32 (requests (nd_rpc nd) + 1)) in
  replay from (map Detach bs) = Some to /\
  forall p', forM (map Detach bs) (send_note tok) (zmq (nd_run nd).2) = (Ok tt, p') ->
  exists nd' reply, game_sendupdates3 range from gid to nd = (Ok reply, nd') /\
    zmq (nd_run nd').2 = p' /\
    member reply "toblock" = of_string to /\ member reply "error" = of_bool true.
Proof.
  intros tok. assert (Hu : u32 range = range) by (apply u32_small; unfold u32_modulus; lia).
  split; [rewrite (replay_detaches _ _ _ (inv_rows _ HI) Hp); by rewrite Hto|].
  destruct (nd_run nd) as [[b c] pm] eqn:End. cbn [fst snd] in *.
  destruct (push_request R T ch HA GC c HI Hmain tip rt Htip HT b HR from to (u32 range) tok Hfrom)
    as (ok & det & att & [_ Hspec] & Hpush); [rewrite Hu; unfold u32_modulus; lia|exact Hpos|].
  destruct (Hspec bs rF Hp HF) as [_ Hf].
  pose proof (fork_end_main c HI from bs rF Hp HF) as HbF.
  destruct (Hf Hne) as (-> & -> & ->); [rewrite Hto; by apply Hmain|].
  intros p' Hsend. specialize (Hpush b pm HR). rewrite <- End in Hpush.
  pose proof (game_sendupdates_run R range from gid to nd _ false bs [] Hpush) as Hreply.
  fold tok in Hreply. rewrite End in Hreply. cbn [snd map] in Hreply.
  rewrite app_nil_r, Hsend in Hreply. destruct Hreply as (nd' & Hz & _ & Hr).
  exists nd'. eexists. split_and!; [exact Hr|exact Hz| |]; unfold updates_reply;
    json_member; [|done].
  cbn [last]. rewrite Hto. unfold fork_end. by destruct (last bs).
Qed.
End Rpc.
