(* ===== verification/RpcProps.v ===== *)
(** * The promises of the RPC methods

    Queries for blocks, the errors that callers see, and requests that come before
    the chainstate has its first block. *)

From S2P Require Import Prelude Json BlockData Chainstate ChainTree ChainQueries ChainstateProofs BaseChain TipUpdate Sync SyncProofs ZmqPub Publisher Pending RunData RunProofs RunRequests Controller.

Section Queries.
Context {J : JsonCpp} {JL : JsonCppLaws J} {C : BlockCodec} {CL : BlockCodecLaws C} {U : Universe}
  {L : RpcLib} {B P : Type} {BC : BaseChain B} {PB : Publisher P}.
Notation RunState := (B * Chainstate * PendingManager P)%type.
Implicit Types (nd : Node B P).

Definition set_base (b : B) nd : Node B P :=
  {| nd_ctl := nd_ctl nd; nd_rpc := nd_rpc nd;
     nd_run := (b, (nd_run nd).1.2, (nd_run nd).2) |}.

Lemma node_chain_read {A} (m : M Chainstate A) nd r :
  m (nd_run nd).1.2 = (r, (nd_run nd).1.2) -> on_run (run_chain m) nd = (r, nd).
Proof.
  intros H. unfold on_run, zoom. rewrite (run_chain_read m (nd_run nd) r H). by destruct nd.
Qed.

Lemma on_base_step {A} (m : M B A) nd r b :
  m (nd_run nd).1.1 = (r, b) -> on_run (run_base m) nd = (r, set_base b nd).
Proof. intros H. unfold on_run, zoom. by rewrite (run_base_run m (nd_run nd) r b H). Qed.

(** [getblockhash] on a height outside of the stored main chain. *)
Lemma getblockhash_unknown h nd : 0 <= h < 2 ^ 31 ->
  GetHashForHeight h (nd_run nd).1.2 = (Ok None, (nd_run nd).1.2) ->
  getblockhash h nd =
  (lowest <- on_run (run_chain GetLowestUnprunedHeight);;
   if lowest <=? h then throw (JsonRpcException (-8) "block height out of range")
   else
     blocks <- try_catch (on_run (run_base (bc_GetBlockRange h 1))) PropagateBaseChainError;;
     match blocks with
     | [] => throw (JsonRpcException (-8) "block height out of range")
     | blk :: more => check (empty_b more);; ret (blk_hash blk)
     end) nd.
Proof.
  intros Hh Hn. unfold getblockhash. rewrite u64_small by (unfold u64_modulus; lia).
  by rewrite (bind_Ok _ _ _ _ _ (node_chain_read _ _ _ Hn)).
Qed.

(** [getblockhash] returns the hash of the block that the base chain has at a
    height, up to the tip of the local chain: from the database, or from the base
    chain if the block was pruned.  Above the tip there is an error. *)
Theorem getblockhash_found (R : B -> Prop) (T : Z) (ch : Z -> option BlockData)
    nd (tip : string) (rt : row) h
    (HA : Answers R T ch) (GC : good_chain T ch) (HR : R (nd_run nd).1.1)
    (HI : Inv (blocks (nd_run nd).1.2)) (Hmain : main_on ch (blocks (nd_run nd).1.2))
    (Htip : is_top (blocks (nd_run nd).1.2) tip rt) (Hh : 0 <= h < 2 ^ 31) :
  exists b', R b' /\ getblockhash h nd =
    (match (if h <=? row_height rt then ch h else None) with
     | Some blk => Ok (blk_hash blk)
     | None => Throw (JsonRpcException (-8) "block height out of range")
     end, set_base b' nd).
Proof.
  pose proof Htip as (Hrt & Hbt & Hmax). destruct (nd_run nd) as [[b c] pm] eqn:End.
  assert (Hsame : set_base b nd = nd).
  { unfold set_base. rewrite End. cbn. rewrite <- End. by destruct nd. }
  cbn [fst snd] in *. destruct (GetHashForHeight_ok c h HI) as (o & Hrun & Ho); [unfold i64_max; lia|].
  destruct (is_low_exists (blocks c) HI) as (hl & rl & Hlow); [by intros E; rewrite E in Hrt|].
  pose proof Hlow as (Hrl & Hbl & Hmin).
  assert (Hrun' : GetHashForHeight h (nd_run nd).1.2 = (Ok o, (nd_run nd).1.2)) by by rewrite End.
  destruct (hash_at_height T ch GC _ _ (Hmain _ _ Hrt Hbt)) as [_ HtT].
  assert (Hlowrun : on_run (run_chain GetLowestUnprunedHeight) nd = (Ok (row_height rl), nd)).
  { apply node_chain_read. rewrite End. by eapply GetLowestUnprunedHeight_ok. }
  destruct o as [hash|].
  - exists b. split; [done|]. rewrite Hsame.
    destruct (proj1 (Ho hash) eq_refl) as (r & Hr & Hb & Hrh).
    specialize (Hmax _ _ Hr Hb). destruct (Z.leb_spec h (row_height rt)); [|lia].
    destruct (Hmain _ _ Hr Hb) as (blk & Hblk & Hbh). rewrite Hrh in Hblk. rewrite Hblk, Hbh.
    unfold getblockhash. rewrite u64_small by (unfold u64_modulus; lia).
    by rewrite (bind_Ok _ _ _ _ _ (node_chain_read _ _ _ Hrun')).
  - rewrite (getblockhash_unknown h nd Hh Hrun'), (bind_Ok _ _ _ _ _ Hlowrun).
    destruct (Z.leb_spec (row_height rl) h) as [Hge|Hlt].
    + exists b. split; [done|]. rewrite Hsame. destruct (Z.leb_spec h (row_height rt)); [|done].
      destruct (main_down T ch GC (blocks c) tip rt (Z.to_nat (row_height rt - h)) HI Htip
        (Hmain _ _ Hrt Hbt) hl rl Hrl Hbl) as (hx & rx & Hx & Hbx & Hhx & _); [lia|].
      assert (None = Some hx); [|done]. apply Ho. exists rx. split_and!; [done..|lia].
    + destruct (serves_range _ _ _ _ (an_serves _ _ _ HA) b h 1 HR) as (b' & Hq & HR'); [unfold i64_max; lia..|].
      specialize (Hmin _ _ Hrt Hbt). destruct (Z.leb_spec h (row_height rt)); [|lia].
      exists b'. split; [done|]. change (Z.to_nat 1) with 1%nat in Hq. cbn [slice] in Hq.
      assert (Hbase : on_run (run_base (bc_GetBlockRange h 1)) nd =
        (Ok (match ch h with Some x => [x] | None => [] end), set_base b' nd)).
      { apply on_base_step. rewrite End. exact Hq. }
      unfold try_catch. unfold bind at 1. rewrite Hbase.
      destruct (ch h) as [blk|]; [|done]. by rewrite check_true.
Qed.

(** C39.  A negative height is not answered with an error: it becomes a large unsigned
    number, which cannot be bound to the database query, and the process aborts. *)
Theorem getblockhash_negative nd h (Hh : - 2 ^ 31 <= h < 0) :
  getblockhash h nd = (Fatal, nd).
Proof.
  assert (Hf : on_run (run_chain (GetHashForHeight (u64 h))) nd = (Fatal, nd)).
  { apply node_chain_read. unfold GetHashForHeight, bind, bind_u64, check, u64.
    replace (h mod u64_modulus) with (u64_modulus + h).
    2: { rewrite <- (Z.mod_add h 1), Z.mul_1_l, Z.add_comm by (unfold u64_modulus; lia).
         symmetry. apply Z.mod_small. unfold u64_modulus. lia. }
    destruct (Z.leb_spec (u64_modulus + h) i64_max); [unfold u64_modulus, i64_max in *; lia|done]. }
  unfold getblockhash, bind. by rewrite Hf.
Qed.

(** [getblockheader] knows the height of every stored block, and of every block on
    the base chain; other hashes are answered with an error. *)
Theorem getblockheader_found (R : B -> Prop) (T : Z) (ch : Z -> option BlockData) nd hash
    (HA : Answers R T ch) (GC : good_chain T ch) (HR : R (nd_run nd).1.1) (HT : T <= i64_max)
    (HI : Inv (blocks (nd_run nd).1.2)) :
  exists b' r, R b' /\ getblockheader hash nd = (r, set_base b' nd) /\
    match r with
    | Ok v => member v "hash" = of_string hash /\
        exists k, member v "height" = of_int k /\ k = hgt hash /\
          (is_Some (blocks (nd_run nd).1.2 !! hash) \/ hash_at ch k hash)
    | Throw e => e = JsonRpcException (-5) "block not found" /\
        blocks (nd_run nd).1.2 !! hash = None /\ forall k, ~ hash_at ch k hash
    | _ => False
    end.
Proof.
  destruct (nd_run nd) as [[b c] pm] eqn:End. cbn [fst snd] in *.
  assert (Hsame : set_base b nd = nd).
  { unfold set_base. rewrite End. cbn. rewrite <- End. by destruct nd. }
  assert (Hg : on_run (run_chain (GetHeightForHash hash)) nd = (Ok (row_height <$> blocks c !! hash), nd)).
  { unfold on_run, zoom. rewrite End, (Run_GetHeightForHash c HI hash (b, c, pm) eq_refl), <- End. by destruct nd. }
  unfold getblockheader. rewrite (bind_Ok _ _ _ _ _ Hg).
  destruct (blocks c !! hash) as [r|] eqn:E; cbn [fmap option_fmap option_map].
  - destruct (row_genuine _ _ _ HI E) as (_ & Hh & _ & ? & _).
    rewrite i64_small by lia. exists b. eexists. split; [done|]. rewrite Hsame.
    split; [reflexivity|]. cbn beta iota. json_member. split; [done|]. exists (row_height r).
    split_and!; [done|done|by left; exists r].
  - destruct (an_height _ _ _ HA b hash HR) as (k & b' & Hq & HR' & Hk).
    exists b'.
    assert (Hbase : on_run (run_base (bc_GetMainchainHeight hash)) nd = (Ok k, set_base b' nd)).
    { apply on_base_step. by rewrite End. }
    unfold try_catch. unfold bind at 1. rewrite (bind_Ok _ _ _ _ _ Hbase).
    destruct Hk as [[-> Hno]|[Hk Hat]].
    + eexists. split; [done|]. split; [reflexivity|]. split_and!; [done|done|exact Hno].
    + destruct (Z.eqb_spec k (-1)); [lia|]. rewrite check_true by (apply Z.leb_le; lia).
      eexists. split; [done|]. split; [reflexivity|]. cbn beta iota. json_member. split; [done|]. exists k.
      destruct (hash_at_height T ch GC _ _ Hat). split_and!; [done|done|by right].
Qed.

(** ** Errors *)

(** Exceptions that the RPC framework turns into error replies. *)
Definition rpc_errors_only {A} (m : M (Node B P) A) : Prop :=
  forall nd e nd', m nd = (Throw e, nd') -> exists code msg, e = JsonRpcException code msg.

(** Programs that do not throw. *)
Definition no_throw {S A} (m : M S A) : Prop := forall s e s', m s <> (Throw e, s').

Lemma errors_bind {A D} (m : M (Node B P) A) (k : A -> M (Node B P) D) :
  rpc_errors_only m -> (forall a, rpc_errors_only (k a)) -> rpc_errors_only (bind m k).
Proof.
  intros Hm Hk nd e nd'. unfold bind. destruct (m nd) as [[a|e'| | |] s] eqn:E; try done.
  - apply Hk.
  - intros [= <- <-]. by eapply Hm.
Qed.

Lemma errors_none {A} (m : M (Node B P) A) : no_throw m -> rpc_errors_only m.
Proof. intros H nd e nd' Hr. by apply H in Hr. Qed.

Lemma errors_catch {A} (m : M (Node B P) A) :
  rpc_errors_only (try_catch m PropagateBaseChainError).
Proof.
  intros nd e nd'. unfold try_catch. destruct (m nd) as [[a|e'| | |] s]; try done.
  intros [= <- <-]. by eexists _, _.
Qed.

Lemma no_throw_bind {S A D} (m : M S A) (k : A -> M S D) :
  no_throw m -> (forall a, no_throw (k a)) -> no_throw (bind m k).
Proof.
  intros Hm Hk s e s'. unfold bind. destruct (m s) as [[a|e'| | |] s1] eqn:E; try done.
  - apply Hk.
  - intros [= <- <-]. by apply Hm in E.
Qed.

Lemma no_throw_check {S} b : no_throw (S:=S) (check b).
Proof. intros s e s'. by destruct b. Qed.

Lemma no_throw_chain {A} (m : M Chainstate A) : no_throw m -> no_throw (on_run (run_chain m) : M (Node B P) A).
Proof.
  intros H nd e nd'. unfold on_run, run_chain, zoom.
  destruct (m (nd_run nd).1.2) as [r c] eqn:E. cbn. intros [= -> _]. by apply H in E.
Qed.

Lemma no_throw_step_one {S A} (l : list A) : no_throw (S:=S) (step_one l).
Proof. intros s e s'. by destruct l as [|x [|? ?]]. Qed.
End Queries.

Create HintDb xaya_errors.
#[export] Hint Resolve errors_bind errors_none errors_catch no_throw_bind no_throw_check
  no_throw_chain no_throw_step_one : xaya_errors.

Section Errors.
Context {J : JsonCpp} {C : BlockCodec} {L : RpcLib} {B P : Type} {BC : BaseChain B}
  {PB : Publisher P}.
Implicit Types (nd : Node B P).

Lemma no_throw_ret {S A} (a : A) : no_throw (S:=S) (ret a).
Proof. by intros s e s' [=]. Qed.

Lemma no_throw_get {S} : no_throw (S:=S) get.
Proof. by intros s e s' [=]. Qed.

Lemma no_throw_fatal {S A} : no_throw (S:=S) (A:=A) fatal.
Proof. by intros s e s' [=]. Qed.

#[local] Hint Resolve no_throw_ret no_throw_get no_throw_fatal : xaya_errors.

Lemma no_throw_end o : no_throw (GetMainchainHeight o).
Proof.
  unfold GetMainchainHeight. apply no_throw_bind; [auto with xaya_errors|]. intros s.
  apply no_throw_bind; [auto with xaya_errors|]. intros [[h r]|]; auto with xaya_errors.
Qed.

Lemma no_throw_tip : no_throw GetTipHeight.
Proof. apply no_throw_end. Qed.

Lemma no_throw_low : no_throw GetLowestUnprunedHeight.
Proof. apply no_throw_end. Qed.

Lemma no_throw_hash n : no_throw (GetHashForHeight n).
Proof.
  unfold GetHashForHeight, bind_u64. repeat (apply no_throw_bind; [auto with xaya_errors|intros ?]).
  auto with xaya_errors.
Qed.

Lemma no_throw_height h : no_throw (GetHeightForHash h).
Proof.
  unfold GetHeightForHash, row_for, get_u64. apply no_throw_bind.
  - apply no_throw_bind; auto with xaya_errors.
  - intros [r|]; [|auto with xaya_errors].
    repeat (apply no_throw_bind; [auto with xaya_errors|intros ?]); auto with xaya_errors.
Qed.

#[local] Hint Resolve no_throw_tip no_throw_low no_throw_hash no_throw_height : xaya_errors.

Lemma errors_ret {A} (a : A) : rpc_errors_only (ret a : M (Node B P) A).
Proof. auto with xaya_errors. Qed.

Lemma errors_throw {A} code msg :
  rpc_errors_only (throw (JsonRpcException code msg) : M (Node B P) A).
Proof. intros nd e nd' [= <- _]. by eexists _, _. Qed.

Lemma errors_chain {A} (m : M Chainstate A) : no_throw m ->
  rpc_errors_only (on_run (run_chain m) : M (Node B P) A).
Proof. auto with xaya_errors. Qed.

Lemma errors_get : rpc_errors_only (get : M (Node B P) _).
Proof. auto with xaya_errors. Qed.

Lemma errors_check b : rpc_errors_only (check b : M (Node B P) _).
Proof. auto with xaya_errors. Qed.

Lemma errors_fatal {A} : rpc_errors_only (fatal : M (Node B P) A).
Proof. auto with xaya_errors. Qed.

#[local] Hint Resolve errors_ret errors_throw errors_chain errors_get errors_check errors_fatal
  : xaya_errors.

Ltac rpc_errors :=
  repeat first
    [ progress auto with xaya_errors
    | apply errors_bind; [|intros ?]
    | match goal with |- context [match ?x with _ => _ end] => destruct x end ].

(** C36.  Whatever the base chain throws: the callers of the RPC methods see a JSON-RPC
    error, and no other exception leaves a method. *)
Theorem rpc_exceptions (range h : Z) (hash from gid to addr msg sgn : string) :
  rpc_errors_only (getzmqnotifications : M (Node B P) _) /\
  rpc_errors_only (getnetworkinfo : M (Node B P) _) /\
  rpc_errors_only (getblockchaininfo : M (Node B P) _) /\
  rpc_errors_only (getblockhash h : M (Node B P) _) /\
  rpc_errors_only (getblockheader hash : M (Node B P) _) /\
  rpc_errors_only (game_sendupdates3 range from gid to : M (Node B P) _) /\
  rpc_errors_only (verifymessage addr msg sgn : M (Node B P) _) /\
  rpc_errors_only (getrawmempool : M (Node B P) _).
Proof.
  split_and!.
  - unfold getzmqnotifications. rpc_errors.
  - unfold getnetworkinfo. rpc_errors.
  - unfold getblockchaininfo. rpc_errors.
  - unfold getblockhash. rpc_errors.
  - unfold getblockheader. rpc_errors.
  - unfold game_sendupdates3. apply errors_bind; [|intros n]; [by intros nd e nd' [=]|]. rpc_errors.
  - unfold verifymessage. rpc_errors.
  - unfold getrawmempool. rpc_errors.
Qed.

(** Before the first block is imported, a request for updates from any block aborts
    the process, instead of being answered with an error. *)
Theorem request_before_sync_aborts nd range from gid to
    (Hempty : blocks (nd_run nd).1.2 = ∅) (Hfrom : from <> EmptyString) :
  exists nd', game_sendupdates3 range from gid to nd = (Fatal, nd').
Proof.
  unfold game_sendupdates3.
  set (nd1 := {| nd_ctl := nd_ctl nd;
                 nd_rpc := {| requests := u32 (requests (nd_rpc nd) + 1);
                              cachedChain := cachedChain (nd_rpc nd);
                              cachedVersion := cachedVersion (nd_rpc nd) |};
                 nd_run := nd_run nd |}).
  rewrite (bind_Ok _ _ _ (u32 (requests (nd_rpc nd) + 1)) nd1) by done.
  set (tok := reqtoken _).
  assert (Hpush : PushZmqBlocks from to [] (u32 range) tok (nd_run nd) = (Fatal, nd_run nd)).
  { unfold PushZmqBlocks. rewrite check_true by by rewrite orb_true_r.
    rewrite nonempty_true by done. cbn [negb].
    assert (Hlow : GetLowestUnprunedHeight (nd_run nd).1.2 = (Ok (-1), (nd_run nd).1.2)).
    { unfold GetLowestUnprunedHeight, GetMainchainHeight. run. rewrite Hempty, no_main; [done|].
      intros h r. by rewrite lookup_empty. }
    by rewrite (bind_Ok _ _ _ _ _ (run_chain_read _ _ _ Hlow)). }
  exists nd1. unfold try_catch, bind, on_run, zoom. change (nd_run nd1) with (nd_run nd). by rewrite Hpush.
Qed.
End Errors.
