(* ===== verification/ControllerSample.v ===== *)
(** * Examples for the controller

    The base chain [m0] to [m5] and the chainstate of SyncProps.v, with a publisher that
    records the notifications. *)

From S2P Require Import Prelude Json BlockData Chainstate ChainTree ChainQueries ChainstateProofs ChainstateProps BaseChain BlockCache TipUpdate Sync SyncProofs SyncProps ZmqPub Publisher Pending RunData RunProofs RunRequests Controller Main ControllerProps RpcProps.
Import Model BitsProto Fixed SyncSample.

(** ** The publisher *)

#[local] Instance recorder : Publisher (list note) := {|
  pub_open _ := put [];
  pub_track _ := ret tt;
  pub_untrack _ := ret tt;
  pub_attach blk _ := modify (fun l => l ++ [Attach blk]);
  pub_detach blk _ := modify (fun l => l ++ [Detach blk]);
  pub_pending _ := ret tt
|}.

#[local] Program Instance recorder_laws : PublisherLaws recorder := {|
  pub_inv _ := True;
  pub_moves_ok _ := True
|}.
Next Obligation. by intros blk tok p r p' _ _ [= <- <-]. Qed.
Next Obligation. by intros blk tok p r p' _ _ [= <- <-]. Qed.
Next Obligation. by intros mvs p r p' _ _ [= <- <-]. Qed.

#[local] Instance sample_lib : RpcLib := {|
  what _ := "error"%string;
  DecodeBase64 s := Some s
|}.

(** ** The chainstate after [m2] and [m3] have replaced [s2] and [s3] *)

Definition c5 : Chainstate := (exec (OpSet (blk "m2")) c4).2.
Definition c6 : Chainstate := (exec (OpSet (blk "m3")) c5).2.

Lemma reach_c5 : reachable 5 c5.
Proof.
  unfold c5. destruct (exec (OpSet (blk "m2")) c4) as [r s'] eqn:E.
  eapply (reachable_step 4 c4 (OpSet (blk "m2"))); [exact reach_c4| |exact E].
  split; [apply block_genuine; is_known|].
  apply (Chain.on_main c4 "m1"). vm_compute. reflexivity.
Qed.

Lemma reach_c6 : reachable 6 c6.
Proof.
  unfold c6. apply reach_next; [exact reach_c5|is_known|vm_compute; reflexivity..].
Qed.

Lemma c6_Inv : Inv (blocks c6).
Proof. by apply (reachable_Inv 6 c6 reach_c6). Qed.

(** A fork path, evaluated. *)
Lemma path_of c h bs : Inv (blocks c) ->
  (fun x => blk_hash <$> x) <$> match (GetForkBranch h c).1 with Ok (_, l) => Some l | _ => None end
    = Some bs ->
  exists l, fork_path (blocks c) h l /\ blk_hash <$> l = bs.
Proof.
  intros HI. destruct (GetForkBranch_ok c h HI) as (l & Hp & Hrun). rewrite Hrun. cbn.
  intros [= <-]. by exists l.
Qed.

Lemma c6_top : exists r, is_top (blocks c6) "m3" r /\ row_height r = 3.
Proof.
  apply (Chain.top_of c6 "m3" 3); [vm_compute; reflexivity..|].
  apply (bool_decide_unpack _). vm_compute. exact I.
Qed.

Lemma c6_fork l : fork_path (blocks c6) "s3" l -> blk_hash <$> l = ["s3"; "s2"]%string ->
  fork_end "s3" l = "m1"%string.
Proof.
  intros Hp Hl. pose proof (fork_path_genuine _ _ _ (inv_rows _ c6_Inv) Hp) as Hg.
  destruct l as [|a [|b [|? ?]]]; try discriminate Hl. injection Hl as Ha Hb.
  apply Forall_cons in Hg as [_ Hg]. apply Forall_cons in Hg as [(_ & Hpar & _) _].
  unfold fork_end. cbn [last]. by rewrite Hpar, Hb.
Qed.

Lemma c6_main h k : row_height <$> blocks c6 !! h = Some k -> Chain.branch_of c6 h = Some 0 ->
  exists r, blocks c6 !! h = Some r /\ row_branch r = 0 /\ row_height r = k.
Proof.
  unfold Chain.branch_of. destruct (blocks c6 !! h) as [r|]; cbn; [|done].
  intros [= ?] [= ?]. by exists r.
Qed.

Lemma c6_update : tip_update (blocks c6) "s3" (map blk ["m1"; "m2"; "m3"]%string).
Proof.
  split.
  - by split.
  - repeat constructor; try (vm_compute; congruence).
  - destruct c6_top as (r & Ht & Hr). by exists (blk "m3"), r.
  - by intros b [= <-].
  - right. destruct (path_of c6 "s3" ["s3"; "s2"]%string c6_Inv) as (l & Hp & Hl);
      [vm_compute; reflexivity|].
    destruct (c6_main "m1" 1) as (r & Hr & Hb & Hh); [vm_compute; reflexivity..|].
    exists l, r. rewrite (c6_fork l Hp Hl). split_and!; [done..|]. intros f [= <-]. by rewrite Hh.
Qed.

Lemma c6_main_on : main_on (fx_at chain) (blocks c6).
Proof.
  assert (H : map_Forall (fun h r => row_branch r = 0 ->
    blk_hash <$> fx_at chain (row_height r) = Some h) (blocks c6)).
  { apply (bool_decide_unpack _). vm_compute. exact I. }
  intros h r Hr Hb. specialize (H h r Hr Hb). cbn in H.
  destruct (fx_at chain (row_height r)) as [b|] eqn:E; [|discriminate H].
  injection H as H. exact (ex_intro _ b (conj E H)).
Qed.

Lemma c6_branches h r : blocks c6 !! h = Some r -> row_branch r <> 0 -> 0 < row_height r.
Proof.
  assert (H : map_Forall (fun _ r => row_branch r <> 0 -> 0 < row_height r) (blocks c6)).
  { apply (bool_decide_unpack _). vm_compute. exact I. }
  intros Hr. by apply (H h r Hr).
Qed.

Lemma chain_answers : Answers (BC:=fixed_chain) (eq chain) 5 (fx_at chain).
Proof.
  split; [apply (fixed_Serves chain)|]. intros b hash <-. exists (fx_height chain hash), chain.
  split; [exact eq_refl|]. split; [exact eq_refl|]. unfold fx_height.
  destruct (list_find _ _) as [[i x]|] eqn:E.
  - apply list_find_Some in E as (Hi & Hh & _). right. split; [cbn; lia|]. exists x.
    split; [|done]. unfold fx_at. cbn [fx_start chain fx_blocks] in *.
    rewrite (proj2 (Z.leb_le _ _)) by lia. by rewrite Z.sub_0_r, Z.add_0_l, Nat2Z.id.
  - apply list_find_None in E. left. split; [done|]. intros k (x & Hx & Hh).
    apply chain_at in Hx as Hx'. unfold fx_at in Hx. destruct (_ <=? _); [|done].
    apply (proj1 (Forall_forall _ _) E x); [|done]. by eapply list_elem_of_lookup_2.
Qed.

(** ** Updates of the tip *)

Definition run_state (c : Chainstate) : Chain * Chainstate * PendingManager (list note) :=
  (chain, c, pm_start []).

Lemma updates_replay_witness :
  exists bs l tip, replay "s3" (map Detach bs ++ map Attach l) = Some tip /\
    PushZmqBlocks "s3" "" (map blk ["m1"; "m2"; "m3"]%string) 0 "" (run_state c6) =
      (run_zmq (forM (map Detach bs ++ map Attach l) (send_note ""));; ret (true, bs, []))
        (run_state c6).
Proof.
  destruct (updates_replay (run_state c6) "s3" (map blk ["m1"; "m2"; "m3"]%string) 0 "")
    as (bs & l & tip & r & _ & _ & _ & Hrep & Hrun).
  - exact c6_Inv.
  - exact c6_update.
  - discriminate.
  - exact (ex_intro _ bs (ex_intro _ l (ex_intro _ tip (conj Hrep Hrun)))).
Defined.

(** What was sent. *)
Lemma update_notifications :
  (fun n => match n with
            | Detach b => ("detach", blk_hash b)
            | Attach b => ("attach", blk_hash b)
            end) <$>
    zmq (TipUpdatedFrom true 1 "s3" (map blk ["m1"; "m2"; "m3"]%string) (run_state c6)).2.2
  = [("detach", "s3"); ("detach", "s2"); ("attach", "m2"); ("attach", "m3")]%string.
Proof. vm_compute. reflexivity. Qed.

Lemma recorder_reliable : pending_reliable (PB:=recorder).
Proof. intros mvs q _ _. exact (ex_intro _ q eq_refl). Qed.

(** The callback with a small depth; and with the greatest one, for which the sum overflows. *)
Lemma TipUpdatedFrom_prunes_witness :
  (exists c p, TipUpdatedFrom true 1 "s3" (map blk ["m1"; "m2"; "m3"]%string) (run_state c6) =
    (Ok tt, (chain, c, p)) /\ Inv (blocks c)) /\
  exists c p, TipUpdatedFrom true i32_max "s3" (map blk ["m1"; "m2"; "m3"]%string)
    (run_state c6) = (Undefined, (chain, c, p)).
Proof.
  split.
  - destruct (TipUpdatedFrom_prunes true 1 (run_state c6) "s3" (map blk ["m1"; "m2"; "m3"]%string))
      as (res & c & p & Hrun & _ & _ & HI & _ & _ & Hrel).
    + exact c6_Inv.
    + exact c6_update.
    + exact (conj I (@Forall_nil_2 _ _)).
    + done.
    + destruct (Hrel recorder_reliable eq_refl) as [-> _].
      exact (ex_intro _ c (ex_intro _ p (conj Hrun HI))).
  - destruct (TipUpdatedFrom_prunes true i32_max (run_state c6) "s3"
      (map blk ["m1"; "m2"; "m3"]%string)) as (res & c & p & Hrun & _ & _ & _ & _ & Hover & _).
    + exact c6_Inv.
    + exact c6_update.
    + exact (conj I (@Forall_nil_2 _ _)).
    + done.
    + rewrite (Hover recorder_reliable eq_refl) in Hrun.
      exact (ex_intro _ c (ex_intro _ p Hrun)).
Defined.

(** ** The sync with the controller's callback *)

(** Pending moves may be queued for the tip [m5] of the base chain. *)
Definition node_start (q : list (list MoveData))
  : Sync (BlockCacheChain Chain InMemoryBlockStorage) (PendingManager (list note)) := {|
  sy_base := cached; sy_chain := c4;
  sy_rest := {| zmq := []; chainstateTip := "s3"; notificationTip := "m5"; pendingsQueue := q |};
  numBlocks := 1; nextStartHeight := -1
|}.

Lemma node_start_good q : good 4 (still_ok (eq chain) (fx_at chain)) (fx_at chain)
  (fun p : PendingManager (list note) => Forall (fun _ => True) (pendingsQueue p)) (node_start q) 9.
Proof.
  split; cbn [sy_base sy_chain sy_rest numBlocks nextStartHeight node_start].
  - exact cached_ok.
  - cbn. by apply Forall_true.
  - apply c4_Inv.
  - exact c4_low.
  - apply c4_Inv.
  - lia.
  - by left.
Qed.

Lemma node_start_distance q : distance 5 (fx_at chain) (node_start q) 10.
Proof.
  right; right; right. split; [done|].
  destruct (Chain.top_of c4 "s3" 3) as (r & Ht & Hr); [vm_compute; reflexivity..| |].
  - apply (bool_decide_unpack _). vm_compute. exact I.
  - exists "s3"%string, r. split; [exact Ht|]. by rewrite Hr.
Qed.

(** A publisher that fails to send pending moves, always. *)
Definition broken : Publisher (list note) := {|
  pub_open _ := put [];
  pub_track _ := ret tt;
  pub_untrack _ := ret tt;
  pub_attach blk _ := modify (fun l => l ++ [Attach blk]);
  pub_detach blk _ := modify (fun l => l ++ [Detach blk]);
  pub_pending _ := throw ZmqError
|}.

Definition broken_laws : PublisherLaws broken.
Proof.
  refine {| pub_inv := fun _ : list note => True; pub_moves_ok := fun _ => True |}.
  - by intros blk tok p r p' _ _ [= <- <-].
  - by intros blk tok p r p' _ _ [= <- <-].
  - by intros mvs p r p' _ _ [= <- <-].
Defined.

(** With the queue of the start, the third turn fails: the exception is caught. *)
Example third_turn_throws :
  let cb := Some (TipUpdatedFrom (PB:=broken) true 3) in
  (UpdateStep 3 4 cb (run_turns 3 4 cb 2 (node_start [[]])).2).1 = Throw ZmqError.
Proof. vm_compute. reflexivity. Qed.

(** In sync nevertheless; and with the recorder, which does not fail, without a wait. *)
Lemma node_converges_witness :
  (exists s', run_turns 3 4 (Some (TipUpdatedFrom (PB:=broken) true 3)) 11 (node_start [[]])
     = (Ok tt, s') /\ synced 5 (fx_at chain) s') /\
  (exists s', run_loop 3 4 (Some (TipUpdatedFrom (PB:=recorder) true 3)) 11 (node_start [])
     = (Ok tt, s') /\ synced 5 (fx_at chain) s').
Proof.
  split.
  - destruct (node_converges (PB:=broken) (PL:=broken_laws) true 3 4
      (still_ok (eq chain) (fx_at chain)) 5 (fx_at chain) (node_start [[]]) 9 10 11)
      as [(s' & Hrun & Hs & _) _].
    + exact sample_cached_Serves.
    + exact chain_good.
    + done.
    + done.
    + destruct (node_start_good [[]]). by split.
    + exact (node_start_distance [[]]).
    + done.
    + done.
    + done.
    + exact (ex_intro _ s' (conj Hrun Hs)).
  - destruct (node_converges (PB:=recorder) (PL:=recorder_laws) true 3 4
      (still_ok (eq chain) (fx_at chain)) 5 (fx_at chain) (node_start []) 9 10 11) as [_ Hloop].
    + exact sample_cached_Serves.
    + exact chain_good.
    + done.
    + done.
    + destruct (node_start_good []). by split.
    + exact (node_start_distance []).
    + done.
    + done.
    + done.
    + destruct (Hloop recorder_reliable) as (s' & Hrun & Hs & _).
      exact (ex_intro _ s' (conj Hrun Hs)).
Defined.

(** ** RPC requests *)

Definition settings : Controller := {|
  zmqAddr := "tcp://127.0.0.1:28555"; rpcPort := 8000; rpcListenLocally := true;
  pending := true; sanityChecks := true; maxReorgDepth := 3; trackedGames := ∅;
  running := true; shouldStop := false
|}.

Definition node (c : Chainstate) : Node Chain (list note) :=
  {| nd_ctl := settings; nd_rpc := rpc_start; nd_run := run_state c |}.

Lemma game_sendupdates_reply_witness :
  exists det att toBlock, replay "s3" (map Detach det ++ map Attach att) = Some toBlock.
Proof.
  destruct c6_top as (r & Ht & _).
  destruct (game_sendupdates_reply (eq chain) 5 (fx_at chain) (node c6) "m3" r 10 "s3" "game" "")
    as (ok & det & att & toBlock & Hrep & _).
  - exact chain_answers.
  - exact chain_good.
  - reflexivity.
  - exact c6_Inv.
  - exact c6_main_on.
  - exact Ht.
  - reflexivity.
  - exact c6_branches.
  - discriminate.
  - done.
  - exact (ex_intro _ det (ex_intro _ att (ex_intro _ toBlock Hrep))).
Defined.

Lemma record_detaches tok l (acc : list note) :
  forM (map Detach l) (send_note tok) acc = (Ok tt, acc ++ map Detach l).
Proof.
  revert acc. induction l as [|x l IH]; intros acc; [by rewrite app_nil_r|].
  cbn [map forM send_note]. cbn [pub_detach recorder]. rewrite modify_bind, IH. by rewrite <- app_assoc.
Qed.

Lemma request_to_fork_point_witness :
  exists nd' reply, game_sendupdates3 10 "s3" "game" "m1" (node c6) = (Ok reply, nd') /\
    member reply "error" = of_bool true.
Proof.
  destruct c6_top as (r & Ht & _).
  destruct (path_of c6 "s3" ["s3"; "s2"]%string c6_Inv) as (l & Hp & Hl); [vm_compute; reflexivity|].
  destruct (c6_main "m1" 1) as (rF & HrF & _); [vm_compute; reflexivity..|].
  destruct (request_to_fork_point (eq chain) 5 (fx_at chain) (node c6) "m3" r 10 "s3" "game" "m1" l rF)
    as [_ H].
  - exact chain_answers.
  - exact chain_good.
  - reflexivity.
  - exact c6_Inv.
  - exact c6_main_on.
  - exact Ht.
  - reflexivity.
  - exact c6_branches.
  - discriminate.
  - split; [discriminate|reflexivity].
  - exact Hp.
  - rewrite (c6_fork l Hp Hl). exact HrF.
  - rewrite (c6_fork l Hp Hl). reflexivity.
  - discriminate.
  - destruct (H (map Detach l)) as (nd' & reply & Hrun & _ & _ & He).
    + exact (record_detaches _ l []).
    + exact (ex_intro _ nd' (ex_intro _ reply (conj Hrun He))).
Defined.

(** A chainstate that is ahead of its base chain: the base chain answers a request for
    the blocks to detach with an empty list, of which the code takes the last one. *)
Definition short_chain : Chain :=
  {| fx_start := 0; fx_blocks := map blk ["m0"; "m1"]%string |}.

Lemma request_ahead_of_base_undefined :
  (game_sendupdates3 1 "m3" "game" "m1"
    {| nd_ctl := settings; nd_rpc := rpc_start; nd_run := (short_chain, c6, pm_start ([] : list note)) |}).1
  = Undefined.
Proof. vm_compute. reflexivity. Qed.

Lemma getblockhash_found_witness :
  exists nd', getblockhash 2 (node c6) = (Ok "m2"%string, nd').
Proof.
  destruct c6_top as (r & Ht & Hr).
  destruct (getblockhash_found (eq chain) 5 (fx_at chain) (node c6) "m3" r 2) as (b' & _ & Hrun).
  - exact chain_answers.
  - exact chain_good.
  - reflexivity.
  - exact c6_Inv.
  - exact c6_main_on.
  - exact Ht.
  - done.
  - rewrite Hr in Hrun. exact (ex_intro _ (set_base b' (node c6)) Hrun).
Defined.

Lemma getblockhash_negative_witness : getblockhash (-1) (node c6) = (Fatal, node c6).
Proof. apply (getblockhash_negative (node c6) (-1)). done. Defined.

Lemma getblockheader_found_witness :
  exists nd' r, getblockheader "s3" (node c6) = (r, nd') /\ ends r.
Proof.
  destruct (getblockheader_found (eq chain) 5 (fx_at chain) (node c6) "s3") as (b' & r & _ & Hrun & Hr).
  - exact chain_answers.
  - exact chain_good.
  - reflexivity.
  - done.
  - exact c6_Inv.
  - exists (set_base b' (node c6)), r. split; [exact Hrun|]. destruct r; [exact I|exact I|exact Hr..].
Defined.

Lemma request_before_sync_aborts_witness :
  exists nd', game_sendupdates3 128 "m3" "game" "" (node SetupSchema) = (Fatal, nd').
Proof.
  apply (request_before_sync_aborts (node SetupSchema)); [reflexivity|discriminate].
Defined.

(** ** The main program *)

Definition sample_flags (p : Z) : CoreFlags := {|
  core_rpc_url := "http://localhost:8396";
  core_flags := {| datadir := "/tmp/xayax"; port := p; listen_locally := true;
    zmq_address := "tcp://127.0.0.1:28555"; max_reorg_depth := 1000; sanity_checks := true |};
  pending_moves := false
|}.

Definition new_node : Node Chain (list note) :=
  {| nd_ctl := new_controller true; nd_rpc := rpc_start; nd_run := run_state SetupSchema |}.

Lemma core_main_runs_witness :
  exists nd', core_main (sample_flags 8000) new_node = (Ok EXIT_SUCCESS, nd') /\
    nd_ctl nd' = configured (core_flags (sample_flags 8000)) false.
Proof.
  destruct (core_main_runs (sample_flags 8000) new_node true false chain chain "main" chain)
    as (nd' & Hrun & Hctl & _).
  - reflexivity.
  - reflexivity.
  - reflexivity.
  - reflexivity.
  - reflexivity.
  - reflexivity.
  - reflexivity.
  - intros p. exact (ex_intro _ [] eq_refl).
  - exact (ex_intro _ nd' (conj Hrun Hctl)).
Defined.

Lemma core_main_negative_port_witness :
  exists nd', core_main (sample_flags (-1)) new_node = (Fatal, nd').
Proof.
  refine (proj2 (core_main_negative_port (sample_flags (-1)) new_node true chain eq_refl eq_refl
    _ _ _ eq_refl _ eq_refl)); [discriminate..|]. split; [discriminate|reflexivity].
Defined.
