(* ===== verification/Lifecycle.v ===== *)
(** * The life of a controller (src/controller.cpp: Controller::Run, Stop, ~Controller)

    [Run] blocks the main thread on a condition variable until [Stop] is called, by another
    thread or by an RPC call.  Meanwhile the sync worker and the base chain call back, and the
    HTTP server runs the RPC methods.  The mutex [mut] of the controller, under which the
    settings are, is held by [Run] except while it waits.  The system is given by [step],
    as in SyncThread.v; a section under the mutex is one event. *)

From S2P Require Import Prelude Events Json BlockData Chainstate ChainstateProps BaseChain BlockCache SyncProps ZmqPub Publisher Pending RunData Controller Main ControllerSample.

(** Where [Run] is: it is not called; it waits on the condition variable; it has been
    woken up; it has left the loop and pauses, with the mutex; it is in the destructor of
    [RunData], with the mutex; the controller is destroyed; or the process has been aborted. *)
Inductive run_at := Outside | Waiting | Woken | Pausing | Stopping | Destroyed | Aborted.

#[export] Instance run_at_eq_dec : EqDecision run_at.
Proof. solve_decision. Defined.

(** The RPC methods that lock the mutex of the controller. *)
Inductive rpc_call := CallStop | CallNotifications.

(** The operations that change the settings. *)
Inductive setting :=
  | SetsZmqEndpoint (addr : string)
  | SetsRpcBinding (p : Z) (local : bool)
  | EnablesPending
  | EnablesSanityChecks
  | SetsMaxReorgDepth (depth : Z)
  | TracksGame (gameId : string).

Section Lifecycle.
Context {J : JsonCpp} {C : BlockCodec} {L : RpcLib} {B P : Type} {BC : BaseChain B}
  {PB : Publisher P}.
Notation RunState := (B * Chainstate * PendingManager P)%type.
Implicit Types nd : Node B P.

(** [sync] is set while the member of [RunData] is not null; [calls] are the RPC calls that
    have come in and wait for the mutex. *)
Record RunningController := {
  rc_node : Node B P;
  main_at : run_at;
  sync : bool;
  calls : list rpc_call
}.

Definition ctl (s : RunningController) : Controller := nd_ctl (rc_node s).

Definition set_at (a : run_at) (s : RunningController) : RunningController :=
  {| rc_node := rc_node s; main_at := a; sync := sync s; calls := calls s |}.

Definition set_node (nd : Node B P) (s : RunningController) : RunningController :=
  {| rc_node := nd; main_at := main_at s; sync := sync s; calls := calls s |}.

Definition set_sync (b : bool) (s : RunningController) : RunningController :=
  {| rc_node := rc_node s; main_at := main_at s; sync := b; calls := calls s |}.

Definition set_calls (l : list rpc_call) (s : RunningController) : RunningController :=
  {| rc_node := rc_node s; main_at := main_at s; sync := sync s; calls := l |}.

Definition mutex_free (s : RunningController) : bool :=
  match main_at s with Outside | Waiting | Woken => true | _ => false end.

(** The server answers until [StopListening], which waits for the calls that have begun. *)
Definition listening (s : RunningController) : bool :=
  match main_at s with Waiting | Woken | Pausing => true | _ => false end.

Definition in_run (s : RunningController) : bool :=
  match main_at s with Waiting | Woken | Pausing | Stopping => true | _ => false end.

(** An exception goes to the caller; a failed [CHECK] aborts. *)
Definition run_op {A} (m : M (Node B P) A) (s : RunningController) : RunningController :=
  match m (rc_node s) with
  | (Ok _, nd) | (Throw _, nd) => set_node nd s
  | (_, nd) => set_at Aborted (set_node nd s)
  end.

Definition change (t : setting) : M (Node B P) unit :=
  match t with
  | SetsZmqEndpoint addr => SetZmqEndpoint addr
  | SetsRpcBinding p local => SetRpcBinding p local
  | EnablesPending => EnablePending
  | EnablesSanityChecks => EnableSanityChecks
  | SetsMaxReorgDepth depth => SetMaxReorgDepth depth
  | TracksGame gameId => TrackGame gameId
  end.

(** [Run] up to the wait.  An exception of the constructor leaves [Run]. *)
Definition begin_run (s : RunningController) : RunningController :=
  match Run (rc_node s) with
  | (Ok _, nd) => {| rc_node := nd; main_at := Waiting; sync := true; calls := [] |}
  | (Throw _, nd) => set_node nd s
  | (_, nd) => set_at Aborted (set_node nd s)
  end.

(** [Stop], with the notification of the condition variable. *)
Definition Stop (s : RunningController) : RunningController :=
  let s' := run_op stop s in
  match main_at s' with Waiting => set_at Woken s' | _ => s' end.

Definition serve (c : rpc_call) (s : RunningController) : RunningController :=
  match c with
  | CallStop => Stop s
  | CallNotifications => run_op getzmqnotifications s
  end.

Definition DisableSyncForTesting (s : RunningController) : RunningController :=
  if running (ctl s) then set_sync false s else set_at Aborted s.

(** The loop condition, after the mutex has been locked again. *)
Definition loop_check (s : RunningController) : RunningController :=
  set_at (if shouldStop (ctl s) then Pausing else Waiting) s.

(** The start of the destructor of [RunData]. *)
Definition destroy_run (s : RunningController) : RunningController :=
  if running (ctl s) then
    set_at Stopping (set_node {|
      nd_ctl := let c := ctl s in {| zmqAddr := zmqAddr c; rpcPort := rpcPort c;
        rpcListenLocally := rpcListenLocally c; pending := pending c;
        sanityChecks := sanityChecks c; maxReorgDepth := maxReorgDepth c;
        trackedGames := trackedGames c; running := false; shouldStop := shouldStop c |};
      nd_rpc := nd_rpc (rc_node s); nd_run := nd_run (rc_node s) |} s)
  else set_at Aborted s.

(** What the sync worker calls; it reads the settings without the mutex. *)
Definition callback (s : RunningController) (old : string) (att : list BlockData)
  : M RunState unit :=
  TipUpdatedFrom (sanityChecks (ctl s)) (maxReorgDepth (ctl s)) old att.

(** The events: calls of [Run] and of the operations of the controller by others; the moves of
    [Run]; RPC calls that come in, and get the mutex; updates from the sync worker; and
    [EvOther], what the other RPC methods and the callbacks of the base chain do to the rest of
    the state. *)
Inductive event :=
  | EvRun
  | EvSetting (t : setting)
  | EvStop
  | EvDisableSync
  | EvSpurious
  | EvLock
  | EvPaused
  | EvReturn
  | EvCall (c : rpc_call)
  | EvServe (i : nat)
  | EvUpdate (old : string) (att : list BlockData)
  | EvOther (r : RpcServer) (x : RunState)
  | EvDestroy.

Definition step (e : event) (s : RunningController) : option RunningController :=
  match e, main_at s with
  | _, Destroyed | _, Aborted => None
  | EvRun, Outside => Some (begin_run s)
  | EvSetting t, _ => if mutex_free s then Some (run_op (change t) s) else None
  | EvStop, _ => if mutex_free s then Some (Stop s) else None
  | EvDisableSync, _ => if mutex_free s then Some (DisableSyncForTesting s) else None
  | EvSpurious, Waiting => Some (set_at Woken s)
  | EvLock, Woken => Some (loop_check s)
  | EvPaused, Pausing => Some (destroy_run s)
  | EvReturn, Stopping =>
      match calls s with [] => Some (set_sync false (set_at Outside s)) | _ => None end
  | EvCall c, _ => if listening s then Some (set_calls (calls s ++ [c]) s) else None
  | EvServe i, _ =>
      if mutex_free s then
        c ← calls s !! i; Some (serve c (set_calls (delete i (calls s)) s))
      else None
  | EvUpdate old att, _ =>
      if sync s && in_run s
      then Some (run_op (on_run (callback s old att)) s) else None
  | EvOther r x, _ =>
      Some (set_node {| nd_ctl := ctl s; nd_rpc := r; nd_run := x |} s)
  | EvDestroy, Outside => Some (set_at (if running (ctl s) then Aborted else Destroyed) s)
  | _, _ => None
  end.

Notation run_events := (Events.run_events step).

(** ** What the operations change *)

Definition settings (c : Controller) :=
  (zmqAddr c, rpcPort c, rpcListenLocally c, pending c, sanityChecks c, maxReorgDepth c,
   trackedGames c).

Ltac unfold_change Hr :=
  unfold SetZmqEndpoint, SetRpcBinding, EnablePending, EnableSanityChecks, SetMaxReorgDepth,
    TrackGame, not_running; rewrite bind_assoc, get_bind, Hr; done.

(** Every change of a setting is refused while the controller runs. *)
Lemma change_running t nd : running (nd_ctl nd) = true -> change t nd = (Fatal, nd).
Proof. intros Hr. destruct t; cbn; unfold_change Hr. Qed.

Lemma stop_run nd : exists nd', stop nd = (Ok tt, nd') /\
  settings (nd_ctl nd') = settings (nd_ctl nd) /\ running (nd_ctl nd') = running (nd_ctl nd) /\
  shouldStop (nd_ctl nd') = true /\ nd_run nd' = nd_run nd.
Proof. by eexists. Qed.

Lemma getzmqnotifications_run nd : exists v, getzmqnotifications nd = (Ok v, nd).
Proof. by eexists. Qed.

Lemma on_run_ctl {A} (m : M RunState A) nd r nd' : on_run m nd = (r, nd') -> nd_ctl nd' = nd_ctl nd.
Proof. unfold on_run, zoom. destruct (m (nd_run nd)). by intros [= _ <-]. Qed.

(** ** While [Run] is active *)

(** The settings are those of [c]; the mutex protects [running]; and a stop is not slept
    through. *)
Record in_life (c : Controller) (s : RunningController) : Prop := {
  il_settings : settings (ctl s) = settings c;
  il_running : running (ctl s) = match main_at s with Stopping => false | _ => true end;
  il_stop : match main_at s with
            | Waiting => shouldStop (ctl s) = false
            | Woken => True
            | Pausing | Stopping => shouldStop (ctl s) = true
            | _ => False
            end
}.

(** The events in the course of a run. *)
Definition within (e : event) : bool := match e with EvReturn => false | _ => true end.

Lemma Stop_life c s : in_life c s -> mutex_free s = true ->
  in_life c (Stop s) /\ main_at (Stop s) = Woken /\ calls (Stop s) = calls s /\
  shouldStop (ctl (Stop s)) = true.
Proof.
  intros [Hset Hr Hs] Hfree. unfold Stop, run_op.
  destruct (stop_run (rc_node s)) as (nd' & -> & Hset' & Hr' & Hs' & _). cbn.
  unfold mutex_free, ctl in *. destruct (main_at s) eqn:Ea; try done;
    (split_and!; [split|..]; cbn; unfold ctl; cbn; try congruence; by rewrite ?Ea, ?Hr').
Qed.

Lemma serve_life c call s : in_life c s -> mutex_free s = true ->
  in_life c (serve call s) /\ calls (serve call s) = calls s /\
  (main_at s = Woken -> main_at (serve call s) = Woken) /\
  (shouldStop (ctl s) = true -> shouldStop (ctl (serve call s)) = true).
Proof.
  intros Hl Hfree. destruct call; cbn.
  - destruct (Stop_life c s Hl Hfree) as (? & ? & ? & ?). done.
  - unfold run_op. destruct (getzmqnotifications_run (rc_node s)) as (v & ->).
    by destruct s.
Qed.

Lemma life_same c s s' : in_life c s -> main_at s' = main_at s -> ctl s' = ctl s -> in_life c s'.
Proof. intros [Hset Hr Hs] Ha Hc. split; by rewrite ?Ha, Hc. Qed.

Lemma loop_check_life c s : in_life c s -> main_at s = Woken -> in_life c (loop_check s) /\
  main_at (loop_check s) = if shouldStop (ctl s) then Pausing else Waiting.
Proof.
  intros [Hset Hr _] Ha. rewrite Ha in Hr. unfold loop_check. split; [|done].
  split; cbn; unfold ctl in *; cbn; by destruct (shouldStop (nd_ctl (rc_node s))) eqn:?.
Qed.

Lemma destroy_run_life c s : in_life c s -> main_at s = Pausing ->
  in_life c (destroy_run s) /\ main_at (destroy_run s) = Stopping /\
  calls (destroy_run s) = calls s.
Proof.
  intros [Hset Hr Hs] Ha. rewrite Ha in Hr, Hs. unfold destroy_run. rewrite Hr. by split.
Qed.

Lemma update_life c s old att : in_life c s ->
  let s' := run_op (on_run (callback s old att)) s in
  (in_life c s' /\ main_at s' = main_at s /\ calls s' = calls s) \/ main_at s' = Aborted.
Proof.
  intros Hl. unfold run_op. destruct (on_run _ (rc_node s)) as [r nd] eqn:Eo.
  apply on_run_ctl in Eo. destruct r; cbn; try (by right); left;
    (split_and!; [by apply (life_same c s)|done..]).
Qed.

(** The state after an event in the course of a run; [in_life] is kept, or the process is
    aborted. *)
Lemma life_step c s e s' : in_life c s -> within e = true -> step e s = Some s' ->
  in_life c s' \/ main_at s' = Aborted.
Proof.
  intros Hl He E. pose proof Hl as [Hset Hr Hs].
  destruct e; try done; unfold step in E; destruct (main_at s) eqn:Ea; try done;
    cbn in E; unfold mutex_free, listening, in_run in E; rewrite ?Ea in E; try done;
    try (injection E as <-).
  all: try (right; unfold run_op; by rewrite change_running).
  all: try (left; apply Stop_life; [done|unfold mutex_free; by rewrite Ea]).
  all: try (left; unfold DisableSyncForTesting; rewrite Hr; by apply (life_same c s)).
  all: try (left; by apply loop_check_life).
  all: try (left; by apply destroy_run_life).
  all: try (left; by apply (life_same c s)).
  all: try (left; destruct (calls s !! i) as [call|]; [|done]; injection E as <-;
    apply serve_life; [by apply (life_same c s)|unfold mutex_free; cbn; by rewrite Ea]).
  all: try (destruct (sync s); [|done]; injection E as <-;
    destruct (update_life c s old att Hl) as [[? _]|?]; by auto).
  left. by split.
Qed.

Lemma life_run c tr s s' : in_life c s -> forallb within tr = true ->
  run_events tr s = Some s' -> main_at s' <> Aborted -> in_life c s'.
Proof.
  intros Hl Hw Hrun Hok.
  destruct (run_events_keeps step (fun x => in_life c x \/ main_at x = Aborted) within) with
    (tr := tr) (s := s) (s' := s') as [?|?]; auto; [|done].
  intros x e x' [Hx|Ha] He E; [by apply (life_step c x e)|].
  unfold step in E. rewrite Ha in E. by destruct e.
Qed.

(** ** The start of [Run] *)

Lemma forM_ctl {A} (l : list A) (f : A -> M RunState unit) : forall nd r nd',
  forM l (fun a => on_run (f a)) nd = (r, nd') -> nd_ctl nd' = nd_ctl nd.
Proof.
  induction l as [|a l IH]; intros nd r nd'; cbn [forM]; [by intros [= _ <-]|].
  unfold bind. destruct (on_run (f a) nd) as [[?|?| | |] nd1] eqn:E; apply on_run_ctl in E;
    [|by intros [= _ <-]..]. intros H%IH. congruence.
Qed.

(** When [Run] gets to the wait, the settings have passed its checks. *)
Lemma Run_inv nd nd' : Run nd = (Ok tt, nd') ->
  0 <= maxReorgDepth (nd_ctl nd) /\ zmqAddr (nd_ctl nd) <> EmptyString /\
  0 <= rpcPort (nd_ctl nd) /\ settings (nd_ctl nd') = settings (nd_ctl nd) /\
  running (nd_ctl nd') = true /\ shouldStop (nd_ctl nd') = false.
Proof.
  unfold Run, not_running. rewrite bind_assoc, get_bind. intros H.
  apply bind_Ok_inv in H as (? & n0 & [Hr <-]%check_inv & H). rewrite get_bind in H.
  apply bind_Ok_inv in H as (? & n0 & [Hd <-]%check_inv & H).
  apply bind_Ok_inv in H as (? & n0 & [Hz <-]%check_inv & H).
  apply bind_Ok_inv in H as (? & n0 & [Hp <-]%check_inv & H).
  apply bind_Ok_inv in H as (? & n1 & H1%on_run_ctl & H).
  apply bind_Ok_inv in H as (? & n1' & H1'%on_run_ctl & H). rewrite <- H1' in H1.
  apply bind_Ok_inv in H as (? & n2 & H2 & H). injection H2 as <- <-.
  apply bind_Ok_inv in H as (? & n3 & H3 & H). injection H3 as <- <-.
  apply bind_Ok_inv in H as (? & n4 & H4%forM_ctl & H). injection H as <-.
  cbn in *. rewrite H4. cbn. unfold settings. cbn. rewrite H1.
  apply Z.leb_le in Hd. apply Z.ltb_lt in Hp. split_and!; [done| |lia|done..].
  unfold nonempty in Hz. by destruct (bool_decide_reflect (zmqAddr (nd_ctl nd) = EmptyString)).
Qed.

Lemma begin_life s s1 : main_at s = Outside -> step EvRun s = Some s1 -> main_at s1 = Waiting ->
  in_life (ctl s) s1 /\ calls s1 = [] /\ 0 <= maxReorgDepth (ctl s).
Proof.
  intros Ha. unfold step. rewrite Ha. intros [= <-]. unfold begin_run.
  destruct (Run (rc_node s)) as [[[]|?| | |] nd] eqn:E; cbn; try congruence. intros _.
  apply Run_inv in E as (? & _ & _ & Hset & Hr & Hs). by split_and!.
Qed.

(** ** The end of [Run] *)

Definition stopping (c : Controller) (s : RunningController) : Prop :=
  in_life c s /\ shouldStop (ctl s) = true.

(** The moves of [Run] until it is in the destructor of [RunData]. *)
Definition by_main (e : event) : bool := match e with EvLock | EvPaused => true | _ => false end.

Definition moves_left (s : RunningController) : nat :=
  match main_at s with Woken => 2 | Pausing => 1 | _ => 0 end.

Lemma stopping_not_waiting c s : stopping c s -> main_at s <> Waiting.
Proof. intros [[_ _ Hs] Hst] Ha. rewrite Ha in Hs. congruence. Qed.

(** Other events of a run neither move [Run] on nor take the request to stop back. *)
Lemma stopping_move c s e s' : stopping c s -> within e = true -> step e s = Some s' ->
  (stopping c s' /\ (moves_left s' + (if by_main e then 1 else 0) <= moves_left s)%nat) \/
  main_at s' = Aborted.
Proof.
  intros Hst He E. pose proof (stopping_not_waiting c s Hst) as Hw. destruct Hst as [Hl Hst].
  destruct (life_step c s e s' Hl He E) as [Hl'|Ha]; [|by right].
  pose proof (il_stop c s Hl) as Hs. pose proof (il_running c s Hl) as Hr.
  enough ((shouldStop (ctl s') = true /\
    (moves_left s' + (if by_main e then 1 else 0) <= moves_left s)%nat) \/ main_at s' = Aborted)
    as [[? ?]|?]; [by left|by right|].
  clear Hl'. unfold moves_left.
  destruct e; try done; unfold step in E; destruct (main_at s) eqn:Ea; try done;
    cbn in E; unfold mutex_free, listening, in_run in E; rewrite ?Ea in E; try done;
    try (injection E as <-); cbn [by_main].
  all: try (right; unfold run_op; by rewrite change_running).
  all: try (destruct (Stop_life c s Hl) as (_ & -> & _ & ->);
    [unfold mutex_free; by rewrite Ea|left; split; [done|lia]]).
  all: try (left; unfold DisableSyncForTesting; rewrite Hr; cbn; rewrite ?Ea; split; [done|lia]).
  all: try (left; unfold loop_check; rewrite Hst; cbn; split; [done|lia]).
  all: try (left; unfold destroy_run; rewrite Hr; cbn; split; [done|lia]).
  all: try (left; cbn; rewrite ?Ea; split; [done|lia]).
  all: try (destruct (calls s !! i) as [call|]; [|done]; injection E as <-; left;
    destruct (serve_life c call (set_calls (delete i (calls s)) s)) as (_ & _ & Hm & Hk);
    [by apply (life_same c s)|unfold mutex_free; cbn; by rewrite Ea|];
    rewrite Hm, Hk by done; split; [done|lia]).
  all: destruct (sync s); [|done]; injection E as <-; unfold run_op;
    destruct (on_run _ (rc_node s)) as [r nd] eqn:Eo; apply on_run_ctl in Eo;
    destruct r; try (by right); left; cbn; unfold ctl in *; cbn; rewrite Eo, Ea;
    (split; [done|lia]).
Qed.

Lemma stopping_run c tr s s' : stopping c s -> forallb within tr = true ->
  run_events tr s = Some s' -> main_at s' <> Aborted ->
  stopping c s' /\ (count by_main tr <= 2)%nat.
Proof.
  intros Hst Hw Hrun Hok.
  destruct (run_events_measure step (fun x => stopping c x \/ main_at x = Aborted) moves_left
    within by_main) with (tr := tr) (s := s) (s' := s') as [[Hs'|?] Hm]; auto; [|split; [done|]|done].
  - intros x e x' [Hx|Ha] He E.
    + destruct (stopping_move c x e x' Hx He E) as [[? ?]|Ha]; [by auto|].
      split; [by right|]. unfold moves_left. rewrite Ha.
      destruct e; cbn; try lia; unfold step in E; destruct (main_at x); try done; lia.
    + unfold step in E. rewrite Ha in E. by destruct e.
  - unfold moves_left in Hm at 2. destruct (main_at s); lia.
Qed.

(** From the destructor and from the pause, [Run] returns when no call waits. *)
Lemma returns_stopping c s : stopping c s -> calls s = [] ->
  main_at s = Stopping \/ main_at s = Pausing \/ main_at s = Woken ->
  exists next s', (length next <= 3)%nat /\ run_events next s = Some s' /\
    main_at s' = Outside /\ running (ctl s') = false /\ settings (ctl s') = settings c.
Proof.
  assert (Hend : forall x, stopping c x -> calls x = [] -> main_at x = Stopping ->
    run_events [EvReturn] x = Some (set_sync false (set_at Outside x)) /\
    running (ctl x) = false /\ settings (ctl x) = settings c).
  { intros x [[Hset Hr _] _] Hc Ha. cbn. rewrite Ha in Hr |- *. by rewrite Hc. }
  assert (Hpause : forall x, stopping c x -> calls x = [] -> main_at x = Pausing ->
    exists x', step EvPaused x = Some x' /\ stopping c x' /\ calls x' = [] /\
      main_at x' = Stopping).
  { intros x [Hl Hst] Hc Ha. destruct (destroy_run_life c x Hl Ha) as (Hl' & Ha' & Hc').
    exists (destroy_run x). split_and!; [cbn; by rewrite Ha|split; [done|]|congruence|done].
    pose proof (il_stop c _ Hl') as H. by rewrite Ha' in H. }
  intros Hst Hc [Ha|[Ha|Ha]].
  - destruct (Hend s Hst Hc Ha) as (E & ? & ?). exists [EvReturn]. eexists.
    split_and!; [cbn; lia|exact E|done..].
  - destruct (Hpause s Hst Hc Ha) as (s1 & E1 & Hst1 & Hc1 & Ha1).
    destruct (Hend s1 Hst1 Hc1 Ha1) as (E & ? & ?). exists [EvPaused; EvReturn]. eexists.
    split_and!; [cbn; lia|cbn [Events.run_events]; rewrite E1; exact E|done..].
  - destruct (loop_check_life c s (proj1 Hst) Ha) as [Hl1 Ha1]. rewrite (proj2 Hst) in Ha1.
    destruct (Hpause (loop_check s)) as (s2 & E2 & Hst2 & Hc2 & Ha2);
      [split; [done|apply Hst]|done|done|].
    destruct (Hend s2 Hst2 Hc2 Ha2) as (E & ? & ?). exists [EvLock; EvPaused; EvReturn].
    exists (set_sync false (set_at Outside s2)).
    split_and!; [cbn; lia| |done..].
    assert (E1 : step EvLock s = Some (loop_check s)) by (unfold step; by rewrite Ha).
    cbn [Events.run_events]. rewrite E1. cbn [mbind option_bind]. rewrite E2. exact E.
Qed.

(** The calls that have come in are served first. *)
Lemma returns_woken c l : forall s, stopping c s -> calls s = l -> main_at s = Woken ->
  exists next s', (length next <= length l + 3)%nat /\ run_events next s = Some s' /\
    main_at s' = Outside /\ running (ctl s') = false /\ settings (ctl s') = settings c.
Proof.
  induction l as [|call l IH]; intros s Hst Hc Ha.
  - apply returns_stopping; auto.
  - destruct (serve_life c call (set_calls l s)) as (Hl1 & Hc1 & Hm1 & Hs1);
      [by apply (life_same c s); [apply Hst|..]|unfold mutex_free; cbn; by rewrite Ha|].
    destruct (IH (serve call (set_calls l s))) as (next & s' & Hlen & Hrun & ? & ? & ?);
      [split; [done|apply Hs1, Hst]|done|by apply Hm1|].
    exists (EvServe 0 :: next), s'. split_and!; [cbn; lia| |done..].
    assert (E : step (EvServe 0) s = Some (serve call (set_calls l s)))
      by (unfold step, mutex_free; rewrite Ha, Hc; done).
    cbn [Events.run_events]. rewrite E. exact Hrun.
Qed.

(** A call that waits for the mutex while [Run] has it for the last time. *)
Definition deadlocked (s : RunningController) : Prop :=
  (main_at s = Pausing \/ main_at s = Stopping) /\ calls s <> [].

Lemma deadlocked_step s e s' : deadlocked s -> step e s = Some s' ->
  deadlocked s' \/ main_at s' = Aborted.
Proof.
  unfold deadlocked. intros [Ha Hc] E. unfold step, mutex_free, listening, in_run in E.
  destruct e, Ha as [Ha|Ha]; rewrite Ha in E; try done; try (injection E as <-); cbn.
  all: try (left; split; [by auto|by destruct (calls s)]).
  all: try (unfold destroy_run; destruct (running (ctl s)); cbn; by auto).
  all: try (by destruct (calls s)).
  all: destruct (sync s); [|done]; injection E as <-; unfold run_op;
    destruct (on_run _ (rc_node s)) as [[] ?]; cbn; by auto.
Qed.

Lemma deadlocked_run tr s s' : deadlocked s -> run_events tr s = Some s' ->
  deadlocked s' \/ main_at s' = Aborted.
Proof.
  intros Hs. apply (run_events_keeps step (fun x => deadlocked x \/ main_at x = Aborted)
    (fun _ => true)); [|by left|by induction tr].
  intros x e x' [Hx|Ha] _ E; [by apply (deadlocked_step x e)|].
  unfold step in E. rewrite Ha in E. by destruct e.
Qed.

(** ** The theorems *)

(** C30. What the code says of the settings when it reads them without the mutex: they
    never change during a run.  From the start of [Run] until it returns, whatever is called
    and in whatever order, the settings are those with which it was called; an
    attempt to change one aborts the process; and every update that the sync worker reports is
    processed with the maximal depth and the flag for checks of that moment, of which the
    depth is not negative, as the callback insists. *)
Theorem settings_fixed (s s1 s2 : RunningController) (tr : list event)
    (Hout : main_at s = Outside) (Hrun : step EvRun s = Some s1) (Hat : main_at s1 = Waiting)
    (Htr : run_events tr s1 = Some s2) (Hin : forallb within tr = true)
    (Hok : main_at s2 <> Aborted) :
  settings (ctl s2) = settings (ctl s) /\
  0 <= maxReorgDepth (ctl s2) /\
  (forall old att, callback s2 old att =
    TipUpdatedFrom (sanityChecks (ctl s)) (maxReorgDepth (ctl s)) old att) /\
  (forall t s3, step (EvSetting t) s2 = Some s3 -> main_at s3 = Aborted).
Proof.
  destruct (begin_life s s1 Hout Hrun Hat) as (Hl1 & _ & Hd).
  pose proof (life_run _ tr s1 s2 Hl1 Hin Htr Hok) as Hl. pose proof Hl as [Hset Hr Hs].
  pose proof Hset as H. unfold settings in H. injection H as _ _ _ _ Hsan Hdep _.
  split_and!; [done|by rewrite Hdep|intros old att; unfold callback; by rewrite Hsan, Hdep|].
  intros t s3 E. unfold step, mutex_free in E.
  destruct (main_at s2) eqn:Ea; try done; injection E as <-; unfold run_op;
    by rewrite change_running.
Qed.

(** C40. [Run] returns after [Stop].  Once a stop has been requested during a run, by a call of
    [Stop] or of the RPC method, [Run] does not wait any more, whatever else happens: it makes
    at most two moves until it is in the destructor of [RunData].  If no call waits for the
    mutex of the controller then, or if [Run] has not taken the mutex yet, it can return
    at any moment after the calls that have come in, and then the controller does not
    run and has its settings.  Otherwise it never returns. *)
Theorem run_returns (s s1 s2 s3 : RunningController) (tr0 tr : list event)
    (Hout : main_at s = Outside) (Hrun : step EvRun s = Some s1) (Hat : main_at s1 = Waiting)
    (Htr0 : run_events tr0 s1 = Some s2) (Hin0 : forallb within tr0 = true)
    (Hstop : shouldStop (ctl s2) = true)
    (Htr : run_events tr s2 = Some s3) (Hin : forallb within tr = true)
    (Hok : main_at s2 <> Aborted) (Hok' : main_at s3 <> Aborted) :
  main_at s3 <> Waiting /\ (count by_main tr <= 2)%nat /\
  (calls s3 = [] \/ main_at s3 = Woken ->
    exists next s4, (length next <= length (calls s3) + 3)%nat /\ run_events next s3 = Some s4 /\
      main_at s4 = Outside /\ running (ctl s4) = false /\
      settings (ctl s4) = settings (ctl s)) /\
  (~ (calls s3 = [] \/ main_at s3 = Woken) -> forall tr' s4, run_events tr' s3 = Some s4 ->
    main_at s4 = Pausing \/ main_at s4 = Stopping \/ main_at s4 = Aborted).
Proof.
  destruct (begin_life s s1 Hout Hrun Hat) as (Hl1 & _ & _).
  pose proof (life_run _ tr0 s1 s2 Hl1 Hin0 Htr0 Hok) as Hl2.
  destruct (stopping_run (ctl s) tr s2 s3 (conj Hl2 Hstop) Hin Htr Hok') as [Hs3 Hcount].
  pose proof (stopping_not_waiting _ _ Hs3) as Hw.
  pose proof (il_stop _ _ (proj1 Hs3)) as Hat3. split_and!; [done|done| |].
  - intros [Hc|Ha]; [|by apply (returns_woken (ctl s) (calls s3))].
    rewrite Hc. apply returns_stopping; [done|done|]. destruct (main_at s3); auto; done.
  - intros Hno tr' s4 Hrun'. destruct (deadlocked_run tr' s3 s4) as [[[?|?] _]|?]; auto.
    split; [|by auto]. destruct (main_at s3); auto; try done. destruct Hno; auto.
Qed.
End Lifecycle.
#[global] Arguments RunningController {J} B P.
#[global] Arguments event {J} B P.

(** ** An example

    A run over the chain and the chainstate of ControllerSample.v, in which the sync worker
    reports a reorganisation, the settings are asked for, and an RPC call asks to stop. *)
Module LifecycleSample.
Import Model BitsProto Fixed SyncSample.
#[local] Existing Instances recorder sample_lib.

Definition chosen : Controller := {|
  zmqAddr := "tcp://127.0.0.1:1234"; rpcPort := 1234; rpcListenLocally := true; pending := true;
  sanityChecks := true; maxReorgDepth := 2; trackedGames := {["g"%string]}; running := false;
  shouldStop := false
|}.

Definition created : RunningController Chain (list note) := {|
  rc_node := {| nd_ctl := chosen; nd_rpc := rpc_start; nd_run := run_state c6 |};
  main_at := Outside; sync := false; calls := []
|}.

Definition asked_to_stop : list (event Chain (list note)) :=
  [EvUpdate "s3" (map blk ["m1"; "m2"; "m3"]%string); EvCall CallNotifications; EvSpurious;
   EvCall CallStop; EvServe 1].

Definition observed (s : RunningController Chain (list note)) :=
  (main_at s, calls s, running (ctl s), shouldStop (ctl s), length (zmq (nd_run (rc_node s)).2)).

Example observed_run : observed <$> Events.run_events step (EvRun :: asked_to_stop) created =
  Some (Woken, [CallNotifications], true, true, 4%nat).
Proof. vm_compute. reflexivity. Qed.

Lemma asked_to_stop_run : exists s1 s2, step EvRun created = Some s1 /\ main_at s1 = Waiting /\
  Events.run_events step asked_to_stop s1 = Some s2 /\
  main_at s2 = Woken /\ calls s2 = [CallNotifications] /\ shouldStop (ctl s2) = true.
Proof.
  destruct (run_events_cons step observed _ _ _ _ observed_run) as (s1 & s2 & E1 & E2 & Ho).
  destruct (run_events_cons step main_at EvRun [] created Waiting) as (s1' & ? & E1' & [= <-] & Ha);
    [vm_compute; reflexivity|].
  exists s1, s2. rewrite E1 in E1'. injection E1' as <-. injection Ho as Ho1 Ho2 _ Ho3 _.
  split; [exact E1|]. split; [exact Ha|]. split; [exact E2|]. done.
Qed.

Lemma settings_fixed_witness : exists s1 s2, step EvRun created = Some s1 /\
  Events.run_events step asked_to_stop s1 = Some s2 /\ settings (ctl s2) = settings chosen /\
  (forall old att, callback s2 old att = TipUpdatedFrom true 2 old att).
Proof.
  destruct asked_to_stop_run as (s1 & s2 & H1 & H2 & H3 & H4 & _).
  assert (H5 : main_at s2 <> Aborted) by (rewrite H4; discriminate).
  destruct (settings_fixed created s1 s2 asked_to_stop eq_refl H1 H2 H3 eq_refl H5)
    as (Hset & _ & Hcb & _).
  exists s1, s2. split; [exact H1|]. split; [exact H3|]. split; [exact Hset|exact Hcb].
Defined.

Lemma run_returns_witness : exists s1 s2 next s, step EvRun created = Some s1 /\
  Events.run_events step asked_to_stop s1 = Some s2 /\
  (length next <= 4)%nat /\ Events.run_events step next s2 = Some s /\ main_at s = Outside /\
  settings (ctl s) = settings chosen.
Proof.
  destruct asked_to_stop_run as (s1 & s2 & H1 & H2 & H3 & H4 & H6 & H7).
  assert (H5 : main_at s2 <> Aborted) by (rewrite H4; discriminate).
  destruct (run_returns created s1 s2 s2 asked_to_stop [] eq_refl H1 H2 H3 eq_refl H7
    eq_refl eq_refl H5 H5) as (_ & _ & Hret & _).
  destruct (Hret (or_intror H4)) as (next & s & Hlen & Hrun & Ha & _ & Hset).
  rewrite H6 in Hlen. exists s1, s2, next, s. split; [exact H1|]. split; [exact H3|].
  split; [exact Hlen|]. split; [exact Hrun|]. split; [exact Ha|exact Hset].
Defined.

(** A stop that comes before [Run] has no effect on it. *)
Example early_stop :
  main_at <$> Events.run_events step [EvStop; EvRun] created = Some Waiting.
Proof. vm_compute. reflexivity. Qed.
End LifecycleSample.
