(* ===== verification/JsonRead.v ===== *)
(** * Reading JSON values

    The part of jsoncpp that the connectors use to take apart the answers of a
    blockchain node.  The conversions throw [Json::LogicError] for a value of
    another type.  Again, [ReaderModel] is a concrete implementation. *)

From stdpp Require Import pretty.
From S2P Require Import Prelude Json.

(** - [get_member v k] is [v[k]] on a constant value, which may not be an object;
    - [get_index v i] is [v[i]];
    - [items] are the values over which [for (const auto& x : v)] runs;
    - [double] are the floating-point numbers. *)
Class JsonReader {J : JsonCpp} := {
  double : Type;
  double_zero : double;
  double_add : double -> double -> double;
  double_scaled : Z -> Z -> double;
  of_double : double -> Value;
  get_member : Value -> string -> result Value;
  get_index : Value -> Z -> result Value;
  items : Value -> list Value;
  isInt64 : Value -> bool;
  asString : Value -> result string;
  asBool : Value -> result bool;
  asInt : Value -> result Z;
  asInt64 : Value -> result Z;
  asUInt64 : Value -> result Z;
  asDouble : Value -> result double
}.

Class JsonReaderLaws {J : JsonCpp} (JR : JsonReader) := {
  get_member_object : forall v k, isObject v = true -> get_member v k = Ok (member v k);
  items_array : forall v, isArray v = true -> items v = elements_of v;
  isInt64_of_int : forall z : Z, - 2 ^ 63 <= z <= i64_max -> isInt64 (of_int z) = true;
  asString_of_string : forall s, asString (of_string s) = Ok s;
  asBool_of_bool : forall b, asBool (of_bool b) = Ok b;
  asInt_of_int : forall z : Z, - 2 ^ 31 <= z < 2 ^ 31 -> asInt (of_int z) = Ok z;
  asInt64_of_int : forall z : Z, - 2 ^ 63 <= z <= i64_max -> asInt64 (of_int z) = Ok z;
  asUInt64_of_int : forall z : Z, 0 <= z < u64_modulus -> asUInt64 (of_int z) = Ok z
}.

(** [v[k].asString ()] and the like. *)
Section Fields.
Context {J : JsonCpp} {JR : JsonReader}.

Definition field {A} (as_ : Value -> result A) (v : Value) (k : string) : result A :=
  x ← get_member v k; as_ x.

Lemma field_object {JRL : JsonReaderLaws JR} {A} (as_ : Value -> result A) v k :
  isObject v = true -> field as_ v k = as_ (member v k).
Proof. intros H. unfold field. by rewrite get_member_object. Qed.
End Fields.

(** ** A concrete reader *)
Module ReaderModel.
Import Model.

Definition logic_error {A} : result A := Throw (StdException "Json::LogicError").

Definition as_string (v : json) : result string :=
  match v with
  | JStr s => Ok s
  | JNull => Ok EmptyString
  | JInt z => Ok (pretty z)
  | JBool b => Ok (if b then "true" else "false")%string
  | _ => logic_error
  end.

Definition as_integer (ok : Z -> bool) (v : json) : result Z :=
  match v with
  | JInt z => if ok z then Ok z else logic_error
  | JNull => Ok 0
  | JBool b => Ok (if b then 1 else 0)
  | _ => logic_error
  end.

Definition in_range (lo hi z : Z) : bool := (lo <=? z) && (z <=? hi).

#[export] Instance reader : JsonReader (J:=model) := {|
  double := Z;
  double_zero := 0;
  double_add := Z.add;
  double_scaled n d := n;
  of_double := JInt;
  get_member v k :=
    match v with JObj _ | JNull => Ok (json_member v k) | _ => logic_error end;
  get_index v i :=
    match v with JArr l => Ok (default JNull (l !! Z.to_nat i)) | JNull => Ok JNull
    | _ => logic_error end;
  items v := match v with JArr l => l | JObj m => (json_members v).*2 | _ => [] end;
  isInt64 v := match v with JInt z => in_range (- 2 ^ 63) i64_max z | _ => false end;
  asString := as_string;
  asBool v := match v with JBool b => Ok b | JNull => Ok false
              | JInt z => Ok (negb (z =? 0)) | _ => logic_error end;
  asInt := as_integer (in_range (- 2 ^ 31) (2 ^ 31 - 1));
  asInt64 := as_integer (in_range (- 2 ^ 63) i64_max);
  asUInt64 := as_integer (in_range 0 (u64_modulus - 1));
  asDouble := as_integer (fun _ => true)
|}.

Lemma in_range_true lo hi z : lo <= z <= hi -> in_range lo hi z = true.
Proof. intros [? ?]. apply andb_true_iff. by rewrite !Z.leb_le. Qed.

#[export] Instance reader_laws : JsonReaderLaws reader.
Proof.
  split; try done.
  - by intros [].
  - by intros [].
  - intros z Hz. by apply in_range_true.
  - intros z Hz. cbn. rewrite in_range_true; [done|lia].
  - intros z Hz. cbn [asInt64 reader as_integer]. cbn. by rewrite in_range_true.
  - intros z Hz. cbn. rewrite in_range_true; [done|lia].
Qed.
End ReaderModel.
