(* ===== verification/CoreChain.v ===== *)
(** * The Xaya Core connector (xayacore/corechain.cpp, xayacore/corechain.hpp)

    [CoreChain] is the base chain of a Xaya Core node.  The node and its ZMQ
    notifications are seen through the class [CoreClient] of the calls that the
    connector makes; the state of the connector itself is the set of ZMQ listeners.
    In the source an RPC client is opened per operation, which has no state. *)

From S2P Require Import Prelude Json JsonRead BlockData BaseChain.

(** The RPC methods of the generated client; the node may change at every call.
    [zmq_connect addr] opens a socket and [zmq_subscribe addr topic] adds a
    subscription to it.  [zmq_receive addr] returns the parts of the next message,
    or nothing. *)
Class CoreClient {J : JsonCpp} := {
  CoreNode : Type;
  core_getnetworkinfo : M CoreNode Value;
  core_getblockchaininfo : M CoreNode Value;
  core_getzmqnotifications : M CoreNode Value;
  core_getblockhash : Z -> M CoreNode string;
  core_getblock : string -> Z -> M CoreNode Value;
  core_getblockheader : string -> M CoreNode Value;
  core_decoderawtransaction : string -> M CoreNode Value;
  core_verifymessage : string -> string -> string -> M CoreNode Value;
  core_getrawmempool : M CoreNode Value;
  zmq_connect : string -> M CoreNode unit;
  zmq_subscribe : string -> string -> M CoreNode unit;
  zmq_receive : string -> M CoreNode (list string)
}.

(** [ethutils::Hexlify], [ethutils::Unhexlify] and [xaya::EncodeBase64]. *)
Class Encodings := {
  Hexlify : string -> string;
  Unhexlify : string -> option string;
  EncodeBase64 : string -> string
}.

(** ** Blocks and moves from JSON *)

Section Parse.
Context {J : JsonCpp} {JR : JsonReader} {EN : Encodings}.

(** What the loop over the outputs of a transaction collects. *)
Record tx_outputs := {
  outAmounts : gmap string double;
  burns : gmap string double;
  nameOp : Value
}.

Definition no_outputs : tx_outputs := {| outAmounts := ∅; burns := ∅; nameOp := nullValue |}.

Definition add_amount (k : string) (x : double) (m : gmap string double)
  : gmap string double := <[k := double_add (default double_zero (m !! k)) x]> m.

Definition out_address (out scriptPubKey : Value) (m : gmap string double)
  : result (gmap string double) :=
  if isMember scriptPubKey "address" then
    let addrVal := member scriptPubKey "address" in
    _ ← rcheck (isString addrVal);
    addr ← asString addrVal;
    x ← asDouble (member out "value");
    Ok (add_amount addr x m)
  else Ok m.

Definition out_burn (out scriptPubKey : Value) (m : gmap string double)
  : result (gmap string double) :=
  if isMember scriptPubKey "burn" then
    let burnVal := member scriptPubKey "burn" in
    _ ← rcheck (isString burnVal);
    hex ← asString burnVal;
    match Unhexlify hex with
    | None => Fatal
    | Some burn =>
        if bool_decide (String.substring 0 2 burn = "g/"%string) then
          x ← asDouble (member out "value");
          Ok (add_amount (substr_from 2 burn) x m)
        else Ok m
    end
  else Ok m.

Definition tx_output (acc : tx_outputs) (out : Value) : result tx_outputs :=
  _ ← rcheck (isObject out);
  let scriptPubKey := member out "scriptPubKey" in
  _ ← rcheck (isObject scriptPubKey);
  if isMember scriptPubKey "nameOp" then
    _ ← rcheck (isNull (nameOp acc));
    Ok {| outAmounts := outAmounts acc; burns := burns acc;
          nameOp := member scriptPubKey "nameOp" |}
  else
    amounts ← out_address out scriptPubKey (outAmounts acc);
    burnt ← out_burn out scriptPubKey (burns acc);
    Ok {| outAmounts := amounts; burns := burnt; nameOp := nameOp acc |}.

Fixpoint tx_outs (acc : tx_outputs) (outs : list Value) : result tx_outputs :=
  match outs with
  | [] => Ok acc
  | out :: outs' => acc' ← tx_output acc out; tx_outs acc' outs'
  end.

Definition tx_input (inp : Value) : result Value :=
  txid ← field asString inp "txid";
  vout ← field asInt inp "vout";
  Ok (set_member (set_member objectValue "txid" (of_string txid)) "vout" (of_int vout)).

Definition amounts_json (m : gmap string double) : Value :=
  foldl (fun v entry => set_member v entry.1 (of_double entry.2)) objectValue
        (ordered_iter m).

(** The name operation, split into namespace and name. *)
Definition split_name (fullName : string) : option (string * string) :=
  match String.index 0 "/" fullName with
  | None => None
  | Some nsPos => Some (String.substring 0 nsPos fullName, substr_from (nsPos + 1) fullName)
  end.

(** [None] if there is no move in the transaction. *)
Definition GetMoveFromTx (data : Value) : result (option MoveData) :=
  vout ← get_member data "vout";
  outs ← tx_outs no_outputs (items vout);
  let op := nameOp outs in
  if isNull op then Ok None else
  _ ← rcheck (isObject op);
  name_encoding ← asString (member op "name_encoding");
  _ ← rcheck (bool_decide (name_encoding = "utf8"%string));
  value_encoding ← asString (member op "value_encoding");
  _ ← rcheck (bool_decide (value_encoding = "utf8"%string));
  _ ← rcheck (isMember op "name" && isMember op "value");
  fullName ← asString (member op "name");
  match split_name fullName with
  | None => Fatal
  | Some (ns, name) =>
      txid ← field asString data "txid";
      mv ← asString (member op "value");
      btxid ← field asString data "btxid";
      vin ← get_member data "vin";
      inputs ← mapM tx_input (items vin);
      let metadata := set_member objectValue "btxid" (of_string btxid) in
      let metadata := set_member metadata "out" (amounts_json (outAmounts outs)) in
      let metadata := set_member metadata "inputs" (foldl append arrayValue inputs) in
      Ok (Some {| mv_txid := txid; mv_ns := ns; mv_name := name; mv_mv := mv;
                  mv_burns := of_double <$> burns outs; mv_metadata := metadata |})
  end.

Definition ConstructBlockData (data : Value) : result BlockData :=
  _ ← rcheck (isObject data);
  hash ← asString (member data "hash");
  height ← asUInt64 (member data "height");
  parent ← (if isMember data "previousblockhash"
            then asString (member data "previousblockhash") else Ok EmptyString);
  rngseed ← asString (member data "rngseed");
  time ← asInt64 (member data "time");
  mediantime ← asInt64 (member data "mediantime");
  moves ← mapM GetMoveFromTx (items (member data "tx"));
  Ok {| blk_hash := hash; blk_parent := parent; blk_height := height;
        blk_rngseed := rngseed;
        blk_metadata := set_member (set_member objectValue "timestamp" (of_int time))
                                   "mediantime" (of_int mediantime);
        blk_moves := omap id moves |}.
End Parse.

(** ** The connector *)

Section Connector.
Context {J : JsonCpp} {JR : JsonReader} {EN : Encodings} {CC : CoreClient}.

(** The topics to which the listener at an address is subscribed. *)
Record CoreChain := {
  cc_node : CoreNode;
  listeners : gmap string (list string)
}.

Definition on_node {A} (m : M CoreNode A) : M CoreChain A :=
  zoom cc_node (fun n s => {| cc_node := n; listeners := listeners s |}) m.

(** The first notification of the given type. *)
Fixpoint find_notification (type : string) (l : list Value) : result string :=
  match l with
  | [] => Ok EmptyString
  | n :: l' =>
      _ ← rcheck (isObject n);
      t ← asString (member n "type");
      if bool_decide (t = type) then asString (member n "address")
      else find_notification type l'
  end.

Definition GetNotificationAddress (type : string) : M CoreNode string :=
  notifications <- core_getzmqnotifications;;
  check (isArray notifications);;
  lift (find_notification type (items notifications)).

Definition set_listeners (l : gmap string (list string)) (s : CoreChain) : CoreChain :=
  {| cc_node := cc_node s; listeners := l |}.

Definition GetListenerForAddress (addr : string) : M CoreChain unit :=
  s <- get;;
  match listeners s !! addr with
  | Some _ => ret tt
  | None =>
      on_node (zmq_connect addr);;
      modify (fun s => set_listeners (<[addr := []]> (listeners s)) s)
  end.

(** [GetListenerForAddress (addr).Subscribe (topic)]. *)
Definition Subscribe (addr topic : string) : M CoreChain unit :=
  GetListenerForAddress addr;;
  on_node (zmq_subscribe addr topic);;
  modify (fun s => set_listeners
    (<[addr := default [] (listeners s !! addr) ++ [topic]]> (listeners s)) s).

Definition core_Start : M CoreChain unit :=
  info <- on_node core_getnetworkinfo;;
  version <- lift (field asUInt64 info "version");;
  check (1060000 <=? version);;
  addr <- on_node (GetNotificationAddress "pubhashblock");;
  if bool_decide (addr = EmptyString) then ret tt else Subscribe addr "hashblock".

Definition core_EnablePending : M CoreChain bool :=
  addr <- on_node (GetNotificationAddress "pubrawtx");;
  if bool_decide (addr = EmptyString) then ret false
  else Subscribe addr "rawtx";; ret true.

Definition core_GetTipHeight : M CoreNode Z :=
  blockchain <- core_getblockchaininfo;;
  lift (field asUInt64 blockchain "blocks").

(** The loop that finds the last block of the range, or [None] if the range is above
    the tip.  It is repeated if the chain shrinks between two calls. *)
Fixpoint find_end (fuel : nat) (start endHeight : Z) : M CoreNode (option string) :=
  match fuel with
  | O => diverge
  | S fuel' =>
      blockchain <- core_getblockchaininfo;;
      blocks <- lift (field asUInt64 blockchain "blocks");;
      if blocks <? start then ret None
      else if blocks <=? endHeight then
        hash <- lift (field asString blockchain "bestblockhash");;
        ret (Some hash)
      else
        o <- try_rpc (hash <- core_getblockhash endHeight;; ret (Some hash))
               (fun code msg => if negb (code =? -8) then throw (JsonRpcException code msg)
                                else ret None);;
        match o with
        | Some hash => ret (Some hash)
        | None => find_end fuel' start endHeight
        end
  end.

(** The loop from the last block back to the first one. *)
Fixpoint walk_back (fuel : nat) (start : Z) (endHash : string) (res : list BlockData)
  : M CoreNode (list BlockData) :=
  match fuel with
  | O => diverge
  | S fuel' =>
      data <- core_getblock endHash 2;;
      cur <- lift (ConstructBlockData data);;
      check (start <=? blk_height cur);;
      if start <? blk_height cur
      then walk_back fuel' start (blk_parent cur) (res ++ [cur])
      else ret (res ++ [cur])
  end.

Definition core_GetBlockRange (fuel : nat) (start count : Z) : M CoreNode (list BlockData) :=
  if count =? 0 then ret [] else
  let endHeight := u64 (start + count - 1) in
  check (start <=? endHeight);;
  o <- find_end fuel start endHeight;;
  match o with
  | None => ret []
  | Some endHash => res <- walk_back fuel start endHash [];; ret (reverse res)
  end.

Definition core_GetMainchainHeight (hash : string) : M CoreNode Z :=
  try_rpc (
    data <- core_getblockheader hash;;
    check (isObject data);;
    let conf := member data "confirmations" in
    check (isInt64 conf);;
    c <- lift (asInt64 conf);;
    if c =? -1 then ret (-1)
    else
      check (0 <=? c);;
      height <- lift (asUInt64 (member data "height"));;
      ret (i64 height))
    (fun _ _ => ret (-1)).

Definition core_GetMempool : M CoreNode (list string) :=
  mempool <- core_getrawmempool;;
  check (isArray mempool);;
  lift (mapM asString (items mempool)).

Definition core_VerifyMessage (msg signature : string) : M CoreNode (option string) :=
  o <- try_rpc (res <- core_verifymessage "" msg (EncodeBase64 signature);; ret (Some res))
               (fun code _ => check (code =? -3);; ret None);;
  match o with
  | None => ret None
  | Some res =>
      check (isObject res);;
      valid <- lift (asBool (member res "valid"));;
      if negb valid then ret None
      else addr <- lift (asString (member res "address"));; ret (Some addr)
  end.

Definition core_GetChain : M CoreNode string :=
  info <- core_getblockchaininfo;;
  lift (field asString info "chain").

Definition core_GetVersion : M CoreNode Z :=
  info <- core_getnetworkinfo;;
  lift (field asUInt64 info "version").

(** The base chain; [fuel] bounds the loops of [GetBlockRange]. *)
#[export] Instance core_chain (fuel : nat) : BaseChain CoreChain := {|
  bc_Start := core_Start;
  bc_EnablePending := core_EnablePending;
  bc_GetTipHeight := on_node core_GetTipHeight;
  bc_GetBlockRange start count := on_node (core_GetBlockRange fuel start count);
  bc_GetMainchainHeight hash := on_node (core_GetMainchainHeight hash);
  bc_GetMempool := on_node core_GetMempool;
  bc_VerifyMessage msg sig := on_node (core_VerifyMessage msg sig);
  bc_GetChain := on_node core_GetChain;
  bc_GetVersion := on_node core_GetVersion
|}.

(** ** Notifications *)

(** The part of [ReceiveLoop] under the mutex: the next message, which has three parts, the
    last one of them the sequence number; the result is the topic and the payload. *)
Definition poll_message (addr : string) : M CoreNode (option (string * string)) :=
  parts <- zmq_receive addr;;
  match parts with
  | [] => ret None
  | [topic; payload; seq] =>
      check (String.length seq =? 4)%nat;; ret (Some (topic, payload))
  | _ => fatal
  end.

(** The handlers of messages act on the node and on the state [S] of the
    callbacks. *)
Section Receive.
Context {S : Type} (cb : option (Callbacks S)).

Definition on_peer {A} (m : M CoreNode A) : M (CoreNode * S) A :=
  zoom fst (fun n s => (n, s.2)) m.

Definition on_callbacks {A} (m : M S A) : M (CoreNode * S) A :=
  zoom snd (fun t s => (s.1, t)) m.

Definition HandleHashBlock (payload : string) : M (CoreNode * S) unit :=
  on_callbacks (TipChanged cb (Hexlify payload)).

Definition HandleRawTx (payload : string) : M (CoreNode * S) unit :=
  o <- try_rpc (tx <- on_peer (core_decoderawtransaction (Hexlify payload));; ret (Some tx))
               (fun _ _ => ret None);;
  match o with
  | None => ret tt
  | Some tx =>
      mv <- lift (GetMoveFromTx tx);;
      match mv with
      | Some mv => on_callbacks (PendingMoves cb [mv])
      | None => ret tt
      end
  end.

Definition handle_message (m : string * string) : M (CoreNode * S) unit :=
  if bool_decide (m.1 = "hashblock"%string) then HandleHashBlock m.2
  else if bool_decide (m.1 = "rawtx"%string) then HandleRawTx m.2
  else fatal.

(** One turn, alone: see Listener.v for the thread. *)
Definition receive_turn (addr : string) : M (CoreNode * S) unit :=
  o <- on_peer (poll_message addr);;
  match o with
  | Some m => handle_message m
  | None => ret tt
  end.
End Receive.
End Connector.
