(* ===== verification/CoreProps.v ===== *)
(** * Block ranges from a Xaya Core node

    The chain of the node may change between any two calls that [GetBlockRange]
    makes.  The contract of the node is [CoreLaws]; the theorems are that a block
    range nevertheless is one that the node had at a single moment, and that the
    connector of a node that stands still satisfies the contract of a base chain. *)

From S2P Require Import Prelude Json JsonRead BlockData BaseChain CoreChain.

(** The best chain of a node: the hashes by height. *)
Record HashView := { hv_tip : Z; hv_hash : Z -> option string }.

(** The members of a block's JSON that the connector reads; further ones, such as
    the number of confirmations, change over time. *)
Definition block_fields : list string :=
  ["hash"; "height"; "previousblockhash"; "rngseed"; "time"; "mediantime"; "tx"]%string.

(** Documented behaviour of the node.  [core_json h] is the block that the hash [h]
    commits to.  After a call, the view is that of the moment of the answer. *)
Class CoreLaws {J : JsonCpp} (CC : CoreClient) := {
  core_view : CoreNode -> HashView;
  core_evolves : CoreNode -> CoreNode -> Prop;
  core_evolves_refl :: Reflexive core_evolves;
  core_evolves_trans :: Transitive core_evolves;
  core_json : string -> Value;
  core_tip : forall n, 0 <= hv_tip (core_view n) < 2 ^ 31;
  core_heights : forall n i,
    is_Some (hv_hash (core_view n) i) <-> 0 <= i <= hv_tip (core_view n);
  core_content : forall n i h, hv_hash (core_view n) i = Some h ->
    isObject (core_json h) = true /\ member (core_json h) "hash" = of_string h /\
    member (core_json h) "height" = of_int i /\
    (0 < i -> exists p, hv_hash (core_view n) (i - 1) = Some p /\
       isMember (core_json h) "previousblockhash" = true /\
       member (core_json h) "previousblockhash" = of_string p);
  core_blockchaininfo : forall n r n', core_getblockchaininfo n = (r, n') ->
    core_evolves n n' /\
    forall v, r = Ok v -> isObject v = true /\
      member v "blocks" = of_int (hv_tip (core_view n')) /\
      exists h, hv_hash (core_view n') (hv_tip (core_view n')) = Some h /\
        member v "bestblockhash" = of_string h;
  core_blockhash : forall i n r n', core_getblockhash i n = (r, n') ->
    core_evolves n n' /\
    forall h, r = Ok h -> 0 <= i < 2 ^ 31 -> hv_hash (core_view n') i = Some h;
  core_block : forall h n r n', core_getblock h 2 n = (r, n') ->
    core_evolves n n' /\
    forall v, r = Ok v -> isObject v = true /\ forall k, k ∈ block_fields ->
      isMember v k = isMember (core_json h) k /\ member v k = member (core_json h) k
}.

Section Range.
Context {J : JsonCpp} {JR : JsonReader} {JRL : JsonReaderLaws JR} {EN : Encodings}
  {CC : CoreClient} {CL : CoreLaws CC}.

(** The blocks of a node's chain, as [BlockData]. *)
Definition core_at (v : HashView) (i : Z) : option BlockData :=
  h ← hv_hash v i;
  match ConstructBlockData (core_json h) with Ok b => Some b | _ => None end.

Lemma ConstructBlockData_fields h v : isObject v = true -> isObject (core_json h) = true ->
  (forall k, k ∈ block_fields ->
     isMember v k = isMember (core_json h) k /\ member v k = member (core_json h) k) ->
  ConstructBlockData v = ConstructBlockData (core_json h).
Proof.
  intros Hv Hh Hk. unfold ConstructBlockData. rewrite Hv, Hh.
  rewrite (proj1 (Hk "previousblockhash"%string ltac:(set_solver))).
  repeat match goal with |- context [member v ?k] =>
    rewrite (proj2 (Hk k ltac:(unfold block_fields; set_solver))) end.
  done.
Qed.

Lemma ConstructBlockData_inv n i h b : hv_hash (core_view n) i = Some h ->
  ConstructBlockData (core_json h) = Ok b ->
  blk_hash b = h /\ blk_height b = i /\
  (0 < i -> hv_hash (core_view n) (i - 1) = Some (blk_parent b)).
Proof.
  intros Hi. destruct (core_content n i h Hi) as (Ho & Hh & Hn & Hp).
  assert (Hr : 0 <= i < u64_modulus).
  { pose proof (core_tip n). pose proof (proj1 (core_heights n i) (ex_intro _ _ Hi)).
    unfold u64_modulus. lia. }
  unfold ConstructBlockData. rewrite Ho, Hh, Hn, asString_of_string, asUInt64_of_int by done.
  cbn [rcheck mbind result_bind].
  destruct (decide (0 < i)) as [Hpos|Hpos].
  - destruct (Hp Hpos) as (p & Hat & Hm & Hpar). rewrite Hm, Hpar, asString_of_string.
    cbn [mbind result_bind]. unfold mbind, result_bind.
    repeat case_match; intros; simplify_eq. by split_and!.
  - unfold mbind, result_bind. repeat case_match; intros; simplify_eq; (split_and!; [done|done|lia]).
Qed.

(** The backwards loop follows the chain of the moment [n1]. *)
Lemma walk_back_ok n1 fuel : forall start h res i n l n', 0 <= start <= i ->
  hv_hash (core_view n1) i = Some h -> walk_back fuel start h res n = (Ok l, n') ->
  core_evolves n n' /\ exists l', l = res ++ reverse l' /\
    length l' = Z.to_nat (i - start + 1) /\
    forall k b, l' !! k = Some b -> core_at (core_view n1) (start + Z.of_nat k) = Some b.
Proof.
  induction fuel as [|fuel IH]; intros start h res i n l n' Hi Hh; [done|]. cbn [walk_back].
  intros (data & n2 & Hget & H)%bind_Ok_inv.
  destruct (core_block _ _ _ _ Hget) as [He Hdata]. destruct (Hdata _ eq_refl) as [Hobj Hf].
  apply bind_Ok_inv in H as (cur & n3 & Hcur & H). unfold lift in Hcur. injection Hcur as Hcur <-.
  destruct (core_content _ _ _ Hh) as (Ho & _).
  rewrite (ConstructBlockData_fields h data Hobj Ho Hf) in Hcur.
  destruct (ConstructBlockData_inv _ _ _ _ Hh Hcur) as (_ & Hheight & Hpar).
  assert (Hat : core_at (core_view n1) i = Some cur) by (unfold core_at; rewrite Hh; cbn; by rewrite Hcur).
  apply bind_Ok_inv in H as (u & n3 & Hc & H). apply check_inv in Hc as [_ <-].
  rewrite Hheight in H. destruct (Z.ltb_spec start i) as [Hlt|Hge].
  - destruct (IH start _ _ (i - 1) _ _ _ ltac:(lia) (Hpar ltac:(lia)) H) as (He2 & l' & -> & Hlen & Hl').
    split; [by etrans|]. exists (l' ++ [cur]). split_and!.
    + by rewrite reverse_app, <- app_assoc.
    + rewrite length_app, Hlen. cbn. lia.
    + intros k b [Hk|[Hk Hk']]%lookup_app_Some; [by apply Hl'|].
      apply list_lookup_singleton_Some in Hk' as [Hk0 <-]. rewrite <- Hat. f_equal. lia.
  - unfold ret in H. simplify_eq. split; [done|]. exists [cur]. split_and!; [done| |].
    + cbn. lia.
    + intros k b [-> <-]%list_lookup_singleton_Some. rewrite <- Hat. f_equal. lia.
Qed.

(** Where the loop that looks for the last block stops, at the moment [n1]. *)
Lemma find_end_ok fuel start e n o n' : 0 <= start <= e ->
  find_end fuel start e n = (Ok o, n') ->
  core_evolves n n' /\
  match o with
  | None => hv_tip (core_view n') < start
  | Some h => exists i, start <= i <= e /\ hv_hash (core_view n') i = Some h /\
      (i = e \/ i = hv_tip (core_view n'))
  end.
Proof.
  intros Hs. revert n. induction fuel as [|fuel IH]; intros n; [done|]. cbn [find_end].
  intros (v & n1 & Hinfo & H)%bind_Ok_inv.
  destruct (core_blockchaininfo _ _ _ Hinfo) as [He Hv].
  destruct (Hv _ eq_refl) as (Hobj & Hblocks & best & Hbest & Hhash).
  pose proof (core_tip n1) as Htip.
  rewrite (field_object _ _ _ Hobj), Hblocks, asUInt64_of_int in H by (unfold u64_modulus; lia).
  rewrite lift_Ok_bind with (a := hv_tip (core_view n1)) in H by done.
  destruct (Z.ltb_spec (hv_tip (core_view n1)) start).
  { unfold ret in H. by simplify_eq. }
  destruct (Z.leb_spec (hv_tip (core_view n1)) e).
  { rewrite (field_object _ _ _ Hobj), Hhash, asString_of_string in H.
    rewrite lift_Ok_bind with (a := best) in H by done. unfold ret in H. simplify_eq.
    split; [done|]. exists (hv_tip (core_view n')). split_and!; [lia|lia|done|by right]. }
  apply bind_Ok_inv in H as (o' & n2 & Hq & H).
  apply try_rpc_Ok_inv in Hq as [(h & n3 & Hh & Hq)%bind_Ok_inv|(code & msg & n3 & Hq & Hk)].
  - unfold ret in Hq, H. simplify_eq.
    destruct (core_blockhash _ _ _ _ Hh) as [He2 Hh2]. specialize (Hh2 _ eq_refl ltac:(lia)).
    split; [by etrans|]. exists e. split_and!; [lia|lia|done|by left].
  - assert (He2 : core_evolves n1 n3).
    { unfold bind in Hq. destruct (core_getblockhash e n1) as [[] n4] eqn:E;
        [unfold ret in Hq|..]; simplify_eq. by destruct (core_blockhash _ _ _ _ E). }
    destruct (negb (code =? -8)); [done|]. unfold ret in Hk. simplify_eq.
    destruct (IH _ H) as [He3 Ho]. split; [|done]. by do 2 (etrans; [eassumption|]).
Qed.

Lemma core_at_above n i : hv_tip (core_view n) < i -> core_at (core_view n) i = None.
Proof.
  intros Hi. unfold core_at. destruct (hv_hash (core_view n) i) eqn:E; [|done].
  pose proof (proj1 (core_heights n i) (ex_intro _ _ E)). lia.
Qed.

Lemma range_slice n start i e l : 0 <= start <= i -> i <= e ->
  i = e \/ i = hv_tip (core_view n) -> length l = Z.to_nat (i - start + 1) ->
  (forall k b, l !! k = Some b -> core_at (core_view n) (start + Z.of_nat k) = Some b) ->
  l = slice (core_at (core_view n)) start (Z.to_nat (e - start + 1)).
Proof.
  intros Hs He Hcase Hlen Hl. rewrite (slice_eq _ _ _ Hl), Hlen.
  destruct Hcase as [->|Htip]; [done|]. symmetry. apply slice_beyond; [lia|].
  apply core_at_above. lia.
Qed.

(** ** A node that stands still *)

(** In the states with [R], the chain is [v] and all calls are answered. *)
Record core_still (R : CoreNode -> Prop) (v : HashView) : Prop := {
  cs_view : forall n, R n -> core_view n = v;
  cs_info : forall n, R n -> exists x n', core_getblockchaininfo n = (Ok x, n') /\ R n';
  cs_hash : forall n i, R n -> 0 <= i <= hv_tip v ->
    exists h n', core_getblockhash i n = (Ok h, n') /\ R n';
  cs_block : forall n i h, R n -> hv_hash v i = Some h ->
    exists x n', core_getblock h 2 n = (Ok x, n') /\ R n';
  cs_parse : forall i h, hv_hash v i = Some h ->
    exists b, ConstructBlockData (core_json h) = Ok b
}.

Context (R : CoreNode -> Prop) (v : HashView) (HR : core_still R v).

Lemma info_still n : R n -> exists x n', core_getblockchaininfo n = (Ok x, n') /\ R n' /\
  isObject x = true /\ asUInt64 (member x "blocks") = Ok (hv_tip v) /\
  exists h, hv_hash v (hv_tip v) = Some h /\ asString (member x "bestblockhash") = Ok h.
Proof.
  intros Hn. destruct (cs_info _ _ HR n Hn) as (x & n' & Hrun & Hn'). exists x, n'.
  destruct (core_blockchaininfo _ _ _ Hrun) as [_ Hx]. specialize (Hx _ eq_refl).
  pose proof (core_tip n') as Ht. rewrite (cs_view _ _ HR _ Hn') in Hx, Ht.
  destruct Hx as (Ho & Hb & h & Hh & Hm). split_and!; [done|done|done| |].
  - rewrite Hb. apply asUInt64_of_int. unfold u64_modulus. lia.
  - exists h. by rewrite Hm, asString_of_string.
Qed.

Lemma walk_back_still fuel : forall start h res i n, 0 <= start <= i ->
  i - start < Z.of_nat fuel -> R n -> hv_hash v i = Some h ->
  exists l n', walk_back fuel start h res n = (Ok l, n') /\ R n'.
Proof.
  induction fuel as [|fuel IH]; intros start h res i n Hi Hf Hn Hh; [lia|]. cbn [walk_back].
  destruct (cs_block _ _ HR n i h Hn Hh) as (x & n2 & Hget & Hn2).
  rewrite (bind_Ok _ _ _ _ _ Hget).
  destruct (core_block _ _ _ _ Hget) as [_ Hdata]. destruct (Hdata _ eq_refl) as [Hobj Hx].
  assert (Hv : hv_hash (core_view n) i = Some h) by by rewrite (cs_view _ _ HR _ Hn).
  destruct (core_content _ _ _ Hv) as (Ho & _).
  destruct (cs_parse _ _ HR _ _ Hh) as [b Hb].
  destruct (ConstructBlockData_inv _ _ _ _ Hv Hb) as (_ & Hheight & Hpar).
  rewrite lift_Ok_bind with (a := b) by by rewrite (ConstructBlockData_fields h).
  rewrite check_true by (apply Z.leb_le; lia). rewrite Hheight.
  destruct (Z.ltb_spec start i); [|by eexists _, n2].
  apply (IH start _ _ (i - 1)); [lia|lia|done|]. rewrite <- (cs_view _ _ HR _ Hn). apply Hpar. lia.
Qed.

Lemma find_end_still fuel start e n : (0 < fuel)%nat -> 0 <= start <= e -> R n ->
  exists o n', find_end fuel start e n = (Ok o, n') /\ R n'.
Proof.
  intros Hf Hse Hn. destruct fuel as [|fuel]; [lia|]. cbn [find_end].
  destruct (info_still n Hn) as (x & n1 & Hinfo & Hn1 & Hobj & Hb & h & Hh & Hbest).
  rewrite (bind_Ok _ _ _ _ _ Hinfo), (field_object _ _ _ Hobj), Hb.
  rewrite lift_Ok_bind with (a := hv_tip v) by done.
  destruct (Z.ltb_spec (hv_tip v) start); [by eexists _, n1|].
  destruct (Z.leb_spec (hv_tip v) e).
  - rewrite (field_object _ _ _ Hobj), Hbest. by eexists _, n1.
  - destruct (cs_hash _ _ HR n1 e Hn1) as (h2 & n2 & Hq & Hn2); [lia|].
    exists (Some h2), n2. split; [|done]. unfold bind at 1, try_rpc.
    by rewrite (bind_Ok _ _ _ _ _ Hq).
Qed.

Lemma core_range_still fuel start count n : hv_tip v < Z.of_nat fuel ->
  0 <= start -> 0 <= count -> start + count <= u64_modulus -> R n ->
  exists n', core_GetBlockRange fuel start count n
             = (Ok (slice (core_at v) start (Z.to_nat count)), n') /\ R n'.
Proof.
  intros Hf Hs Hc Hsum Hn. unfold core_GetBlockRange.
  destruct (Z.eqb_spec count 0) as [->|Hc0]; [by exists n|].
  rewrite u64_small, check_true by (first [apply Z.leb_le|idtac]; lia).
  pose proof (core_tip n) as Ht. rewrite (cs_view _ _ HR _ Hn) in Ht.
  destruct (find_end_still fuel start (start + count - 1) n) as (o & n1 & Ho & Hn1);
    [lia|lia|done|].
  rewrite (bind_Ok _ _ _ _ _ Ho).
  destruct (find_end_ok fuel start (start + count - 1) n o n1) as [_ Hoo]; [lia|done|].
  rewrite <- (cs_view _ _ HR _ Hn1). destruct o as [h|].
  - destruct Hoo as (i & Hi & Hat & Hcase).
    pose proof (proj1 (core_heights n1 i) (ex_intro _ _ Hat)) as Hi2.
    pose proof Hat as Hat2. rewrite (cs_view _ _ HR _ Hn1) in Hat2, Hi2.
    destruct (walk_back_still fuel start h [] i n1) as (l & n2 & Hw & Hn2); [lia|lia|done|done|].
    rewrite (bind_Ok _ _ _ _ _ Hw).
    destruct (walk_back_ok n1 fuel start h [] i n1 l n2 ltac:(lia) Hat Hw)
      as (_ & l' & -> & Hlen & Hl').
    exists n2. split; [|done]. cbn [app]. rewrite reverse_involutive. unfold ret. do 2 f_equal.
    replace count with (start + count - 1 - start + 1) by lia.
    eapply (range_slice n1 start i); [lia|lia|done|done|done].
  - exists n1. split; [|done]. unfold ret. do 2 f_equal. symmetry.
    apply (slice_beyond _ 0); [lia|]. apply core_at_above. cbn. lia.
Qed.
End Range.

Section Theorems.
Context {J : JsonCpp} {JR : JsonReader} {JRL : JsonReaderLaws JR} {EN : Encodings}
  {CC : CoreClient} {CL : CoreLaws CC}.

(** C18.  Block ranges are atomic: although [GetBlockRange] makes many calls, between
    any two of which the node may switch to another chain, the blocks that it
    returns are the requested range of the chain that the node had at one moment
    during the call. *)
Theorem core_range_atomic (fuel : nat) (start count : Z) (n n' : CoreNode)
    (l : list BlockData)
    (Hstart : 0 <= start) (Hcount : 0 <= count) (Hend : start + count < 2 ^ 63)
    (Hrun : core_GetBlockRange fuel start count n = (Ok l, n')) :
  exists n1, core_evolves n n1 /\ core_evolves n1 n' /\
    l = slice (core_at (core_view n1)) start (Z.to_nat count).
Proof.
  unfold core_GetBlockRange in Hrun. destruct (Z.eqb_spec count 0) as [->|Hc].
  { unfold ret in Hrun. simplify_eq. by exists n'. }
  rewrite u64_small in Hrun by (unfold u64_modulus; lia).
  apply bind_Ok_inv in Hrun as (u & n0 & Hck & Hrun). apply check_inv in Hck as [_ <-].
  apply bind_Ok_inv in Hrun as (o & n1 & Ho & Hrun).
  destruct (find_end_ok fuel start (start + count - 1) n o n1) as [He Hoo]; [lia|done|].
  exists n1. split; [done|]. destruct o as [h|].
  - destruct Hoo as (i & Hi & Hat & Hcase).
    apply bind_Ok_inv in Hrun as (res & n2 & Hw & Hrun). unfold ret in Hrun. simplify_eq.
    destruct (walk_back_ok n1 fuel start h [] i n1 res n' ltac:(lia) Hat Hw)
      as (He2 & l' & -> & Hlen & Hl'). split; [done|]. cbn [app]. rewrite reverse_involutive.
    replace count with (start + count - 1 - start + 1) by lia.
    eapply (range_slice n1 start i); [lia|lia|done|done|done].
  - unfold ret in Hrun. simplify_eq. split; [done|]. symmetry.
    apply (slice_beyond _ 0); [lia|]. apply core_at_above. cbn. lia.
Qed.

Lemma core_Serves (R : CoreNode -> Prop) (v : HashView) (fuel : nat)
    (HR : core_still R v) (Hfuel : hv_tip v < Z.of_nat fuel) :
  Serves (core_chain fuel) (fun s => R (cc_node s)) (hv_tip v) (core_at v).
Proof.
  split.
  - intros s Hs. destruct (info_still R v HR _ Hs) as (x & n' & Hrun & Hn' & Hobj & Hb & _).
    exists {| cc_node := n'; listeners := listeners s |}. split; [|done].
    cbn. unfold on_node, zoom, core_GetTipHeight.
    by rewrite (bind_Ok _ _ _ _ _ Hrun), (field_object _ _ _ Hobj), Hb.
  - intros s start count Hs Hst Hc.
    destruct (core_range_still R v HR fuel start count (cc_node s)) as (n' & Hrun & Hn');
      [done|lia|lia|unfold i64_max, u64_modulus in *; lia|done|].
    exists {| cc_node := n'; listeners := listeners s |}. split; [|done].
    cbn. unfold on_node, zoom. by rewrite Hrun.
Qed.
(** The connector of a node that stands still and answers satisfies the
    contract of a base chain, on which the theorems about the sync worker and the
    controller rely: it serves exactly the node's chain, and the loops end. *)
Theorem core_serves (R : CoreNode -> Prop) (v : HashView) (fuel : nat)
    (HR : core_still R v) (Hfuel : hv_tip v < Z.of_nat fuel) :
  Serves (core_chain fuel) (fun s => R (cc_node s)) (hv_tip v) (core_at v).
Proof. by apply core_Serves. Qed.
End Theorems.

(** ** Examples

    A node that switches to another chain: the blocks [a1], [a2], then [a3] on top of
    the genesis block [g], then [b1] to [b4] instead.  It moves on with every call. *)
Module CoreSample.
Import Model ReaderModel.

#[export] Instance encodings : Encodings := {|
  Hexlify s := s;
  Unhexlify s := Some s;
  EncodeBase64 s := s
|}.

Definition chain_at (n : nat) : list string :=
  match n with
  | O => ["g"; "a1"; "a2"]
  | S O => ["g"; "a1"; "a2"; "a3"]
  | _ => ["g"; "b1"; "b2"; "b3"; "b4"]
  end%string.

Definition view_at (n : nat) : HashView := {|
  hv_tip := Z.of_nat (length (chain_at n)) - 1;
  hv_hash i := if 0 <=? i then chain_at n !! Z.to_nat i else None
|}.

Definition block_json (hash : string) (height : Z) (parent : string) : json :=
  JObj ([("hash", JStr hash); ("height", JInt height); ("rngseed", JStr hash);
         ("time", JInt (100 + height)); ("mediantime", JInt (99 + height));
         ("tx", JArr [])]%string
        ++ if bool_decide (parent = "")%string then []
           else [("previousblockhash", JStr parent)]%string).

(** The height and the parent of every block. *)
Definition headers : list (string * (Z * string)) :=
  [("g", (0, "")); ("a1", (1, "g")); ("a2", (2, "a1")); ("a3", (3, "a2"));
   ("b1", (1, "g")); ("b2", (2, "b1")); ("b3", (3, "b2")); ("b4", (4, "b3"))]%string.

Definition json_of (hash : string) : @Value model :=
  match list_find (fun x => x.1 = hash) headers with
  | Some (_, (_, (height, parent))) => block_json hash height parent
  | None => JNull
  end.

Definition tip_json (n : nat) : json :=
  JObj [("chain", JStr "main"); ("blocks", JInt (hv_tip (view_at n)));
        ("bestblockhash", JStr (default "" (last (chain_at n))))]%string.

(** A transaction that updates [p/domob]. *)
Definition raw_tx : json :=
  JObj [("txid", JStr "tx"); ("btxid", JStr "btx"); ("vin", JArr []);
        ("vout", JArr [JObj [("value", JInt 1); ("scriptPubKey", JObj [("nameOp", JObj
          [("name_encoding", JStr "utf8"); ("value_encoding", JStr "utf8");
           ("name", JStr "p/domob"); ("value", JStr "{}")])])]])]%string.

(** A call: the node moves on, then answers. *)
Definition answer {A} (f : nat -> result A) : M nat A := fun n => (f (S n), S n).

#[export] Instance switching_node : CoreClient := {|
  CoreNode := nat;
  core_getnetworkinfo := answer (fun _ => Ok (JObj [("version", JInt 1060000)]%string));
  core_getblockchaininfo := answer (fun n => Ok (tip_json n));
  core_getzmqnotifications := answer (fun _ => Ok (JArr []));
  core_getblockhash i := answer (fun n =>
    match hv_hash (view_at n) i with
    | Some h => Ok h
    | None => Throw (JsonRpcException (-8) "Block height out of range")
    end);
  core_getblock h _ := answer (fun _ =>
    if bool_decide (h ∈ headers.*1) then Ok (json_of h)
    else Throw (JsonRpcException (-5) "Block not found"));
  core_getblockheader h := answer (fun _ => Ok (json_of h));
  core_decoderawtransaction _ := answer (fun _ => Ok raw_tx);
  core_verifymessage _ _ _ := answer (fun _ => Ok (JObj [("valid", JBool false)]%string));
  core_getrawmempool := answer (fun _ => Ok (JArr []));
  zmq_connect _ := ret tt;
  zmq_subscribe _ _ := ret tt;
  zmq_receive _ := ret []
|}.

Definition moment (n : nat) : @CoreNode model switching_node := n.

Lemma chain_cases n :
  chain_at n = chain_at 0 \/ chain_at n = chain_at 1 \/ chain_at n = chain_at 2.
Proof. destruct n as [|[|n]]; auto. Qed.

(** A property of the three chains and of all heights on them. *)
Lemma view_check (P : list string -> Z -> string -> Prop) n i h :
  (forall k, (k <= 2)%nat -> forall j h, chain_at k !! j = Some h ->
     P (chain_at k) (Z.of_nat j) h) ->
  hv_hash (view_at n) i = Some h -> P (chain_at n) i h.
Proof.
  intros HP. unfold view_at. cbn [hv_hash]. destruct (Z.leb_spec 0 i); [|done]. intros Hi.
  rewrite <- (Z2Nat.id i) by done.
  destruct (chain_cases n) as [E|[E|E]]; rewrite E in *; by apply HP; [lia|].
Qed.

Lemma view_tip n : 0 <= hv_tip (view_at n) <= 4.
Proof.
  unfold view_at. cbn [hv_tip]. destruct (chain_cases n) as [E|[E|E]]; rewrite E; cbn; lia.
Qed.

Lemma view_heights n i : is_Some (hv_hash (view_at n) i) <-> 0 <= i <= hv_tip (view_at n).
Proof.
  unfold view_at. cbn [hv_tip hv_hash]. destruct (Z.leb_spec 0 i).
  - rewrite lookup_lt_is_Some. lia.
  - split; [by intros [? ?]|lia].
Qed.

(** Going through the blocks of the three chains. *)
Ltac every_block tac :=
  let k := fresh "k" in let Hk := fresh in let j := fresh "j" in
  let x := fresh "x" in let Hx := fresh in
  intros k Hk j x Hx; destruct k as [|[|[|k]]]; [..|lia];
  do 5 (destruct j as [|j]; [cbn in Hx; try discriminate Hx; injection Hx as <-; tac|]);
  by destruct j.

(** What a block's JSON says, at height [i] of the chain [l]. *)
Definition content_ok (l : list string) (i : Z) (h : string) : Prop :=
  isObject (json_of h) = true /\ member (json_of h) "hash"%string = of_string h /\
  member (json_of h) "height"%string = of_int i /\
  (0 < i -> exists p : string,
     (if 0 <=? i - 1 then l !! Z.to_nat (i - 1) else None) = Some p /\
     isMember (json_of h) "previousblockhash"%string = true /\
     member (json_of h) "previousblockhash"%string = of_string p).

#[export] Program Instance switching_laws : CoreLaws switching_node := {|
  core_view := view_at;
  core_evolves := le;
  core_json := json_of
|}.
Next Obligation. intros n. split; [apply view_tip|]. eapply Z.le_lt_trans; [apply view_tip|done]. Qed.
Next Obligation. exact view_heights. Qed.
Next Obligation.
  intros n i h Hi.
  revert Hi. apply (view_check content_ok).
  every_block ltac:(split_and!; [reflexivity..|intros Hpos; first [lia|by eexists]]).
Qed.
Next Obligation.
  intros n r n' [= Hr Hn]. subst r n'. split; [lia|]. intros v Hv. injection Hv as Hv. subst v.
  split_and!; [done|done|]. unfold view_at, tip_json. cbn [hv_tip hv_hash].
  destruct (chain_cases (S n)) as [E|[E|E]]; rewrite E; by eexists.
Qed.
Next Obligation.
  intros i n r n' [= Hr Hn]. subst r n'. split; [lia|]. intros h Hh _. by case_match; simplify_eq.
Qed.
Next Obligation.
  intros h n r n' [= Hr Hn]. subst r n'. split; [lia|]. intros v. case_bool_decide as Hh; [|done].
  intros [= <-]. split; [|done]. unfold headers in Hh. cbn in Hh.
  repeat (apply elem_of_cons in Hh as [->|Hh]; [reflexivity|]). by apply not_elem_of_nil in Hh.
Qed.

(** The range is that of the second chain, although the node has switched to the third
    one before the first block is requested. *)
Lemma core_range_atomic_witness : exists l n',
  core_GetBlockRange 10 1 10 (moment 0) = (Ok l, n') /\
  blk_hash <$> l = ["a1"; "a2"; "a3"]%string /\ blk_height <$> l = [1; 2; 3] /\
  exists n1, core_evolves (moment 0) n1 /\ core_evolves n1 n' /\
    l = slice (core_at (core_view n1)) 1 (Z.to_nat 10).
Proof.
  destruct (core_GetBlockRange 10 1 10 (moment 0)) as [r n'] eqn:E.
  pose proof E as E2. vm_compute in E2. injection E2 as Er En.
  destruct r as [l| | | |]; try discriminate Er. exists l, n'.
  split; [reflexivity|]. injection Er as El. split; [by rewrite <- El|]. split; [by rewrite <- El|].
  apply (core_range_atomic 10 1 10 (moment 0) n' l); [lia|lia|lia|exact E].
Defined.

Lemma still_third : core_still (CC:=switching_node) (fun n => (2 <= n)%nat) (view_at 2).
Proof.
  split.
  - intros [|[|n]] Hn; [lia|lia|reflexivity].
  - intros n Hn. eexists _, _. split; [reflexivity|lia].
  - intros [|[|n]] i Hn Hi; [lia|lia|]. cbn in Hi.
    destruct (proj2 (core_heights (moment 2) i)) as [h Hh]; [exact Hi|].
    exists h, (S (S (S n))). split; [|lia]. cbn in Hh |- *. unfold answer.
    change (view_at (S (S (S n)))) with (view_at 2). cbn. by rewrite Hh.
  - intros n i h Hn Hh. eexists _, _. split; [|apply Nat.le_le_succ_r, Hn]. cbn. unfold answer.
    revert Hh. apply (view_check (fun l _ h => _ = (Ok (json_of h), S n)) 2 i h).
    every_block ltac:(reflexivity).
  - intros i h Hh. revert Hh.
    apply (view_check (fun l _ h => exists b, ConstructBlockData (json_of h) = Ok b) 2 i h).
    every_block ltac:(by eexists).
Qed.

Lemma core_serves_witness :
  Serves (core_chain 6) (fun s => 2 <= cc_node (CC:=switching_node) s)%nat 4 (core_at (view_at 2)).
Proof.
  apply (core_serves (CC:=switching_node) (fun n : nat => 2 <= n)%nat (view_at 2) 6).
  - exact still_third.
  - cbn. lia.
Defined.
End CoreSample.
