(* ===== verification/CoreMoves.v ===== *)
(** * Moves in transactions of Xaya Core

    What [GetMoveFromTx] extracts, stated without the accumulating loop: the name
    operation is the one of the only output that has one, the amount for an address
    is the sum over the other outputs to it, and the burn for a game is the sum over
    the outputs whose burn data is [g/] and the game. *)

From S2P Require Import Prelude Json JsonRead BlockData BaseChain CoreChain CoreProps.

(** ** Names *)

Lemma string_app_cons c a b : (String c a ++ b)%string = String c (a ++ b).
Proof. reflexivity. Qed.

Lemma string_app_nil b : ("" ++ b)%string = b.
Proof. reflexivity. Qed.

Ltac string_ind a IH :=
  induction a as [|c a IH]; [rewrite ?string_app_nil|rewrite ?string_app_cons];
  cbn; [try done|by rewrite ?IH].

Lemma substring_all b : String.substring 0 (String.length b) b = b.
Proof. string_ind b IH. Qed.

Lemma substring_prefix a b : String.substring 0 (String.length a) (a ++ b) = a.
Proof. string_ind a IH. by destruct b. Qed.

Lemma substring_suffix a b : String.substring (String.length a) (String.length b) (a ++ b) = b.
Proof. string_ind a IH. apply substring_all. Qed.

Lemma string_length_app a b : String.length (a ++ b) = (String.length a + String.length b)%nat.
Proof. string_ind a IH. Qed.

Lemma string_app_assoc a b c : ((a ++ b) ++ c = a ++ (b ++ c))%string.
Proof. induction a as [|x a IH]; [done|]. by rewrite !string_app_cons, IH. Qed.

Lemma substr_from_app a b : substr_from (String.length a) (a ++ b) = b.
Proof.
  unfold substr_from. rewrite string_length_app.
  replace (_ + _ - _)%nat with (String.length b) by lia. apply substring_suffix.
Qed.

Lemma index_slash ns name : String.index 0 "/" ns = None ->
  String.index 0 "/" (ns ++ String "/" name) = Some (String.length ns).
Proof.
  induction ns as [|c ns IH]; intros H; [by destruct name|]. rewrite string_app_cons.
  cbn [String.index String.prefix] in H |- *. destruct (ascii_dec "/" c).
  { destruct ns; discriminate H. }
  destruct (String.index 0 "/" ns); [discriminate H|]. by rewrite IH.
Qed.

Lemma split_name_app ns name : String.index 0 "/" ns = None ->
  split_name (ns ++ String "/" name) = Some (ns, name).
Proof.
  intros H. unfold split_name. rewrite index_slash by done. f_equal. f_equal.
  - apply substring_prefix.
  - change (String "/" name) with (String "/" "" ++ name)%string.
    rewrite <- string_app_assoc.
    replace (String.length ns + 1)%nat with (String.length (ns ++ String "/" ""))
      by by rewrite string_length_app.
    apply substr_from_app.
Qed.

(** ** The outputs *)

Section Outputs.
Context {J : JsonCpp} {JL : JsonCppLaws J} {JR : JsonReader} {JRL : JsonReaderLaws JR}
  {EN : Encodings}.
Implicit Types (o : Value) (k : string).

Definition script (o : Value) : Value := member o "scriptPubKey".
Definition is_name_op (o : Value) : bool := isMember (script o) "nameOp".

(** The address, and the game to which CHI are burnt, of an output. *)
Definition address_of (o : Value) : option string :=
  if isMember (script o) "address" then
    match asString (member (script o) "address") with Ok a => Some a | _ => None end
  else None.

Definition game_of (o : Value) : option string :=
  if isMember (script o) "burn" then
    match asString (member (script o) "burn") with
    | Ok hex =>
        burn ← Unhexlify hex;
        if bool_decide (String.substring 0 2 burn = "g/"%string)
        then Some (substr_from 2 burn) else None
    | _ => None
    end
  else None.

Definition value_of (o : Value) : double :=
  match asDouble (member o "value") with Ok x => x | _ => double_zero end.

(** An output as the node reports it. *)
Record output_ok (o : Value) : Prop := {
  oo_object : isObject o = true;
  oo_script : isObject (script o) = true;
  oo_value : is_name_op o = false -> exists x, asDouble (member o "value") = Ok x;
  oo_address : isMember (script o) "address" = true ->
    isString (member (script o) "address") = true /\
    exists a, asString (member (script o) "address") = Ok a;
  oo_burn : isMember (script o) "burn" = true ->
    isString (member (script o) "burn") = true /\
    exists hex b, asString (member (script o) "burn") = Ok hex /\ Unhexlify hex = Some b
}.

(** The sum over the outputs with a key, if there are any. *)
Definition add_value (key : Value -> option string) (k : string)
    (acc : option double) (o : Value) : option double :=
  if bool_decide (key o = Some k)
  then Some (double_add (default double_zero acc) (value_of o)) else acc.

Definition total (key : Value -> option string) (outs : list Value) (k : string)
  : option double := foldl (add_value key k) None outs.

Lemma add_amount_lookup k k' x (m : gmap string double) :
  add_amount k x m !! k' =
  if bool_decide (Some k = Some k') then Some (double_add (default double_zero (m !! k')) x)
  else m !! k'.
Proof.
  unfold add_amount. case_bool_decide as H.
  - injection H as ->. by rewrite lookup_insert_eq.
  - rewrite lookup_insert_ne; [done|congruence].
Qed.

Ltac no_key m :=
  exists m; split; [done|]; intros ?; by rewrite bool_decide_eq_false_2.

Lemma out_address_ok o m : output_ok o -> is_name_op o = false ->
  exists m', out_address o (script o) m = Ok m' /\
    forall k, m' !! k = add_value address_of k (m !! k) o.
Proof.
  intros Ho Hn. destruct (oo_value _ Ho Hn) as [x Hx].
  unfold out_address, add_value, address_of, value_of.
  destruct (isMember (script o) "address") eqn:E; [|no_key m].
  destruct (oo_address _ Ho E) as (Hs & a & Ha). rewrite Hs, Ha, Hx.
  eexists. split; [done|]. intros k. apply add_amount_lookup.
Qed.

Lemma out_burn_ok o m : output_ok o -> is_name_op o = false ->
  exists m', out_burn o (script o) m = Ok m' /\
    forall k, m' !! k = add_value game_of k (m !! k) o.
Proof.
  intros Ho Hn. destruct (oo_value _ Ho Hn) as [x Hx].
  unfold out_burn, add_value, game_of, value_of.
  destruct (isMember (script o) "burn") eqn:E; [|no_key m].
  destruct (oo_burn _ Ho E) as (Hs & hex & b & Hhex & Hb). rewrite Hs, Hhex, Hx.
  cbn [rcheck mbind result_bind]. rewrite Hb. cbn [mbind option_bind].
  destruct (bool_decide (String.substring 0 2 b = "g/"%string)); [|no_key m].
  eexists. split; [done|]. intros k. apply add_amount_lookup.
Qed.

(** Outputs without a name operation. *)
Lemma tx_outs_plain outs : forall acc, Forall output_ok outs ->
  Forall (fun o => is_name_op o = false) outs ->
  exists acc', tx_outs acc outs = Ok acc' /\ nameOp acc' = nameOp acc /\
    (forall k, outAmounts acc' !! k = foldl (add_value address_of k) (outAmounts acc !! k) outs) /\
    (forall k, burns acc' !! k = foldl (add_value game_of k) (burns acc !! k) outs).
Proof.
  induction outs as [|o outs IH]; intros acc Hok Hn; [by exists acc|].
  apply Forall_cons in Hok as [Ho Hok]. apply Forall_cons in Hn as [Hno Hn].
  cbn [tx_outs]. unfold tx_output. rewrite (oo_object _ Ho). cbn [rcheck mbind result_bind].
  change (member o "scriptPubKey") with (script o). rewrite (oo_script _ Ho).
  cbn [rcheck mbind result_bind]. change (isMember (script o) "nameOp") with (is_name_op o).
  rewrite Hno.
  destruct (out_address_ok o (outAmounts acc) Ho Hno) as (m1 & -> & Hm1).
  destruct (out_burn_ok o (burns acc) Ho Hno) as (m2 & -> & Hm2). cbn [mbind result_bind].
  destruct (IH {| outAmounts := m1; burns := m2; nameOp := nameOp acc |} Hok Hn)
    as (acc' & -> & Hname & Ha & Hb).
  exists acc'. split_and!; [done|done| |]; intros k.
  - rewrite Ha. cbn [outAmounts foldl]. by rewrite Hm1.
  - rewrite Hb. cbn [burns foldl]. by rewrite Hm2.
Qed.

(** One name operation [op] among them. *)
Lemma tx_outs_name l1 o l2 : Forall output_ok (l1 ++ o :: l2) ->
  Forall (fun o => is_name_op o = false) (l1 ++ l2) -> is_name_op o = true ->
  exists acc', tx_outs no_outputs (l1 ++ o :: l2) = Ok acc' /\
    nameOp acc' = member (script o) "nameOp" /\
    (forall k, outAmounts acc' !! k = total address_of (l1 ++ l2) k) /\
    (forall k, burns acc' !! k = total game_of (l1 ++ l2) k).
Proof.
  rewrite Forall_app, Forall_app, Forall_cons. intros (Hok1 & Ho & Hok2) [Hn1 Hn2] Hno.
  assert (Happ : forall acc l l', tx_outs acc (l ++ l') = (a ← tx_outs acc l; tx_outs a l')).
  { intros acc l l'. revert acc. induction l as [|x l IH]; intros acc; [done|].
    cbn [app tx_outs]. destruct (tx_output acc x); cbn [mbind result_bind]; [apply IH|done..]. }
  rewrite Happ. destruct (tx_outs_plain l1 no_outputs Hok1 Hn1) as (a1 & -> & Hnm & Ha & Hb).
  cbn [mbind result_bind tx_outs]. unfold tx_output. rewrite (oo_object _ Ho). cbn [rcheck mbind result_bind].
  change (member o "scriptPubKey") with (script o). rewrite (oo_script _ Ho).
  cbn [rcheck mbind result_bind]. change (isMember (script o) "nameOp") with (is_name_op o).
  rewrite Hno, Hnm. cbn [no_outputs nameOp]. rewrite isNull_nullValue. cbn [rcheck mbind result_bind].
  match goal with |- context [tx_outs ?acc l2] =>
    destruct (tx_outs_plain l2 acc Hok2 Hn2) as (a2 & -> & Hnm2 & Ha2 & Hb2) end.
  exists a2. split_and!; [done|done| |]; intros k; unfold total; rewrite foldl_app.
  - by rewrite Ha2, Ha.
  - by rewrite Hb2, Hb.
Qed.

(** ** The amounts in the metadata *)

Lemma set_amounts l : forall v, isObject v = true -> NoDup l.*1 ->
  let v' := foldl (fun v (e : string * double) => set_member v e.1 (of_double e.2)) v l in
  isObject v' = true /\
  (forall k x, (k, x) ∈ l -> isMember v' k = true /\ member v' k = of_double x) /\
  (forall k, k ∉ l.*1 -> isMember v' k = isMember v k /\ member v' k = member v k).
Proof.
  induction l as [|[k0 x0] l IH]; intros v Hv Hnd; cbn [foldl].
  { split_and!; [done| |done]. intros k x H. by apply not_elem_of_nil in H. }
  cbn [fst snd fmap list_fmap] in Hnd |- *. apply NoDup_cons in Hnd as [Hk0 Hnd].
  destruct (IH (set_member v k0 (of_double x0)) ltac:(by apply isObject_set_member) Hnd)
    as (Ho & Hin & Hout).
  split_and!; [done| |].
  - intros k x [[= -> ->]|Hx]%elem_of_cons; [|by apply Hin].
    destruct (Hout k0 Hk0) as [-> ->]. rewrite isMember_set_member, member_set_member_eq by done.
    by rewrite bool_decide_eq_true_2.
  - intros k [Hne Hk]%not_elem_of_cons. destruct (Hout k Hk) as [-> ->].
    rewrite isMember_set_member, member_set_member_ne by done.
    by rewrite bool_decide_eq_false_2.
Qed.

(** The object has the entries of the map as members, and no others. *)
Lemma amounts_json_members (m : gmap string double) k :
  isMember (amounts_json m) k = bool_decide (is_Some (m !! k)) /\
  forall x, m !! k = Some x -> member (amounts_json m) k = of_double x.
Proof.
  destruct (set_amounts (ordered_iter m) objectValue isObject_objectValue (ordered_iter_NoDup m))
    as (_ & Hin & Hout).
  unfold amounts_json. destruct (m !! k) as [x|] eqn:E.
  - destruct (Hin k x) as [-> ->]; [by apply elem_of_ordered_iter|].
    split; [done|by intros ? [= ->]].
  - destruct (Hout k) as [-> _]; [|by rewrite isMember_objectValue].
    intros ([k' x] & -> & Hx)%list_elem_of_fmap. apply elem_of_ordered_iter in Hx.
    cbn in E. congruence.
Qed.

Lemma append_all_elements l : forall v, isArray v = true ->
  isArray (foldl append v l) = true /\ elements_of (foldl append v l) = elements_of v ++ l.
Proof.
  induction l as [|x l IH]; intros v Hv; cbn [foldl]; [by rewrite app_nil_r|].
  destruct (IH (append v x)) as [-> ->]; [by apply isArray_append|].
  split; [done|]. by rewrite elements_append, <- app_assoc by done.
Qed.
End Outputs.

Section Theorems.
Context {J : JsonCpp} {JL : JsonCppLaws J} {JR : JsonReader} {JRL : JsonReaderLaws JR}
  {EN : Encodings}.

(** C23.  For a transaction with one name operation, the move has its name, split at
    the first slash, and its value; the burn for each game and the amount for each
    address are the sums of the values of the other outputs to them, and the inputs
    are listed in order. *)
Theorem GetMoveFromTx_move (data o : Value) (l1 l2 inputs : list Value)
    (ns name mv txid btxid : string)
    (Hdata : isObject data = true)
    (Hvout : isArray (member data "vout") = true)
    (Houts : elements_of (member data "vout") = l1 ++ o :: l2)
    (Hok : Forall output_ok (l1 ++ o :: l2))
    (Hplain : Forall (fun x => is_name_op x = false) (l1 ++ l2)) (Hop : is_name_op o = true)
    (Hobj : isObject (member (script o) "nameOp") = true)
    (Henc1 : member (member (script o) "nameOp") "name_encoding" = of_string "utf8")
    (Henc2 : member (member (script o) "nameOp") "value_encoding" = of_string "utf8")
    (Hmem1 : isMember (member (script o) "nameOp") "name" = true)
    (Hmem2 : isMember (member (script o) "nameOp") "value" = true)
    (Hname : member (member (script o) "nameOp") "name" = of_string (ns ++ String "/" name))
    (Hns : String.index 0 "/" ns = None)
    (Hvalue : member (member (script o) "nameOp") "value" = of_string mv)
    (Htxid : member data "txid" = of_string txid)
    (Hbtxid : member data "btxid" = of_string btxid)
    (Hins : mapM tx_input (items (member data "vin")) = Ok inputs) :
  exists m, GetMoveFromTx data = Ok (Some m) /\
    mv_ns m = ns /\ mv_name m = name /\ mv_mv m = mv /\ mv_txid m = txid /\
    (forall g, mv_burns m !! g = of_double <$> total game_of (l1 ++ l2) g) /\
    (forall a, isMember (member (mv_metadata m) "out") a
                 = bool_decide (is_Some (total address_of (l1 ++ l2) a)) /\
       forall x, total address_of (l1 ++ l2) a = Some x ->
         member (member (mv_metadata m) "out") a = of_double x) /\
    elements_of (member (mv_metadata m) "inputs") = inputs /\
    member (mv_metadata m) "btxid" = of_string btxid.
Proof.
  unfold GetMoveFromTx.
  rewrite (get_member_object data "vout"), (get_member_object data "vin"), !(field_object _ data) by done.
  cbn [mbind result_bind]. rewrite (items_array _ Hvout), Houts.
  destruct (tx_outs_name l1 o l2 Hok Hplain Hop) as (acc & -> & Hnm & Ha & Hb).
  cbn [mbind result_bind]. rewrite Hnm, (isObject_not_null _ Hobj), Hobj, Henc1, Henc2, Hmem1, Hmem2.
  rewrite Hname, Hvalue, Htxid, Hbtxid, !asString_of_string. cbn [mbind result_bind rcheck andb].
  rewrite bool_decide_eq_true_2 by done. cbn [mbind result_bind rcheck].
  rewrite split_name_app, Hins by done. cbn [mbind result_bind].
  eexists. split; [reflexivity|].
  cbn [mv_ns mv_name mv_mv mv_txid mv_burns mv_metadata].
  split_and!; try done.
  - intros g. by rewrite lookup_fmap, Hb.
  - intros a. json_member. rewrite <- Ha. apply amounts_json_members.
  - json_member. destruct (append_all_elements inputs arrayValue isArray_arrayValue) as [_ ->].
    by rewrite elements_arrayValue.
  - by json_member.
Qed.

(** Without a name operation there is no move. *)
Lemma GetMoveFromTx_none (data : Value) (Hdata : isObject data = true)
    (Hvout : isArray (member data "vout") = true)
    (Hok : Forall output_ok (elements_of (member data "vout")))
    (Hplain : Forall (fun x => is_name_op x = false) (elements_of (member data "vout"))) :
  GetMoveFromTx data = Ok None.
Proof.
  unfold GetMoveFromTx. rewrite (get_member_object data "vout") by done. cbn [mbind result_bind].
  rewrite (items_array _ Hvout).
  destruct (tx_outs_plain _ no_outputs Hok Hplain) as (acc & -> & Hnm & _).
  cbn [mbind result_bind]. rewrite Hnm. cbn [no_outputs nameOp]. by rewrite isNull_nullValue.
Qed.
End Theorems.

(** ** An example *)
Module CoreMoveSample.
Import Model ReaderModel CoreSample.

(** A payment, twice, a burn for the game [mv], and the update of [p/domob]. *)
Definition out_json (value : Z) (spk : list (string * json)) : json :=
  JObj [("value", JInt value); ("scriptPubKey", JObj spk)]%string.

Definition name_out : @Value model :=
  out_json 1 [("address", JStr "owner"); ("nameOp", JObj
    [("name_encoding", JStr "utf8"); ("value_encoding", JStr "utf8");
     ("name", JStr "p/domob"); ("value", JStr "{}")])]%string.

Definition outs_before : list (@Value model) :=
  [out_json 5 [("address", JStr "alice")]; out_json 7 [("burn", JStr "g/mv")]]%string.
Definition outs_after : list (@Value model) := [out_json 2 [("address", JStr "alice")]]%string.

Definition tx : @Value model :=
  JObj [("txid", JStr "tx1"); ("btxid", JStr "btx1");
        ("vin", JArr [JObj [("txid", JStr "tx0"); ("vout", JInt 1)]]);
        ("vout", JArr (outs_before ++ name_out :: outs_after))]%string.

Definition tx_inputs : list (@Value model) :=
  [JObj [("txid", JStr "tx0"); ("vout", JInt 1)]]%string.

Lemma tx_outputs_ok : Forall output_ok (outs_before ++ name_out :: outs_after).
Proof.
  unfold outs_before, outs_after. cbn [app].
  repeat (apply Forall_cons; split; [split; cbn; try done; intros _; try (by eexists);
    split; try done; by repeat eexists|]). apply Forall_nil_2.
Qed.

Lemma GetMoveFromTx_move_witness : exists m, GetMoveFromTx tx = Ok (Some m) /\
  mv_name m = "domob"%string /\ mv_burns m !! "mv"%string = Some (JInt 7) /\
  member (member (mv_metadata m) "out"%string) "alice"%string = JInt 7.
Proof.
  destruct (GetMoveFromTx_move tx name_out outs_before outs_after tx_inputs
    "p" "domob" "{}" "tx1" "btx1" eq_refl eq_refl eq_refl tx_outputs_ok
    ltac:(by repeat constructor) eq_refl eq_refl eq_refl eq_refl eq_refl eq_refl eq_refl
    eq_refl eq_refl eq_refl eq_refl eq_refl) as (m & Hm & _ & Hn & _ & _ & Hb & Ho & _).
  exists m. split; [exact Hm|]. split; [exact Hn|].
  split; [exact (Hb "mv"%string)|]. exact (proj2 (Ho "alice"%string) _ eq_refl).
Defined.
End CoreMoveSample.
