(* ===== verification/EthUtils.v ===== *)
(** * Parsing of EVM data (eth/hexutils.cpp, and the move data of eth/ethchain.cpp)

    Parameters are the eth-utils library ([EthUtils]) and the constants of the
    contracts, which the build generates ([ContractConstants]). *)

From S2P Require Import Prelude Json JsonRead BlockData CoreChain.

(** An address, if it is valid. *)
Record Address := { GetLowerCase : string; GetChecksummed : string }.

(** The arguments that are written with an [AbiEncoder]. *)
Inductive abi_arg :=
  | AbiWord (w : string)
  | AbiBytes (b : string).

(** [ParseInt] and the readers of [AbiDecoder] abort on invalid data.
    [parse_address] is the constructor of [Address], with the test for validity;
    [abi_encode] is an [AbiEncoder] with its arguments written. *)
Class EthUtils := {
  ParseInt : string -> result Z;
  parse_address : string -> option Address;
  Keccak256 : string -> string;
  AbiDecoder : Type;
  abi_decoder : string -> AbiDecoder;
  ReadString : AbiDecoder -> result (string * AbiDecoder);
  ReadUint : Z -> AbiDecoder -> result (string * AbiDecoder);
  ReadArray : AbiDecoder -> result (Z * AbiDecoder);
  ReadDynamic : AbiDecoder -> result (AbiDecoder * AbiDecoder);
  GetAllDataRead : AbiDecoder -> string;
  abi_encode : list abi_arg -> string;
  ConcatHex : string -> string -> string;
  ecdsa_VerifyMessage : string -> string -> option Address
}.

Class ContractConstants := {
  MOVE_EVENT : string;
  ACCOUNT_WCHI_FCN : string;
  FORWARDER_EXECUTE_FCN : string;
  CALL_FORWARDER_CODE : string;
  TRACKING_ACCOUNTS_CODE : string
}.

Definition ConvertUint256 (withPrefix : string) : result string :=
  _ ← rcheck (bool_decide (String.substring 0 2 withPrefix = "0x"%string));
  Ok (substr_from 2 withPrefix).

(** [std::hex] prints the two's complement of the number, without leading zeros. *)
Definition hex_digit (d : Z) : ascii :=
  ascii_of_nat (Z.to_nat (if d <? 10 then 48 + d else 87 + d)).

Fixpoint hex_digits (n : nat) (z : Z) (rest : string) : string :=
  match n with
  | O => rest
  | S n' =>
      let rest' := String (hex_digit (Z.land z 15)) rest in
      if Z.shiftr z 4 =? 0 then rest' else hex_digits n' (Z.shiftr z 4) rest'
  end.

Definition EncodeHexInt (val : Z) : string := ("0x" ++ hex_digits 16 (u64 val) "")%string.

Definition DECIMALS : Z := 8.

Section Moves.
Context {J : JsonCpp} {JR : JsonReader} {EN : Encodings} {EU : EthUtils}.

Definition GetMoveDataFromLogs (dec : AbiDecoder) : result (MoveData * AbiDecoder) :=
  '(ns, dec) ← ReadString dec;
  '(name, dec) ← ReadString dec;
  '(mv, dec) ← ReadString dec;
  '(_, dec) ← ReadUint 256 dec;
  '(_, dec) ← ReadUint 160 dec;
  '(amountHex, dec) ← ReadUint 256 dec;
  amount ← ParseInt amountHex;
  '(receiverHex, dec) ← ReadUint 160 dec;
  match parse_address receiverHex with
  | None => Fatal
  | Some receiver =>
      _ ← rcheck (0 <=? amount);
      let out := if 0 <? amount
                 then set_member objectValue (GetChecksummed receiver)
                                 (of_double (double_scaled amount DECIMALS))
                 else objectValue in
      let metadata := set_member objectValue "out" out in
      let dataHex := GetAllDataRead dec in
      _ ← rcheck (bool_decide (String.substring 0 2 dataHex = "0x"%string));
      match Unhexlify (substr_from 2 dataHex) with
      | None => Fatal
      | Some dataBin =>
          Ok ({| mv_txid := ""; mv_ns := ns; mv_name := name; mv_mv := mv; mv_burns := ∅;
                 mv_metadata := set_member metadata "mvid"
                                  (of_string (Hexlify (Keccak256 dataBin))) |}, dec)
      end
  end.

(** The transaction id is set by the callers. *)
Definition set_txid (txid : string) (mv : MoveData) : MoveData :=
  {| mv_txid := txid; mv_ns := mv_ns mv; mv_name := mv_name mv; mv_mv := mv_mv mv;
     mv_burns := mv_burns mv; mv_metadata := mv_metadata mv |}.

Definition ExtractMove (val : Value) : result MoveData :=
  data ← field asString val "data";
  '(res, _) ← GetMoveDataFromLogs (abi_decoder data);
  hash ← field asString val "transactionHash";
  txid ← ConvertUint256 hash;
  Ok (set_txid txid res).

Definition ExtractBaseData (val : Value) : result BlockData :=
  _ ← rcheck (isObject val);
  hashHex ← asString (member val "hash");
  hash ← ConvertUint256 hashHex;
  parentHex ← asString (member val "parentHash");
  parent ← ConvertUint256 parentHex;
  numberHex ← asString (member val "number");
  height ← ParseInt numberHex;
  timeHex ← asString (member val "timestamp");
  timestamp ← ParseInt timeHex;
  Ok {| blk_hash := hash; blk_parent := parent; blk_height := u64 height;
        blk_rngseed := hash;
        blk_metadata := set_member objectValue "timestamp" (of_int timestamp);
        blk_moves := [] |}.
End Moves.

(** The generated RPC client, and the WebSocket subscriber; the node may change at
    every call.  A batch answers its calls in order with an error code and, if that is
    zero, a result. *)
Record reply {J : JsonCpp} := { reply_error : Z; reply_result : Value }.

Class EthClient {J : JsonCpp} := {
  EthNode : Type;
  web3_clientVersion : M EthNode string;
  eth_chainId : M EthNode string;
  eth_blockNumber : M EthNode string;
  eth_getBlockByHash : string -> bool -> M EthNode Value;
  eth_getBlockByNumber : string -> bool -> M EthNode Value;
  eth_getTransactionByHash : string -> M EthNode Value;
  eth_getLogs : Value -> M EthNode Value;
  eth_call : Value -> string -> Value -> M EthNode string;
  eth_batch : list (string * Value) -> M EthNode (list reply);
  ws_Start : M EthNode unit;
  ws_EnablePending : M EthNode unit
}.
