(* ===== verification/EthPending.v ===== *)
(** * Pending moves on EVM chains (eth/pending.cpp, eth/pending.hpp)

    [PendingDataExtractor] simulates a pending transaction with [eth_call] to find
    the moves it makes; [PendingMempool] remembers the pending transactions with moves
    and asks the node which of them are still pending. *)

From S2P Require Import Prelude Json JsonRead BlockData CoreChain EthUtils.

Section Extractor.
Context {J : JsonCpp} {JR : JsonReader} {EN : Encodings} {EU : EthUtils}
  {CO : ContractConstants} {EC : EthClient}.

Record PendingDataExtractor := {
  pde_accountsContract : string;
  fwdCode : string;
  accountsOverlayCode : string;
  watchedContracts : gset string
}.

Definition dummy_address : string := "0x4242424242424242424242424242424242424242".

Definition FakeDeploy (code args : string) : M EthNode string :=
  let tx := set_member objectValue "to" (of_string dummy_address) in
  let state := set_member objectValue "code" (of_string (ConcatHex code args)) in
  eth_call tx "latest" (set_member objectValue dummy_address state).

(** The constructor. *)
Definition new_extractor (acc : string) : M EthNode PendingDataExtractor :=
  match parse_address acc with
  | None => fatal
  | Some accAddr =>
      let contract := GetChecksummed accAddr in
      fwd <- FakeDeploy CALL_FORWARDER_CODE (abi_encode [AbiWord contract]);;
      let wchiCall := set_member (set_member objectValue "to" (of_string contract))
                                 "data" (of_string ACCOUNT_WCHI_FCN) in
      wchiRes <- eth_call wchiCall "latest" objectValue;;
      let* '(wchiHex, _) := lift (ReadUint 160 (abi_decoder wchiRes)) in
      match parse_address wchiHex with
      | None => fatal
      | Some wchiAddr =>
          overlay <- FakeDeploy TRACKING_ACCOUNTS_CODE
                       (abi_encode [AbiWord (GetChecksummed wchiAddr)]);;
          ret {| pde_accountsContract := contract; fwdCode := fwd;
                 accountsOverlayCode := overlay; watchedContracts := ∅ |}
      end
  end.

Definition AddWatchedContract (addr : string) (e : PendingDataExtractor)
  : result PendingDataExtractor :=
  match parse_address addr with
  | None => Fatal
  | Some parsed =>
      Ok {| pde_accountsContract := pde_accountsContract e; fwdCode := fwdCode e;
            accountsOverlayCode := accountsOverlayCode e;
            watchedContracts := {[ GetChecksummed parsed ]} ∪ watchedContracts e |}
  end.

(** The loop over the [n] logs of the array. *)
Fixpoint decode_logs (n : nat) (txid : string) (array : AbiDecoder) : result (list MoveData) :=
  match n with
  | O => Ok []
  | S n' =>
      '(dec, array') ← ReadDynamic array;
      '(cur, _) ← GetMoveDataFromLogs dec;
      hash ← ConvertUint256 txid;
      rest ← decode_logs n' txid array';
      Ok (set_txid hash cur :: rest)
  end.

Definition DecodeMoveLogs (txid hexStr : string) : result (list MoveData) :=
  '(len, array) ← ReadArray (abi_decoder hexStr);
  decode_logs (Z.to_nat len) txid array.

(** The transaction that executes the pending one through the forwarder, and the state
    with which it runs. *)
Definition forward_tx (from to : Address) (data : Value) (callData : string) : Value :=
  let args := abi_encode [AbiWord (GetChecksummed to); AbiBytes callData] in
  set_member (set_member (set_member (set_member objectValue
    "to" (of_string (GetChecksummed from)))
    "from" (of_string (GetChecksummed from)))
    "value" (member data "value"))
    "data" (of_string (ConcatHex FORWARDER_EXECUTE_FCN args)).

Definition overlay_state (e : PendingDataExtractor) (from : Address) : Value :=
  set_member (set_member objectValue
    (GetChecksummed from) (set_member objectValue "code" (of_string (fwdCode e))))
    (pde_accountsContract e) (set_member objectValue "code" (of_string (accountsOverlayCode e))).

Definition GetMoves (e : PendingDataExtractor) (txid : string) : M EthNode (list MoveData) :=
  data <- eth_getTransactionByHash txid;;
  check (isObject data);;
  if negb (isNull (member data "blockHash")) || isNull (member data "to") then ret [] else
  fromHex <- lift (asString (member data "from"));;
  toHex <- lift (asString (member data "to"));;
  match parse_address fromHex, parse_address toHex with
  | Some from, Some to =>
      callData <- lift (asString (member data "input"));;
      if bool_decide (GetChecksummed to ∉ watchedContracts e) then ret [] else
      try_rpc
        (res <- eth_call (forward_tx from to data callData) "latest" (overlay_state e from);;
         lift (DecodeMoveLogs txid res))
        (fun _ _ => ret [])
  | _, _ => fatal
  end.

(** ** The mempool *)

Definition IsEarlierForMempool (a b : Value) : result bool :=
  _ ← rcheck (isObject a);
  _ ← rcheck (isObject b);
  fromHexA ← asString (member a "from");
  fromHexB ← asString (member b "from");
  match parse_address fromHexA, parse_address fromHexB with
  | Some fromA, Some fromB =>
      if negb (bool_decide (GetLowerCase fromA = GetLowerCase fromB)) then
        Ok (String.ltb (GetLowerCase fromA) (GetLowerCase fromB))
      else
        hexA ← asString (member a "nonce");
        nonceA ← ParseInt hexA;
        hexB ← asString (member b "nonce");
        nonceB ← ParseInt hexB;
        Ok (nonceA <? nonceB)
  | _, _ => Fatal
  end.

(** [std::sort], by insertion: the order of equivalent elements is not specified, and
    here they stay as they are. *)
Fixpoint sort_insert (less : Value -> Value -> result bool) (x : Value) (l : list Value)
  : result (list Value) :=
  match l with
  | [] => Ok [x]
  | y :: l' =>
      b ← less y x;
      if (b : bool) then rest ← sort_insert less x l'; Ok (y :: rest) else Ok (x :: y :: l')
  end.

Fixpoint std_sort (less : Value -> Value -> result bool) (l : list Value)
  : result (list Value) :=
  match l with
  | [] => Ok []
  | x :: l' => sorted ← std_sort less l'; sort_insert less x sorted
  end.

(** The calls of the batch, in the order of the [std::set]. *)
Definition pool_txids (pool : gset string) : list string := merge_sort String.le (elements pool).

Definition tx_call (txid : string) : string * Value :=
  ("eth_getTransactionByHash"%string, append arrayValue (of_string ("0x" ++ txid))).

(** The loop over the replies: it returns the transactions that are still pending, and
    removes the others from the pool. *)
Fixpoint pool_replies (l : list (string * reply)) (transactions : list Value)
  : M (gset string) (list Value) :=
  match l with
  | [] => ret transactions
  | (txid, r) :: l' =>
      check (reply_error r =? 0);;
      let txJson := reply_result r in
      if isNull txJson then
        modify (fun pool => pool ∖ {[ txid ]});; pool_replies l' transactions
      else
        check (isObject txJson);;
        hash <- lift (asString (member txJson "hash"));;
        check (bool_decide (hash = ("0x" ++ txid)%string));;
        if isNull (member txJson "blockHash") then pool_replies l' (transactions ++ [txJson])
        else modify (fun pool => pool ∖ {[ txid ]});; pool_replies l' transactions
  end.

Definition tx_hash (tx : Value) : result string :=
  hash ← asString (member tx "hash"); ConvertUint256 hash.

(** The state is the node and the pool.  The lock is not held during the RPC call:
    [meanwhile] is what other threads do to the pool in that time. *)
Definition GetContent (meanwhile : gset string -> gset string) : M (EthNode * gset string) (list string) :=
  s <- get;;
  let txids := pool_txids s.2 in
  if empty_b txids then ret [] else
  resp <- zoom fst (fun n s => (n, s.2)) (eth_batch (map tx_call txids));;
  modify (fun s => (s.1, meanwhile s.2));;
  transactions <- zoom snd (fun p s => (s.1, p)) (pool_replies (zip txids resp) []);;
  sorted <- lift (std_sort IsEarlierForMempool transactions);;
  lift (mapM tx_hash sorted).
End Extractor.

(** [PendingMempool::Add]. *)
Definition Add (txid : string) (pool : gset string) : gset string := {[ txid ]} ∪ pool.
