(* ===== verification/EthChain.v ===== *)
(** * The EVM connector (eth/ethchain.cpp, eth/ethchain.hpp)

    [EthChain] is the base chain of a node for an EVM chain, seen through the calls of
    [EthClient].  Its state has the extractor for pending moves, if tracking is turned
    on, and the mempool. *)

From stdpp Require Import pretty.
From S2P Require Import Prelude Json JsonRead BlockData BaseChain CoreChain EthUtils EthPending.

Section Chain.
Context {J : JsonCpp} {JR : JsonReader} {EN : Encodings} {EU : EthUtils}
  {CO : ContractConstants} {EC : EthClient}.
Context (ethchain_fast_logs_depth : Z).

Record EthChain := {
  ec_node : EthNode;
  accountsContract : string;
  chainId : Z;
  pending : option PendingDataExtractor;
  mempool : gset string;
  sub : bool
}.

Definition set_node (n : EthNode) (s : EthChain) : EthChain :=
  {| ec_node := n; accountsContract := accountsContract s; chainId := chainId s;
     pending := pending s; mempool := mempool s; sub := sub s |}.

Definition on_node {A} (m : M EthNode A) : M EthChain A := zoom ec_node set_node m.

Definition set_mempool (p : gset string) (s : EthChain) : EthChain :=
  {| ec_node := ec_node s; accountsContract := accountsContract s; chainId := chainId s;
     pending := pending s; mempool := p; sub := sub s |}.

Definition set_pending (p : option PendingDataExtractor) (s : EthChain) : EthChain :=
  {| ec_node := ec_node s; accountsContract := accountsContract s; chainId := chainId s;
     pending := p; mempool := mempool s; sub := sub s |}.

(** The constructor; [wsEndpoint] is empty to use no subscriptions. *)
Definition new_chain (wsEndpoint acc : string) : M EthNode EthChain :=
  match parse_address acc with
  | None => fatal
  | Some accAddr =>
      hex <- eth_chainId;;
      id <- lift (ParseInt hex);;
      n <- get;;
      ret {| ec_node := n; accountsContract := GetLowerCase accAddr; chainId := id;
             pending := None; mempool := ∅;
             sub := negb (bool_decide (wsEndpoint = EmptyString)) |}
  end.

Definition CHAIN_IDS : list (Z * string) :=
  [(137, "polygon"); (80001, "mumbai"); (1337, "ganache"); (31337, "ganache")]%string.

(** ** Moves of a block *)

Definition GetLogsOptions (contract : string) : Value :=
  set_member (set_member objectValue "address" (of_string contract))
             "topics" (append arrayValue (of_string MOVE_EVENT)).

(** [BlockMoveExtractor]: the block and the indices of its last move. *)
Record BlockMoveExtractor := { bme_blk : BlockData; lastIndices : Z * Z }.

Definition new_block_extractor (blk : BlockData) : BlockMoveExtractor :=
  {| bme_blk := blk; lastIndices := (-1, -1) |}.

Definition add_move (mv : MoveData) (b : BlockData) : BlockData :=
  {| blk_hash := blk_hash b; blk_parent := blk_parent b; blk_height := blk_height b;
     blk_rngseed := blk_rngseed b; blk_metadata := blk_metadata b;
     blk_moves := blk_moves b ++ [mv] |}.

(** The comparison of pairs is lexicographic. *)
Definition pair_less (a b : Z * Z) : bool :=
  (a.1 <? b.1) || ((a.1 =? b.1) && (a.2 <? b.2)).

Definition ProcessLogEntry (contract : string) (log : Value) (e : BlockMoveExtractor)
  : result BlockMoveExtractor :=
  _ ← rcheck (isObject log);
  addrHex ← asString (member log "address");
  match parse_address addrHex with
  | None => Fatal
  | Some logAddr =>
      _ ← rcheck (bool_decide (GetLowerCase logAddr = contract));
      topic ← get_index (member log "topics") 0;
      event ← asString topic;
      _ ← rcheck (bool_decide (event = MOVE_EVENT));
      hashHex ← asString (member log "blockHash");
      hash ← ConvertUint256 hashHex;
      _ ← rcheck (bool_decide (hash = blk_hash (bme_blk e)));
      txHex ← asString (member log "transactionIndex");
      txIndex ← ParseInt txHex;
      logHex ← asString (member log "logIndex");
      logIndex ← ParseInt logHex;
      _ ← rcheck (pair_less (lastIndices e) (txIndex, logIndex));
      mv ← ExtractMove log;
      Ok {| bme_blk := add_move mv (bme_blk e); lastIndices := (txIndex, logIndex) |}
  end.

(** The loop over the logs of one block. *)
Fixpoint process_logs (contract : string) (logs : list Value) (e : BlockMoveExtractor)
  : result BlockMoveExtractor :=
  match logs with
  | [] => Ok e
  | l :: logs' => e' ← ProcessLogEntry contract l e; process_logs contract logs' e'
  end.

Definition logs_call (contract hash : string) : string * Value :=
  ("eth_getLogs"%string,
   append arrayValue (set_member (GetLogsOptions contract) "blockHash"
                                 (of_string ("0x" ++ hash)))).

(** The loop over the replies, or [None] if there was an error. *)
Fixpoint add_moves_replies (contract : string) (l : list (BlockData * reply))
  : result (option (list BlockData)) :=
  match l with
  | [] => Ok (Some [])
  | (blk, r) :: l' =>
      if negb (reply_error r =? 0) then Ok None else
      _ ← rcheck (isArray (reply_result r));
      e ← process_logs contract (items (reply_result r)) (new_block_extractor blk);
      rest ← add_moves_replies contract l';
      Ok (option_map (cons (bme_blk e)) rest)
  end.

Definition AddMovesOneByOne (contract : string) (blocks : list BlockData)
  : M EthNode (option (list BlockData)) :=
  resp <- eth_batch (map (fun b => logs_call contract (blk_hash b)) blocks);;
  lift (add_moves_replies contract (zip blocks resp)).

(** The heights must be consecutive. *)
Fixpoint check_heights (lastHeight : Z) (blocks : list BlockData) : result unit :=
  match blocks with
  | [] => Ok tt
  | b :: blocks' =>
      _ ← rcheck ((lastHeight =? -1) || (blk_height b =? u64 (lastHeight + 1)));
      check_heights (i64 (blk_height b)) blocks'
  end.

(** Processing a log with the extractor of the block that has the hash. *)
Fixpoint process_for (contract hash : string) (log : Value) (es : list BlockMoveExtractor)
  : result (list BlockMoveExtractor) :=
  match es with
  | [] => Fatal
  | e :: es' =>
      if bool_decide (blk_hash (bme_blk e) = hash)
      then e' ← ProcessLogEntry contract log e; Ok (e' :: es')
      else rest ← process_for contract hash log es'; Ok (e :: rest)
  end.

Fixpoint process_range (contract : string) (logs : list Value) (es : list BlockMoveExtractor)
  : result (list BlockMoveExtractor) :=
  match logs with
  | [] => Ok es
  | l :: logs' =>
      hashHex ← field asString l "blockHash";
      hash ← ConvertUint256 hashHex;
      es' ← process_for contract hash l es;
      process_range contract logs' es'
  end.

Definition range_options (contract : string) (startHeight endHeight : Z) : Value :=
  set_member (set_member (GetLogsOptions contract)
    "fromBlock" (of_string (EncodeHexInt startHeight)))
    "toBlock" (of_string (EncodeHexInt endHeight)).

Definition AddMovesFromHeightRange (contract : string) (blocks : list BlockData)
  : M EthNode (list BlockData) :=
  lift (check_heights (-1) blocks);;
  match blocks, last blocks with
  | front :: _, Some back =>
      logs <- eth_getLogs (range_options contract (i64 (blk_height front)) (i64 (blk_height back)));;
      check (isArray logs);;
      es <- lift (process_range contract (items logs) (map new_block_extractor blocks));;
      ret (map bme_blk es)
  | _, _ => undefined
  end.

(** ** Block ranges *)

Definition block_call (h : Z) : string * Value :=
  ("eth_getBlockByNumber"%string,
   append (append arrayValue (of_string (EncodeHexInt h))) (of_bool false)).

(** The heights from [start] on. *)
Definition heights (start : Z) (n : nat) : list Z := map (fun i => start + Z.of_nat i) (seq 0 n).

(** The loop over the replies; [back] is the block before.  [None] is for a block that
    is missing or does not fit. *)
Fixpoint collect_blocks (startHeight : Z) (back : option BlockData) (l : list reply)
  : result (option (list BlockData)) :=
  match l with
  | [] => Ok (Some [])
  | r :: l' =>
      _ ← rcheck (reply_error r =? 0);
      if isNull (reply_result r) then Ok None else
      blk ← ExtractBaseData (reply_result r);
      _ ← rcheck (match back with
                  | None => blk_height blk =? u64 startHeight
                  | Some b => blk_height blk =? u64 (blk_height b + 1)
                  end);
      if match back with
         | None => false
         | Some b => negb (bool_decide (blk_parent blk = blk_hash b))
         end
      then Ok None
      else
        rest ← collect_blocks startHeight (Some blk) l';
        Ok (option_map (cons blk) rest)
  end.

(** [None] is for false; the result [res] of the source is discarded then. *)
Definition TryBlockRange (contract : string) (startHeight endHeight : Z)
  : M EthNode (option (list BlockData)) :=
  hex <- eth_blockNumber;;
  tipHeight <- lift (ParseInt hex);;
  let endHeight := if tipHeight <? endHeight then tipHeight else endHeight in
  if endHeight <? startHeight then ret (Some []) else
  resp <- eth_batch (map block_call (heights startHeight (Z.to_nat (endHeight - startHeight + 1))));;
  o <- lift (collect_blocks startHeight None resp);;
  match o with
  | None => ret None
  | Some res =>
      match last res with
      | None => undefined
      | Some back =>
          check (blk_height back =? u64 endHeight);;
          if endHeight + ethchain_fast_logs_depth <? tipHeight
          then res <- AddMovesFromHeightRange contract res;; ret (Some res)
          else AddMovesOneByOne contract res
      end
  end.

Fixpoint try_again (fuel : nat) (contract : string) (startHeight endHeight : Z)
  : M EthNode (list BlockData) :=
  match fuel with
  | O => diverge
  | S fuel' =>
      o <- TryBlockRange contract startHeight endHeight;;
      match o with
      | Some res => ret res
      | None => try_again fuel' contract startHeight endHeight
      end
  end.

Definition eth_GetBlockRange (fuel : nat) (contract : string) (start count : Z)
  : M EthNode (list BlockData) :=
  if count =? 0 then ret [] else
  let endHeight := u64 (start + count - 1) in
  check (start <=? endHeight);;
  try_again fuel contract (i64 start) (i64 endHeight).

(** ** Other methods *)

Definition eth_Start : M EthChain unit :=
  on_node web3_clientVersion;;
  s <- get;;
  if sub s then on_node ws_Start else ret tt.

Definition eth_EnablePending : M EthChain bool :=
  s <- get;;
  check (match pending s with None => true | Some _ => false end);;
  e <- on_node (new_extractor (accountsContract s));;
  modify (set_pending (Some e));;
  (if sub s then on_node ws_EnablePending else ret tt);;
  ret true.

Definition AddWatchedContract (addr : string) : M EthChain unit :=
  s <- get;;
  match pending s with
  | None => fatal
  | Some e => e' <- lift (EthPending.AddWatchedContract addr e);; modify (set_pending (Some e'))
  end.

Definition eth_GetTipHeight : M EthNode Z :=
  hex <- eth_blockNumber;;
  h <- lift (ParseInt hex);;
  ret (u64 h).

Definition eth_GetMainchainHeight (hash : string) : M EthNode Z :=
  let prefixHash := ("0x" ++ hash)%string in
  o <- try_rpc (
         data <- eth_getBlockByHash prefixHash false;;
         if isNull data then ret None
         else
           check (isObject data);;
           heightHex <- lift (asString (member data "number"));;
           ret (Some heightHex))
         (fun _ _ => ret None);;
  match o with
  | None => ret (-1)
  | Some heightHex =>
      mainchain <- eth_getBlockByNumber heightHex false;;
      if isNull mainchain then ret (-1) else
      check (isObject mainchain);;
      if negb (match asString (member mainchain "hash") with
               | Ok h => isString (member mainchain "hash") && bool_decide (h = prefixHash)
               | _ => false
               end)
      then ret (-1)
      else lift (ParseInt heightHex)
  end.

(** [meanwhile] is what other threads do to the mempool (see [GetContent]). *)
Definition eth_GetMempool (meanwhile : gset string -> gset string) : M EthChain (list string) :=
  zoom (fun s => (ec_node s, mempool s))
       (fun x s => set_mempool x.2 (set_node x.1 s))
       (GetContent meanwhile).

Definition eth_VerifyMessage (msg signature : string) : M EthChain (option string) :=
  s <- get;;
  let fullMsg := ("Xaya signature for chain " ++ pretty (chainId s) ++ ":" ++
                  String "010" (String "010" msg))%string in
  ret (GetChecksummed <$> ecdsa_VerifyMessage fullMsg ("0x" ++ Hexlify signature)).

Definition eth_GetChain : M EthChain string :=
  s <- get;;
  match list_find (fun x => x.1 = chainId s) CHAIN_IDS with
  | Some (_, (_, name)) => ret name
  | None => fatal
  end.

Definition eth_GetVersion : M EthChain Z := ret 1000000.

#[export] Instance eth_chain (fuel : nat) : BaseChain EthChain := {|
  bc_Start := eth_Start;
  bc_EnablePending := eth_EnablePending;
  bc_GetTipHeight := on_node eth_GetTipHeight;
  bc_GetBlockRange start count :=
    s <- get;; on_node (eth_GetBlockRange fuel (accountsContract s) start count);
  bc_GetMainchainHeight hash := on_node (eth_GetMainchainHeight hash);
  bc_GetMempool := eth_GetMempool id;
  bc_VerifyMessage := eth_VerifyMessage;
  bc_GetChain := eth_GetChain;
  bc_GetVersion := eth_GetVersion
|}.

(** ** Callbacks of the subscription

    They act on the connector and on the state [S] of the base chain's callbacks. *)
Section Callbacks.
Context {S : Type} (cb : option (Callbacks S)).

Definition on_chain {A} (m : M EthChain A) : M (EthChain * S) A :=
  zoom fst (fun c s => (c, s.2)) m.

Definition on_callbacks {A} (m : M S A) : M (EthChain * S) A :=
  zoom snd (fun t s => (s.1, t)) m.

Definition NewTip (tip : string) : M (EthChain * S) unit :=
  hash <- lift (ConvertUint256 tip);; on_callbacks (TipChanged cb hash).

Definition NewPendingTx (txid : string) : M (EthChain * S) unit :=
  s <- get;;
  match pending s.1 with
  | None => fatal
  | Some e =>
      o <- try_rpc (moves <- on_chain (on_node (GetMoves e txid));; ret (Some moves))
                   (fun _ _ => ret None);;
      match o with
      | None | Some [] => ret tt
      | Some moves =>
          hash <- lift (ConvertUint256 txid);;
          on_chain (modify (fun c => set_mempool (Add hash (mempool c)) c));;
          on_callbacks (PendingMoves cb moves)
      end
  end.
End Callbacks.
End Chain.
