(* ===== verification/EthProps.v ===== *)
(** * Block ranges from an EVM node

    [TryBlockRange] makes several calls, and the calls of a batch are not answered at
    one moment either.  The contract of the node is [EthLaws]; the theorems are that a
    block range still is one of the chain that the node had at a single moment, with
    the moves of its blocks, and that the connector of a node that stands still
    satisfies the contract of a base chain. *)

From S2P Require Import Prelude Json JsonRead BlockData BaseChain CoreChain CoreProps CoreMoves EthUtils EthPending EthChain.

(** ** Hexadecimal hashes *)

Lemma ConvertUint256_prefix h : ConvertUint256 ("0x" ++ h) = Ok h.
Proof.
  unfold ConvertUint256. change 2%nat with (String.length "0x").
  by rewrite substring_prefix, substr_from_app.
Qed.

(** ** The contract

    [eth_block h] is the block with hash [h], and [eth_logs h] are the logs of the
    moves in it.  [depth] blocks on top make a block final. *)
Class EthLaws {J : JsonCpp} {JR : JsonReader} {EN : Encodings} {EU : EthUtils}
    {CO : ContractConstants} (EC : EthClient) (contract : string) (depth : Z) := {
  eth_view : EthNode -> HashView;
  eth_evolves : EthNode -> EthNode -> Prop;
  eth_evolves_refl :: Reflexive eth_evolves;
  eth_evolves_trans :: Transitive eth_evolves;
  eth_block : string -> Value;
  eth_logs : string -> list Value;
  eth_tip : forall n, 0 <= hv_tip (eth_view n) < 2 ^ 62;
  eth_heights : forall n i,
    is_Some (hv_hash (eth_view n) i) <-> 0 <= i <= hv_tip (eth_view n);
  eth_content : forall n i h, hv_hash (eth_view n) i = Some h ->
    member (eth_block h) "hash" = of_string ("0x" ++ h) /\
    (exists s, member (eth_block h) "number" = of_string s /\ ParseInt s = Ok i) /\
    (0 < i -> exists p, hv_hash (eth_view n) (i - 1) = Some p /\
       member (eth_block h) "parentHash" = of_string ("0x" ++ p));
  eth_log_block : forall h l, l ∈ eth_logs h ->
    isObject l = true /\ member l "blockHash" = of_string ("0x" ++ h);
  eth_number : forall n r n', eth_blockNumber n = (r, n') ->
    eth_evolves n n' /\ forall s, r = Ok s -> ParseInt s = Ok (hv_tip (eth_view n'));
  eth_batch_blocks : forall hs n r n', Forall (fun h => 0 <= h <= i64_max) hs ->
    eth_batch (map block_call hs) n = (r, n') ->
    eth_evolves n n' /\ forall reps, r = Ok reps ->
      Forall2 (fun h rep => reply_error rep = 0 -> isNull (reply_result rep) = true \/
        exists m hash, eth_evolves n m /\ eth_evolves m n' /\
          hv_hash (eth_view m) h = Some hash /\ reply_result rep = eth_block hash) hs reps;
  eth_batch_logs : forall hashes n r n',
    eth_batch (map (logs_call contract) hashes) n = (r, n') ->
    eth_evolves n n' /\ forall reps, r = Ok reps ->
      Forall2 (fun h rep => reply_error rep = 0 -> isArray (reply_result rep) = true ->
        elements_of (reply_result rep) = eth_logs h) hashes reps;
  eth_range_logs : forall a b n r n', eth_getLogs (range_options contract a b) n = (r, n') ->
    eth_evolves n n' /\ forall v, r = Ok v -> 0 <= a <= b -> b <= i64_max -> isArray v = true ->
      elements_of v = flat_map eth_logs
        (omap (hv_hash (eth_view n')) (heights a (Z.to_nat (b - a + 1))));
  eth_final : forall n n' i, eth_evolves n n' -> i + depth < hv_tip (eth_view n) ->
    hv_hash (eth_view n') i = hv_hash (eth_view n) i
}.

Section Range.
Context {J : JsonCpp} {JR : JsonReader} {JRL : JsonReaderLaws JR} {EN : Encodings}
  {EU : EthUtils} {CO : ContractConstants} {EC : EthClient} (contract : string) (depth : Z)
  {EL : EthLaws EC contract depth}.

(** The block with a hash, with its moves. *)
Definition block_of (h : string) : result BlockData :=
  base ← ExtractBaseData (eth_block h);
  e ← process_logs contract (eth_logs h) (new_block_extractor base);
  Ok (bme_blk e).

Definition eth_at (v : HashView) (i : Z) : option BlockData :=
  h ← hv_hash v i;
  match block_of h with Ok b => Some b | _ => None end.

Lemma eth_at_above n i : hv_tip (eth_view n) < i -> eth_at (eth_view n) i = None.
Proof.
  intros Hi. unfold eth_at. destruct (hv_hash (eth_view n) i) eqn:E; [|done].
  pose proof (proj1 (eth_heights n i) (ex_intro _ _ E)). lia.
Qed.

Lemma ExtractBaseData_inv n i h b : hv_hash (eth_view n) i = Some h ->
  ExtractBaseData (eth_block h) = Ok b ->
  blk_hash b = h /\ blk_height b = i /\
  (0 < i -> hv_hash (eth_view n) (i - 1) = Some (blk_parent b)).
Proof.
  intros Hi. destruct (eth_content n i h Hi) as (Hh & (s & Hs & Hn) & Hp).
  assert (Hr : 0 <= i < u64_modulus).
  { pose proof (eth_tip n). pose proof (proj1 (eth_heights n i) (ex_intro _ _ Hi)).
    unfold u64_modulus. lia. }
  unfold ExtractBaseData. rewrite Hh, asString_of_string, Hs.
  intros (u & _ & H)%rbind_inv. cbn [mbind result_bind] in H.
  rewrite ConvertUint256_prefix in H. cbn [mbind result_bind] in H.
  apply rbind_inv in H as (ph & Eph & (par & Epar & H)%rbind_inv).
  rewrite asString_of_string in H. cbn [mbind result_bind] in H. rewrite Hn in H.
  cbn [mbind result_bind] in H. apply rbind_inv in H as (ts & _ & (t & _ & [= <-])%rbind_inv).
  cbn. rewrite u64_small by done. split_and!; [done|done|].
  intros Hpos. destruct (Hp Hpos) as (p & Hat & Hpar). rewrite Hpar, asString_of_string in Eph.
  injection Eph as <-. rewrite ConvertUint256_prefix in Epar. by injection Epar as <-.
Qed.

(** Two heights of a chain have different hashes. *)
Lemma hash_height n n' i i' h : hv_hash (eth_view n) i = Some h ->
  hv_hash (eth_view n') i' = Some h -> i = i'.
Proof.
  intros Hi Hi'. destruct (eth_content n i h Hi) as (_ & (s & Hs & Hn) & _).
  destruct (eth_content n' i' h Hi') as (_ & (s' & Hs' & Hn') & _).
  rewrite Hs in Hs'. apply (f_equal asString) in Hs'. rewrite !asString_of_string in Hs'.
  congruence.
Qed.

Lemma heights_S s k : heights s (S k) = s :: heights (s + 1) k.
Proof.
  unfold heights. cbn [seq map]. rewrite <- seq_shift, map_map. f_equal; [lia|].
  apply map_ext. intros i. lia.
Qed.

Lemma heights_range s e : 0 <= s -> e < 2 ^ 63 ->
  Forall (fun h => 0 <= h <= i64_max) (heights s (Z.to_nat (e - s + 1))).
Proof.
  intros Hs He. apply Forall_fmap, Forall_forall. intros i Hi%elem_of_seq. cbn.
  unfold i64_max. lia.
Qed.

(** ** Headers *)

(** The replies of the batch, as blocks: [b] is the block at its height at some
    moment between [n] and [n']. *)
Definition seen (n n' : EthNode) (b : BlockData) : Prop :=
  exists m, eth_evolves n m /\ eth_evolves m n' /\
    hv_hash (eth_view m) (blk_height b) = Some (blk_hash b) /\
    ExtractBaseData (eth_block (blk_hash b)) = Ok b.

Fixpoint follows (back : option BlockData) (l : list BlockData) : Prop :=
  match l with
  | [] => True
  | b :: l' => match back with Some a => blk_parent b = blk_hash a | None => True end /\
               follows (Some b) l'
  end.

Lemma collect_blocks_ok start n n' : forall k s back reps res,
  Forall2 (fun h rep => reply_error rep = 0 -> isNull (reply_result rep) = true \/
    exists m hash, eth_evolves n m /\ eth_evolves m n' /\
      hv_hash (eth_view m) h = Some hash /\ reply_result rep = eth_block hash)
    (heights s k) reps ->
  collect_blocks start back reps = Ok (Some res) ->
  length res = k /\ follows back res /\
  forall i b, res !! i = Some b -> blk_height b = s + Z.of_nat i /\ seen n n' b.
Proof.
  induction k as [|k IH]; intros s back reps res Hreps.
  { inversion Hreps. subst. intros [= <-]. split_and!; [done|done|]. intros i b Hi. done. }
  rewrite heights_S in Hreps. apply Forall2_cons_inv_l in Hreps as (r & reps' & Hr & Hreps & ->). cbn [collect_blocks].
  intros (u & He%rcheck_inv%Z.eqb_eq & H)%rbind_inv. specialize (Hr He).
  destruct (isNull (reply_result r)); [done|].
  destruct Hr as [?|(m & hash & Hm & Hm' & Hat & Hres)]; [done|]. rewrite Hres in H.
  apply rbind_inv in H as (blk & Eb & (u2 & _ & H)%rbind_inv).
  destruct (ExtractBaseData_inv _ _ _ _ Hat Eb) as (Hh & Hheight & Hpar).
  destruct (match back with Some b => negb (bool_decide (blk_parent blk = blk_hash b)) | None => false end)
    eqn:Elink; [done|].
  apply rbind_inv in H as ([rest|] & Er & H); [|done]. injection H as <-.
  destruct (IH (s + 1) (Some blk) reps' rest) as (Hlen & Hf & Hall); [done|done|].
  split_and!.
  - cbn. by rewrite Hlen.
  - cbn. split; [|done]. destruct back; [|done]. apply negb_false_iff, bool_decide_eq_true in Elink. done.
  - intros [|i] b Hi; cbn in Hi.
    + injection Hi as <-. split; [lia|]. exists m. subst hash. by rewrite Hheight.
    + destruct (Hall _ _ Hi) as [-> ?]. split; [lia|done].
Qed.

(** All blocks below a block of the chain are on the chain, too. *)
Lemma follows_down m l : forall i, follows None l ->
  (forall i b, l !! i = Some b -> 0 <= blk_height b /\
     ExtractBaseData (eth_block (blk_hash b)) = Ok b) ->
  (forall i b b', l !! i = Some b -> l !! S i = Some b' -> blk_height b' = blk_height b + 1) ->
  (forall b, last l = Some b -> hv_hash (eth_view m) (blk_height b) = Some (blk_hash b)) ->
  forall b, l !! i = Some b -> hv_hash (eth_view m) (blk_height b) = Some (blk_hash b).
Proof.
  intros i Hf Hb Hh Hlast b Hi. remember (length l - S i)%nat as d eqn:Ed.
  revert i b Hi Ed. induction d as [|d IH]; intros i b Hi Ed; pose proof (lookup_lt_Some _ _ _ Hi).
  { apply Hlast. rewrite last_lookup. replace (pred (length l)) with i by lia. done. }
  destruct (lookup_lt_is_Some_2 l (S i)) as [b' Hb']; [lia|].
  specialize (IH (S i) b' Hb' ltac:(lia)).
  destruct (Hb _ _ Hi) as [Hpos _]. destruct (Hb _ _ Hb') as [_ Hext].
  destruct (ExtractBaseData_inv _ _ _ _ IH Hext) as (_ & _ & Hpar).
  rewrite (Hh _ _ _ Hi Hb') in Hpar. specialize (Hpar ltac:(lia)).
  replace (blk_height b + 1 - 1) with (blk_height b) in Hpar by lia. rewrite Hpar. f_equal.
  clear -Hf Hi Hb'. revert i Hi Hb' Hf. generalize (@None BlockData).
  induction l as [|x l IH]; intros o [|i] Hi Hb' Hf; cbn in *; try done.
  - injection Hi as ->. destruct l as [|y l]; [done|]. cbn in *. injection Hb' as ->. apply Hf.
  - eapply IH; [exact Hi|exact Hb'|apply Hf].
Qed.

(** ** Moves *)

(** [b'] is [b] with the moves from its logs. *)
Definition with_moves (b b' : BlockData) : Prop :=
  exists e, process_logs contract (eth_logs (blk_hash b)) (new_block_extractor b) = Ok e /\
    b' = bme_blk e.

Lemma block_of_moves b b' : ExtractBaseData (eth_block (blk_hash b)) = Ok b ->
  with_moves b b' -> block_of (blk_hash b) = Ok b'.
Proof.
  intros Hb (e & He & ->). unfold block_of. rewrite Hb. cbn [mbind result_bind]. by rewrite He.
Qed.

Lemma add_moves_replies_ok blocks : forall reps res,
  Forall2 (fun h rep => reply_error rep = 0 -> isArray (reply_result rep) = true ->
    elements_of (reply_result rep) = eth_logs h) (map blk_hash blocks) reps ->
  add_moves_replies contract (zip blocks reps) = Ok (Some res) ->
  Forall2 with_moves blocks res.
Proof.
  induction blocks as [|b blocks IH]; intros reps res Hreps.
  { inversion Hreps. subst. intros [= <-]. constructor. }
  cbn [map] in Hreps. apply Forall2_cons_inv_l in Hreps as (r & reps' & Hr & Hreps & ->).
  cbn [zip zip_with add_moves_replies]. destruct (Z.eqb_spec (reply_error r) 0) as [He|]; [|done].
  cbn [negb]. intros (u & Harr%rcheck_inv & (e & Hp & (rest & Hrest & H)%rbind_inv)%rbind_inv)%rbind_inv.
  destruct rest as [rest|]; [|done]. injection H as <-.
  rewrite (items_array _ Harr), (Hr He Harr) in Hp. constructor; [by exists e|].
  by eapply IH.
Qed.

Lemma ProcessLogEntry_hash l e e' : ProcessLogEntry contract l e = Ok e' ->
  blk_hash (bme_blk e') = blk_hash (bme_blk e).
Proof.
  unfold ProcessLogEntry.
  intros (u & _ & (a & _ & H)%rbind_inv)%rbind_inv.
  destruct (parse_address a); [|done].
  repeat (apply rbind_inv in H as (? & _ & H)). by injection H as <-.
Qed.

Lemma process_for_at h l d e t es : Forall (fun x => blk_hash (bme_blk x) <> h) d ->
  blk_hash (bme_blk e) = h -> process_for contract h l (d ++ e :: t) = Ok es ->
  exists e', ProcessLogEntry contract l e = Ok e' /\ es = d ++ e' :: t.
Proof.
  intros Hd He. revert es. induction Hd as [|x d Hx Hd IH]; intros es; cbn [app process_for].
  - rewrite bool_decide_eq_true_2 by done. intros (e' & He' & H)%rbind_inv.
    injection H as <-. by exists e'.
  - rewrite bool_decide_eq_false_2 by done. intros (rest & Hr & H)%rbind_inv. injection H as <-.
    destruct (IH _ Hr) as (e' & ? & ->). by exists e'.
Qed.

(** The logs of one block all go to its extractor. *)
Lemma process_block logs more d t es : forall e,
  (forall l, l ∈ logs -> isObject l = true /\
     member l "blockHash" = of_string ("0x" ++ blk_hash (bme_blk e))) ->
  Forall (fun x => blk_hash (bme_blk x) <> blk_hash (bme_blk e)) d ->
  process_range contract (logs ++ more) (d ++ e :: t) = Ok es ->
  exists e', process_logs contract logs e = Ok e' /\
    process_range contract more (d ++ e' :: t) = Ok es /\
    blk_hash (bme_blk e') = blk_hash (bme_blk e).
Proof.
  induction logs as [|l logs IH]; intros e Hl Hd H; cbn [app process_range process_logs] in *.
  { by exists e. }
  destruct (Hl l) as [Hobj Hh]; [set_solver|].
  rewrite (field_object _ _ _ Hobj), Hh, asString_of_string in H. cbn [mbind result_bind] in H.
  rewrite ConvertUint256_prefix in H. cbn [mbind result_bind] in H.
  apply rbind_inv in H as (es1 & Hp & H).
  destruct (process_for_at _ _ _ _ _ _ Hd eq_refl Hp) as (e1 & He1 & ->). rewrite He1.
  pose proof (ProcessLogEntry_hash _ _ _ He1) as Hhash.
  destruct (IH e1) as (e' & He' & Hm & Hh'); [|by rewrite Hhash|done|].
  { intros l' Hl'. rewrite Hhash. apply Hl. set_solver. }
  exists e'. split_and!; [done|done|congruence].
Qed.

Lemma distinct_before d e t : NoDup (map (fun e => blk_hash (bme_blk e)) (d ++ e :: t)) ->
  Forall (fun x => blk_hash (bme_blk x) <> blk_hash (bme_blk e)) d.
Proof.
  rewrite map_app. intros (_ & Hdisj & _)%NoDup_app. apply Forall_forall. intros x Hx Heq.
  apply (Hdisj (blk_hash (bme_blk x))).
  - apply list_elem_of_fmap. by exists x.
  - rewrite Heq. left.
Qed.

(** The blocks of a chain have distinct hashes. *)
Lemma distinct_hashes m s l :
  (forall i b, l !! i = Some b -> hv_hash (eth_view m) (s + Z.of_nat i) = Some (blk_hash b)) ->
  NoDup (map blk_hash l).
Proof.
  intros Hl. apply NoDup_alt. intros i j h Hi Hj.
  apply list_lookup_fmap_Some in Hi as (b & -> & Hi). apply list_lookup_fmap_Some in Hj as (b' & Heq & Hj).
  pose proof (Hl i b Hi) as H1. pose proof (Hl j b' Hj) as H2. rewrite <- Heq in H2.
  pose proof (hash_height _ _ _ _ _ H1 H2). lia.
Qed.

Lemma process_blocks t : forall d es, NoDup (map (fun e => blk_hash (bme_blk e)) (d ++ t)) ->
  process_range contract (flat_map eth_logs (map (fun e => blk_hash (bme_blk e)) t)) (d ++ t)
    = Ok es ->
  exists t', es = d ++ t' /\
    Forall2 (fun e e' => process_logs contract (eth_logs (blk_hash (bme_blk e))) e = Ok e') t t'.
Proof.
  induction t as [|e t IH]; intros d es Hnd; cbn [map flat_map].
  { intros [= <-]. by exists []. }
  intros H.
  pose proof (distinct_before _ _ _ Hnd) as Hd.
  apply process_block in H as (e' & He' & Hmore & Hh'); [|by apply eth_log_block|done].
  change (d ++ e' :: t) with (d ++ [e'] ++ t) in Hmore. rewrite app_assoc in Hmore. destruct (IH (d ++ [e']) es) as (t' & -> & Ht').
  - rewrite map_app, map_app. rewrite map_app in Hnd. cbn [map] in *.
    rewrite <- app_assoc. cbn. by rewrite Hh'.
  - done.
  - exists (e' :: t'). split; [by rewrite <- app_assoc|]. by constructor.
Qed.

(** ** The whole range *)

Lemma collected_chain n n' s k reps res :
  Forall2 (fun h rep => reply_error rep = 0 -> isNull (reply_result rep) = true \/
    exists m hash, eth_evolves n m /\ eth_evolves m n' /\
      hv_hash (eth_view m) h = Some hash /\ reply_result rep = eth_block hash)
    (heights s k) reps ->
  0 <= s -> collect_blocks s None reps = Ok (Some res) -> res <> [] ->
  length res = k /\ exists m, eth_evolves n m /\ eth_evolves m n' /\
    forall i b, res !! i = Some b -> blk_height b = s + Z.of_nat i /\
      hv_hash (eth_view m) (s + Z.of_nat i) = Some (blk_hash b) /\
      ExtractBaseData (eth_block (blk_hash b)) = Ok b.
Proof.
  intros Hreps Hs Hc Hne. destruct (collect_blocks_ok s n n' k s None reps res Hreps Hc) as (Hlen & Hf & Hall).
  split; [done|]. destruct (last res) as [d|] eqn:Ed; [|by apply last_None in Ed].
  pose proof Ed as Hd. rewrite last_lookup in Hd.
  destruct (Hall _ _ Hd) as (_ & m & Hm & Hm' & Hat & _). exists m. split_and!; [done|done|].
  intros i b Hi. destruct (Hall _ _ Hi) as (Hh & m1 & _ & _ & _ & Hb).
  split_and!; [done| |done]. rewrite <- Hh.
  apply (follows_down m res i Hf); [| | |done].
  - intros j x Hx. destruct (Hall _ _ Hx) as (-> & m2 & _ & _ & _ & Hxb). split; [lia|done].
  - intros j x x' Hx Hx'. destruct (Hall _ _ Hx) as [-> _]. destruct (Hall _ _ Hx') as [-> _]. lia.
  - intros x Hx. assert (x = d) as -> by congruence. done.
Qed.

Lemma omap_heights (f : Z -> option string) l : forall s,
  (forall i b, l !! i = Some b -> f (s + Z.of_nat i) = Some (blk_hash b)) ->
  omap f (heights s (length l)) = map blk_hash l.
Proof.
  induction l as [|b l IH]; intros s Hf; [done|]. cbn [length]. rewrite heights_S.
  pose proof (Hf 0%nat b eq_refl) as H0. rewrite Z.add_0_r in H0. cbn. rewrite H0. f_equal.
  apply IH. intros i x Hi. rewrite <- (Hf (S i) x Hi). f_equal. lia.
Qed.

(** The logs of a range, when its blocks are final. *)
Lemma AddMovesFromHeightRange_ok n n' s res l : res <> [] -> 0 <= s ->
  s + Z.of_nat (length res) <= i64_max ->
  (forall i b, res !! i = Some b -> blk_height b = s + Z.of_nat i) ->
  (forall m i b, eth_evolves n m -> res !! i = Some b ->
     hv_hash (eth_view m) (s + Z.of_nat i) = Some (blk_hash b)) ->
  AddMovesFromHeightRange contract res n = (Ok l, n') ->
  eth_evolves n n' /\ Forall2 with_moves res l.
Proof.
  intros Hne Hs Hmax Hh Hfin. unfold AddMovesFromHeightRange. intros (u & n1 & Hc & H)%bind_Ok_inv.
  unfold lift in Hc. injection Hc as _ <-.
  destruct res as [|front rest] eqn:Er; [done|]. rewrite <- Er in *.
  destruct (last res) as [back|] eqn:Ed; [|by apply last_None in Ed; subst].
  rewrite last_lookup in Ed. pose proof (Hh 0%nat front ltac:(by rewrite Er)) as Hf.
  pose proof (Hh _ _ Ed) as Hb. assert (Hlen : (0 < length res)%nat) by (rewrite Er; cbn; lia).
  rewrite Hf, Hb, !i64_small in H by lia.
  apply bind_Ok_inv in H as (logs & n1 & Hq & H).
  destruct (eth_range_logs _ _ _ _ _ Hq) as [He Hlogs].
  apply bind_Ok_inv in H as (u2 & n2 & Hck & H). apply check_inv in Hck as [Harr <-].
  specialize (Hlogs _ eq_refl ltac:(lia) ltac:(unfold i64_max in *; lia) Harr).
  apply bind_Ok_inv in H as (es & n2 & Hp & H). unfold lift in Hp. injection Hp as Hp <-.
  unfold ret in H. injection H as <- <-. split; [done|].
  rewrite (items_array _ Harr), Hlogs in Hp.
  replace (Z.to_nat _) with (length res) in Hp by lia.
  replace (s + Z.of_nat 0) with s in Hp by lia.
  rewrite (omap_heights _ res) in Hp by (intros i b Hi; by apply Hfin).
  assert (Hmap : map (fun e => blk_hash (bme_blk e)) (map new_block_extractor res) = map blk_hash res)
    by by rewrite map_map.
  rewrite <- Hmap in Hp. destruct (process_blocks (map new_block_extractor res) [] es) as (t' & -> & Ht').
  - cbn [app]. rewrite Hmap. apply (distinct_hashes n1 s). intros i b Hi. by apply Hfin.
  - done.
  - cbn [app]. apply Forall2_fmap_l in Ht'. apply Forall2_fmap_r.
    eapply Forall2_impl; [exact Ht'|]. intros b e He'. by exists e.
Qed.

(** The blocks are those of the chain at [v]. *)
Lemma with_moves_slice m s res l : Forall2 with_moves res l ->
  (forall i b, res !! i = Some b -> hv_hash (eth_view m) (s + Z.of_nat i) = Some (blk_hash b) /\
     ExtractBaseData (eth_block (blk_hash b)) = Ok b) ->
  l = slice (eth_at (eth_view m)) s (length res).
Proof.
  intros Hw Hres. rewrite (Forall2_length _ _ _ Hw). apply slice_eq. intros i b' Hi.
  destruct (Forall2_lookup_r _ _ _ _ _ Hw Hi) as (b & Hb & Hm).
  destruct (Hres _ _ Hb) as [Hat Hx]. unfold eth_at. rewrite Hat. cbn [mbind option_bind].
  by rewrite (block_of_moves b b').
Qed.

(** The logs block by block. *)
Lemma AddMovesOneByOne_ok n n' res o : AddMovesOneByOne contract res n = (Ok o, n') ->
  eth_evolves n n' /\ match o with Some l => Forall2 with_moves res l | None => True end.
Proof.
  unfold AddMovesOneByOne. intros (reps & n1 & Hlb & H)%bind_Ok_inv.
  rewrite <- (map_map blk_hash (logs_call contract)) in Hlb.
  destruct (eth_batch_logs _ _ _ _ Hlb) as [Hn Hl]. specialize (Hl _ eq_refl).
  unfold lift in H. injection H as Ho <-. split; [done|].
  destruct o as [l|]; [|done]. by eapply add_moves_replies_ok.
Qed.

Lemma TryBlockRange_ok s e n o n' : 0 <= s -> e < 2 ^ 63 ->
  TryBlockRange depth contract s e n = (Ok o, n') ->
  eth_evolves n n' /\
  match o with
  | None => True
  | Some l => exists n0 n1, eth_evolves n n0 /\ eth_evolves n0 n1 /\ eth_evolves n1 n' /\
      l = slice (eth_at (eth_view n1)) s (Z.to_nat (Z.min e (hv_tip (eth_view n0)) + 1 - s))
  end.
Proof.
  intros Hs He63. unfold TryBlockRange. intros (hex & n0 & Hnum & H)%bind_Ok_inv.
  destruct (eth_number _ _ _ Hnum) as [He0 Htip]. specialize (Htip _ eq_refl).
  rewrite lift_Ok_bind with (a := hv_tip (eth_view n0)) in H by done.
  pose proof (eth_tip n0) as Ht0. set (tip := hv_tip (eth_view n0)) in *.
  replace (if tip <? e then tip else e) with (Z.min e tip) in H
    by (destruct (Z.ltb_spec tip e); lia).
  set (e' := Z.min e tip) in *. destruct (Z.ltb_spec e' s) as [Hlt|Hge].
  { unfold ret in H. injection H as <- <-. split; [done|]. exists n0, n0.
    split_and!; [done|done|done|]. replace (Z.to_nat _) with 0%nat by (fold tip e'; lia). done. }
  apply bind_Ok_inv in H as (reps & n2 & Hb & H).
  destruct (eth_batch_blocks _ _ _ _ (heights_range s e' ltac:(lia) ltac:(lia)) Hb) as [He2 Hreps]. specialize (Hreps _ eq_refl).
  assert (He02 : eth_evolves n n2) by by etrans.
  apply bind_Ok_inv in H as (o1 & n3 & Hc & H). unfold lift in Hc. injection Hc as Hc <-.
  destruct o1 as [res|]; [|unfold ret in H; by injection H as <- <-].
  destruct (last res) as [back|] eqn:Eback; [|done].
  assert (Hne : res <> []) by (intros ->; done).
  apply bind_Ok_inv in H as (u & n3 & Hck & H). apply check_inv in Hck as [_ <-].
  destruct (collected_chain _ _ _ _ _ _ Hreps Hs Hc Hne) as (Hlen & m & Hm & Hm' & Hall).
  assert (Hbase : forall i b, res !! i = Some b ->
     hv_hash (eth_view m) (s + Z.of_nat i) = Some (blk_hash b) /\
     ExtractBaseData (eth_block (blk_hash b)) = Ok b) by (intros i b Hi; by apply Hall).
  enough (Hw : forall l, eth_evolves n2 n' -> Forall2 with_moves res l ->
    exists n0 n1, eth_evolves n n0 /\ eth_evolves n0 n1 /\ eth_evolves n1 n' /\
      l = slice (eth_at (eth_view n1)) s (Z.to_nat (Z.min e (hv_tip (eth_view n0)) + 1 - s))).
  { destruct (Z.ltb_spec (e' + depth) tip) as [Hdeep|_].
    - apply bind_Ok_inv in H as (l & n3 & Hr & H). unfold ret in H. injection H as <- <-.
      destruct (AddMovesFromHeightRange_ok n2 n3 s res l) as [Hn Hl]; [done|done| | | |done|].
      + unfold i64_max. lia.
      + intros i b Hi. by apply Hall.
      + intros m1 i b Hm1 Hi. destruct (Hall _ _ Hi) as (_ & Hat & _).
        apply lookup_lt_Some in Hi as Hlt. rewrite <- Hat.
        transitivity (hv_hash (eth_view n0) (s + Z.of_nat i)); [|symmetry];
          (apply (eth_final (depth:=depth) n0); [first [by etrans|etrans; [exact He2|by etrans]]|fold tip; lia]).
      + split; [by etrans|]. by apply Hw.
    - destruct (AddMovesOneByOne_ok n2 n' res o H) as [Hn Hl]. split; [by etrans|].
      destruct o as [l|]; [by apply Hw|done]. }
  intros l Hn Hl. exists n0, m. split_and!; [done|done|by etrans|].
  rewrite (with_moves_slice m s res l Hl Hbase), Hlen. f_equal. fold tip e'. lia.
Qed.

Lemma try_again_ok fuel s e n l n' : 0 <= s -> e < 2 ^ 63 ->
  try_again depth fuel contract s e n = (Ok l, n') ->
  exists n0 n1, eth_evolves n n0 /\ eth_evolves n0 n1 /\ eth_evolves n1 n' /\
    l = slice (eth_at (eth_view n1)) s (Z.to_nat (Z.min e (hv_tip (eth_view n0)) + 1 - s)).
Proof.
  intros Hs He. revert n. induction fuel as [|fuel IH]; intros n; [done|]. cbn [try_again].
  intros (o & n1 & Ht & H)%bind_Ok_inv. destruct (TryBlockRange_ok s e n o n1 Hs He Ht) as [Hn Ho].
  destruct o as [res|].
  - unfold ret in H. by injection H as <- <-.
  - destruct (IH _ H) as (n0 & n2 & H0 & H2). exists n0, n2. split; [by etrans|done].
Qed.

(** ** A node that stands still *)

(** In the states with [R] the chain is [v], and all calls are answered. *)
Record eth_still (R : EthNode -> Prop) (v : HashView) : Prop := {
  es_view : forall n m n', R n -> R n' -> eth_evolves n m -> eth_evolves m n' -> eth_view m = v;
  es_number : forall n, R n -> exists s n', eth_blockNumber n = (Ok s, n') /\ R n';
  es_blocks : forall n hs, R n -> Forall (fun h => 0 <= h <= hv_tip v) hs ->
    exists reps n', eth_batch (map block_call hs) n = (Ok reps, n') /\ R n' /\
      Forall (fun r => reply_error r = 0 /\ isNull (reply_result r) = false) reps;
  es_logs : forall n hashes, R n ->
    exists reps n', eth_batch (map (logs_call contract) hashes) n = (Ok reps, n') /\ R n' /\
      Forall (fun r => reply_error r = 0 /\ isArray (reply_result r) = true) reps;
  es_range : forall n a b, R n -> 0 <= a <= b -> b <= hv_tip v ->
    exists x n', eth_getLogs (range_options contract a b) n = (Ok x, n') /\ R n' /\
      isArray x = true;
  es_parse : forall i h, hv_hash v i = Some h -> exists b, block_of h = Ok b
}.

Context (R : EthNode -> Prop) (v : HashView) (HR : eth_still R v).

Lemma still_view n : R n -> eth_view n = v.
Proof. intros Hn. by apply (es_view _ _ HR n n n). Qed.

(** The blocks of [v], before their moves are added. *)
Definition base_at (i : Z) (b : BlockData) : Prop :=
  hv_hash v i = Some (blk_hash b) /\ blk_height b = i /\
  ExtractBaseData (eth_block (blk_hash b)) = Ok b /\ exists b', with_moves b b'.

Lemma base_exists n i h : R n -> hv_hash v i = Some h -> exists b,
  ExtractBaseData (eth_block h) = Ok b /\ blk_hash b = h /\ base_at i b /\
  (0 < i -> hv_hash v (i - 1) = Some (blk_parent b)).
Proof.
  intros Hn Hi. destruct (es_parse _ _ HR i h Hi) as (b' & Hb').
  apply rbind_inv in Hb' as (b & Hb & (e & He & H)%rbind_inv).
  assert (Hv : hv_hash (eth_view n) i = Some h) by by rewrite still_view.
  destruct (ExtractBaseData_inv n i h b Hv Hb) as (Hh & Hheight & Hp).
  rewrite (still_view n Hn) in Hp. exists b. split_and!; [done|done| |done]. subst h.
  split_and!; [done|done|done|]. exists (bme_blk e), e. done.
Qed.

Lemma collect_blocks_still start n n' : R n -> R n' -> forall k s back reps,
  Forall2 (fun h rep => reply_error rep = 0 -> isNull (reply_result rep) = true \/
    exists m hash, eth_evolves n m /\ eth_evolves m n' /\
      hv_hash (eth_view m) h = Some hash /\ reply_result rep = eth_block hash)
    (heights s k) reps ->
  Forall (fun r => reply_error r = 0 /\ isNull (reply_result r) = false) reps ->
  0 <= s -> match back with Some b => base_at (s - 1) b /\ 0 < s | None => s = start end ->
  exists res, collect_blocks start back reps = Ok (Some res) /\ length res = k /\
    forall i b, res !! i = Some b -> base_at (s + Z.of_nat i) b.
Proof.
  intros Hn Hn'. induction k as [|k IH]; intros s back reps Hreps Hok Hs Hback.
  { inversion Hreps. subst. exists []. split_and!; [done|done|]. intros i b Hi. done. }
  rewrite heights_S in Hreps. apply Forall2_cons_inv_l in Hreps as (r & reps' & Hr & Hreps & ->).
  apply Forall_cons in Hok as [[He Hnn] Hok]. specialize (Hr He).
  destruct Hr as [?|(m & hash & Hm & Hm' & Hat & Hres)]; [congruence|].
  rewrite (es_view _ _ HR n m n' Hn Hn' Hm Hm') in Hat.
  destruct (base_exists n s hash Hn Hat) as (b & Hb & Hh & Hbase & Hpar).
  pose proof Hbase as (_ & Hheight & _).
  pose proof (proj1 (eth_heights n s)) as Hrange. pose proof (eth_tip n) as Htip.
  rewrite (still_view n Hn) in Hrange, Htip. specialize (Hrange (ex_intro _ _ Hat)).
  cbn [collect_blocks]. rewrite He, Hnn, Hres, Hb. cbn [rcheck mbind result_bind].
  assert (Hck : match back with
    | Some a => blk_height b =? u64 (blk_height a + 1)
    | None => blk_height b =? u64 start end = true).
  { destruct back as [a|]; apply Z.eqb_eq.
    - destruct Hback as [(_ & -> & _) _]. rewrite u64_small by (unfold u64_modulus; lia). lia.
    - subst s. rewrite u64_small by (unfold u64_modulus; lia). lia. }
  rewrite Hck. cbn [rcheck mbind result_bind].
  assert (Hlink : match back with
    | Some a => negb (bool_decide (blk_parent b = blk_hash a)) | None => false end = false).
  { destruct back as [a|]; [|done]. destruct Hback as [(Ha & _) Hpos]. apply negb_false_iff.
    apply bool_decide_eq_true. specialize (Hpar Hpos). congruence. }
  rewrite Hlink.
  destruct (IH (s + 1) (Some b) reps' Hreps Hok) as (res & -> & Hlen & Hall); [lia| |].
  { replace (s + 1 - 1) with s by lia. split; [done|lia]. }
  exists (b :: res). cbn [mbind result_bind option_map]. split_and!; [done|cbn; by rewrite Hlen|].
  intros [|i] b' Hi; cbn in Hi.
  - injection Hi as <-. by replace (s + Z.of_nat 0) with s by lia.
  - specialize (Hall _ _ Hi). by replace (s + Z.of_nat (S i)) with (s + 1 + Z.of_nat i) by lia.
Qed.

Lemma add_moves_still blocks : forall reps,
  Forall2 (fun h rep => reply_error rep = 0 -> isArray (reply_result rep) = true ->
    elements_of (reply_result rep) = eth_logs h) (map blk_hash blocks) reps ->
  Forall (fun r => reply_error r = 0 /\ isArray (reply_result r) = true) reps ->
  Forall (fun b => exists b', with_moves b b') blocks ->
  exists l, add_moves_replies contract (zip blocks reps) = Ok (Some l).
Proof.
  induction blocks as [|b blocks IH]; intros reps Hreps Hok Hb.
  { inversion Hreps. by exists []. }
  cbn [map] in Hreps. apply Forall2_cons_inv_l in Hreps as (r & reps' & Hr & Hreps & ->).
  apply Forall_cons in Hok as [[He Harr] Hok].
  apply Forall_cons in Hb as [(b' & e & Hp & ->) Hb].
  destruct (IH reps' Hreps Hok Hb) as (l & Hl).
  exists (bme_blk e :: l). cbn [zip zip_with add_moves_replies]. rewrite He. cbn [negb Z.eqb].
  rewrite Harr, (items_array _ Harr), (Hr He Harr). cbn [rcheck mbind result_bind].
  rewrite Hp. cbn [mbind result_bind]. rewrite Hl. done.
Qed.

(** The logs of a list of blocks, when they can all be processed. *)
Lemma process_for_total h l d e e' t : Forall (fun x => blk_hash (bme_blk x) <> h) d ->
  blk_hash (bme_blk e) = h -> ProcessLogEntry contract l e = Ok e' ->
  process_for contract h l (d ++ e :: t) = Ok (d ++ e' :: t).
Proof.
  intros Hd He Hp. induction Hd as [|x d Hx Hd IH]; cbn [app process_for].
  - rewrite bool_decide_eq_true_2 by done. by rewrite Hp.
  - rewrite bool_decide_eq_false_2 by done. by rewrite IH.
Qed.

Lemma process_block_total logs more d t : forall e e',
  (forall l, l ∈ logs -> isObject l = true /\
     member l "blockHash" = of_string ("0x" ++ blk_hash (bme_blk e))) ->
  Forall (fun x => blk_hash (bme_blk x) <> blk_hash (bme_blk e)) d ->
  process_logs contract logs e = Ok e' ->
  process_range contract (logs ++ more) (d ++ e :: t) = process_range contract more (d ++ e' :: t) /\
  blk_hash (bme_blk e') = blk_hash (bme_blk e).
Proof.
  induction logs as [|l logs IH]; intros e e' Hl Hd H; cbn [app process_range process_logs] in *.
  { by injection H as <-. }
  destruct (Hl l) as [Hobj Hh]; [set_solver|].
  rewrite (field_object _ _ _ Hobj), Hh, asString_of_string. cbn [mbind result_bind].
  rewrite ConvertUint256_prefix. cbn [mbind result_bind].
  apply rbind_inv in H as (e1 & He1 & H). pose proof (ProcessLogEntry_hash _ _ _ He1) as Hhash.
  rewrite (process_for_total _ l d e e1 t Hd eq_refl He1). cbn [mbind result_bind].
  destruct (IH e1 e') as [-> Hh']; [|by rewrite Hhash|done|by rewrite Hh', Hhash].
  intros l' Hl'. rewrite Hhash. apply Hl. set_solver.
Qed.

Lemma process_blocks_total t : forall d, NoDup (map (fun e => blk_hash (bme_blk e)) (d ++ t)) ->
  Forall (fun e => exists e', process_logs contract (eth_logs (blk_hash (bme_blk e))) e = Ok e') t ->
  exists es, process_range contract
    (flat_map eth_logs (map (fun e => blk_hash (bme_blk e)) t)) (d ++ t) = Ok es.
Proof.
  induction t as [|e t IH]; intros d Hnd Ht; cbn [map flat_map]; [by eexists|].
  apply Forall_cons in Ht as [(e' & He') Ht].
  pose proof (distinct_before _ _ _ Hnd) as Hd.
  edestruct (process_block_total (eth_logs (blk_hash (bme_blk e)))) as [-> Hh'];
    [by apply eth_log_block|exact Hd|exact He'|].
  change (d ++ e' :: t) with (d ++ [e'] ++ t). rewrite app_assoc. apply IH; [|done].
  rewrite map_app, map_app. rewrite map_app in Hnd. cbn [map] in *.
  rewrite <- app_assoc. cbn. by rewrite Hh'.
Qed.

Lemma check_heights_ok l : forall s last, 0 <= s -> s + Z.of_nat (length l) <= i64_max ->
  last = -1 \/ last = s - 1 ->
  (forall i b, l !! i = Some b -> blk_height b = s + Z.of_nat i) ->
  check_heights last l = Ok tt.
Proof.
  induction l as [|b l IH]; intros s last Hs Hmax Hlast Hl; [done|]. cbn [check_heights].
  cbn [length] in Hmax. pose proof (Hl 0%nat b eq_refl) as Hb. rewrite Z.add_0_r in Hb.
  assert (Hck : (last =? -1) || (blk_height b =? u64 (last + 1)) = true).
  { destruct Hlast as [-> | ->]; [done|]. rewrite Hb, u64_small by (unfold i64_max, u64_modulus in *; lia).
    apply orb_true_iff. right. apply Z.eqb_eq. lia. }
  rewrite Hck. cbn [rcheck mbind result_bind]. rewrite Hb, i64_small by lia.
  apply (IH (s + 1)); [lia|lia|right; lia|]. intros i x Hi. rewrite (Hl (S i) x Hi). lia.
Qed.

Lemma AddMovesFromHeightRange_still n s res : R n -> res <> [] -> 0 <= s ->
  s + Z.of_nat (length res) <= hv_tip v + 1 ->
  (forall i b, res !! i = Some b -> base_at (s + Z.of_nat i) b) ->
  exists l n', AddMovesFromHeightRange contract res n = (Ok l, n') /\ R n'.
Proof.
  intros Hn Hne Hs Hmax Hres. unfold AddMovesFromHeightRange.
  pose proof (eth_tip n) as Htip. rewrite (still_view n Hn) in Htip.
  assert (Hh : forall i b, res !! i = Some b -> blk_height b = s + Z.of_nat i)
    by (intros i b Hi; by apply Hres).
  rewrite lift_Ok_bind with (a := tt)
    by (apply (check_heights_ok res s); [done|unfold i64_max; lia|by left|done]).
  destruct res as [|front rest] eqn:Er; [done|]. rewrite <- Er in *.
  destruct (last res) as [back|] eqn:Ed; [|by apply last_None in Ed; subst].
  rewrite last_lookup in Ed. pose proof (Hh 0%nat front ltac:(by rewrite Er)) as Hf.
  pose proof (Hh _ _ Ed) as Hb. assert (Hlen : (0 < length res)%nat) by (rewrite Er; cbn; lia).
  rewrite Hf, Hb, !i64_small by (unfold i64_max; lia).
  destruct (es_range _ _ HR n (s + Z.of_nat 0) (s + Z.of_nat (pred (length res))) Hn)
    as (x & n1 & Hq & Hn1 & Harr); [lia|lia|].
  rewrite (bind_Ok _ _ _ _ _ Hq), check_true by done.
  destruct (eth_range_logs _ _ _ _ _ Hq) as [_ Hlogs]. specialize (Hlogs _ eq_refl ltac:(lia) ltac:(unfold i64_max in *; lia) Harr).
  rewrite (items_array _ Harr), Hlogs, (still_view n1 Hn1).
  replace (Z.to_nat _) with (length res) by lia. replace (s + Z.of_nat 0) with s by lia.
  rewrite (omap_heights _ res) by (intros i b Hi; by apply Hres).
  assert (Hmap : map (fun e => blk_hash (bme_blk e)) (map new_block_extractor res) = map blk_hash res)
    by by rewrite map_map.
  rewrite <- Hmap. destruct (process_blocks_total (map new_block_extractor res) []) as (es & Hes).
  - cbn [app]. rewrite Hmap. apply (distinct_hashes n s). intros i b Hi. rewrite still_view by done.
    by apply Hres.
  - apply Forall_fmap, Forall_lookup. intros i b Hi. destruct (Hres _ _ Hi) as (_ & _ & _ & b' & e & He & _).
    by exists e.
  - cbn [app] in Hes. rewrite lift_Ok_bind with (a := es) by done. by eexists _, n1.
Qed.

Lemma TryBlockRange_still s e n : R n -> 0 <= s -> e < 2 ^ 63 ->
  exists l n', TryBlockRange depth contract s e n = (Ok (Some l), n') /\ R n'.
Proof.
  intros Hn Hs He63. unfold TryBlockRange.
  destruct (es_number _ _ HR n Hn) as (hex & n0 & Hnum & Hn0).
  destruct (eth_number _ _ _ Hnum) as [_ Htip]. specialize (Htip _ eq_refl).
  pose proof (eth_tip n0) as Ht0. rewrite (still_view n0 Hn0) in Htip, Ht0.
  rewrite (bind_Ok _ _ _ _ _ Hnum), lift_Ok_bind with (a := hv_tip v) by done.
  replace (if hv_tip v <? e then hv_tip v else e) with (Z.min e (hv_tip v))
    by (destruct (Z.ltb_spec (hv_tip v) e); lia).
  set (e' := Z.min e (hv_tip v)). destruct (Z.ltb_spec e' s) as [Hlt|Hge]; [by eexists [], n0|].
  destruct (es_blocks _ _ HR n0 (heights s (Z.to_nat (e' - s + 1))) Hn0)
    as (reps & n1 & Hb & Hn1 & Hok).
  { apply Forall_fmap, Forall_forall. intros i Hi%elem_of_seq. cbn. lia. }
  rewrite (bind_Ok _ _ _ _ _ Hb). destruct (eth_batch_blocks _ _ _ _ (heights_range s e' ltac:(lia) ltac:(lia)) Hb) as [_ Hreps].
  destruct (collect_blocks_still s n0 n1 Hn0 Hn1 _ s None reps (Hreps _ eq_refl) Hok Hs eq_refl)
    as (res & Hres & Hlen & Hall).
  rewrite lift_Ok_bind with (a := Some res) by done.
  destruct (last res) as [back|] eqn:Ed; [|apply last_None in Ed; subst res; cbn in Hlen; lia].
  assert (Hne : res <> []) by (intros ->; done).
  pose proof Ed as Hd. rewrite last_lookup in Hd. pose proof (Hall _ _ Hd) as (_ & Hback & _).
  rewrite check_true by (apply Z.eqb_eq; rewrite Hback, u64_small; unfold u64_modulus; lia).
  destruct (e' + depth <? hv_tip v).
  - destruct (AddMovesFromHeightRange_still n1 s res Hn1 Hne Hs) as (l & n2 & Hr & Hn2); [lia|done|].
    rewrite (bind_Ok _ _ _ _ _ Hr). by eexists _, n2.
  - unfold AddMovesOneByOne. rewrite <- (map_map blk_hash (logs_call contract)).
    destruct (es_logs _ _ HR n1 (map blk_hash res) Hn1) as (reps2 & n2 & Hl & Hn2 & Hok2).
    rewrite (bind_Ok _ _ _ _ _ Hl). destruct (eth_batch_logs _ _ _ _ Hl) as [_ Hreps2].
    destruct (add_moves_still res reps2 (Hreps2 _ eq_refl) Hok2) as (l & Hlres).
    { apply Forall_lookup. intros i b Hi. by apply (Hall i b). }
    exists l, n2. split; [|done]. unfold lift. by rewrite Hlres.
Qed.
End Range.

Section Theorems.
Context {J : JsonCpp} {JR : JsonReader} {JRL : JsonReaderLaws JR} {EN : Encodings}
  {EU : EthUtils} {CO : ContractConstants} {EC : EthClient}.

(** C19.  Block ranges of an EVM node are consistent: although the calls that
    [GetBlockRange] makes, and the calls of a batch, are answered at different
    moments, the result are consecutive blocks, with exactly their moves, of the
    chain that the node had at one moment [n1]; they reach up to the requested end or
    the tip of an earlier moment [n0] of the call. *)
Theorem eth_range_atomic (contract : string) (depth : Z) {EL : EthLaws EC contract depth}
    (fuel : nat) (start count : Z) (n n' : EthNode) (l : list BlockData)
    (Hstart : 0 <= start) (Hcount : 0 <= count) (Hend : start + count < 2 ^ 63)
    (Hrun : eth_GetBlockRange depth fuel contract start count n = (Ok l, n')) :
  exists n0 n1, eth_evolves n n0 /\ eth_evolves n0 n1 /\ eth_evolves n1 n' /\
    l = slice (eth_at contract depth (eth_view n1)) start
          (Z.to_nat (Z.min count (hv_tip (eth_view n0) + 1 - start))).
Proof.
  unfold eth_GetBlockRange in Hrun. destruct (Z.eqb_spec count 0) as [->|Hc].
  { unfold ret in Hrun. injection Hrun as <- <-. exists n, n. split_and!; [done..|].
    by replace (Z.to_nat _) with 0%nat by lia. }
  rewrite u64_small in Hrun by (unfold u64_modulus; lia).
  apply bind_Ok_inv in Hrun as (u & n1 & Hck & Hrun). apply check_inv in Hck as [_ <-].
  rewrite !i64_small in Hrun by (unfold i64_max; lia).
  destruct (try_again_ok contract depth fuel start (start + count - 1) n l n' Hstart ltac:(lia) Hrun)
    as (n0 & n1 & H0 & H1 & H2 & ->).
  exists n0, n1. split_and!; [done..|]. f_equal. lia.
Qed.

Lemma eth_Serves (contract : string) (depth : Z) {EL : EthLaws EC contract depth}
    (R : EthNode -> Prop) (v : HashView) (fuel : nat)
    (HR : eth_still contract depth R v) (Hfuel : (0 < fuel)%nat) :
  Serves (eth_chain depth fuel) (fun s => R (ec_node s) /\ accountsContract s = contract)
    (hv_tip v) (eth_at contract depth v).
Proof.
  split.
  - intros s [Hs Hc]. destruct (es_number _ _ _ _ HR _ Hs) as (hex & n' & Hrun & Hn').
    destruct (eth_number _ _ _ Hrun) as [_ Hp]. specialize (Hp _ eq_refl).
    pose proof (eth_tip n') as Ht. rewrite (still_view _ _ R v HR n' Hn') in Hp, Ht.
    exists (set_node n' s). split; [|split; [exact Hn'|exact Hc]].
    cbn. unfold on_node, zoom, eth_GetTipHeight.
    rewrite (bind_Ok _ _ _ _ _ Hrun), lift_Ok_bind with (a := hv_tip v) by done.
    unfold ret. rewrite u64_small by (unfold u64_modulus; lia). done.
  - intros s start count [Hs Hc] Hst Hcnt. destruct fuel as [|fuel]; [lia|].
    cbn [bc_GetBlockRange eth_chain]. rewrite get_bind, Hc. unfold on_node, zoom, eth_GetBlockRange.
    destruct (Z.eqb_spec count 0) as [->|Hc0].
    { exists s. split; [|done]. by destruct s. }
    rewrite u64_small by (unfold i64_max, u64_modulus in *; lia).
    rewrite check_true by (apply Z.leb_le; lia). rewrite (i64_small start) by done. cbn [try_again].
    set (e := i64 (start + count - 1)).
    assert (He : e < 2 ^ 63 /\ (start <= hv_tip v -> e = start + count - 1) /\
                 (e < start \/ e = start + count - 1)).
    { pose proof (eth_tip (ec_node s)) as Ht. rewrite (still_view _ _ R v HR _ Hs) in Ht.
      unfold e, i64, i64_max, u64_modulus in *. rewrite Z.mod_small by lia.
      destruct (Z.leb_spec (start + count - 1) (2 ^ 63 - 1)); lia. }
    destruct He as (He63 & He1 & He2).
    destruct (TryBlockRange_still contract depth R v HR start e (ec_node s) Hs) as (l & n' & Hrun & Hn');
      [lia|done|].
    rewrite (bind_Ok _ _ _ _ _ Hrun).
    destruct (TryBlockRange_ok contract depth start e (ec_node s) (Some l) n') as [_ Hl]; [lia|done|done|].
    destruct Hl as (n0 & n1 & H0 & H1 & H2 & ->).
    assert (Hv1 : eth_view n1 = v)
      by (apply (es_view _ _ _ _ HR (ec_node s) n1 n' Hs Hn'); [by etrans|done]).
    assert (Hv0 : eth_view n0 = v)
      by (apply (es_view _ _ _ _ HR (ec_node s) n0 n' Hs Hn'); [done|by etrans]).
    exists (set_node n' s). split; [|split; [exact Hn'|done]]. unfold ret. rewrite Hv0, Hv1. do 2 f_equal.
    assert (Habove : forall i, hv_tip v < i -> eth_at contract depth v i = None)
      by (intros i Hi; rewrite <- Hv1; apply eth_at_above; by rewrite Hv1).
    destruct (Z.le_gt_cases start (hv_tip v)) as [Hle|Hgt].
    + rewrite (He1 Hle). destruct (Z.le_gt_cases (start + count - 1) (hv_tip v)); [f_equal; lia|].
      symmetry. apply slice_beyond; [lia|]. apply Habove. lia.
    + replace (Z.to_nat (Z.min e _ + 1 - start)) with 0%nat by lia. symmetry.
      apply (slice_beyond _ 0); [lia|]. apply Habove. lia.
Qed.

(** The connector of an EVM node that stands still and answers satisfies the
    contract of a base chain: it serves exactly the node's chain, at the first
    attempt. *)
Theorem eth_serves (contract : string) (depth : Z) {EL : EthLaws EC contract depth}
    (R : EthNode -> Prop) (v : HashView) (fuel : nat)
    (HR : eth_still contract depth R v) (Hfuel : (0 < fuel)%nat) :
  Serves (eth_chain depth fuel) (fun s => R (ec_node s) /\ accountsContract s = contract)
    (hv_tip v) (eth_at contract depth v).
Proof. by apply eth_Serves. Qed.
End Theorems.
