(* ===== verification/WebSocket.v ===== *)
(** * Subscriptions over a WebSocket (eth/websocket.cpp, eth/websocket.hpp)

    [WebSocketSubscriber] subscribes to new chain tips and pending transactions of an EVM
    node and calls back for the notifications that come in.  The connection of the
    websocketpp library is the parameter [WsNet].  Its event loop is a thread of its own, on
    which the handlers run one after the other: each is one operation here. *)

From S2P Require Import Prelude Json JsonRead BlockData BaseChain CoreChain EthUtils EthPending EthChain.

(** [ws_open url] connects; [ws_send] sends a text on the connection.  [readStream] and
    [writeStream] are the stream operators of jsoncpp. *)
Class WsNet {J : JsonCpp} := {
  WsConn : Type;
  ws_open : string -> M WsConn unit;
  ws_close : M WsConn unit;
  ws_send : string -> M WsConn unit;
  readStream : string -> result Value;
  writeStream : Value -> string
}.

Section Subscriber.
Context {J : JsonCpp} {JR : JsonReader} {WN : WsNet} {S : Type}.

(** The interface [WebSocketSubscriber::Callbacks], acting on a state [S]. *)
Record WsCallbacks := {
  wcb_NewTip : string -> M S unit;
  wcb_NewPendingTx : string -> M S unit
}.

Record Connection := {
  subNewHeads : string;
  subPendingTx : string
}.

(** The subscriber: [connection] is [None] for a null pointer. *)
Record WebSocketSubscriber := {
  ws_conn : WsConn;
  ws_rest : S;
  endpoint : string;
  connection : option Connection
}.

Definition on_ws {A} (m : M WsConn A) : M WebSocketSubscriber A :=
  zoom ws_conn (fun c s => {| ws_conn := c; ws_rest := ws_rest s; endpoint := endpoint s;
                              connection := connection s |}) m.

Definition on_rest {A} (m : M S A) : M WebSocketSubscriber A :=
  zoom ws_rest (fun t s => {| ws_conn := ws_conn s; ws_rest := t; endpoint := endpoint s;
                              connection := connection s |}) m.

Definition set_connection (c : option Connection) (s : WebSocketSubscriber)
  : WebSocketSubscriber :=
  {| ws_conn := ws_conn s; ws_rest := ws_rest s; endpoint := endpoint s; connection := c |}.

Definition ID_NEW_HEADS : Z := 1.
Definition ID_PENDING_TX : Z := 2.

Definition subscribe_request (id : Z) (type : string) : Value :=
  set_member (set_member (set_member (set_member objectValue
    "jsonrpc" (of_string "2.0"))
    "id" (of_int id))
    "method" (of_string "eth_subscribe"))
    "params" (append arrayValue (of_string type)).

Definition SendSubscribe (id : Z) (type : string) : M WebSocketSubscriber unit :=
  on_ws (ws_send (writeStream (subscribe_request id type))).

(** The open handler. *)
Definition HandleOpen : M WebSocketSubscriber unit := SendSubscribe ID_NEW_HEADS "newHeads".

(** [Json::Value::isMember], which throws unless the value is an object or null. *)
Definition has_member (v : Value) (k : string) : result bool :=
  if isObject v then Ok (isMember v k)
  else if isNull v then Ok false
  else Throw (StdException "Json::LogicError").

(** A reply to a request to subscribe. *)
Definition handle_result (data : Value) : M WebSocketSubscriber unit :=
  s <- get;;
  match connection s with
  | None => undefined
  | Some c =>
      id <- lift (asInt (member data "id"));;
      if id =? ID_NEW_HEADS then
        sub <- lift (asString (member data "result"));;
        modify (set_connection (Some {| subNewHeads := sub; subPendingTx := subPendingTx c |}))
      else if id =? ID_PENDING_TX then
        sub <- lift (asString (member data "result"));;
        modify (set_connection (Some {| subNewHeads := subNewHeads c; subPendingTx := sub |}))
      else fatal
  end.

Section Handlers.
Context (cb : WsCallbacks).

Definition handle_notification (params : Value) : M WebSocketSubscriber unit :=
  check (isObject params);;
  sub <- lift (asString (member params "subscription"));;
  let result := member params "result" in
  s <- get;;
  match connection s with
  | None => undefined
  | Some c =>
      if bool_decide (sub = subNewHeads c) then
        check (isObject result);;
        tip <- lift (asString (member result "hash"));;
        on_rest (wcb_NewTip cb tip)
      else if bool_decide (sub = subPendingTx c) then
        check (isString result);;
        txid <- lift (asString result);;
        on_rest (wcb_NewPendingTx cb txid)
      else ret tt
  end.

Definition HandleMessage (payload : string) : M WebSocketSubscriber unit :=
  data <- lift (readStream payload);;
  isResult <- lift (has_member data "result");;
  (if (isResult : bool) then handle_result data else ret tt);;
  isMethod <- lift (has_member data "method");;
  if (isMethod : bool) then
    method <- lift (asString (member data "method"));;
    if bool_decide (method = "eth_subscription"%string)
    then handle_notification (member data "params") else ret tt
  else ret tt.
End Handlers.

(** ** The subscriber *)

Definition sub_Start : M WebSocketSubscriber unit :=
  s <- get;;
  on_ws (ws_open (endpoint s));;
  modify (set_connection (Some {| subNewHeads := ""; subPendingTx := "" |})).

Definition sub_EnablePending : M WebSocketSubscriber unit :=
  s <- get;;
  check (match connection s with Some _ => true | None => false end);;
  SendSubscribe ID_PENDING_TX "newPendingTransactions".

Definition sub_Stop : M WebSocketSubscriber unit :=
  s <- get;;
  match connection s with
  | Some _ => on_ws ws_close;; modify (set_connection None)
  | None => ret tt
  end.
End Subscriber.

Arguments WsCallbacks S : clear implicits.
Arguments WebSocketSubscriber {J WN} S.

(** The callbacks of the EVM connector. *)
Definition eth_callbacks {J : JsonCpp} {JR : JsonReader} {EN : Encodings} {EU : EthUtils}
    {CO : ContractConstants} {EC : EthClient} {S} (cb : option (Callbacks S))
  : WsCallbacks (EthChain * S) :=
  {| wcb_NewTip := NewTip cb; wcb_NewPendingTx := NewPendingTx cb |}.

(** ** The protocol

    The messages of a node, for the ids [H] and [Q] of the two subscriptions. *)
Inductive ws_message :=
  | MConfirmHeads
  | MConfirmPending
  | MHead (hash : string)
  | MTx (txid : string)
  | MOther.

Inductive ws_event :=
  | ETip (hash : string)
  | ETx (txid : string).

Section Protocol.
Context {J : JsonCpp} {JR : JsonReader} {JRL : JsonReaderLaws JR} {WN : WsNet} {S : Type}.
Context (cb : WsCallbacks S) (H Q : string).
Context (Hne : H <> EmptyString) (Qne : Q <> EmptyString) (HQ : H <> Q).

(** The notification is one of the subscription [sub], with the given result. *)
Definition notification (v : Value) (sub : string) (ok : Value -> Prop) : Prop :=
  isMember v "result" = false /\ isMember v "method" = true /\
  member v "method" = of_string "eth_subscription" /\
  isObject (member v "params") = true /\
  member (member v "params") "subscription" = of_string sub /\
  ok (member (member v "params") "result").

Definition confirmation (v : Value) (id : Z) (sub : string) : Prop :=
  isMember v "result" = true /\ member v "id" = of_int id /\
  member v "result" = of_string sub /\ isMember v "method" = false.

(** What the JSON of a message is; further members are ignored. *)
Definition says (v : Value) (m : ws_message) : Prop :=
  isObject v = true /\
  match m with
  | MConfirmHeads => confirmation v ID_NEW_HEADS H
  | MConfirmPending => confirmation v ID_PENDING_TX Q
  | MHead hash => notification v H (fun r => isObject r = true /\ member r "hash" = of_string hash)
  | MTx txid => notification v Q (fun r => isString r = true /\ r = of_string txid)
  | MOther => isMember v "result" = false /\ isMember v "method" = false
  end.

(** The notifications that come after the confirmation of their subscription. *)
Fixpoint delivered (heads pend : bool) (msgs : list ws_message) : list ws_event :=
  match msgs with
  | [] => []
  | MConfirmHeads :: l => delivered true pend l
  | MConfirmPending :: l => delivered heads true l
  | MHead hash :: l => (if heads then [ETip hash] else []) ++ delivered heads pend l
  | MTx txid :: l => (if pend then [ETx txid] else []) ++ delivered heads pend l
  | MOther :: l => delivered heads pend l
  end.

Definition notify (e : ws_event) : M S unit :=
  match e with
  | ETip hash => wcb_NewTip cb hash
  | ETx txid => wcb_NewPendingTx cb txid
  end.

(** The subscriptions that have been confirmed. *)
Definition confirmed (heads pend : bool) : Connection :=
  {| subNewHeads := if heads then H else EmptyString;
     subPendingTx := if pend then Q else EmptyString |}.

Lemma has_member_object v k : isObject v = true -> has_member v k = Ok (isMember v k).
Proof. intros Hv. unfold has_member. by rewrite Hv. Qed.

Lemma handle_message_object p v (s : WebSocketSubscriber S) :
  readStream p = Ok v -> isObject v = true ->
  HandleMessage cb p s =
  ((if isMember v "result" then handle_result v else ret tt);;
   if isMember v "method" then
     method <- lift (asString (member v "method"));;
     if bool_decide (method = "eth_subscription"%string)
     then handle_notification cb (member v "params") else ret tt
   else ret tt) s.
Proof.
  intros Hp Hv. unfold HandleMessage. rewrite lift_Ok_bind with (a := v) by done.
  rewrite lift_Ok_bind with (a := isMember v "result") by by apply has_member_object.
  apply bind_ext; [done|]. intros _ s'.
  by rewrite lift_Ok_bind with (a := isMember v "method") by by apply has_member_object.
Qed.

Lemma confirmation_run p v id sub c (s : WebSocketSubscriber S) :
  readStream p = Ok v -> isObject v = true -> confirmation v id sub ->
  connection s = Some c -> id = ID_NEW_HEADS \/ id = ID_PENDING_TX ->
  HandleMessage cb p s = (Ok tt, set_connection (Some
    (if id =? ID_NEW_HEADS then {| subNewHeads := sub; subPendingTx := subPendingTx c |}
     else {| subNewHeads := subNewHeads c; subPendingTx := sub |})) s).
Proof.
  intros Hp Hv (Hr & Hi & Hs & Hm) Hc Hid.
  rewrite (handle_message_object p v), Hr, Hm by done. unfold handle_result.
  rewrite bind_assoc, get_bind, Hc, bind_assoc, Hi.
  rewrite lift_Ok_bind with (a := id) by (apply asInt_of_int; destruct Hid; subst; done).
  destruct Hid as [-> | ->]; cbn [Z.eqb ID_NEW_HEADS ID_PENDING_TX Pos.eqb];
    rewrite bind_assoc, Hs, lift_Ok_bind with (a := sub) by apply asString_of_string; done.
Qed.

Lemma notification_run p v sub ok c (s : WebSocketSubscriber S) :
  readStream p = Ok v -> isObject v = true -> notification v sub ok -> connection s = Some c ->
  exists r, ok r /\ HandleMessage cb p s =
    (if bool_decide (sub = subNewHeads c) then
       check (isObject r);; tip <- lift (asString (member r "hash"));; on_rest (wcb_NewTip cb tip)
     else if bool_decide (sub = subPendingTx c) then
       check (isString r);; txid <- lift (asString r);; on_rest (wcb_NewPendingTx cb txid)
     else ret tt) s.
Proof.
  intros Hp Hv (Hr & Hm & Hmm & Ho & Hs & Hok) Hc. eexists. split; [exact Hok|].
  rewrite (handle_message_object p v), Hr, Hm, ret_bind, Hmm by done.
  rewrite lift_Ok_bind with (a := "eth_subscription"%string) by apply asString_of_string.
  rewrite bool_decide_eq_true_2 by done. unfold handle_notification.
  rewrite check_true, Hs by done. rewrite lift_Ok_bind with (a := sub) by apply asString_of_string.
  by rewrite get_bind, Hc.
Qed.

(** One message: the callbacks are those for [delivered]. *)
Lemma message_run p v m heads pend (s : WebSocketSubscriber S) :
  readStream p = Ok v -> says v m -> connection s = Some (confirmed heads pend) ->
  exists heads' pend',
    (forall l, delivered heads pend (m :: l) = delivered heads pend [m] ++ delivered heads' pend' l) /\
    let '(r, t) := forM (delivered heads pend [m]) notify (ws_rest s) in
    exists s', HandleMessage cb p s = (r, s') /\ ws_rest s' = t /\
      connection s' = Some (confirmed heads' pend').
Proof.
  intros Hp [Hv Hm] Hc. destruct m as [| |hash|txid|].
  - exists true, pend. split; [done|]. eexists.
    split; [by apply (confirmation_run p v ID_NEW_HEADS H (confirmed heads pend)); auto|]. done.
  - exists heads, true. split; [done|]. eexists.
    split; [by apply (confirmation_run p v ID_PENDING_TX Q (confirmed heads pend)); auto|]. done.
  - exists heads, pend. split; [intros l; by destruct heads|].
    destruct (notification_run _ _ _ _ _ _ Hp Hv Hm Hc) as (r & (Ho & Hh) & ->).
    cbn [subNewHeads subPendingTx confirmed delivered]. destruct heads; cbn [forM app].
    + rewrite bool_decide_eq_true_2, check_true, Hh by done.
      rewrite lift_Ok_bind with (a := hash) by apply asString_of_string.
      unfold on_rest, zoom, notify, bind. destruct (wcb_NewTip cb hash (ws_rest s)) as [[[]|e| | |] t];
        by eexists.
    + rewrite bool_decide_eq_false_2 by done.
      rewrite bool_decide_eq_false_2 by (by destruct pend). by eexists.
  - exists heads, pend. split; [intros l; by destruct pend|].
    destruct (notification_run _ _ _ _ _ _ Hp Hv Hm Hc) as (r & (Ho & Hh) & ->).
    cbn [subNewHeads subPendingTx confirmed delivered].
    rewrite bool_decide_eq_false_2 by (by destruct heads). destruct pend; cbn [forM app].
    + rewrite bool_decide_eq_true_2, check_true by done. rewrite Hh.
      rewrite lift_Ok_bind with (a := txid) by apply asString_of_string.
      unfold on_rest, zoom, notify, bind.
      destruct (wcb_NewPendingTx cb txid (ws_rest s)) as [[[]|e| | |] t]; by eexists.
    + rewrite bool_decide_eq_false_2 by done. by eexists.
  - exists heads, pend. split; [done|]. destruct Hm as [Hr Hmm].
    rewrite (handle_message_object p v), Hr, Hmm by done. by eexists.
Qed.

Lemma messages_run ps ms : Forall2 (fun p m => exists v, readStream p = Ok v /\ says v m) ps ms ->
  forall heads pend (s : WebSocketSubscriber S), connection s = Some (confirmed heads pend) ->
  let '(r, t) := forM (delivered heads pend ms) notify (ws_rest s) in
  exists s', forM ps (HandleMessage cb) s = (r, s') /\ ws_rest s' = t.
Proof.
  induction 1 as [|p m ps ms (v & Hp & Hm) _ IH]; intros heads pend s Hc; [by eexists|].
  destruct (message_run p v m heads pend s Hp Hm Hc) as (heads' & pend' & Hd & Hrun).
  rewrite (Hd ms). destruct (forM (delivered heads pend [m] ++ delivered heads' pend' ms) notify (ws_rest s)) as [r t] eqn:E.
  rewrite forM_app in E. cbn [forM]. unfold bind in E |- *.
  destruct (forM (delivered heads pend [m]) notify (ws_rest s)) as [r1 t1].
  destruct Hrun as (s1 & -> & <- & Hc1).
  destruct r1 as [[]|e| | |]; try (injection E as <- <-; by eexists).
  specialize (IH heads' pend' s1 Hc1). rewrite E in IH. exact IH.
Qed.
End Protocol.

(** C28. The subscriber calls back for just the notifications that the node sends after it has
    confirmed their subscription, in the order of the messages, whatever else comes in
    between: the run of the message handler is that of the callbacks, with the same outcome
    also if a callback fails. *)
Theorem messages_delivered {J : JsonCpp} {JR : JsonReader} {JRL : JsonReaderLaws JR} {WN : WsNet}
    {S : Type} (cb : WsCallbacks S) (H Q : string)
    (Hne : H <> EmptyString) (Qne : Q <> EmptyString) (HQ : H <> Q)
    (payloads : list string) (msgs : list ws_message) (s : WebSocketSubscriber S)
    (Hmsgs : Forall2 (fun p m => exists v, readStream p = Ok v /\ says H Q v m) payloads msgs)
    (Hc : connection s = Some {| subNewHeads := ""; subPendingTx := "" |}) :
  exists s', forM payloads (HandleMessage cb) s =
      ((forM (delivered false false msgs) (notify cb) (ws_rest s)).1, s') /\
    ws_rest s' = (forM (delivered false false msgs) (notify cb) (ws_rest s)).2.
Proof.
  pose proof (messages_run cb H Q Hne Qne HQ payloads msgs Hmsgs false false s Hc) as Hrun.
  by destruct (forM (delivered false false msgs) (notify cb) (ws_rest s)) as [r t].
Qed.

(** ** An example *)
Module WsSample.
Import Model ReaderModel.

(** A text is the number of a message. *)
Definition texts (p : string) : option (@Value model) :=
  let note (sub : string) (r : json) := JObj [("method", JStr "eth_subscription");
    ("params", JObj [("subscription", JStr sub); ("result", r)])]%string in
  if bool_decide (p = "1")%string then Some (note "0xa" (JObj [("hash", JStr "0xold")]%string))
  else if bool_decide (p = "2")%string then
    Some (JObj [("id", JInt 1); ("result", JStr "0xa")]%string)
  else if bool_decide (p = "3")%string then Some (note "0xb" (JStr "0xtx1"))
  else if bool_decide (p = "4")%string then
    Some (note "0xa" (JObj [("hash", JStr "0xnew"); ("number", JStr "0x5")]%string))
  else if bool_decide (p = "5")%string then
    Some (JObj [("id", JInt 2); ("result", JStr "0xb")]%string)
  else if bool_decide (p = "6")%string then Some (note "0xb" (JStr "0xtx2"))
  else None.

#[export] Instance net : WsNet := {|
  WsConn := list string;
  ws_open _ := ret tt;
  ws_close := ret tt;
  ws_send text := modify (fun l => l ++ [text]);
  readStream p := match texts p with Some v => Ok v | None => Throw (StdException "JSON") end;
  writeStream _ := "request"%string
|}.

(** The callbacks record what they get. *)
Definition record_calls : WsCallbacks (list ws_event) := {|
  wcb_NewTip hash := modify (fun l => l ++ [ETip hash]);
  wcb_NewPendingTx txid := modify (fun l => l ++ [ETx txid])
|}.

Definition subscriber : WebSocketSubscriber (list ws_event) :=
  (sub_Start {| ws_conn := []; ws_rest := []; endpoint := "ws://node"; connection := None |}).2.

Lemma messages_delivered_witness : exists s',
  forM ["1"; "2"; "3"; "4"; "5"; "6"]%string (HandleMessage record_calls) subscriber = (Ok tt, s') /\
  ws_rest s' = [ETip "0xnew"; ETx "0xtx2"]%string.
Proof.
  apply (messages_delivered record_calls "0xa" "0xb") with
    (msgs := [MHead "0xold"; MConfirmHeads; MTx "0xtx1"; MHead "0xnew"; MConfirmPending;
              MTx "0xtx2"]%string); [done..| |reflexivity].
  repeat apply Forall2_cons_2; [..|apply Forall2_nil_2];
    (eexists; split; [reflexivity|]; split; [reflexivity|]; repeat split).
Defined.
End WsSample.
