(* ===== verification/EthSample.v ===== *)
(** * Examples for the EVM connector

    A concrete implementation of the libraries, and a node whose chain changes between
    the calls of a batch.  Its hexadecimal parser inverts [EncodeHexInt]. *)

From S2P Require Import Prelude Json JsonRead BlockData BaseChain CoreChain CoreProps CoreMoves EthUtils EthPending EthChain EthProps.

(** ** Hexadecimal numbers *)

Definition hex_value (c : ascii) : option Z :=
  let n := Z.of_nat (nat_of_ascii c) in
  if (48 <=? n) && (n <=? 57) then Some (n - 48)
  else if (97 <=? n) && (n <=? 102) then Some (n - 87) else None.

Fixpoint parse_hex (acc : Z) (s : string) : option Z :=
  match s with
  | EmptyString => Some acc
  | String c s' => d ← hex_value c; parse_hex (16 * acc + d) s'
  end.

Definition parse_int (s : string) : result Z :=
  if bool_decide (String.substring 0 2 s = "0x"%string) then
    match parse_hex 0 (substr_from 2 s) with Some z => Ok z | None => Fatal end
  else Fatal.

Lemma hex_value_digit d : 0 <= d < 16 -> hex_value (hex_digit d) = Some d.
Proof.
  intros Hd. assert (H : Forall (fun i => hex_value (hex_digit (Z.of_nat i)) = Some (Z.of_nat i)) (seq 0 16))
    by (cbn; repeat constructor).
  rewrite Forall_forall in H. specialize (H (Z.to_nat d)). rewrite Z2Nat.id in H by lia.
  apply H. apply elem_of_seq. lia.
Qed.

Lemma parse_hex_digits n : forall z rest, (0 < n)%nat -> 0 <= z < 16 ^ Z.of_nat n ->
  parse_hex 0 (hex_digits n z rest) = parse_hex z rest.
Proof.
  induction n as [|n IH]; intros z rest Hn Hz; [lia|]. cbn [hex_digits].
  change 15 with (Z.ones 4). rewrite Z.land_ones, Z.shiftr_div_pow2 by lia. change (2 ^ 4) with 16.
  pose proof (Z.mod_pos_bound z 16 ltac:(lia)) as Hm.
  pose proof (Z.div_mod z 16 ltac:(lia)) as Hdm.
  destruct (Z.eqb_spec (z / 16) 0) as [E|E].
  - cbn [parse_hex]. rewrite hex_value_digit by done. cbn [mbind option_bind]. f_equal. lia.
  - assert (0 < z / 16) by (pose proof (Z.div_pos z 16); lia).
    destruct n as [|n].
    { exfalso. change (16 ^ Z.of_nat 1) with 16 in Hz. apply E. apply Z.div_small. lia. }
    rewrite IH; [|lia|].
    + cbn [parse_hex]. rewrite hex_value_digit by done. cbn [mbind option_bind]. f_equal. lia.
    + split; [lia|]. apply Z.div_lt_upper_bound; [lia|].
      replace (16 * 16 ^ Z.of_nat (S n)) with (16 ^ Z.of_nat (S (S n))); [lia|].
      rewrite (Nat2Z.inj_succ (S n)), Z.pow_succ_r by lia. done.
Qed.

Lemma parse_EncodeHexInt h : 0 <= h <= i64_max -> parse_int (EncodeHexInt h) = Ok h.
Proof.
  intros Hh. unfold parse_int, EncodeHexInt. change 2%nat with (String.length "0x").
  rewrite substring_prefix, substr_from_app, bool_decide_eq_true_2 by done.
  rewrite u64_small, parse_hex_digits; [done|lia| |]; unfold i64_max, u64_modulus in *; [|lia].
  change (0 <= h < 2 ^ 64). lia.
Qed.

Module EthSample.
Import Model ReaderModel CoreSample.

(** The ABI-encoded data are looked up in a table, a move and an array of two; an address is anything with the
    prefix [0x]. *)
Definition log_data (hex : string) : list string :=
  if bool_decide (hex = "0xd1")%string
  then ["p"; "domob"; "{}"; "0x0"; "0x0"; "0x5f5e100"; "0xreceiver"]%string
  else if bool_decide (hex = "0xd2")%string then ["0xd1"; "0xd1"]%string else [].

Definition pop (l : list string) : result (string * list string) :=
  match l with [] => Fatal | x :: l' => Ok (x, l') end.

#[export] Instance eth_utils : EthUtils := {|
  ParseInt := parse_int;
  parse_address s := if bool_decide (String.substring 0 2 s = "0x"%string)
                     then Some {| GetLowerCase := s; GetChecksummed := s |} else None;
  Keccak256 s := s;
  AbiDecoder := list string;
  abi_decoder := log_data;
  ReadString := pop;
  ReadUint _ := pop;
  ReadArray l := Ok (Z.of_nat (length l), l);
  ReadDynamic l := '(x, l') ← pop l; Ok (log_data x, l');
  GetAllDataRead _ := "0xdata"%string;
  abi_encode _ := "0xargs"%string;
  ConcatHex a b := (a ++ b)%string;
  ecdsa_VerifyMessage _ _ := None
|}.

#[export] Instance constants : ContractConstants := {|
  MOVE_EVENT := "0xmove"; ACCOUNT_WCHI_FCN := "0xwchi"; FORWARDER_EXECUTE_FCN := "0xexec";
  CALL_FORWARDER_CODE := "0xfwd"; TRACKING_ACCOUNTS_CODE := "0xtrack"
|}.

(** ** The node *)

Definition hex (s : string) : json := JStr ("0x" ++ s).

Definition eth_json (h : string) : @Value model :=
  match list_find (fun x => x.1 = h) headers with
  | Some (_, (_, (height, parent))) =>
      JObj [("hash", hex h); ("parentHash", hex parent); ("number", JStr (EncodeHexInt height));
            ("timestamp", JStr "0x64")]%string
  | None => JNull
  end.

Definition log_json (h : string) (index : string) : @Value model :=
  JObj [("address", hex "contract"); ("topics", JArr [JStr "0xmove"]); ("blockHash", hex h);
        ("transactionIndex", JStr "0x0"); ("logIndex", JStr index); ("data", JStr "0xd1");
        ("transactionHash", JStr "0xtx")]%string.

(** A pending transaction. *)
Definition pending_tx : @Value model :=
  JObj [("from", hex "sender"); ("to", hex "game"); ("input", hex "call")]%string.

(** There is a move in [b1], and there are two in [b3]. *)
Definition logs_of (h : string) : list (@Value model) :=
  if bool_decide (h = "b1")%string then [log_json h "0x0"]
  else if bool_decide (h = "b3")%string then [log_json h "0x0"; log_json h "0x3"] else [].

Definition json_string (v : @Value model) : string := match v with JStr s => s | _ => "" end.

(** A call of a batch, answered at the moment [n]. *)
Definition batch_answer (n : nat) (call : string * @Value model) : @reply model :=
  {| reply_error := 0; reply_result :=
    if bool_decide (call.1 = "eth_getLogs"%string) then
      match call.2 with
      | JArr [options] => JArr (logs_of (substr_from 2 (json_string (json_member options "blockHash"))))
      | _ => JNull
      end
    else
      match call.2 with
      | JArr (h :: _) =>
          match parse_int (json_string h) with
          | Ok height => match hv_hash (view_at n) height with
                         | Some hash => eth_json hash | None => JNull end
          | _ => JNull
          end
      | _ => JNull
      end |}.

Fixpoint batch_answers (n : nat) (calls : list (string * @Value model)) : list (@reply model) :=
  match calls with
  | [] => []
  | c :: calls' => batch_answer n c :: batch_answers (S n) calls'
  end.

Definition range_answer (n : nat) (options : @Value model) : @Value model :=
  match parse_int (json_string (json_member options "fromBlock")),
        parse_int (json_string (json_member options "toBlock")) with
  | Ok a, Ok b => JArr (flat_map logs_of (omap (hv_hash (view_at n)) (heights a (Z.to_nat (b - a + 1)))))
  | _, _ => JNull
  end.

#[export] Instance eth_node : EthClient := {|
  EthNode := nat;
  web3_clientVersion := answer (fun _ => Ok "node"%string);
  eth_chainId := answer (fun _ => Ok "0x89"%string);
  eth_blockNumber := answer (fun n => Ok (EncodeHexInt (hv_tip (view_at n))));
  eth_getBlockByHash h _ := answer (fun _ => Ok (eth_json (substr_from 2 h)));
  eth_getBlockByNumber h _ := answer (fun n =>
    Ok (reply_result (batch_answer n ("eth_getBlockByNumber"%string, JArr [JStr h]))));
  eth_getTransactionByHash _ := answer (fun _ => Ok pending_tx);
  eth_getLogs options := answer (fun n => Ok (range_answer n options));
  eth_call _ _ _ := answer (fun _ => Ok "0xd2"%string);
  eth_batch calls := fun n => (Ok (batch_answers n calls), (n + length calls)%nat);
  ws_Start := ret tt;
  ws_EnablePending := ret tt
|}.

Definition content_ok (l : list string) (i : Z) (h : string) : Prop :=
  member (eth_json h) "hash"%string = of_string ("0x" ++ h) /\
  (exists s, member (eth_json h) "number"%string = of_string s /\ ParseInt s = Ok i) /\
  (0 < i -> exists p : string,
     (if 0 <=? i - 1 then l !! Z.to_nat (i - 1) else None) = Some p /\
     member (eth_json h) "parentHash"%string = of_string ("0x" ++ p)).

#[export] Program Instance eth_laws : EthLaws eth_node "0xcontract" 2 := {|
  eth_view := view_at;
  eth_evolves := le;
  eth_block := eth_json;
  eth_logs := logs_of
|}.
Next Obligation.
  intros n. pose proof (view_tip n). lia.
Qed.
Next Obligation. exact view_heights. Qed.
Next Obligation.
  intros n i h Hi. revert Hi. apply (view_check content_ok).
  every_block ltac:(split_and!; [reflexivity|by eexists|intros Hpos; first [lia|by eexists]]).
Qed.
Next Obligation.
  intros h l. unfold logs_of. repeat case_bool_decide; subst;
    rewrite ?elem_of_cons, ?elem_of_nil; intros Hl; repeat destruct Hl as [->|Hl]; done.
Qed.
Next Obligation.
  intros n r n' [= Hr Hn]. subst r n'. split; [lia|]. intros s [= <-].
  apply parse_EncodeHexInt. pose proof (view_tip (S n)). unfold i64_max. lia.
Qed.
Next Obligation.
  intros hs n r n' Hhs [= Hr Hn]. subst r n'. split; [lia|]. intros reps [= <-].
  rewrite length_map. revert n. induction Hhs as [|h hs Hh Hhs IH]; intros n; [constructor|].
  cbn [map batch_answers length]. constructor.
  - intros _. cbn. rewrite parse_EncodeHexInt by done.
    destruct (if 0 <=? h then chain_at n !! Z.to_nat h else None) as [hash|] eqn:E; [right|by left].
    exists n, hash. split_and!; [lia|lia|exact E|done].
  - specialize (IH (S n)). replace (n + S (length hs))%nat with (S n + length hs)%nat by lia.
    eapply Forall2_impl; [exact IH|]. cbn beta. intros h' rep H Herr.
    destruct (H Herr) as [?|(m & hash & ? & ? & ? & ?)]; [by left|right].
    exists m, hash. split_and!; [lia|done|done|done].
Qed.
Next Obligation.
  intros hashes n r n' [= Hr Hn]. subst r n'. split; [lia|]. intros reps [= <-].
  revert n. induction hashes as [|h hashes IH]; intros n; [constructor|].
  cbn [map batch_answers]. constructor; [|apply IH].
  intros _ _. change (logs_of (substr_from (String.length "0x") ("0x" ++ h)) = logs_of h).
  by rewrite substr_from_app.
Qed.
Next Obligation.
  intros a b n r n' [= Hr Hn]. subst r n'. split; [lia|]. intros v [= <-] Ha Hb _.
  change (elements_of (match parse_int (EncodeHexInt a), parse_int (EncodeHexInt b) with
    | Ok a, Ok b => JArr (flat_map logs_of
        (omap (hv_hash (view_at (S n))) (heights a (Z.to_nat (b - a + 1)))))
    | _, _ => JNull end : @Value model) = flat_map logs_of
        (omap (hv_hash (view_at (S n))) (heights a (Z.to_nat (b - a + 1))))).
  by rewrite !parse_EncodeHexInt by lia.
Qed.
Next Obligation.
  intros n n' i Hle Hi. unfold view_at in *. cbn [hv_tip hv_hash] in *.
  destruct n as [|[|n]], n' as [|[|n']]; cbn in *; try lia; try done;
    (assert (i <= 0) by lia; destruct (Z.leb_spec 0 i); [|done]; by replace i with 0 by lia).
Qed.

Definition eth_moment (n : nat) : @EthNode model eth_node := n.

(** The first attempt sees [a1], then [b2], which does not fit; the second one finds the
    chain of the [b]s.  The moves are those of the logs. *)
Lemma eth_range_atomic_witness : exists l n',
  eth_GetBlockRange 2 3 "0xcontract" 1 10 (eth_moment 0) = (Ok l, n') /\
  blk_hash <$> l = ["b1"; "b2"; "b3"; "b4"]%string /\
  (fun b => length (blk_moves b)) <$> l = [1; 0; 2; 0]%nat /\
  exists n0 n1, eth_evolves (eth_moment 0) n0 /\ eth_evolves n0 n1 /\ eth_evolves n1 n' /\
    l = slice (eth_at "0xcontract" 2 (eth_view n1)) 1
          (Z.to_nat (Z.min 10 (hv_tip (eth_view n0) + 1 - 1))).
Proof.
  destruct (eth_GetBlockRange 2 3 "0xcontract" 1 10 (eth_moment 0)) as [r n'] eqn:E.
  pose proof E as E2. vm_compute in E2. injection E2 as Er En.
  destruct r as [l| | | |]; try discriminate Er. exists l, n'.
  split; [reflexivity|]. injection Er as El. split; [by rewrite <- El|]. split; [by rewrite <- El|].
  apply (eth_range_atomic "0xcontract" 2 3 1 10 (eth_moment 0) n' l); [lia|lia|lia|exact E].
Defined.

Lemma third_chain n : (2 <= n)%nat -> view_at n = view_at 2.
Proof. destruct n as [|[|n]]; [lia|lia|reflexivity]. Qed.

Lemma eth_still_third : eth_still (EC:=eth_node) "0xcontract" 2 (fun n => 2 <= n)%nat (view_at 2).
Proof.
  split.
  - intros n m n' Hn _ Hm _. apply third_chain. cbn in *. lia.
  - intros n Hn. eexists _, _. split; [reflexivity|]. cbn in *. lia.
  - intros n hs Hn Hhs. eexists _, _. split; [reflexivity|]. split; [cbn in *; lia|].
    cbn in Hn. clear -Hn Hhs. revert n Hn. induction Hhs as [|h hs Hh Hhs IH]; intros n Hn; [constructor|].
    cbn [map batch_answers]. constructor; [|apply IH; lia]. split; [done|].
    destruct (proj2 (view_heights 2 h) Hh) as [hash Hhash].
    change (reply_result (batch_answer n (block_call h))) with
      (match parse_int (EncodeHexInt h) with
       | Ok height => match hv_hash (view_at n) height with
                      | Some hash => eth_json hash | None => JNull end
       | _ => JNull end : @Value model).
    rewrite parse_EncodeHexInt by (pose proof (view_tip 2); unfold i64_max; lia).
    rewrite third_chain, Hhash by done. revert Hhash.
    apply (view_check (fun _ _ hash => isNull (eth_json hash) = false) 2 h hash).
    every_block ltac:(reflexivity).
  - intros n hashes Hn. eexists _, _. split; [reflexivity|]. split; [cbn in *; lia|].
    cbn in Hn. clear. revert n. induction hashes as [|h hs IH]; intros n; [constructor|].
    cbn [map batch_answers]. constructor; [done|apply IH].
  - intros n a b Hn Ha Hb. eexists _, _. split; [reflexivity|]. split; [cbn in *; lia|].
    change (isArray (match parse_int (EncodeHexInt a), parse_int (EncodeHexInt b) with
      | Ok a, Ok b => JArr (flat_map logs_of
          (omap (hv_hash (view_at (S n))) (heights a (Z.to_nat (b - a + 1)))))
      | _, _ => JNull end : @Value model) = true).
    pose proof (view_tip 2). by rewrite !parse_EncodeHexInt by (unfold i64_max; lia).
  - intros i h Hh. revert Hh.
    apply (view_check (fun _ _ h => exists b, block_of "0xcontract" 2 h = Ok b) 2 i h).
    every_block ltac:(by eexists).
Qed.

Lemma eth_serves_witness :
  Serves (eth_chain 2 1)
    (fun s => (2 <= ec_node (EC:=eth_node) s)%nat /\ accountsContract s = "0xcontract"%string)
    4 (eth_at "0xcontract" 2 (view_at 2)).
Proof.
  apply (eth_serves "0xcontract" 2 (EC:=eth_node) (fun n : nat => 2 <= n)%nat (view_at 2) 1).
  - exact eth_still_third.
  - lia.
Defined.
End EthSample.
