(* ===== verification/EthPendingProps.v ===== *)
(** * The mempool of an EVM chain

    [GetContent] returns just those transactions of the pool that the node still
    reports as pending, ordered by sender and nonce, and forgets the others. *)

From S2P Require Import Prelude Json JsonRead BlockData CoreChain CoreProps CoreMoves EthUtils EthPending EthProps EthSample.

(** ** The order *)

Lemma ltb_true a b : String.ltb a b = true -> a <> b /\ String.le a b.
Proof.
  unfold String.ltb, String.le, String.leb. destruct (String.compare a b) eqn:E; try done.
  intros _. split; [|done]. intros ->. pose proof (String.compare_antisym b b) as H.
  rewrite E in H. done.
Qed.

Lemma ltb_false a b : String.ltb a b = false -> String.le b a.
Proof.
  unfold String.ltb, String.le, String.leb. rewrite (String.compare_antisym b a).
  by destruct (String.compare a b).
Qed.

(** The sender and the nonce. *)
Definition key : Type := string * Z.

Definition key_before (a b : key) : Prop :=
  (a.1 <> b.1 /\ String.le a.1 b.1) \/ (a.1 = b.1 /\ a.2 <= b.2).

Definition key_earlier (a b : key) : bool :=
  if negb (bool_decide (a.1 = b.1)) then String.ltb a.1 b.1 else a.2 <? b.2.

#[export] Instance key_before_trans : Transitive key_before.
Proof.
  intros a b c [[H1 H2]|[H1 H2]] [[H3 H4]|[H3 H4]].
  - left. split; [|by etrans]. intros E. rewrite E in H2. apply H3. by apply (anti_symm String.le).
  - left. by rewrite <- H3.
  - left. by rewrite H1.
  - right. split; [congruence|lia].
Qed.

Lemma key_earlier_true a b : key_earlier a b = true -> key_before a b.
Proof.
  unfold key_earlier. case_bool_decide; cbn [negb].
  - right. split; [done|]. apply Z.ltb_lt in H0. lia.
  - intros H0%ltb_true. by left.
Qed.

Lemma key_earlier_false a b : key_earlier a b = false -> key_before b a.
Proof.
  unfold key_earlier. case_bool_decide; cbn [negb].
  - right. split; [done|]. by apply Z.ltb_ge in H0.
  - intros H0%ltb_false. left. split; [congruence|done].
Qed.

Section Sort.
Context {J : JsonCpp} {JR : JsonReader} {EU : EthUtils}.

(** The transaction has the key. *)
Definition has_key (tx : Value) (k : key) : Prop :=
  isObject tx = true /\
  (exists hex a, asString (member tx "from") = Ok hex /\ parse_address hex = Some a /\
     GetLowerCase a = k.1) /\
  exists hex, asString (member tx "nonce") = Ok hex /\ ParseInt hex = Ok k.2.

Lemma IsEarlierForMempool_key a b ka kb : has_key a ka -> has_key b kb ->
  IsEarlierForMempool a b = Ok (key_earlier ka kb).
Proof.
  intros (Ho & (fa & aa & Hfa & Hpa & Ha) & na & Hna & Hka)
         (Ho' & (fb & ab & Hfb & Hpb & Hb) & nb & Hnb & Hkb).
  unfold IsEarlierForMempool, key_earlier. rewrite Ho, Ho', Hfa, Hfb.
  cbn [rcheck mbind result_bind]. rewrite Hpa, Hpb, Ha, Hb.
  destruct (negb (bool_decide (ka.1 = kb.1))); [done|].
  rewrite Hna, Hnb. cbn [mbind result_bind]. rewrite Hka. cbn [mbind result_bind]. by rewrite Hkb.
Qed.

(** Transactions in order. *)
Definition tx_before (a b : Value) : Prop :=
  forall ka kb, has_key a ka -> has_key b kb -> key_before ka kb.

Lemma has_key_unique tx k k' : has_key tx k -> has_key tx k' -> k = k'.
Proof.
  intros (_ & (f & a & Hf & Hp & Ha) & n & Hn & Hk) (_ & (f' & a' & Hf' & Hp' & Ha') & n' & Hn' & Hk').
  destruct k, k'. cbn in *. congruence.
Qed.

Lemma sort_insert_ok x l : Forall (fun tx => exists k, has_key tx k) (x :: l) ->
  StronglySorted tx_before l ->
  exists l', sort_insert IsEarlierForMempool x l = Ok l' /\ l' ≡ₚ x :: l /\
    StronglySorted tx_before l'.
Proof.
  intros Hk Hs. induction Hs as [|y l Hs IH Hy]; cbn [sort_insert].
  { exists [x]. split_and!; [done|done|]. repeat constructor. }
  apply Forall_cons in Hk as [[kx Hx] [[ky Hky] Hk]%Forall_cons].
  rewrite (IsEarlierForMempool_key y x ky kx) by done. cbn [mbind result_bind].
  destruct (key_earlier ky kx) eqn:E.
  - destruct IH as (l' & -> & Hp & Hs'); [constructor; [by exists kx|done]|].
    exists (y :: l'). cbn [mbind result_bind]. split_and!; [done|by rewrite Hp; constructor|].
    constructor; [done|]. rewrite Hp. constructor; [|done].
    intros k1 k2 H1 H2. rewrite (has_key_unique y k1 ky), (has_key_unique x k2 kx) by done.
    by apply key_earlier_true.
  - exists (x :: y :: l). split_and!; [done|done|]. constructor; [by constructor|].
    assert (Hxy : tx_before x y).
    { intros k1 k2 H1 H2. rewrite (has_key_unique x k1 kx), (has_key_unique y k2 ky) by done.
      by apply key_earlier_false. }
    constructor; [done|]. eapply Forall_impl; [exact Hy|]. intros z Hz k1 k2 H1 H2.
    etrans; [by apply (Hxy k1 ky)|by apply Hz].
Qed.

Lemma std_sort_ok l : Forall (fun tx => exists k, has_key tx k) l ->
  exists l', std_sort IsEarlierForMempool l = Ok l' /\ l' ≡ₚ l /\ StronglySorted tx_before l'.
Proof.
  induction 1 as [|x l Hx Hl IH]; [exists []; split_and!; [done|done|constructor]|].
  cbn [std_sort]. destruct IH as (l' & -> & Hp & Hs). cbn [mbind result_bind].
  destruct (sort_insert_ok x l') as (l2 & -> & Hp2 & Hs2); [constructor; [done|by rewrite Hp]|done|].
  exists l2. split_and!; [done|by rewrite Hp2, Hp|done].
Qed.
End Sort.

(** ** The replies *)

Section Replies.
Context {J : JsonCpp} {JR : JsonReader} {JRL : JsonReaderLaws JR} {EN : Encodings}
  {EU : EthUtils} {EC : EthClient}.

(** The node knows the transaction, and it is not in a block. *)
Definition still_pending (r : reply) : bool :=
  negb (isNull (reply_result r)) && isNull (member (reply_result r) "blockHash").

(** A reply for a transaction: it is unknown, or its data are as they should be. *)
Definition reply_ok (txid : string) (r : reply) : Prop :=
  reply_error r = 0 /\
  (isNull (reply_result r) = true \/
   member (reply_result r) "hash" = of_string ("0x" ++ txid) /\
   exists k, has_key (reply_result r) k).

Notation pending_of l := (base.filter (fun x : string * reply => still_pending x.2 = true) l).
Notation gone_of l := (base.filter (fun x : string * reply => still_pending x.2 = false) l).

Lemma pool_replies_ok l : forall txs pool, Forall (fun x => reply_ok x.1 x.2) l ->
  pool_replies l txs pool =
  (Ok (txs ++ map (fun x => reply_result x.2) (pending_of l)),
   pool ∖ list_to_set (map fst (gone_of l))).
Proof.
  induction l as [|[txid r] l IH]; intros txs pool Hl.
  { cbn. rewrite app_nil_r. unfold ret. f_equal. set_solver. }
  apply Forall_cons in Hl as [[He Hr] Hl]. cbn [fst snd] in He, Hr. cbn [pool_replies].
  rewrite check_true by by rewrite He. rewrite !filter_cons. cbn [snd]. cbn zeta.
  assert (Hs : still_pending r =
    negb (isNull (reply_result r)) && isNull (member (reply_result r) "blockHash")) by done.
  destruct (isNull (reply_result r)); cbn [negb andb] in Hs.
  { rewrite modify_bind, IH by done. rewrite Hs, decide_False, decide_True by done.
    cbn [map fst list_to_set]. f_equal. set_solver. }
  destruct Hr as [?|(Hh & k & Hk)]; [done|]. rewrite check_true by apply Hk.
  rewrite lift_Ok_bind with (a := ("0x" ++ txid)%string) by (rewrite Hh; apply asString_of_string).
  rewrite check_true by by rewrite bool_decide_eq_true_2.
  destruct (isNull (member (reply_result r) "blockHash")).
  - rewrite IH by done. rewrite Hs, decide_True, decide_False by done.
    cbn [map snd]. by rewrite <- app_assoc.
  - rewrite modify_bind, IH by done. rewrite Hs, decide_False, decide_True by done.
    cbn [map fst list_to_set]. f_equal. set_solver.
Qed.

(** What the pool reports for a transaction of it. *)
Definition reported (l : list (string * reply)) (txid : string) (tx : Value) : Prop :=
  exists r, (txid, r) ∈ pending_of l /\ reply_result r = tx.

Lemma reported_hash l txid tx : Forall (fun x : string * reply => reply_ok x.1 x.2) l ->
  reported l txid tx -> tx_hash tx = Ok txid /\ exists k, has_key tx k.
Proof.
  intros Hl (r & [Hp Hin]%list_elem_of_filter & <-).
  rewrite Forall_forall in Hl. destruct (Hl _ Hin) as [_ [Hn|(Hh & Hk)]]; cbn [fst snd] in *.
  - unfold still_pending in Hp. by rewrite Hn in Hp.
  - split; [|done]. unfold tx_hash. rewrite Hh, asString_of_string. cbn [mbind result_bind].
    apply ConvertUint256_prefix.
Qed.

Lemma pool_txids_elements pool : pool_txids pool ≡ₚ elements pool.
Proof. apply merge_sort_Permutation. Qed.

(** With nothing in the pool, the node is not asked. *)
Lemma GetContent_empty meanwhile n : GetContent meanwhile (n, ∅) = (Ok [], (n, ∅)).
Proof. reflexivity. Qed.

Lemma Forall2_zip {A B} (P : A -> B -> Prop) l k :
  Forall2 P l k -> Forall (fun x => P x.1 x.2) (zip l k).
Proof. by induction 1; constructor. Qed.

(** The transactions that are reported, in order. *)
Lemma sorted_reported l : Forall (fun x : string * reply => reply_ok x.1 x.2) l ->
  exists txs txids,
    std_sort IsEarlierForMempool (map (fun x => reply_result x.2) (pending_of l)) = Ok txs /\
    mapM tx_hash txs = Ok txids /\ txids ≡ₚ map fst (pending_of l) /\
    Forall2 (reported l) txids txs /\ StronglySorted tx_before txs.
Proof.
  intros Hl. set (ps := pending_of l).
  assert (Hin : forall tx, tx ∈ map (fun x => reply_result x.2) ps ->
    exists txid, reported l txid tx).
  { intros tx ([txid r] & -> & Hr)%list_elem_of_fmap. by exists txid, r. }
  destruct (std_sort_ok (map (fun x => reply_result x.2) ps)) as (txs & Hs & Hp & Hsorted).
  { apply Forall_forall. intros tx [txid Hr]%Hin. by apply (reported_hash l txid tx). }
  pose (g tx := match tx_hash tx with Ok txid => txid | _ => EmptyString end).
  assert (Hg : forall txid tx, reported l txid tx -> g tx = txid).
  { intros txid tx Hr. unfold g. by rewrite (proj1 (reported_hash _ _ _ Hl Hr)). }
  exists txs, (map g txs). split_and!; [done| | | |done].
  - apply result_mapM_Ok. intros tx Htx. rewrite Hp in Htx. destruct (Hin _ Htx) as [txid Hr].
    by rewrite (Hg _ _ Hr), (proj1 (reported_hash _ _ _ Hl Hr)).
  - rewrite Hp, map_map. erewrite map_ext_in; [reflexivity|]. intros [txid r] Hr.
    apply Hg. exists r. by rewrite list_elem_of_In.
  - apply Forall2_fmap_l, Forall_Forall2_diag, Forall_forall. intros tx Htx.
    rewrite Hp in Htx. destruct (Hin _ Htx) as [txid Hr].
    change (reported l (g tx) tx). by rewrite (Hg _ _ Hr).
Qed.

(** C22. [PendingMempool::GetContent]: if the node answers the batch for the
    transactions of the pool, each one as it should be, then exactly those are returned
    that the node knows and that are not in a block; they are ordered by their senders,
    and by nonce for one sender.  The others are not in the pool
    afterwards; what other threads did to it meanwhile is kept. *)
Theorem mempool_content meanwhile pool n reps n1 : pool <> ∅ ->
  eth_batch (map tx_call (pool_txids pool)) n = (Ok reps, n1) ->
  Forall2 reply_ok (pool_txids pool) reps ->
  let l := zip (pool_txids pool) reps in
  exists txids txs,
    GetContent meanwhile (n, pool) =
      (Ok txids, (n1, meanwhile pool ∖ list_to_set (map fst (gone_of l)))) /\
    txids ≡ₚ map fst (pending_of l) /\
    Forall2 (reported l) txids txs /\ StronglySorted tx_before txs.
Proof.
  intros Hne Hb Hr l. pose proof (Forall2_zip _ _ _ Hr) as Hl. fold l in Hl.
  destruct (sorted_reported l Hl) as (txs & txids & Hs & Hm & Hp & Hf & Hsorted).
  exists txids, txs. split_and!; [|done..]. unfold GetContent. rewrite get_bind. cbn [snd].
  assert (Hempty : empty_b (pool_txids pool) = false).
  { destruct (pool_txids pool) eqn:E; [|done]. exfalso. apply Hne.
    apply leibniz_equiv, elements_empty_inv, Permutation_nil.
    rewrite <- E. by rewrite pool_txids_elements. }
  rewrite Hempty.
  rewrite bind_Ok with (a := reps) (s' := (n1, pool)) by (unfold zoom; cbn [fst]; by rewrite Hb).
  rewrite modify_bind. cbn [fst snd].
  erewrite bind_Ok by (unfold zoom; cbn [snd]; rewrite pool_replies_ok by exact Hl; reflexivity).
  cbn [app fst]. rewrite lift_Ok_bind with (a := txs) by exact Hs. unfold lift. by rewrite Hm.
Qed.
End Replies.

(** ** An example *)
Module PendingSample.
Import Model ReaderModel CoreSample EthSample.

Definition tx_json (txid from nonce : string) (block : json) : json :=
  JObj [("hash", hex txid); ("from", hex from); ("nonce", JStr nonce); ("blockHash", block)]%string.

(** [t1] and [t4] are pending, [t2] has been confirmed, and [t3] is unknown. *)
Definition tx_answer (txid : string) : @Value model :=
  if bool_decide (txid = "0xt1")%string then tx_json "t1" "bob" "0x5" JNull
  else if bool_decide (txid = "0xt2")%string then tx_json "t2" "alice" "0x1" (hex "b1")
  else if bool_decide (txid = "0xt4")%string then tx_json "t4" "bob" "0x4" JNull
  else JNull.

#[export] Instance pool_node : EthClient := {|
  EthNode := nat;
  web3_clientVersion := answer (fun _ => Ok "node"%string);
  eth_chainId := answer (fun _ => Ok "0x89"%string);
  eth_blockNumber := answer (fun _ => Ok "0x0"%string);
  eth_getBlockByHash _ _ := answer (fun _ => Ok JNull);
  eth_getBlockByNumber _ _ := answer (fun _ => Ok JNull);
  eth_getTransactionByHash txid := answer (fun _ => Ok (tx_answer txid));
  eth_getLogs _ := answer (fun _ => Ok (JArr []));
  eth_call _ _ _ := answer (fun _ => Ok "0x"%string);
  eth_batch calls := answer (fun _ => Ok (map (fun call => {| reply_error := 0; reply_result :=
    match call.2 with JArr [JStr txid] => tx_answer txid | _ => JNull end |}) calls));
  ws_Start := ret tt;
  ws_EnablePending := ret tt
|}.

Definition the_pool : gset string := list_to_set ["t1"; "t2"; "t3"; "t4"]%string.
Definition pool_replies_now : list (@reply model) :=
  map (fun tx => {| reply_error := 0; reply_result := tx |})
    [tx_json "t1" "bob" "0x5" JNull; tx_json "t2" "alice" "0x1" (hex "b1"); JNull;
     tx_json "t4" "bob" "0x4" JNull].
Definition start : @EthNode model pool_node := 0%nat.

(** [t4] is first, because its nonce is less; [t5] has been added during the call. *)
Lemma mempool_content_witness :
  exists txids txs,
    GetContent (Add "t5") (start, the_pool) =
      (Ok txids, (1%nat, Add "t5" the_pool ∖
         list_to_set (map fst (base.filter (fun x => still_pending x.2 = false)
           (zip (pool_txids the_pool) pool_replies_now))))) /\
    txids ≡ₚ map fst (base.filter (fun x => still_pending x.2 = true)
      (zip (pool_txids the_pool) pool_replies_now)) /\
    Forall2 (reported (zip (pool_txids the_pool) pool_replies_now)) txids txs /\
    StronglySorted tx_before txs.
Proof.
  assert (Htx : pool_txids the_pool = ["t1"; "t2"; "t3"; "t4"]%string) by (vm_compute; reflexivity).
  apply (mempool_content (Add "t5") the_pool start pool_replies_now (1%nat : @EthNode model pool_node)).
  - intros H. apply (f_equal elements) in H. vm_compute in H. discriminate H.
  - rewrite Htx. reflexivity.
  - rewrite Htx. repeat apply Forall2_cons_2; [..|apply Forall2_nil_2]; (split; [reflexivity|]);
      first [left; reflexivity
            |right; split; [reflexivity|]; eexists (_, _); split_and!;
             [reflexivity|eexists _, _; split_and!; reflexivity|eexists; split; reflexivity]].
Defined.

Lemma mempool_example :
  GetContent (Add "t5") (start, the_pool) = (Ok ["t4"; "t1"]%string, (1%nat, list_to_set ["t1"; "t4"; "t5"]%string)).
Proof. vm_compute. reflexivity. Qed.
End PendingSample.
