(* ===== verification/Typed.v ===== *)
(** * The types of the connectors' data

    The publisher aborts the process on a block or a move whose metadata is neither null
    nor an object, and on pending moves of different transactions.  Whatever a node
    answers, and however its chain changes meanwhile, the connectors for Xaya Core
    (xayacore/corechain.cpp) and for EVM chains (eth/ethchain.cpp, eth/pending.cpp) hand
    on no such data: a bad answer ends the call before.  No law about the node is used. *)

From S2P Require Import Prelude Json JsonRead BlockData BaseChain ZmqPub ZmqProofs CoreChain CoreProps EthUtils EthPending EthChain EthSample.

Create HintDb typed discriminated.

Section Objects.
Context {J : JsonCpp} {JL : JsonCppLaws J}.

Lemma metadata_set_member v k x : isObject v = true -> metadata_ok (set_member v k x).
Proof. intros Hv. right. by apply isObject_set_member. Qed.

Lemma block_no_moves b : blk_moves b = [] -> metadata_ok (blk_metadata b) -> block_typed b.
Proof. intros Hb Hm. split; [done|]. rewrite Hb. constructor. Qed.
End Objects.

#[export] Hint Resolve metadata_set_member isObject_set_member isObject_objectValue : typed.

(** ** Xaya Core *)

Section Core.
Context {J : JsonCpp} {JL : JsonCppLaws J} {JR : JsonReader} {EN : Encodings} {CC : CoreClient}.

Lemma GetMoveFromTx_typed tx mv : GetMoveFromTx tx = Ok (Some mv) -> metadata_ok (mv_metadata mv).
Proof.
  unfold GetMoveFromTx. intros (vout & _ & (outs & _ & H)%rbind_inv)%rbind_inv. cbn zeta in H.
  destruct (isNull _); [done|]. do 7 apply rbind_inv in H as (? & _ & H).
  destruct (split_name _) as [[ns name]|]; [|done].
  do 5 apply rbind_inv in H as (? & _ & H). injection H as <-. cbn. auto 6 with typed.
Qed.

Lemma ConstructBlockData_typed data b : ConstructBlockData data = Ok b -> block_typed b.
Proof.
  unfold ConstructBlockData. intros (u & _ & H)%rbind_inv.
  do 6 apply rbind_inv in H as (? & _ & H). apply rbind_inv in H as (moves & Hm & H).
  injection H as <-. apply result_mapM_inv in Hm. split; cbn; [auto with typed|].
  induction Hm as [|tx o txs os H _ IH]; [constructor|]. destruct o as [mv|]; [|exact IH].
  constructor; [by apply (GetMoveFromTx_typed tx)|exact IH].
Qed.

Lemma walk_back_typed fuel : forall start h res n l n', Forall block_typed res ->
  walk_back fuel start h res n = (Ok l, n') -> Forall block_typed l.
Proof.
  induction fuel as [|fuel IH]; intros start h res n l n' Hres; [done|]. cbn [walk_back].
  intros (data & n2 & _ & (cur & n3 & Hcur & H)%bind_Ok_inv)%bind_Ok_inv.
  unfold lift in Hcur. injection Hcur as Hcur <-.
  assert (Forall block_typed (res ++ [cur]))
    by (apply Forall_app; split; [done|]; by apply Forall_singleton, (ConstructBlockData_typed data)).
  run_inv. destruct (start <? _); [by eapply IH|]. by run_inv.
Qed.

Lemma core_range_typed fuel start count n l n' :
  core_GetBlockRange fuel start count n = (Ok l, n') -> Forall block_typed l.
Proof.
  unfold core_GetBlockRange. destruct (count =? 0); intros H; [by run_inv|].
  apply bind_Ok_inv in H as (? & ? & _ & (o & n1 & _ & H)%bind_Ok_inv).
  destruct o as [h|]; [|by run_inv]. apply bind_Ok_inv in H as (res & n2 & Hw & H).
  unfold ret in H. injection H as <- _. apply Forall_reverse.
  by eapply walk_back_typed; [constructor|].
Qed.

(** A transaction that the node reports leaves the callbacks alone, or is passed on as
    a list of pending moves that the publisher can send. *)
Lemma HandleRawTx_typed {S} (cb : option (Callbacks S)) payload n s r n' s' :
  HandleRawTx cb payload (n, s) = (r, (n', s')) ->
  s' = s \/ exists mv, pending_ok [mv] /\ PendingMoves cb [mv] s = (r, s').
Proof.
  intros H. unfold HandleRawTx in H.
  set (call := try_rpc _ _) in H. destruct (call (n, s)) as [o [n1 s1]] eqn:Hcall.
  assert (s1 = s) as ->.
  { unfold call, try_rpc, bind, on_peer, zoom, ret in Hcall. cbn in Hcall.
    destruct (core_decoderawtransaction _ n) as [[|[]| | |] n2]; cbn in Hcall; congruence. }
  clearbody call. unfold bind at 1 in H. rewrite Hcall in H.
  destruct o as [[tx|]|e| | |]; try (left; unfold ret in H; congruence).
  unfold bind, lift in H. destruct (GetMoveFromTx tx) as [[mv|]|e| | |] eqn:Hmv;
    try (left; unfold ret in H; congruence).
  right. exists mv. split.
  - split_and!; [done|by apply Forall_singleton, (GetMoveFromTx_typed tx)|].
    exists (mv_txid mv). by apply Forall_singleton.
  - unfold CoreChain.on_callbacks, zoom in H. cbn in H.
    destruct (PendingMoves cb [mv] s) as [r0 s2]. congruence.
Qed.
End Core.

(** ** EVM chains *)

Section Eth.
Context {J : JsonCpp} {JL : JsonCppLaws J} {JR : JsonReader} {EN : Encodings} {EU : EthUtils}
  {CO : ContractConstants} {EC : EthClient}.

Lemma GetMoveDataFromLogs_typed dec mv dec' : GetMoveDataFromLogs dec = Ok (mv, dec') ->
  metadata_ok (mv_metadata mv).
Proof.
  unfold GetMoveDataFromLogs. intros H. do 6 apply rbind_inv in H as ([? ?] & _ & H).
  apply rbind_inv in H as (amount & _ & ([? ?] & _ & H)%rbind_inv).
  destruct (parse_address _) as [receiver|]; [|done]. do 2 apply rbind_inv in H as (? & _ & H).
  destruct (Unhexlify _); [|done]. injection H as <- <-. cbn. auto with typed.
Qed.

Lemma ExtractMove_typed log mv : ExtractMove log = Ok mv -> metadata_ok (mv_metadata mv).
Proof.
  unfold ExtractMove. intros (data & _ & ([res dec] & Hres & H)%rbind_inv)%rbind_inv.
  do 2 apply rbind_inv in H as (? & _ & H). injection H as <-. cbn.
  by eapply GetMoveDataFromLogs_typed.
Qed.

Lemma ExtractBaseData_typed data b : ExtractBaseData data = Ok b -> block_typed b.
Proof.
  unfold ExtractBaseData. intros H. do 9 apply rbind_inv in H as (? & _ & H). injection H as <-.
  apply block_no_moves; cbn; auto with typed.
Qed.

(** An extractor whose block is well-typed so far. *)
Definition extractor_typed (e : BlockMoveExtractor) : Prop := block_typed (bme_blk e).

Lemma ProcessLogEntry_typed contract log e e' : extractor_typed e ->
  ProcessLogEntry contract log e = Ok e' -> extractor_typed e'.
Proof.
  intros [Hmeta Hmoves] H. unfold ProcessLogEntry in H.
  do 2 apply rbind_inv in H as (? & _ & H). destruct (parse_address _); [|done].
  do 12 apply rbind_inv in H as (? & _ & H). apply rbind_inv in H as (mv & Hmv & H).
  injection H as <-. split; [done|]. apply Forall_app. split; [done|].
  by apply Forall_singleton, (ExtractMove_typed log).
Qed.

Lemma process_logs_typed contract logs : forall e e', extractor_typed e ->
  process_logs contract logs e = Ok e' -> extractor_typed e'.
Proof.
  induction logs as [|l logs IH]; intros e e' He; cbn [process_logs]; [by intros [= <-]|].
  intros (e1 & H1 & H)%rbind_inv. by eapply IH, H; eapply ProcessLogEntry_typed.
Qed.

Lemma process_for_typed contract hash log es : forall es', Forall extractor_typed es ->
  process_for contract hash log es = Ok es' -> Forall extractor_typed es'.
Proof.
  induction es as [|e es IH]; intros es'; [done|]. cbn [process_for].
  intros [He Hes]%Forall_cons. case_bool_decide; intros (x & Hx & [= <-])%rbind_inv;
    constructor; eauto using ProcessLogEntry_typed.
Qed.

Lemma process_range_typed contract logs : forall es es', Forall extractor_typed es ->
  process_range contract logs es = Ok es' -> Forall extractor_typed es'.
Proof.
  induction logs as [|l logs IH]; intros es es' Hes; cbn [process_range]; [by intros [= <-]|].
  intros (hex & _ & (hash & _ & (es1 & H1 & H)%rbind_inv)%rbind_inv)%rbind_inv.
  by eapply IH, H; eapply process_for_typed.
Qed.

Lemma add_moves_typed contract l : forall res, Forall (fun x => block_typed x.1) l ->
  add_moves_replies contract l = Ok (Some res) -> Forall block_typed res.
Proof.
  induction l as [|[blk rep] l IH]; intros res; cbn [add_moves_replies].
  { intros _ [= <-]. constructor. }
  intros [Hb Hl]%Forall_cons. destruct (negb _); [done|].
  intros (u & _ & (e & He & (rest & Hr & H)%rbind_inv)%rbind_inv)%rbind_inv.
  destruct rest as [rest|]; [|done]. injection H as <-. constructor; [|by apply IH].
  by eapply (process_logs_typed contract), He.
Qed.

Lemma collect_blocks_typed start l : forall back res,
  collect_blocks start back l = Ok (Some res) -> Forall block_typed res.
Proof.
  induction l as [|rep l IH]; intros back res; cbn [collect_blocks]; [intros [= <-]; constructor|].
  intros (u & _ & H)%rbind_inv. destruct (isNull _); [done|].
  apply rbind_inv in H as (blk & Hblk & (u' & _ & H)%rbind_inv).
  destruct (match back with None => false | _ => _ end); [done|].
  apply rbind_inv in H as (rest & Hr & H). destruct rest as [rest|]; [|done]. injection H as <-.
  constructor; [by apply (ExtractBaseData_typed _ _ Hblk)|by eapply IH].
Qed.

Lemma AddMovesOneByOne_typed contract blocks n res n' : Forall block_typed blocks ->
  AddMovesOneByOne contract blocks n = (Ok (Some res), n') -> Forall block_typed res.
Proof.
  intros Hb (resp & n1 & _ & H)%bind_Ok_inv. unfold lift in H. injection H as H _.
  apply (add_moves_typed contract (zip blocks resp)); [|done]. clear -Hb. revert resp.
  induction Hb; intros [|? ?]; constructor; auto.
Qed.

Lemma AddMovesFromHeightRange_typed contract blocks n res n' : Forall block_typed blocks ->
  AddMovesFromHeightRange contract blocks n = (Ok res, n') -> Forall block_typed res.
Proof.
  intros Hb (u & n1 & _ & H)%bind_Ok_inv. destruct blocks as [|front blocks]; [done|].
  destruct (last _) as [back|]; [|done].
  apply bind_Ok_inv in H as (logs & n2 & _ & (? & ? & _ & (es & n3 & Hes & H)%bind_Ok_inv)%bind_Ok_inv).
  unfold lift in Hes. injection Hes as Hes _. unfold ret in H. injection H as <- _.
  apply (process_range_typed contract _ (map new_block_extractor (front :: blocks))) in Hes;
    by apply Forall_map.
Qed.

Context (depth : Z).

Lemma TryBlockRange_typed contract s e n res n' :
  TryBlockRange depth contract s e n = (Ok (Some res), n') -> Forall block_typed res.
Proof.
  unfold TryBlockRange. intros (hex & n1 & _ & (tip & n2 & _ & H)%bind_Ok_inv)%bind_Ok_inv.
  cbn zeta in H. destruct (_ <? s); [by run_inv|].
  apply bind_Ok_inv in H as (resp & n3 & _ & (o & n4 & Ho & H)%bind_Ok_inv).
  unfold lift in Ho. injection Ho as Ho _. destruct o as [blks|]; [|by run_inv].
  pose proof (collect_blocks_typed _ _ _ _ Ho) as Hblks.
  destruct (last blks) as [back|]; [|done]. apply bind_Ok_inv in H as (? & n5 & _ & H).
  destruct (_ <? tip); [|by eapply AddMovesOneByOne_typed].
  apply bind_Ok_inv in H as (res' & n6 & Hm & H). unfold ret in H. injection H as <- _.
  by eapply AddMovesFromHeightRange_typed.
Qed.

Lemma eth_range_typed fuel contract start count n l n' :
  eth_GetBlockRange depth fuel contract start count n = (Ok l, n') -> Forall block_typed l.
Proof.
  unfold eth_GetBlockRange. destruct (count =? 0); intros H; [by run_inv|].
  apply bind_Ok_inv in H as (? & n1 & _ & H). revert n1 H.
  induction fuel as [|fuel IH]; intros n1 H; [done|].
  apply bind_Ok_inv in H as (o & n2 & Ho & H). destruct o as [res|]; [|by eapply IH].
  unfold ret in H. injection H as <- _. by eapply TryBlockRange_typed.
Qed.

(** ** Pending moves on EVM chains *)

(** The moves of the transaction [hash]. *)
Definition moves_of_tx (hash : string) (mvs : list MoveData) : Prop :=
  moves_ok mvs /\ Forall (fun mv => mv_txid mv = hash) mvs.

Lemma decode_logs_typed k txid hash : ConvertUint256 txid = Ok hash -> forall array mvs,
  decode_logs k txid array = Ok mvs -> moves_of_tx hash mvs.
Proof.
  intros Hh. induction k as [|k IH]; intros array mvs; cbn [decode_logs].
  { intros [= <-]. split; constructor. }
  intros ([dec a] & _ & ([cur d] & Hc & H)%rbind_inv)%rbind_inv. rewrite Hh in H.
  apply rbind_inv in H as (h & [= <-] & (rest & Hr & H)%rbind_inv). injection H as <-.
  destruct (IH _ _ Hr) as [Hm Ht]. split; (constructor; [|done]); [|done].
  exact (GetMoveDataFromLogs_typed dec cur d Hc).
Qed.

Lemma decode_logs_none k txid array : decode_logs k txid array = Ok [] \/
  forall mvs, decode_logs k txid array = Ok mvs -> exists hash, ConvertUint256 txid = Ok hash.
Proof.
  destruct k as [|k]; [by left|]. right. intros mvs. cbn [decode_logs].
  intros ([dec a] & _ & ([cur d] & _ & (h & Hh & _)%rbind_inv)%rbind_inv)%rbind_inv. by exists h.
Qed.

Lemma GetMoves_typed e txid n mvs n' : GetMoves e txid n = (Ok mvs, n') ->
  mvs = [] \/ exists hash, ConvertUint256 txid = Ok hash /\ moves_of_tx hash mvs.
Proof.
  unfold GetMoves. intros (data & n1 & _ & (? & n2 & _ & H)%bind_Ok_inv)%bind_Ok_inv.
  destruct (_ || _); [left; by run_inv|].
  do 2 apply bind_Ok_inv in H as (? & ? & _ & H).
  destruct (parse_address _) as [from|]; [|done]. destruct (parse_address _) as [to|]; [|done].
  apply bind_Ok_inv in H as (call & n3 & _ & H). case_bool_decide; [left; by run_inv|].
  apply try_rpc_Ok_inv in H as [H|(? & ? & ? & _ & H)]; [|left; by run_inv].
  apply bind_Ok_inv in H as (res & n4 & _ & H). unfold lift in H. injection H as H _.
  unfold DecodeMoveLogs in H. apply rbind_inv in H as ([len array] & _ & H).
  destruct (decode_logs_none (Z.to_nat len) txid array) as [Hnil|Hsome].
  - left. congruence.
  - right. destruct (Hsome _ H) as [hash Hh]. exists hash. split; [done|].
    by eapply decode_logs_typed.
Qed.

(** A transaction that the node reports leaves the callbacks alone; or it is passed on,
    after it was added to the mempool, as a list of pending moves of this transaction that
    the publisher can send. *)
Lemma NewPendingTx_typed {S} (cb : option (Callbacks S)) txid c s r c' s' :
  NewPendingTx cb txid (c, s) = (r, (c', s')) ->
  s' = s \/ exists hash mvs, ConvertUint256 txid = Ok hash /\ hash ∈ mempool c' /\
    pending_ok mvs /\ Forall (fun mv => mv_txid mv = hash) mvs /\
    PendingMoves cb mvs s = (r, s').
Proof.
  intros H. unfold NewPendingTx in H. rewrite get_bind in H. cbn [fst] in H.
  destruct (pending c) as [e|]; [|left; unfold fatal in H; congruence].
  set (call := try_rpc _ _) in H. destruct (call (c, s)) as [o [c1 s1]] eqn:Hcall.
  assert (s1 = s /\ forall mvs, o = Ok (Some mvs) -> exists n n', GetMoves e txid n = (Ok mvs, n'))
    as [-> Hget].
  { unfold call, try_rpc, bind, on_chain, on_node, zoom, ret in Hcall. cbn in Hcall.
    destruct (GetMoves e txid (ec_node c)) as [[mvs|[]| | |] n2] eqn:E; cbn in Hcall;
      (split; [congruence|]); intros mvs' ->; try congruence.
    exists (ec_node c), n2. congruence. }
  clearbody call. unfold bind at 1 in H. rewrite Hcall in H.
  destruct o as [[[|mv mvs]|]|ex| | |]; try (left; unfold ret in H; congruence).
  destruct (Hget _ eq_refl) as (n0 & n1 & Hmvs).
  destruct (GetMoves_typed _ _ _ _ _ Hmvs) as [|(hash & Hh & Hty & Htx)]; [done|].
  right. exists hash, (mv :: mvs). rewrite (lift_Ok_bind _ _ _ _ Hh) in H.
  unfold bind, on_chain, EthChain.on_callbacks, modify, zoom in H. cbn in H.
  destruct (PendingMoves cb (mv :: mvs) s) as [r0 s2]. injection H as -> <- <-.
  split_and!; [done|unfold Add; cbn; set_solver| |done|done].
  split_and!; [done|done|by exists hash].
Qed.
End Eth.

(** ** The theorems *)

Section Theorems.
Context {J : JsonCpp} {JL : JsonCppLaws J} {JR : JsonReader} {EN : Encodings}.

(** C20. Types of what the connector for Xaya Core hands on: whatever the node answers,
    all blocks of a range have metadata that the publisher accepts, and so do their
    moves; and a raw transaction that the node reports leaves the callbacks alone or
    reaches them as pending moves that the publisher can send. *)
Theorem core_data_typed {CC : CoreClient} {S} (cb : option (Callbacks S)) (fuel : nat)
    (start count : Z) (payload : string) (n n1 n2 : CoreNode) (l : list BlockData)
    (s s' : S) (r : result unit)
    (Hrange : core_GetBlockRange fuel start count n = (Ok l, n1))
    (Htx : HandleRawTx cb payload (n1, s) = (r, (n2, s'))) :
  Forall block_typed l /\
  (s' = s \/ exists mv, pending_ok [mv] /\ PendingMoves cb [mv] s = (r, s')).
Proof.
  split; [by apply (core_range_typed fuel start count n l n1)|].
  by apply (HandleRawTx_typed cb payload n1 s r n2 s').
Qed.

(** C21. Types of what the connector for EVM chains hands on: whatever the node answers,
    all blocks of a range have metadata that the publisher accepts, and so do the moves
    that are added to them from the logs; and a pending transaction leaves the callbacks
    alone, or is put into the mempool and reaches them as the non-empty list of its
    moves, with its hash, which the publisher can send. *)
Theorem eth_data_typed {EU : EthUtils} {CO : ContractConstants} {EC : EthClient} {S}
    (cb : option (Callbacks S)) (depth : Z) (fuel : nat) (contract : string)
    (start count : Z) (txid : string) (n n' : EthNode) (l : list BlockData)
    (c c' : EthChain) (s s' : S) (r : result unit)
    (Hrange : eth_GetBlockRange depth fuel contract start count n = (Ok l, n'))
    (Htx : NewPendingTx cb txid (c, s) = (r, (c', s'))) :
  Forall block_typed l /\
  (s' = s \/ exists hash mvs, ConvertUint256 txid = Ok hash /\ hash ∈ mempool c' /\
    pending_ok mvs /\ Forall (fun mv => mv_txid mv = hash) mvs /\
    PendingMoves cb mvs s = (r, s')).
Proof.
  split; [by apply (eth_range_typed depth fuel contract start count n l n')|].
  by apply (NewPendingTx_typed cb txid c s r c' s').
Qed.
End Theorems.

(** ** Examples

    The nodes of the examples for the connectors, and callbacks that count the moves. *)
Module TypedSample.
Import Model ReaderModel CoreSample EthSample.

Definition counter : option (Callbacks (list nat)) := Some {|
  cb_TipChanged _ := ret tt;
  cb_PendingMoves mvs := modify (fun l => l ++ [length mvs])
|}.

(** What a call returned, if it did. *)
Definition outcome {S A B} (f : A -> B) (x : result A * S) : option B :=
  match x.1 with Ok a => Some (f a) | _ => None end.

Lemma core_data_typed_witness : exists l n1 n2,
  core_GetBlockRange 10 1 10 (moment 0) = (Ok l, n1) /\ length l = 3%nat /\
  Forall block_typed l /\
  HandleRawTx counter "raw" (n1, []) = (Ok tt, (n2, [1%nat])) /\
  exists mv, pending_ok [mv].
Proof.
  destruct (core_GetBlockRange 10 1 10 (moment 0)) as [r n1] eqn:E.
  assert (E2 : outcome length (core_GetBlockRange 10 1 10 (moment 0)) = Some 3%nat)
    by (vm_compute; reflexivity).
  rewrite E in E2. destruct r as [l| | | |]; try discriminate E2. injection E2 as El.
  destruct (HandleRawTx counter "raw" (n1, [])) as [r [n2 s]] eqn:F.
  assert (F2 : (fun x => (x.1, x.2.2)) (HandleRawTx counter "raw" (n1, [])) = (Ok tt, [1%nat]))
    by (vm_compute; reflexivity).
  rewrite F in F2. injection F2 as Fr Fs.
  exists l, n1, n2. split; [reflexivity|]. split; [exact El|].
  destruct (core_data_typed counter 10 1 10 "raw" (moment 0) n1 n2 l [] s r E F)
    as [Hl [Hs|(mv & Hmv & _)]].
  - rewrite Fs in Hs. discriminate Hs.
  - rewrite Fr, Fs in F. split; [exact Hl|]. split; [exact F|exact (ex_intro _ mv Hmv)].
Defined.

(** The connector with the contract [0xgame] watched. *)
Definition watching : EthChain := {|
  ec_node := eth_moment 2; accountsContract := "0xcontract"; chainId := 137;
  pending := Some {| pde_accountsContract := "0xcontract"; fwdCode := "0xfwd";
                     accountsOverlayCode := "0xtrack"; watchedContracts := {["0xgame"%string]} |};
  mempool := ∅; sub := true
|}.

Lemma eth_data_typed_witness : exists l n1 c2,
  eth_GetBlockRange 2 3 "0xcontract" 1 10 (eth_moment 0) = (Ok l, n1) /\
  (fun b => length (blk_moves b)) <$> l = [1; 0; 2; 0]%nat /\ Forall block_typed l /\
  NewPendingTx counter "0xtx" (watching, []) = (Ok tt, (c2, [2%nat])) /\
  exists mvs, pending_ok mvs /\ "tx"%string ∈ mempool c2.
Proof.
  destruct (eth_GetBlockRange 2 3 "0xcontract" 1 10 (eth_moment 0)) as [r n1] eqn:E.
  assert (E2 : outcome (fmap (fun b => length (blk_moves b)))
    (eth_GetBlockRange 2 3 "0xcontract" 1 10 (eth_moment 0)) = Some [1; 0; 2; 0]%nat)
    by (vm_compute; reflexivity).
  rewrite E in E2. destruct r as [l| | | |]; try discriminate E2. injection E2 as El.
  destruct (NewPendingTx counter "0xtx" (watching, [])) as [r [c2 s]] eqn:F.
  assert (F2 : (fun x => (x.1, x.2.2)) (NewPendingTx counter "0xtx" (watching, []))
    = (Ok tt, [2%nat])) by (vm_compute; reflexivity).
  rewrite F in F2. injection F2 as Fr Fs.
  exists l, n1, c2. split; [reflexivity|]. split; [exact El|].
  destruct (eth_data_typed counter 2 3 "0xcontract" 1 10 "0xtx" (eth_moment 0) n1 l watching c2
    [] s r E F) as [Hl [Hs|(hash & mvs & Hh & Hin & Hmvs & _)]].
  - rewrite Fs in Hs. discriminate Hs.
  - split; [exact Hl|]. split; [by rewrite Fr, Fs|]. injection Hh as <-.
    exact (ex_intro _ mvs (conj Hmvs Hin)).
Defined.
End TypedSample.
