(* ===== verification/EndToEnd.v ===== *)
(** * From the sync worker to a game

    What a receiver of the ZMQ messages for one game makes of an update of the tip:
    the theorem connects the sync worker's report (sync.cpp), the controller's choice of
    notifications (controller.cpp) and the messages of the publisher (zmqpub.cpp) with
    what arrives at the other end of the socket. *)

From S2P Require Import Prelude Json JsonRead BlockData Chainstate ChainTree ChainstateProofs BaseChain TipUpdate SyncProofs ZmqPub ZmqProofs ZmqProps TestSubscriber Publisher Pending RunData RunProofs Sync SyncProps ControllerSample.

Section Receiver.
Context {J : JsonCpp} {JL : JsonCppLaws J} {JR : JsonReader} {JRL : JsonReaderLaws JR}
  {JS : JsonStream} {JSL : JsonStreamLaws JS} {UV : UniValueLib} {UL : UniValueLaws UV}.

(** ** The receiver

    It subscribes to the blocks of the game [g], and remembers the block it is at. *)
Definition attach_topic (g : string) : string := "game-block-attach json " ++ g.
Definition detach_topic (g : string) : string := "game-block-detach json " ++ g.

(** The hash and the parent of the block that a message is about. *)
Definition read_block (data : string) : result (string * string) :=
  v ← stream_read data;
  hash ← asString (member (member v "block") "hash");
  parent ← asString (member (member v "block") "parent");
  Ok (hash, parent).

(** [None] for a message that does not fit; messages of other topics pass by. *)
Definition receive (g cur : string) (m : message) : option string :=
  if bool_decide (m.1.1 = attach_topic g) then
    match read_block m.1.2 with
    | Ok (hash, parent) => if bool_decide (parent = cur) then Some hash else None
    | _ => None
    end
  else if bool_decide (m.1.1 = detach_topic g) then
    match read_block m.1.2 with
    | Ok (hash, parent) => if bool_decide (hash = cur) then Some parent else None
    | _ => None
    end
  else Some cur.

Fixpoint follow (g cur : string) (ms : list message) : option string :=
  match ms with
  | [] => Some cur
  | m :: ms' => cur' ← receive g cur m; follow g cur' ms'
  end.

Lemma follow_app g cur ms ms' : follow g cur (ms ++ ms') = cur' ← follow g cur ms; follow g cur' ms'.
Proof.
  revert cur. induction ms as [|m ms IH]; intros cur; [done|]. cbn.
  destruct (receive g cur m); cbn; [apply IH|done].
Qed.

(** Messages that do not concern the receiver. *)
Lemma follow_ignored g ms : Forall (fun m : message => m.1.1 <> attach_topic g /\ m.1.1 <> detach_topic g) ms ->
  forall cur, follow g cur ms = Some cur.
Proof.
  induction 1 as [|m ms [Ha Hd] _ IH]; intros cur; [done|]. cbn [follow]. unfold receive at 1.
  rewrite !bool_decide_eq_false_2 by done. apply IH.
Qed.

(** ** Messages about a block *)

Definition note_prefix (n : note) : string :=
  match n with Attach _ => "game-block-attach" | Detach _ => "game-block-detach" end.

Lemma block_data blk tok tmpl mv cmd : metadata_ok (blk_metadata blk) ->
  block_template blk tok = Ok tmpl ->
  read_block (writeString (block_message tmpl mv cmd)) = Ok (blk_hash blk, blk_parent blk).
Proof.
  intros Hm. unfold block_template. rewrite (InitFromMetadata_ok _ Hm). cbn [mbind result_bind].
  pose proof (metadata_base_object _ Hm) as Ho. intros [= <-].
  unfold read_block. rewrite stream_read_writeString. cbn [mbind result_bind].
  unfold block_message. case_bool_decide; json_member; rewrite !asString_of_string; done.
Qed.

Lemma receive_note n g tok cur m : metadata_ok (blk_metadata (note_block n)) ->
  block_message_for (note_prefix n) (note_block n) tok g m -> receive g cur m = apply_note cur n.
Proof.
  intros Hm (tmpl & mv & cmd & seq & Ht & _ & _ & ->). unfold receive. cbn [fst snd].
  rewrite !(block_data _ _ _ mv cmd Hm Ht).
  destruct n as [blk|blk]; cbn [note_prefix note_block apply_note].
  - rewrite bool_decide_eq_false_2 by discriminate. by rewrite bool_decide_eq_true_2.
  - by rewrite bool_decide_eq_true_2.
Qed.

Lemma receive_other n g g' tok cur m : g' <> g ->
  block_message_for (note_prefix n) (note_block n) tok g' m -> receive g cur m = Some cur.
Proof.
  intros Hg (tmpl & mv & cmd & seq & _ & _ & _ & ->). unfold receive. cbn [fst snd].
  rewrite !bool_decide_eq_false_2; [done|..]; destruct n; cbn; intros H;
    try discriminate H; injection H as H; done.
Qed.

(** Of the messages about one block, the receiver sees exactly its own. *)
Lemma follow_note n g tok (gs : list string) ms : metadata_ok (blk_metadata (note_block n)) ->
  Forall2 (block_message_for (note_prefix n) (note_block n) tok) gs ms -> NoDup gs ->
  (g ∉ gs -> forall cur, follow g cur ms = Some cur) /\
  (g ∈ gs -> forall cur, follow g cur ms = apply_note cur n).
Proof.
  intros Hm. induction 1 as [|g' m gs ms Hm' _ IH]; intros Hnd; [by split; [|intros ?%not_elem_of_nil]|].
  apply NoDup_cons in Hnd as [Hni Hnd]. destruct (IH Hnd) as [Hout Hin].
  destruct (decide (g' = g)) as [->|Hg].
  - split; [set_solver|]. intros _ cur. cbn [follow]. rewrite (receive_note n g tok cur m Hm Hm').
    destruct (apply_note cur n); [cbn; by apply Hout|done].
  - split; intros He cur; cbn [follow]; rewrite (receive_other n g g' tok cur m Hg Hm');
      cbn [mbind option_bind]; [apply Hout|apply Hin]; set_solver.
Qed.
End Receiver.

(** ** Updates of the tip *)

Section Updates.
Context {J : JsonCpp} {JL : JsonCppLaws J} {JR : JsonReader} {JRL : JsonReaderLaws JR}
  {JS : JsonStream} {JSL : JsonStreamLaws JS} {UV : UniValueLib} {UL : UniValueLaws UV}
  {ZS : ZmqSocket} {ZL : ZmqLaws ZS} {UM : UnorderedMap} {UML : UnorderedMapLaws UM}
  {C : BlockCodec} {CL : BlockCodecLaws C} {U : Universe} {B : Type} {BC : BaseChain B}.
Notation RunState := (B * Chainstate * PendingManager ZmqPub)%type.

Lemma note_sends G tok n : block_typed (note_block n) ->
  sends G (send_note (PB:=zmq_publisher) tok n)
    (block_messages G (note_prefix n) (note_block n) tok).
Proof. intros Hn. destruct n; by apply SendBlock_sends. Qed.

(** A receiver of a tracked game arrives where the notifications lead. *)
Lemma follow_notes G g tok notes mss : is_Some (G !! g) ->
  Forall (fun n => block_typed (note_block n)) notes ->
  Forall2 (fun n => block_messages G (note_prefix n) (note_block n) tok) notes mss ->
  forall cur, follow g cur (concat mss) = replay cur notes.
Proof.
  intros [d Hg] Hty Hms. revert Hty.
  induction Hms as [|n ms notes mss (gs & Hgs & Hn) _ IH]; intros Hty cur; [done|].
  apply Forall_cons in Hty as [[Hm _] Hty]. cbn [concat replay]. rewrite follow_app.
  assert (Hnd : NoDup gs) by (rewrite Hgs; apply NoDup_fst_map_to_list).
  assert (Hin : g ∈ gs).
  { rewrite Hgs. apply list_elem_of_fmap. exists (g, d). split; [done|]. by apply elem_of_map_to_list. }
  rewrite (proj2 (follow_note n g tok gs ms Hm Hn Hnd) Hin).
  destruct (apply_note cur n) as [cur'|]; [cbn; by apply IH|done].
Qed.

Lemma follow_pending G g mvss mss : Forall2 (pending_messages G) mvss mss ->
  forall cur, follow g cur (concat mss) = Some cur.
Proof.
  induction 1 as [|mvs ms mvss mss (l & _ & Hl) _ IH]; intros cur; [done|]. cbn [concat].
  rewrite follow_app, (follow_ignored g ms); [cbn; apply IH|].
  clear -Hl. induction Hl as [|g' m l ms (arr & seq & _ & ->) _ IH]; constructor; [|exact IH].
  split; discriminate.
Qed.

Context (Hsock : ~ refuses).

(** When the socket refuses no message, all of them go out. *)
Lemma sends_all G f Q s : sends G f Q -> pub_ok s -> games s = G ->
  exists s' ms, f s = (Ok tt, s') /\ pub_ok s' /\ games s' = G /\
    delivered (zp_sock s') = delivered (zp_sock s) ++ ms /\ Q ms.
Proof.
  intros Hf Hok Hg. destruct (Hf s Hok Hg) as (r & s' & ms & ? & ? & ? & ? & [[-> ?]|[? _]]); [|done].
  by exists s', ms.
Qed.

(** Pending moves that were held back are published, which a receiver of blocks does not
    notice. *)
Lemma tip_changed_sends t (s : PendingManager ZmqPub) g : pm_inv s -> t <> EmptyString ->
  exists s' ms, ChainstateTipChanged t s = (Ok tt, s') /\ pm_inv s' /\
    delivered (zp_sock (zmq s')) = delivered (zp_sock (zmq s)) ++ ms /\
    forall cur, follow g cur ms = Some cur.
Proof.
  intros Hs Ht. destruct s as [p c n q]. pose proof Hs as [Hp Hq]. cbn [zmq pendingsQueue] in Hp, Hq.
  destruct (ChainstateTipChanged t _) as [r s'] eqn:E.
  destruct (ChainstateTipChanged_ends _ _ _ _ Hs Ht E) as [_ Hs'].
  unfold ChainstateTipChanged in E. rewrite modify_bind, get_bind in E.
  cbn [chainstateTip set_chainstateTip notificationTip pendingsQueue zmq] in E.
  rewrite check_true in E by by apply nonempty_true. revert E. case_bool_decide.
  - destruct (sends_all (games p) (forM q SendPendingMoves) _ p
      (sends_forM _ _ _ _ (fun mvs Hin => SendPendingMoves_sends (games p) mvs
        (proj1 (Forall_forall _ _) Hq mvs Hin))) Hp eq_refl)
      as (p1 & ms & E1 & _ & _ & Hd & mss & -> & Hms).
    erewrite bind_Ok; [|rewrite forM_on_zmq; apply on_zmq_run; exact E1].
    intros [= <- <-]. eexists _, _. split_and!; [done|done|exact Hd|by eapply follow_pending].
  - intros [= <- <-]. eexists _, []. split_and!; [done|done|cbn; by rewrite app_nil_r|done].
Qed.

(** C4.  An update of the tip, from the report of the sync worker to a game: when a game is
    tracked and the socket takes all messages, then a receiver at the old tip that applies
    just the messages of its game, reading hash and parent of the block from their JSON,
    arrives at the tip of the chainstate; no message of its game fails to fit on the way,
    and messages to other games and of pending moves do not disturb it.  (This holds for every
    configured depth; the callback returns if [maxReorgDepth + 1] does not overflow.) *)
Theorem game_follows_tip (sanity : bool) (depth : Z) (s : RunState) old att (g : string)
    (Hgame : is_Some (games (zmq s.2) !! g))
    (HI : Inv (blocks s.1.2)) (Hu : tip_update (blocks s.1.2) old att)
    (Hold : old <> EmptyString) (Hpm : pm_inv s.2) (Hd : 0 <= depth) :
  exists res c p ms tip r, TipUpdatedFrom sanity depth old att s = (res, (s.1.1, c, p)) /\
    (depth < i32_max -> res = Ok tt) /\ is_top (blocks c) tip r /\
    delivered (zp_sock (zmq p)) = delivered (zp_sock (zmq s.2)) ++ ms /\
    follow g old ms = Some tip.
Proof.
  pose proof (tu_top _ _ _ Hu) as (b & r & Hlast & Ht & _).
  destruct (push_update s old att 0 "" HI Hu) as (bs & l & Hpush & _ & Hpath).
  destruct (Hpath Hold) as (Hp & Hpre & Hrep). rewrite Hlast in Hrep. cbn in Hrep.
  pose proof (update_notes_typed att bs l (tu_genuine _ _ _ Hu)
    (fork_path_genuine _ _ _ (inv_rows _ HI) Hp) Hpre) as Hty.
  destruct (sends_all _ _ _ _ (sends_forM (games (zmq s.2)) _ (send_note (PB:=zmq_publisher) "")
    _ (fun n Hin => note_sends _ "" n (proj1 (Forall_forall _ _) Hty n Hin)))
    (proj1 Hpm) eq_refl) as (p1 & ms1 & E1 & Hok1 & _ & Hd1 & mss & -> & Hmss).
  pose proof (proj1 (tu_moved _ _ _ Hu b Hlast)) as Hne.
  destruct (tip_changed_sends (blk_hash b) (set_zmq p1 s).2 g) as (p2 & ms2 & E2 & _ & Hd2 & Hf2);
    [split; [exact Hok1|apply Hpm]|done|].
  unfold TipUpdatedFrom. rewrite check_true by by destruct att.
  assert (Htry : try_catch (PushZmqBlocks old "" att 0 "";; ret tt) (fun _ => ret tt) s
                 = (Ok tt, set_zmq p1 s)).
  { unfold try_catch. unfold bind. rewrite Hpush. unfold bind. by rewrite (run_zmq_run _ _ _ _ E1). }
  rewrite (bind_Ok _ _ _ _ _ Htry), Hlast, (bind_Ok _ _ _ _ _ (run_pendings_run _ _ _ _ E2)).
  rewrite (prune_part sanity depth _ (blk_hash b) r) by done.
  eexists _, _, _, (concat mss ++ ms2), (blk_hash b), r.
  split_and!; [reflexivity|apply sum_result_ok| | |].
  - by eapply pruned_shrunk.
  - etrans; [exact Hd2|]. rewrite app_assoc. f_equal. exact Hd1.
  - rewrite follow_app, (follow_notes _ _ _ _ _ Hgame Hty Hmss), Hrep. cbn. apply Hf2.
Qed.
End Updates.

(** ** An example

    The update of ControllerSample.v, with the publisher of the program: a receiver for the
    game [tn] is led from [s3] to [m3]. *)
Module EndToEndSample.
Import Model ReaderModel BitsProto ZmqSample SubscriberSample PendingSample Fixed SyncSample.
#[local] Existing Instance patient_socket_laws.

Definition at_s3 : Chain * Chainstate * PendingManager ZmqPub := (chain, c6, pm_start publisher).

Lemma game_follows_tip_witness :
  exists c p ms tip, TipUpdatedFrom true 1 "s3" (map blk ["m1"; "m2"; "m3"]%string) at_s3 =
      (Ok tt, (chain, c, p)) /\
    delivered (zp_sock (zmq p)) = ms /\ follow "tn" "s3" ms = Some tip.
Proof.
  destruct (game_follows_tip (ZL:=patient_socket_laws) (B:=Chain) (fun H : False => H) true 1 at_s3 "s3"
    (map blk ["m1"; "m2"; "m3"]%string) "tn") as (res & c & p & ms & tip & r & Hrun & Hok & _ & Hd & Hf).
  - exact (ex_intro _ 1 eq_refl).
  - exact c6_Inv.
  - exact c6_update.
  - discriminate.
  - exact (conj publisher_ok (@Forall_nil_2 _ _)).
  - done.
  - rewrite (Hok eq_refl) in Hrun. exact (ex_intro _ c (ex_intro _ p (ex_intro _ ms (ex_intro _ tip
      (conj Hrun (conj Hd Hf)))))).
Defined.

Example messages_to_tn :
  (fun m : message => (m.1.1, match read_block m.1.2 with Ok x => x | _ => ("", "") end)) <$>
    log (zp_sock (zmq (TipUpdatedFrom true 1 "s3" (map blk ["m1"; "m2"; "m3"]%string) at_s3).2.2))
  = [("game-block-detach json tn", ("s3", "s2")); ("game-block-detach json tn", ("s2", "m1"));
     ("game-block-attach json tn", ("m2", "m1")); ("game-block-attach json tn", ("m3", "m2"))]%string.
Proof. vm_compute. reflexivity. Qed.
End EndToEndSample.
