(* ===== verification/Listener.v ===== *)
(** * The listener for notifications of Xaya Core (xayacore/corechain.cpp)

    [CoreChain::ZmqListener] receives the messages of one ZMQ address on a thread of its own.
    The socket is shared with [Subscribe], which other threads call, and is protected by
    the mutex [mut]; the handlers run without it.  The destructor sets [shouldStop] and joins
    the thread.  The system is given by [step], as in SyncThread.v. *)

From S2P Require Import Prelude Events Json JsonRead BlockData BaseChain CoreChain CoreProps.

Section Listener.
Context {J : JsonCpp} {JR : JsonReader} {EN : Encodings} {CC : CoreClient} {S : Type}.

(** Where the thread is: at the condition of the loop; about to lock the mutex; at the socket,
    with the mutex; in the pause; with a message in hand; it has left the loop; it is
    joined; or the process has been aborted, by a [CHECK] or an exception that leaves the
    thread. *)
Inductive receiver_at :=
  | AtCheck
  | AtLock
  | Polling
  | Sleeping
  | Handling (m : string * string)
  | Left
  | Joined
  | Dead.

(** [subscribing] is the topic of a call of [Subscribe] that has the mutex; [destroying] is
    set while the destructor waits. *)
Record ZmqListener := {
  zl_node : CoreNode;
  zl_parent : S;
  receiver : receiver_at;
  subscribing : option string;
  shouldStop : bool;
  destroying : bool
}.

Definition set_receiver (r : receiver_at) (s : ZmqListener) : ZmqListener :=
  {| zl_node := zl_node s; zl_parent := zl_parent s; receiver := r;
     subscribing := subscribing s; shouldStop := shouldStop s; destroying := destroying s |}.

Definition set_peer (n : CoreNode) (t : S) (s : ZmqListener) : ZmqListener :=
  {| zl_node := n; zl_parent := t; receiver := receiver s;
     subscribing := subscribing s; shouldStop := shouldStop s; destroying := destroying s |}.

Definition set_subscribing (o : option string) (s : ZmqListener) : ZmqListener :=
  {| zl_node := zl_node s; zl_parent := zl_parent s; receiver := receiver s;
     subscribing := o; shouldStop := shouldStop s; destroying := destroying s |}.

Definition mutex_free (s : ZmqListener) : bool :=
  match receiver s, subscribing s with
  | Polling, _ => false
  | _, Some _ => false
  | _, None => true
  end.

(** The constructor: the socket is connected, and then the thread is started. *)
Definition new_listener (addr : string) (t : S) : M CoreNode ZmqListener :=
  zmq_connect addr;;
  n <- get;;
  ret {| zl_node := n; zl_parent := t; receiver := AtCheck; subscribing := None;
         shouldStop := false; destroying := false |}.

(** The events: the moves of the thread, the beginning and the end of [Subscribe], the
    destructor up to the join and after it, and whatever else happens to the node and the
    parent, such as messages that arrive. *)
Inductive event :=
  | EvCheck
  | EvLock
  | EvPoll
  | EvWake
  | EvHandle
  | EvSubscribe (topic : string)
  | EvSubscribed
  | EvDestroy
  | EvJoined
  | EvOutside (n : CoreNode) (t : S).

Context (cb : option (Callbacks S)) (addr : string).

(** The section under the mutex. *)
Definition poll (s : ZmqListener) : ZmqListener :=
  match poll_message addr (zl_node s) with
  | (Ok None, n) => set_receiver Sleeping (set_peer n (zl_parent s) s)
  | (Ok (Some m), n) => set_receiver (Handling m) (set_peer n (zl_parent s) s)
  | (_, n) => set_receiver Dead (set_peer n (zl_parent s) s)
  end.

Definition handle (m : string * string) (s : ZmqListener) : ZmqListener :=
  match handle_message cb m (zl_node s, zl_parent s) with
  | (Ok _, (n, t)) => set_receiver AtCheck (set_peer n t s)
  | (_, (n, t)) => set_receiver Dead (set_peer n t s)
  end.

(** An exception of [Subscribe] goes to its caller. *)
Definition subscribe (topic : string) (s : ZmqListener) : ZmqListener :=
  match zmq_subscribe addr topic (zl_node s) with
  | (Ok _, n) | (Throw _, n) => set_subscribing None (set_peer n (zl_parent s) s)
  | (_, n) => set_receiver Dead (set_peer n (zl_parent s) s)
  end.

Definition step (e : event) (s : ZmqListener) : option ZmqListener :=
  match e, receiver s with
  | _, Dead => None
  | EvCheck, AtCheck => Some (set_receiver (if shouldStop s then Left else AtLock) s)
  | EvLock, AtLock => if mutex_free s then Some (set_receiver Polling s) else None
  | EvPoll, Polling => Some (poll s)
  | EvWake, Sleeping => Some (set_receiver AtCheck s)
  | EvHandle, Handling m => Some (handle m s)
  | EvSubscribe topic, _ =>
      if destroying s then None
      else if mutex_free s then Some (set_subscribing (Some topic) s) else None
  | EvSubscribed, _ =>
      match subscribing s with Some topic => Some (subscribe topic s) | None => None end
  | EvDestroy, _ =>
      match subscribing s, destroying s with
      | None, false =>
          Some {| zl_node := zl_node s; zl_parent := zl_parent s; receiver := receiver s;
                  subscribing := None; shouldStop := true; destroying := true |}
      | _, _ => None
      end
  | EvJoined, Left => if destroying s then Some (set_receiver Joined s) else None
  | EvOutside n t, _ => Some (set_peer n t s)
  | _, _ => None
  end.

Notation run_events := (Events.run_events step).

(** ** The mutex *)

(** The receiver and a subscriber are never at the socket together, and nobody subscribes
    while the listener is destroyed. *)
Record listener_ok (s : ZmqListener) : Prop := {
  lo_exclusive : receiver s = Polling -> subscribing s = None;
  lo_destroying : destroying s = true -> subscribing s = None /\ shouldStop s = true
}.

Lemma poll_result s : exists n r, poll s = set_receiver r (set_peer n (zl_parent s) s) /\
  (r = Sleeping \/ (exists m, r = Handling m) \/ r = Dead).
Proof. unfold poll. repeat case_match; eauto 10. Qed.

Lemma handle_result m s : exists n t r, handle m s = set_receiver r (set_peer n t s) /\
  (r = AtCheck \/ r = Dead).
Proof. unfold handle. repeat case_match; eauto 10. Qed.

Lemma subscribe_result topic s : exists n,
  subscribe topic s = set_subscribing None (set_peer n (zl_parent s) s) \/
  subscribe topic s = set_receiver Dead (set_peer n (zl_parent s) s).
Proof. unfold subscribe. repeat case_match; eauto. Qed.

(** The cases of an event. *)
Ltac step_cases E :=
  unfold step, mutex_free in E;
  match type of E with (match ?e with _ => _ end) = _ => destruct e end;
  match type of E with context [receiver ?s] => destruct (receiver s) eqn:? end;
  repeat (case_match; try discriminate); try discriminate; simplify_eq.

Ltac results :=
  repeat match goal with
  | |- context [poll ?x] => destruct (poll_result x) as (? & ? & -> & [->|[[? ->]| ->]])
  | |- context [handle ?m ?x] => destruct (handle_result m x) as (? & ? & ? & -> & [->| ->])
  | |- context [subscribe ?t ?x] => destruct (subscribe_result t x) as (? & [->| ->])
  end.

Lemma listener_ok_step s e s' : listener_ok s -> step e s = Some s' -> listener_ok s'.
Proof.
  intros [Hx Hd] E. step_cases E; results; split; cbn; intuition congruence.
Qed.

Lemma new_listener_ok t n l n' : new_listener addr t n = (Ok l, n') ->
  listener_ok l /\ receiver l = AtCheck /\ shouldStop l = false /\ destroying l = false /\
  subscribing l = None.
Proof.
  unfold new_listener. intros (u & n1 & _ & H)%bind_Ok_inv. rewrite get_bind in H.
  unfold ret in H. injection H as <- _. split; [split; cbn; congruence|done].
Qed.

Lemma listener_ok_run tr s s' : listener_ok s -> run_events tr s = Some s' -> listener_ok s'.
Proof.
  intros Hs. apply (run_events_keeps step listener_ok (fun _ => true)); [|done|by induction tr].
  intros x e x' Hx _. by apply listener_ok_step.
Qed.

(** ** Messages *)

Definition in_hand (s : ZmqListener) : list (string * string) :=
  match receiver s with Handling m => [m] | _ => [] end.

(** The message that the socket has for the receiver. *)
Definition taken (s : ZmqListener) : list (string * string) :=
  match poll_message addr (zl_node s) with (Ok (Some m), _) => [m] | _ => [] end.

(** The messages that are taken from the socket in the course of the events, and those
    whose handler is run. *)
Fixpoint polled (tr : list event) (s : ZmqListener) : list (string * string) :=
  match tr with
  | [] => []
  | e :: tr' =>
      match step e s with
      | Some s' => (match e with EvPoll => taken s | _ => [] end) ++ polled tr' s'
      | None => []
      end
  end.

Fixpoint handled (tr : list event) (s : ZmqListener) : list (string * string) :=
  match tr with
  | [] => []
  | e :: tr' =>
      match step e s with
      | Some s' => (match e with EvHandle => in_hand s | _ => [] end) ++ handled tr' s'
      | None => []
      end
  end.

(** Other events leave what is in hand, unless the process is aborted. *)
Lemma in_hand_step e s s' : step e s = Some s' ->
  receiver s' = Dead \/
  in_hand s ++ (match e with EvPoll => taken s | _ => [] end) =
  (match e with EvHandle => in_hand s | _ => [] end) ++ in_hand s'.
Proof.
  intros E. assert (e = EvPoll \/ e <> EvPoll) as [->|Hpoll]
    by (destruct e; first [by left|right; discriminate]).
  { unfold step in E. destruct (receiver s) eqn:Er; try done. injection E as <-.
    unfold taken, in_hand, poll. rewrite Er.
    destruct (poll_message addr (zl_node s)) as [[[m|]|e| | |] n]; cbn; auto. }
  step_cases E; try done; results; unfold in_hand; cbn; rewrite ?Heqr; cbn; auto.
Qed.

Lemma handled_in_order tr : forall s s', run_events tr s = Some s' ->
  receiver s' <> Dead -> in_hand s ++ polled tr s = handled tr s ++ in_hand s'.
Proof.
  induction tr as [|e tr IH]; intros s s' Hrun Hd; cbn [polled handled].
  { injection Hrun as <-. by rewrite app_nil_r. }
  cbn in Hrun. destruct (step e s) as [s1|] eqn:E; [|done].
  destruct (in_hand_step e s s1 E) as [Hdead|Heq].
  - destruct tr as [|e' tr]; cbn in Hrun; [congruence|]. unfold step in Hrun.
    rewrite Hdead in Hrun. by destruct e'.
  - rewrite app_assoc, Heq, <- !app_assoc. f_equal. by apply IH.
Qed.

(** ** The end of the thread *)

(** The events by which the thread goes on, and how many are left at most when it has been
    asked to stop. *)
Definition by_receiver (e : event) : bool :=
  match e with EvCheck | EvLock | EvPoll | EvWake | EvHandle => true | _ => false end.
Definition is_handle (e : event) : bool := match e with EvHandle => true | _ => false end.

Definition moves_left (s : ZmqListener) : nat :=
  match receiver s with
  | AtLock => 4 | Polling => 3 | Sleeping | Handling _ => 2 | AtCheck => 1 | _ => 0
  end.

Definition handlers_left (s : ZmqListener) : nat :=
  match receiver s with AtLock | Polling | Handling _ => 1 | _ => 0 end.

Definition being_destroyed (s : ZmqListener) : Prop :=
  listener_ok s /\ destroying s = true.

Lemma destroyed_step s e s' : being_destroyed s -> step e s = Some s' ->
  being_destroyed s' /\
  (moves_left s' + (if by_receiver e then 1 else 0) <= moves_left s)%nat /\
  (handlers_left s' + (if is_handle e then 1 else 0) <= handlers_left s)%nat.
Proof.
  intros [Hok Hd] E. pose proof (listener_ok_step s e s' Hok E) as Hok'.
  destruct (lo_destroying s Hok Hd) as [Hs1 Hs2].
  clear Hok. split; [split; [done|]|]; clear Hok'; step_cases E; results;
    unfold moves_left, handlers_left; cbn; rewrite ?Heqr; cbn; try done; try lia; congruence.
Qed.

(** The next move of the thread. *)
Definition next_move (s : ZmqListener) : option event :=
  match receiver s with
  | AtCheck => Some EvCheck | AtLock => Some EvLock | Polling => Some EvPoll
  | Sleeping => Some EvWake | Handling _ => Some EvHandle | Left => Some EvJoined
  | Joined | Dead => None
  end.

Lemma next_move_possible s e : being_destroyed s -> next_move s = Some e -> is_Some (step e s).
Proof.
  intros [Hok Hd] He. destruct (lo_destroying s Hok Hd) as [Hs _].
  unfold next_move in He. unfold step, mutex_free.
  destruct (receiver s) eqn:Er; simplify_eq; rewrite ?Hs, ?Hd; by eexists.
Qed.

Lemma destroyed_ends k : forall s, being_destroyed s -> (moves_left s <= k)%nat ->
  exists next s', (length next <= k + 1)%nat /\ run_events next s = Some s' /\
    (receiver s' = Joined \/ receiver s' = Dead).
Proof.
  induction k as [|k IH]; intros s Hs Hk.
  - destruct (next_move s) as [e|] eqn:En.
    + unfold moves_left, next_move in *. destruct (receiver s) eqn:Er; try lia; simplify_eq.
      exists [EvJoined], (set_receiver Joined s). split_and!; [cbn; lia| |by left].
      destruct Hs as [_ Hd]. cbn. by rewrite Er, Hd.
    + exists [], s. split_and!; [cbn; lia|done|]. unfold next_move in En.
      destruct (receiver s); try done; auto.
  - destruct (next_move s) as [e|] eqn:En.
    + destruct (next_move_possible s e Hs En) as [s1 E].
      destruct (destroyed_step s e s1 Hs E) as (Hs1 & Hm & _).
      destruct (IH s1 Hs1) as (next & s' & Hlen & Hrun & Hend).
      { unfold next_move, moves_left in *. destruct (receiver s); simplify_eq; cbn in *; lia. }
      exists (e :: next), s'. split_and!; [cbn; lia| |done]. cbn. by rewrite E.
    + exists [], s. split_and!; [cbn; lia|done|]. unfold next_move in En.
      destruct (receiver s); try done; auto.
Qed.

(** ** The theorems *)

(** C29. In every interleaving, the messages are handled in the order in which they are taken
    from the socket, each of them once, and only the last one can be still in hand; and
    the socket gets free: nobody has the mutex, or a subscriber can finish with it, or the
    receiver has it for just one more event, in which it runs no handler. *)
Theorem listener_delivers (t : S) (n n' : CoreNode) (l s : ZmqListener) (tr : list event)
    (Hnew : new_listener addr t n = (Ok l, n')) (Hrun : run_events tr l = Some s)
    (Hdead : receiver s <> Dead) :
  polled tr l = handled tr l ++ in_hand s /\
  (mutex_free s = true \/
   (exists topic, subscribing s = Some topic /\ step EvSubscribed s = Some (subscribe topic s)) \/
   (receiver s = Polling /\ step EvPoll s = Some (poll s) /\
     (mutex_free (poll s) = true \/ receiver (poll s) = Dead))).
Proof.
  destruct (new_listener_ok t n l n' Hnew) as (Hok & Hat & _).
  pose proof (listener_ok_run tr l s Hok Hrun) as Hs. split.
  - rewrite <- (handled_in_order tr l s Hrun Hdead). unfold in_hand. by rewrite Hat.
  - unfold mutex_free. destruct (subscribing s) as [topic|] eqn:Esub.
    + right; left. exists topic. split; [done|]. unfold step. by destruct (receiver s); rewrite ?Esub.
    + destruct (receiver s) eqn:Er; try (by left). right; right.
      split_and!; [done|unfold step; by rewrite Er|].
      destruct (poll_result s) as (n1 & r & -> & [->|[[m ->]| ->]]); cbn; rewrite Esub; auto.
Qed.

(** The destructor of the listener ends: once it has asked the thread to stop, the thread
    handles at most one more message and makes at most four moves, whatever else
    happens; at any moment those that are left are possible, after which the thread is
    joined, unless one of them aborts the process. *)
Theorem listener_stops (t : S) (n n' : CoreNode) (l s s1 s2 : ZmqListener) (tr0 tr : list event)
    (Hnew : new_listener addr t n = (Ok l, n')) (Hrun0 : run_events tr0 l = Some s)
    (Hstop : step EvDestroy s = Some s1) (Hrun : run_events tr s1 = Some s2) :
  (count is_handle tr <= 1)%nat /\ (count by_receiver tr <= 4)%nat /\
  exists next s3, (length next <= 5)%nat /\ run_events next s2 = Some s3 /\
    (receiver s3 = Joined \/ receiver s3 = Dead).
Proof.
  destruct (new_listener_ok t n l n' Hnew) as (Hok & _).
  pose proof (listener_ok_run tr0 l s Hok Hrun0) as Hs.
  assert (Hd : being_destroyed s1).
  { split; [by apply (listener_ok_step s EvDestroy)|]. unfold step in Hstop.
    destruct (receiver s), (subscribing s), (destroying s); by simplify_eq. }
  assert (Hall : forallb (fun _ => true) tr = true) by (clear; by induction tr).
  destruct (run_events_measure step being_destroyed moves_left (fun _ => true) by_receiver
    (fun x e x' Hx _ E => let '(conj A (conj B _)) := destroyed_step x e x' Hx E in conj A B)
    tr s1 s2 Hd Hall Hrun) as [Hd2 Hm].
  destruct (run_events_measure step being_destroyed handlers_left (fun _ => true) is_handle
    (fun x e x' Hx _ E => let '(conj A (conj _ B)) := destroyed_step x e x' Hx E in conj A B)
    tr s1 s2 Hd Hall Hrun) as [_ Hh].
  assert (moves_left s1 <= 4 /\ moves_left s2 <= 4 /\ handlers_left s1 <= 1)%nat as (? & ? & ?).
  { unfold moves_left, handlers_left. destruct (receiver s1), (receiver s2); lia. }
  split_and!; [lia|lia|]. by apply (destroyed_ends 4 s2).
Qed.
End Listener.
#[global] Arguments ZmqListener {_ _} S.
#[global] Arguments event {_ _} S.

(** ** An example

    A node with a block and a transaction in the queue of the socket, and a parent that
    counts the calls. *)
Module ListenerSample.
Import Model ReaderModel CoreSample.

#[local] Instance queue_node : CoreClient := {|
  CoreNode := list (list string);
  core_getnetworkinfo := ret JNull;
  core_getblockchaininfo := ret JNull;
  core_getzmqnotifications := ret JNull;
  core_getblockhash _ := ret ""%string;
  core_getblock _ _ := ret JNull;
  core_getblockheader _ := ret JNull;
  core_decoderawtransaction _ := ret raw_tx;
  core_verifymessage _ _ _ := ret JNull;
  core_getrawmempool := ret JNull;
  zmq_connect _ := ret tt;
  zmq_subscribe _ _ := ret tt;
  zmq_receive _ := fun q => match q with [] => (Ok [], []) | m :: q' => (Ok m, q') end
|}.

Definition messages : @CoreNode _ queue_node :=
  [["hashblock"; "hash"; "0000"]; ["rawtx"; "tx"; "0000"]]%string.

Definition calls : option (Callbacks (list string)) := Some {|
  cb_TipChanged tip := modify (fun l => l ++ [tip]);
  cb_PendingMoves mvs := modify (fun l => l ++ map mv_name mvs)
|}.

(** The listener on these messages, subscribed to both topics, while it goes on. *)
Definition turns : list (event (CC:=queue_node) (list string)) :=
  [EvSubscribe "hashblock"; EvCheck; EvSubscribed; EvLock; EvPoll; EvSubscribe "rawtx"; EvHandle;
   EvCheck; EvSubscribed; EvLock; EvPoll].

Definition started : ZmqListener (CC:=queue_node) (list string) := {|
  zl_node := messages; zl_parent := []; receiver := AtCheck; subscribing := None;
  shouldStop := false; destroying := false
|}.

Definition after_turns : ZmqListener (CC:=queue_node) (list string) := {|
  zl_node := []; zl_parent := ["hash"%string]; receiver := Handling ("rawtx", "tx")%string;
  subscribing := None; shouldStop := false; destroying := false
|}.

Lemma turns_run : Events.run_events (step calls "addr") turns started = Some after_turns.
Proof. reflexivity. Qed.

Lemma listener_delivers_witness :
  polled calls "addr" turns started =
    handled calls "addr" turns started ++ [("rawtx", "tx")]%string.
Proof.
  exact (proj1 (listener_delivers calls "addr" [] messages messages started after_turns turns
    eq_refl turns_run ltac:(discriminate))).
Defined.

Lemma listener_stops_witness : exists s1 s2,
  step calls "addr" EvDestroy after_turns = Some s1 /\
  Events.run_events (step calls "addr") [EvHandle; EvCheck] s1 = Some s2 /\
  zl_parent s2 = ["hash"; "domob"]%string /\
  exists next s3, (length next <= 5)%nat /\
    Events.run_events (step calls "addr") next s2 = Some s3 /\
    (receiver s3 = Joined \/ receiver s3 = Dead).
Proof.
  eexists _, _. split; [reflexivity|]. split; [reflexivity|]. split; [reflexivity|].
  exact (proj2 (proj2 (listener_stops calls "addr" [] messages messages started after_turns _ _
    turns [EvHandle; EvCheck] eq_refl turns_run eq_refl eq_refl))).
Defined.
End ListenerSample.
