(* ===== verification/System.v ===== *)
(** * The program as a whole

    The layers on top of each other: a blockchain node, its connector, the block cache
    with MySQL behind it, the sync worker, and the controller that publishes what the
    worker reports. *)

From S2P Require Import Prelude Json JsonRead BlockData Chainstate ChainTree ChainSanity BaseChain BlockCache MySql TipUpdate Sync SyncProofs ZmqPub Publisher Pending RunData RunProofs ControllerProps ZmqProofs CoreChain CoreProps EthUtils EthPending EthChain EthProps Typed.

(** ** From hashes to blocks

    A node's chain as hashes, and how the data of its blocks are parsed. *)

Section Hashes.
Context {J : JsonCpp} {C : BlockCodec} {U : Universe}.
Context (parse : string -> result BlockData) (v : HashView).

Definition chain_of (i : Z) : option BlockData :=
  h ← hv_hash v i; match parse h with Ok b => Some b | _ => None end.

(** A block is what its hash says: [genuine] but for the types of its data. *)
Definition committed (b : BlockData) : Prop :=
  block_ok b /\
  blk_parent b = par (blk_hash b) /\
  blk_height b = hgt (blk_hash b) /\
  hgt (blk_parent b) = blk_height b - 1 /\
  0 <= blk_height b <= i64_max.

(** The blocks are what their hashes say, which are not empty. *)
Definition hashes_committed : Prop := forall i h b,
  hv_hash v i = Some h -> parse h = Ok b -> committed b /\ h <> EmptyString.

(** The blocks have the hashes and the heights, and are linked. *)
Definition hashes_linked : Prop := forall i h b,
  hv_hash v i = Some h -> parse h = Ok b ->
  blk_hash b = h /\ blk_height b = i /\ (0 < i -> hv_hash v (i - 1) = Some (blk_parent b)).

Lemma chain_of_inv i b : chain_of i = Some b -> exists h, hv_hash v i = Some h /\ parse h = Ok b.
Proof.
  unfold chain_of. destruct (hv_hash v i) as [h|]; [|done]. cbn. intros H. exists h.
  split; [done|]. destruct (parse h); by simplify_eq.
Qed.

Lemma chain_of_good : 0 <= hv_tip v < i64_max ->
  (forall i, is_Some (hv_hash v i) <-> 0 <= i <= hv_tip v) ->
  (forall i h, hv_hash v i = Some h -> exists b, parse h = Ok b) ->
  (forall h b, parse h = Ok b -> block_typed b) ->
  hashes_committed -> hashes_linked -> good_chain (hv_tip v) chain_of.
Proof.
  intros Ht Hh Hp Hty Hc Hl.
  assert (Hg : forall i h b, hv_hash v i = Some h -> parse h = Ok b -> genuine b /\ h <> EmptyString).
  { intros i h b Hi Hb. destruct (Hc i h b Hi Hb) as [[Hok Hrest] Hh0].
    split; [split; [split; [done|by apply (Hty h)]|done]|done]. }
  split.
  - done.
  - intros i [h Hi]%Hh. destruct (Hp _ _ Hi) as [b Hb]. exists b. unfold chain_of.
    rewrite Hi. cbn. by rewrite Hb.
  - intros i Hi. unfold chain_of. destruct (hv_hash v i) eqn:E; [|done].
    pose proof (proj1 (Hh i) (ex_intro _ _ E)). lia.
  - intros i b (h & Hi & Hb)%chain_of_inv. split; [by apply (Hg i h)|by apply (Hl i h)].
  - intros i b (h & Hi & Hb)%chain_of_inv. destruct (Hl i h b Hi Hb) as [-> _]. by apply (Hg i h b).
  - intros i b b' (h & Hi & Hb)%chain_of_inv (h' & Hi' & Hb')%chain_of_inv.
    destruct (Hl i h b Hi Hb) as (-> & _ & _). destruct (Hl _ h' b' Hi' Hb') as (_ & _ & Hpar).
    pose proof (proj1 (Hh i) (ex_intro _ _ Hi)). replace (i + 1 - 1) with i in Hpar by lia.
    rewrite Hpar in Hi by lia. congruence.
Qed.
End Hashes.

Section Core.
Context {J : JsonCpp} {JL : JsonCppLaws J} {JR : JsonReader} {JRL : JsonReaderLaws JR} {EN : Encodings}
  {CC : CoreClient} {CL : CoreLaws CC} {C : BlockCodec} {U : Universe}.

Definition core_parse (h : string) : result BlockData := ConstructBlockData (core_json h).

Lemma core_good_chain R v n : core_still R v -> R n -> hashes_committed core_parse v ->
  good_chain (hv_tip v) (core_at v).
Proof.
  intros HR Hn Hg. assert (Hv : core_view n = v) by by apply (cs_view _ _ HR).
  apply (chain_of_good core_parse v); [| | | |done|].
  - pose proof (core_tip n). rewrite Hv in *. unfold i64_max. lia.
  - rewrite <- Hv. apply core_heights.
  - apply (cs_parse _ _ HR).
  - intros h b. apply ConstructBlockData_typed.
  - intros i h b. rewrite <- Hv. apply ConstructBlockData_inv.
Qed.
End Core.

Section Eth.
Context {J : JsonCpp} {JL : JsonCppLaws J} {JR : JsonReader} {JRL : JsonReaderLaws JR} {EN : Encodings} {EU : EthUtils}
  {CO : ContractConstants} {EC : EthClient} (contract : string) (depth : Z)
  {EL : EthLaws EC contract depth} {C : BlockCodec} {U : Universe}.

(** Moves do not change a block otherwise. *)
Lemma process_logs_block logs : forall e e', process_logs contract logs e = Ok e' ->
  blk_hash (bme_blk e') = blk_hash (bme_blk e) /\
  blk_parent (bme_blk e') = blk_parent (bme_blk e) /\
  blk_height (bme_blk e') = blk_height (bme_blk e).
Proof.
  induction logs as [|l logs IH]; intros e e'; cbn [process_logs]; [by intros [= <-]|].
  intros (e1 & H1 & H)%rbind_inv. destruct (IH _ _ H) as (-> & -> & ->).
  unfold ProcessLogEntry in H1. apply rbind_inv in H1 as (u & _ & (a & _ & H1)%rbind_inv).
  destruct (parse_address a); [|done].
  repeat (apply rbind_inv in H1 as (? & _ & H1)). by injection H1 as <-.
Qed.

Definition eth_parse (h : string) : result BlockData := block_of contract depth h.

Lemma eth_good_chain R v n : eth_still contract depth R v -> R n -> hashes_committed eth_parse v ->
  good_chain (hv_tip v) (eth_at contract depth v).
Proof.
  intros HR Hn Hg. assert (Hv : eth_view n = v) by by apply (still_view _ _ R v HR).
  apply (chain_of_good eth_parse v); [| | | |done|].
  - pose proof (eth_tip n). rewrite Hv in *. unfold i64_max. lia.
  - rewrite <- Hv. apply eth_heights.
  - apply (es_parse _ _ _ _ HR).
  - intros h b (base & Hb & (e & He & [= <-])%rbind_inv)%rbind_inv.
    refine (process_logs_typed contract _ (new_block_extractor base) e _ He).
    exact (ExtractBaseData_typed _ _ Hb).
  - intros i h b Hi. rewrite <- Hv. unfold eth_parse, block_of.
    intros (base & Hb & (e & He & [= <-])%rbind_inv)%rbind_inv.
    destruct (process_logs_block _ _ _ He) as (-> & -> & ->).
    apply (ExtractBaseData_inv contract depth); [by rewrite Hv|done].
Qed.
End Eth.

(** ** The stack *)

Section Stack.
Context {J : JsonCpp} {C : BlockCodec} {CoL : BlockCodecLaws C} {U : Universe}
  {B P : Type} {BC : BaseChain B} {PB : Publisher P} {PL : PublisherLaws PB}
  {MP : Mypp} {ML : MyppLaws MP}.
Context (table : string) (minDepth : Z).

#[export] Instance cached_base : BaseChain (BlockCacheChain B MySqlBlockStorage) :=
  BlockCacheChain_BaseChain minDepth.

(** The base chain is in a state with [R]; the storage is connected, and whatever it has
    are blocks of the chain [ch]. *)
Definition stack_ok (R : B -> Prop) (ch : Z -> option BlockData)
    (c : BlockCacheChain B MySqlBlockStorage) : Prop :=
  still_ok (SL:=MySql_Laws table) R ch c.

Lemma cached_Serves R T ch : my_answers -> Serves BC R T ch -> good_chain T ch ->
  Serves cached_base (stack_ok R ch) T ch.
Proof.
  intros HA HS GC. apply still_Serves; [done|..].
  - intros h b Hb. by apply (gc_genuine _ _ GC).
  - intros h b Hb. destruct (gc_genuine _ _ GC h b Hb) as [([? _] & _ & _ & _ & ?) _]. by split.
  - intros t l. by apply mysql_Store_answers.
  - intros t a n. by apply mysql_GetRange_answers.
Qed.

(** An empty table, and an empty chainstate. *)
Lemma stack_ok_empty (R : B -> Prop) (ch : Z -> option BlockData)
    (c : BlockCacheChain B MySqlBlockStorage) :
  R (bcc_base c) -> impl (bcc_store c) = Some table ->
  my_rows (my_db (bcc_store c)) table = ∅ -> stack_ok R ch c.
Proof.
  intros HR Hi Hrows. split; [done|]. split; [split; [done|]|].
  - intros h data. by rewrite Hrows, lookup_empty.
  - intros h b (data & Hd & _). by rewrite Hrows, lookup_empty in Hd.
Qed.

Definition cold_start (range : Z) (R : B -> Prop)
    (s : Sync (BlockCacheChain B MySqlBlockStorage) (PendingManager P)) : Prop :=
  R (bcc_base (sy_base s)) /\ impl (bcc_store (sy_base s)) = Some table /\
  my_rows (my_db (bcc_store (sy_base s))) table = ∅ /\ pm_inv (sy_rest s) /\
  blocks (sy_chain s) = ∅ /\ 1 <= numBlocks s <= range /\ nextStartHeight s = -1.

Lemma cold_start_good range R T ch s : cold_start range R s ->
  good range (stack_ok R ch) ch pm_inv s 0 /\ distance T ch s (T + 1).
Proof.
  intros (HR & Hi & Hrows & Hp & Hb & Hn & Hnext). split; [|by left].
  assert (Hlow : forall h r, is_low (blocks (sy_chain s)) h r -> False).
  { intros h r (Hr & _). by rewrite Hb, lookup_empty in Hr. }
  split.
  - by apply stack_ok_empty.
  - done.
  - rewrite Hb. apply Inv_empty.
  - intros h r Hl. by destruct (Hlow h r).
  - intros h r. by rewrite Hb, lookup_empty.
  - done.
  - by left.
Qed.

(** The tip of the chain, after a number of turns of the worker with the controller's
    callback; and without a wait before, if sending pending moves does not fail. *)
Definition converges (sanity : bool) (pruningDepth range : Z) (fuel : nat) (T : Z)
    (ch : Z -> option BlockData)
    (s : Sync (BlockCacheChain B MySqlBlockStorage) (PendingManager P)) : Prop :=
  let cb := Some (TipUpdatedFrom sanity pruningDepth) in
  (exists s', run_turns pruningDepth range cb fuel s = (Ok tt, s') /\
     synced T ch s' /\ SanityCheck (sy_chain s') = (Ok tt, sy_chain s')) /\
  (pending_reliable -> exists s', run_loop pruningDepth range cb fuel s = (Ok tt, s') /\
     synced T ch s' /\ SanityCheck (sy_chain s') = (Ok tt, sy_chain s')).

Lemma cold_start_converges (sanity : bool) (pruningDepth range : Z) R T ch s (fuel : nat) :
  my_answers -> Serves BC R T ch -> good_chain T ch ->
  0 <= pruningDepth < i32_max -> 1 <= range < 2 ^ 31 ->
  cold_start range R s -> T + 1 < Z.of_nat fuel < 2 ^ 30 ->
  converges sanity pruningDepth range fuel T ch s.
Proof.
  intros HA HS GC Hdepth Hrange Hs Hfuel. pose proof (cached_Serves R T ch HA HS GC) as HS'.
  destruct (cold_start_good range R T ch s Hs) as [Hg Hd].
  apply (controller_converges sanity pruningDepth range (stack_ok R ch) T ch s 1 (T + 1)); try done; try lia.
  - eapply good_mono; [exact Hg|lia].
  - unfold step_budget, max_blocks, i64_max. nia.
Qed.
End Stack.

(** ** The theorems *)

Section CoreNode.
Context {J : JsonCpp} {JL : JsonCppLaws J} {JR : JsonReader} {JRL : JsonReaderLaws JR} {EN : Encodings}
  {CC : CoreClient} {CL : CoreLaws CC} {C : BlockCodec} {CoL : BlockCodecLaws C} {U : Universe}
  {P : Type} {PB : Publisher P} {PL : PublisherLaws PB} {MP : Mypp} {ML : MyppLaws MP}.
Context (cfuel : nat) (minDepth : Z).

#[local] Instance node_chain : BaseChain CoreChain := core_chain cfuel.
#[local] Instance node_stack : BaseChain (BlockCacheChain CoreChain MySqlBlockStorage) :=
  cached_base minDepth.

(** C16. Everything together, with a Xaya Core node whose chain stands still: started with an
    empty database and an empty MySQL table, the sync worker has the tip of the node's chain as
    the tip of the database, which is sane, after at most one turn per block of that chain plus
    two, and stays there, with no aborted check on the way; every update prunes.  Executions of
    statements and queries on the table may fail (the statements can be prepared: otherwise the
    code aborts), and so may every notification; while sending pending moves does not fail, the
    worker does not wait before it is at the tip. *)
Theorem core_node_syncs (table : string) (sanity : bool)
    (pruningDepth range : Z) (R : CoreNode -> Prop) (v : HashView) (fuel : nat)
    (s : Sync (BlockCacheChain CoreChain MySqlBlockStorage) (PendingManager P))
    (HR : core_still R v) (Hgen : hashes_committed core_parse v) (Hcfuel : hv_tip v < Z.of_nat cfuel)
    (HA : my_answers)
    (Hdepth : 0 <= pruningDepth < i32_max) (Hrange : 1 <= range < 2 ^ 31)
    (Hs : cold_start table range (fun c => R (cc_node c)) s)
    (Hfuel : hv_tip v + 1 < Z.of_nat fuel < 2 ^ 30) :
  converges minDepth sanity pruningDepth range fuel (hv_tip v) (core_at v) s.
Proof.
  pose proof Hs as (Hn & _).
  pose proof (core_good_chain R v _ HR Hn Hgen) as GC.
  apply (cold_start_converges table minDepth sanity pruningDepth range
    (fun c => R (cc_node c))); try done. by apply core_Serves.
Qed.
End CoreNode.

Section EthNode.
Context {J : JsonCpp} {JL : JsonCppLaws J} {JR : JsonReader} {JRL : JsonReaderLaws JR} {EN : Encodings} {EU : EthUtils}
  {CO : ContractConstants} {EC : EthClient} {C : BlockCodec} {CoL : BlockCodecLaws C} {U : Universe}
  {P : Type} {PB : Publisher P} {PL : PublisherLaws PB} {MP : Mypp} {ML : MyppLaws MP}.
Context (depth : Z) (efuel : nat) (minDepth : Z).

#[local] Instance eth_node_chain : BaseChain EthChain := eth_chain depth efuel.
#[local] Instance eth_node_stack : BaseChain (BlockCacheChain EthChain MySqlBlockStorage) :=
  cached_base minDepth.

(** C17. The same with the node of an EVM chain: from an empty database and an empty table the
    sync worker gets to the tip of the node's chain within one turn per block plus two, and
    stays there, whatever executions of statements, queries and notifications fail. *)
Theorem eth_node_syncs (table contract : string) {EL : EthLaws EC contract depth} (sanity : bool)
    (pruningDepth range : Z) (R : EthUtils.EthNode -> Prop) (v : HashView) (fuel : nat)
    (s : Sync (BlockCacheChain EthChain MySqlBlockStorage) (PendingManager P))
    (HR : eth_still contract depth R v) (Hgen : hashes_committed (eth_parse contract depth) v)
    (Hefuel : (0 < efuel)%nat) (HA : my_answers)
    (Hdepth : 0 <= pruningDepth < i32_max) (Hrange : 1 <= range < 2 ^ 31)
    (Hs : cold_start table range (fun c => R (ec_node c) /\ accountsContract c = contract) s)
    (Hfuel : hv_tip v + 1 < Z.of_nat fuel < 2 ^ 30) :
  converges minDepth sanity pruningDepth range fuel (hv_tip v) (eth_at contract depth v) s.
Proof.
  pose proof Hs as ([Hn _] & _).
  pose proof (eth_good_chain contract depth R v _ HR Hn Hgen) as GC.
  apply (cold_start_converges table minDepth sanity pruningDepth range
    (fun c => R (ec_node c) /\ accountsContract c = contract)); try done. by apply eth_Serves.
Qed.
End EthNode.
