(* ===== verification/SystemSample.v ===== *)
(** * Examples for the program as a whole

    The nodes of the examples for the connectors, from the moment on at which their
    chains stand still, with a server on which the second statement fails, and with the
    publisher of the program, whose socket is patient or refuses messages. *)

From S2P Require Import Prelude Json JsonRead BlockData Chainstate ChainTree BaseChain BlockCache MySql Sync SyncProofs ZmqPub ZmqProofs ZmqProps Publisher Pending RunData CoreChain CoreProps EthUtils EthChain EthProps EthSample System.
Import Model ReaderModel BitsProto ZmqSample PendingSample MySqlServer MySqlSample CoreSample.

#[local] Existing Instance patient_socket_laws.

Lemma publisher_reliable : pending_reliable (PB:=zmq_publisher).
Proof. apply zmq_pending_reliable. intros []. Qed.

#[local] Instance headers_universe : Universe := {|
  par h := match list_find (fun x => x.1 = h) headers with
           | Some (_, (_, (_, parent))) => parent | None => ""%string end;
  hgt h := match list_find (fun x => x.1 = h) headers with
           | Some (_, (_, (height, _))) => height | None => -1 end
|}.

Lemma sample_committed (b : BlockData) : 0 <= blk_height b <= i64_max ->
  blk_parent b = par (blk_hash b) -> blk_height b = hgt (blk_hash b) ->
  hgt (blk_parent b) = blk_height b - 1 -> committed b.
Proof.
  intros Hh Hp Hb Hl. split_and!; try done; try lia. apply valid_block.
  unfold i64_max, u64_modulus in *. lia.
Qed.

(** A publisher whose socket refuses every other message at first. *)
Definition busy : ZmqPub := {|
  zp_sock := {| parts := []; log := [];
                schedule := [false; true; false; true; false; true; false; true; false] |};
  nextSeq := ∅; games := {[ "tn"%string := 1 ]}
|}.

Lemma busy_ok : pub_ok (ZL:=log_socket_laws) busy.
Proof.
  split; cbn; [done| | | |constructor].
  - intros cmd. by rewrite lookup_empty.
  - done.
  - apply (bool_decide_unpack _). vm_compute. exact I.
Qed.

(** An empty database, and an empty table. *)
Definition cold {B} (p : ZmqPub) (b : B)
  : Sync (BlockCacheChain B MySqlBlockStorage) (PendingManager ZmqPub) := {|
  sy_base := {| bcc_base := b; bcc_store := connected; lastTipHeight := 0 |};
  sy_chain := {| blocks := ∅; variables := ∅; savepoints := [] |};
  sy_rest := pm_start p;
  numBlocks := 1; nextStartHeight := -1
|}.

Lemma cold_cold {B} (ZL : ZmqLaws log_socket) (R : B -> Prop) p b : pub_ok p -> R b ->
  cold_start (PL:=zmq_publisher_laws (ZL:=ZL)) "blocks" 4 R (cold p b).
Proof.
  intros Hp Hb. by split_and!.
Qed.

#[local] Instance core_stack : BaseChain (BlockCacheChain CoreChain MySqlBlockStorage) :=
  node_stack (CC:=switching_node) (MP:=flaky_server) 6 10.

Lemma core_committed : hashes_committed core_parse (view_at 2).
Proof.
  intros i h b Hi. revert b.
  apply (view_check (fun _ i h => forall b, core_parse h = Ok b -> committed b /\ h <> ""%string) 2 i h);
    [|exact Hi].
  every_block ltac:(intros b [= <-]; split; [apply sample_committed; done|done]).
Qed.

(** With the busy publisher; and with the patient one, without a wait. *)
Lemma core_node_syncs_witness :
  (exists s', run_turns 3 4 (Some (TipUpdatedFrom true 3)) 10
      (cold busy {| cc_node := moment 2; listeners := ∅ |}) = (Ok tt, s') /\
    synced 4 (core_at (view_at 2)) s') /\
  (exists s', run_loop 3 4 (Some (TipUpdatedFrom true 3)) 10
      (cold publisher {| cc_node := moment 2; listeners := ∅ |}) = (Ok tt, s') /\
    synced 4 (core_at (view_at 2)) s').
Proof.
  split.
  - destruct (core_node_syncs (CC:=switching_node) (MP:=flaky_server) (PL:=zmq_publisher_laws (ZL:=log_socket_laws))
      6 10 "blocks" true 3 4 (fun n : nat => 2 <= n)%nat (view_at 2) 10
      (cold busy {| cc_node := moment 2; listeners := ∅ |})) as [(s' & Hrun & Hs & _) _].
    + exact still_third.
    + exact core_committed.
    + cbn. lia.
    + apply server_answers.
    + done.
    + lia.
    + apply cold_cold; [exact busy_ok|exact (le_n 2%nat)].
    + cbn. lia.
    + exact (ex_intro _ s' (conj Hrun Hs)).
  - destruct (core_node_syncs (CC:=switching_node) (MP:=flaky_server) (PL:=zmq_publisher_laws (ZL:=patient_socket_laws))
      6 10 "blocks" true 3 4 (fun n : nat => 2 <= n)%nat (view_at 2) 10
      (cold publisher {| cc_node := moment 2; listeners := ∅ |})) as [_ Hloop].
    + exact still_third.
    + exact core_committed.
    + cbn. lia.
    + apply server_answers.
    + done.
    + lia.
    + apply cold_cold; [exact publisher_ok|exact (le_n 2%nat)].
    + cbn. lia.
    + destruct (Hloop publisher_reliable) as (s' & Hrun & Hs & _).
      exact (ex_intro _ s' (conj Hrun Hs)).
Defined.

Import EthSample.

#[local] Instance eth_stack : BaseChain (BlockCacheChain EthChain MySqlBlockStorage) :=
  eth_node_stack (EC:=eth_node) (MP:=flaky_server) 2 1 10.

Lemma eth_committed : hashes_committed (eth_parse "0xcontract" 2) (view_at 2).
Proof.
  intros i h b Hi. revert b.
  apply (view_check (fun _ i h => forall b, eth_parse "0xcontract" 2 h = Ok b ->
    committed b /\ h <> ""%string) 2 i h); [|exact Hi].
  every_block ltac:(intros b [= <-]; split; [apply sample_committed; done|done]).
Qed.

Lemma eth_node_syncs_witness :
  exists s', run_turns 3 4 (Some (TipUpdatedFrom true 3)) 10
      (cold busy {| ec_node := eth_moment 2; accountsContract := "0xcontract"; chainId := 137;
                    pending := None; mempool := ∅; sub := false |}) = (Ok tt, s') /\
    synced 4 (eth_at "0xcontract" 2 (view_at 2)) s'.
Proof.
  destruct (eth_node_syncs (EC:=eth_node) (MP:=flaky_server)
    (PL:=zmq_publisher_laws (ZL:=log_socket_laws)) 2 1 10 "blocks" "0xcontract" true 3 4
    (fun n : nat => 2 <= n)%nat (view_at 2) 10
    (cold busy {| ec_node := eth_moment 2; accountsContract := "0xcontract"; chainId := 137;
                  pending := None; mempool := ∅; sub := false |})) as [(s' & Hrun & Hs & _) _].
  - exact eth_still_third.
  - exact eth_committed.
  - lia.
  - apply server_answers.
  - done.
  - lia.
  - apply cold_cold; [exact busy_ok|]. split; [exact (le_n 2%nat)|reflexivity].
  - cbn. lia.
  - exact (ex_intro _ s' (conj Hrun Hs)).
Defined.
